(* ===== verification/_CoqProject ===== *)
-Q . S2P
Prelude.v
Errors.v
Schema.v
Retry.v
Serialization.v
Workflows.v
Introspection.v
Context.v
Steps.v
Events.v
Forks.v
Messages.v
Queues.v
Process.v
QueueSettings.v
Execution.v
Durability.v
Recovery.v
Transactions.v
Collection.v
Streams.v
Exports.v
Schedules.v
Workers.v
Lives.v
Scopes.v
System.v
Calls.v
Operations.v
Debouncing.v
DebounceReplay.v
Client.v
Datasources.v
DecoratedSchedules.v
