(* ===== verification/Prelude.v ===== *)
(** * A verification of DBOS Transact: durable workflows on a database

    ** The program

    DBOS Transact ([src/dbos]) runs functions of an application as durable workflows. All
    it knows of a workflow is in the system database: a row of [workflow_status], a
    checkpoint for every step that has ended ([operation_outputs]), the messages, events and
    stream entries of the workflow, and the queues. [SystemDatabase] ([_sys_db.py]) are the
    operations on it, each a transaction or a few; [_core.py] runs workflows, steps and
    transactions by them; [_recovery.py] executes again what a lost process left behind;
    [_queue.py] hands enqueued workflows to workers; [_app_db.py] and [_datasource.py] record
    transactions in the application's own databases; [_context.py] gives each thread its place in a
    workflow.

    ** The files

    - [Prelude]: results, the state and exception monad, record updates, tables and their
      statements ([sql_select], [sql_update], [sql_upsert], ...), [moves], the level-by-level
      search, and their lemmas and hints.
    - [Errors]: the exceptions of [_error.py], with the ones of Python and SQLAlchemy that
      are raised or caught.
    - [Schema]: the tables of [_schemas/system_database.py], transactions, constraints.
    - [Retry]: [db_retry], [PollingLimiter], the tests for retriable errors ([_utils.py]).
    - [Serialization]: [_serialization.py].
    - [Workflows]: the operations on [workflow_status] but for queues and forks: submission,
      outcome, cancellation, resumption, delays, debouncing, results.
    - [Introspection]: the listings of workflows and of their steps, aggregates, metrics.
    - [Context]: [DBOSContext] of [_context.py].
    - [Steps]: the operations on checkpoints, and the steps made of them.
    - [Events]: [ThreadSafeEventDict], the waits, the poller of notifications.
    - [Forks]: [fork_workflow], [fork_from_failure], the fork forest.
    - [Messages]: [send] and [recv].
    - [Queues]: [Queue] of [_queue.py], the dispatch and the configuration of queues.
    - [Process]: calls of a process that may crash, or that others act beside, [Immediate] of
      [_outcome.py].
    - [QueueSettings]: the getters and setters of a stored [Queue] ([_queue.py]), and other
      processes that set it at the same time.
    - [Execution]: steps with retries, roles, the run, the submission and the recovery of
      workflows ([_core.py], [_roles.py], [_recovery.py]).
    - [Durability], [Recovery]: what an operation promises to the workflow that calls it,
      and crashes and recoveries of a whole workflow.
    - [Transactions]: [_app_db.py] and the transactions of [_core.py].
    - [Collection]: garbage collection of both databases ([_workflow_commands.py]).
    - [Streams]: events ([set_event], [get_event]) and streams, the reader
      [DBOS.read_stream].
    - [Exports]: [export_workflow] and [import_workflow].
    - [Schedules]: the rows of schedules and of application versions, and the scheduler
      ([_scheduler.py]): backfills, triggers, threads, the loop that starts them.
    - [Workers]: the queue manager and the workers of queues ([queue_thread] and
      [queue_worker_thread] of [_queue.py]).
    - [Lives]: a queued workflow through processes that recover it, take it from its queue, run
      it and are lost.
    - [Scopes]: the context managers of [_context.py], over the context of a thread.
    - [System]: all the operations together, over histories of calls.
    - [Calls]: a workflow called directly or started, from a workflow or outside one, and the
      handle it answers with ([execute_workflow_wrapper], [start_workflow], [invoke_wf]).
    - [Operations]: the database operations that a workflow calls as steps, and a workflow that
      crashes among them and is recovered.
    - [Debouncing]: [Debouncer] of [_debouncer.py]; [DebounceReplay]: its call in a workflow
      that is recovered while other processes go on.
    - [Client]: [DBOSClient] of [_client.py] and [DebouncerClient], with what the processes of
      the application make of a workflow that a client enqueues.
    - [DecoratedSchedules]: the threads of functions decorated with a schedule
      ([_scheduler_decorator.py]).
    - [Datasources]: [_datasource.py], functions of a workflow that run as transactions of a
      database of the application's.

    Definitions carry the names of the source where Rocq allows it; a method of [DBOS] or
    [DBOSClient] whose name an operation below it has is [DBOS_name] or [DBOSClient_name]. The interfaces between
    the parts are classes: [Codecs] and [CodecLaws] (json, pickle), [Host] and [AppHost] (the
    clocks and the rest of the world), [Durable] (a step or transaction, for the workflow
    that calls it), [Collectable] (a store, for the batches of a garbage collection),
    [ChildTable] (a table of rows that belong to workflows, for exports), [Cron] and [CronLaws]
    (the cron library with its time zones), [Setting] and [SettingLaws] (the part of a context
    that a block sets and puts back), [Replays] and [Atomic] (an operation, for the workflow that
    calls it again), [Repeatable] (a statement that may run twice), [Blind] (a process that does
    not look at what runs).

    ** How the code is modelled

    - A Python call is a computation of the monad [SM], on the database, a connection or a
      process, that returns or raises ([res]). A mutable object is a record that the calls
      that change it return anew.
    - [with self.engine.begin()] is [engine_begin]: one transaction on one snapshot, which an
      exception rolls back. What others commit meanwhile is an argument where the code deals
      with it: what they do after each action of a call ([among]), the rows locked by others ([locked] of the dispatch), the races for an
      offset of a stream, what other threads do during a wait ([env]), the database at every
      read of a poll ([world]); for the workers, what a wait makes of
      the machine, the rows locked and the errors of the database, as functions of the machine
      ([wait], [locked], [outage]).
    - Clocks, generated IDs and the executor's ID are arguments, one for each call of the
      source. Milliseconds and counters are unbounded integers, as Python's are; floats of
      values and of retry intervals are rationals.
    - A statement without [ORDER BY] yields its rows in the order of the table's map; the
      proofs use no particular order.
    - Postgres is the dialect, with SQLite's exceptions beside; LISTEN and NOTIFY are no more
      than an early end of a wait.
    - A user's workflow function is a tree of the operations it calls; a step or a
      transaction is what it does to the world. A crash keeps what was done up to it and
      loses the process.
    - json, pickle, an application's serializer, argument validators and the receivers of
      log lines are parameters with the laws their documentation states; every theorem
      that assumes such laws has a witness with concrete instances.

    ** Bounds and fuel

    - The searches over children and forks take as much fuel as there are workflows, or
      edges, and end with all descendants ([get_workflow_children_reachable],
      [send_bulk_delivers]).
    - [db_retry] gets one more attempt than there are faults, which is enough for every
      operation that is safe to retry ([db_retry_safe]).
    - [wait_loop] needs the wait over its interval and one more; [await_workflow_result] as
      many polls as the workflow takes to end; a call that outlives its bound is [Waits]
      or [None], never a result.
    - A garbage collection in batches ends with more fuel than rows
      ([garbage_collect_batched], [garbage_collect_keeps]); the search for the descendants to
      export always ends ([export_import_round_trip]); [stream_reader] with the entries to come and the reads
      until the workflow is over ([stream_reader_complete]).
    - A backfill takes one more than the milliseconds of its interval, for the times of its
      executions increase ([backfill_complete]).
    - [worker_rounds] counts the iterations of a worker, whose loop has no end but the
      process's; one iteration is enough for a workflow that has its turn
      ([queued_workflow_runs]).
      [decorator_loop] counts the executions of a decorated schedule in the same way.
    - [debounce_loop] has as fuel the turns of the loop of a debouncer, which goes round again
      only when another process took away what it found; one turn is enough without that
      ([debounces_coalesce]). [client_debounce_loop] has a list of turns, and ends within it
      unless each of them was lost so ([client_debounce_joins]).
    - The loops of a datasource transaction have as fuel their attempts; more of them than there
      are transactions scheduled to fail is enough ([tx_step_exactly_once]).
    - [lives] counts the processes that are lost; the last one needs no more than the recoveries
      that are left to the workflow ([queued_workflow_survives]).
    - Steps run their documented number of attempts; the code has no other bound on its loops
      over a transaction, which end with the faults of the connection
      ([transaction_exactly_once]), and [write_stream_without_workflow] is a loop that
      does not end.

    ** What is shown

    - A workflow with crashes, recoveries and lost connections is no more than the same
      workflow without any: [crash_recovery_refines], for one on a queue without partitions and
      limits with the processes that recover it and serve its queue
      [queued_workflow_survives]; with [step_replays],
      [step_attempts], [transaction_exactly_once], [tx_step_exactly_once],
      [tx_step_never_twice], [call_txn_as_step_exactly_once],
      [record_first_writer_wins], [record_child_workflow_once], [record_sleep_durable],
      [child_ids_deterministic], [recovery_budget]. So are the operations of the API that a
      workflow calls, each by name ([api_operation], [recovery_continues]), the workflows it calls ([called_child_not_run_again],
      [call_is_start_and_get]) and its debounced calls, whatever others do meanwhile
      ([debounce_replays]).
    - Debounced calls of a key become one workflow, with the arguments of the last and not
      later than the deadline of the first ([debounces_coalesce]); those of a client join it,
      whatever others do between its transactions ([client_debounce_joins]).
    - What a client enqueues on such a queue runs to its end and its handle gets the result
      ([client_enqueue_runs]); its calls in a transaction of its caller take effect together or
      not at all ([client_transaction_atomic]).
    - Pages of a listing are the listing, field by field what the rows say, and aggregates count what a listing with the same
      filters lists ([list_workflows_pages], [aggregates_of_listed], [metrics_add]).
    - Every operation follows the lifecycle of a workflow's row; the constraints of the
      schema, the history and outcomes are kept over all histories of calls:
      [actions_refine_changes], [schema_valid_in_every_history], [history_append_only],
      [outcomes_final].
    - Queues: limits, order, partitions, configurations that stay valid while processes set
      them ([dequeue_respects_limits], [dequeue_starts_first], [queue_setters_keep_valid]);
      their workers serve every queue, run what is enqueued when it has its turn ([has_turn]), keep the limit of the process and adapt
      to errors ([queue_manager_serves], [queued_workflow_runs], [worker_concurrency_kept],
      [polling_interval_adapts]).
    - Blocks that nest leave the context as it was, and the settings of the blocks around a
      call make the context of the workflow it starts ([nested_blocks_restore],
      [blocks_make_contexts]).
    - Messages, events and streams are sent, set, written and received once and are not lost
      ([recv_consumes_once], [send_bulk_exactly_once], [send_bulk_delivers],
      [set_event_then_get_event], [write_stream_exactly_once], [stream_reader_complete]).
    - Forks copy what they should ([fork_workflow_copies], [fork_workflow_latest_events]);
      cancellations reach all descendants ([cancel_cascade]); results reach those who wait
      ([outcome_reaches_readers], [await_workflow_result_returns]); collections delete what
      they should and nothing else ([garbage_collect_batched], [garbage_collect_keeps]).
    - A workflow that is exported and imported elsewhere is what it was, but for its messages
      ([export_import_round_trip]).
    - Schedules run every execution once, live or late, and a thread runs for exactly the
      active ones ([backfill_complete], [scheduler_round_follows]); those of decorated functions are
      enqueued once by all processes ([decorated_schedule_fires]).
    - Values, arguments and exceptions read back as what was written ([value_round_trip],
      [inputs_round_trip], [exception_round_trip]).
    - Where the code does not do what it means to, a theorem at a concrete history:
      [concurrent_dispatch], [replayed_transaction_conflicts_with_itself],
      [fork_twice_loses_events], [fork_stream_gap], [colliding_send_dropped], [backfill_gap],
      [same_millisecond_conflict_missed], [write_stream_without_workflow],
      [worker_concurrency_exceeded], [workflow_id_outlives_block], [tied_pages_repeat],
      [caught_send_error_breaks_replay], [attributes_updated_again],
      [called_portable_writes_default], [bounced_method_gets_receiver_twice],
      [client_enqueue_unpartitioned_stuck], [client_first_after_deadline],
      [tx_step_commit_unheard], [bounds_race], [messages_not_exported].

    ** Not modelled

    The asynchronous variants, which make the same calls; logging, tracing, metrics of the
    process, HTTP, Kafka and websocket connections, command lines, configuration files and
    migrations, which are input and output around the modelled parts; [_croniter.py], which is
    vendored. Not modelled yet: [recv] and
    [get_event] as operations of a workflow, [recv_async] and its cancellation; the handlers
    of the conductor. *)
From stdpp Require Export base tactics numbers option list gmap strings sorting.
From stdpp Require Export fin_maps.

(** ** Results, and the state and exception monad of the development *)

(** What a Python call ends with: a value, or a raised exception. *)
Inductive res (E A : Type) : Type :=
| Ok (a : A)
| Err (e : E).
Arguments Ok {E A} a.
Arguments Err {E A} e.

Definition is_ok {E A} (r : res E A) : bool :=
  match r with Ok _ => true | Err _ => false end.

(** A computation over a store [S]: the store it leaves is kept when it raises, as
    a Python exception leaves the objects as they were mutated. *)
Definition SM (S E A : Type) : Type := S → S * res E A.

#[export] Instance SM_ret {S E} : MRet (SM S E) := λ A a s, (s, Ok a).
#[export] Instance SM_bind {S E} : MBind (SM S E) := λ A B k m s,
  match m s with
  | (s', Ok a) => k a s'
  | (s', Err e) => (s', Err e)
  end.

Definition raise {S E A} (e : E) : SM S E A := λ s, (s, Err e).
Definition gets {S E A} (f : S → A) : SM S E A := λ s, (s, Ok (f s)).
Definition modify {S E} (f : S → S) : SM S E unit := λ s, (f s, Ok tt).
Definition lift_res {S E A} (r : res E A) : SM S E A := λ s, (s, r).

(** [try m except e: h e], where [h] answers [None] for an exception it does not name. *)
Definition try_except {S E A} (m : SM S E A) (h : E → option (SM S E A)) : SM S E A :=
  λ s, match m s with
       | (s', Err e) => match h e with Some k => k s' | None => (s', Err e) end
       | sr => sr
       end.

(** Run a computation on a component of a larger store. *)
Definition zoom {S T E A} (get : S → T) (put : T → S → S) (m : SM T E A) : SM S E A :=
  λ s, let '(t, r) := m (get s) in (put t s, r).

(** [for x in l: f x] *)
Fixpoint for_each {S E A} (l : list A) (f : A → SM S E unit) : SM S E unit :=
  match l with
  | [] => mret tt
  | x :: l' => _ ← f x; for_each l' f
  end.

(** ** Record fields *)

(** [record_eta] rebuilds a record from its projections; one instance per record
    gives the update [r <| f := v |>] of each of its fields. *)
Class RecordEta (R : Type) := record_eta : R → R.

Class FieldSetter {R E : Type} (f : R → E) := set_field : (E → E) → R → R.
Arguments set_field {R E} f {_} g r : simpl nomatch.

Ltac build_setter :=
  lazymatch goal with
  | |- @FieldSetter ?R ?E ?f =>
      exact (fun (g : E → E) (r : R) => ltac:(
        let body := eval hnf in (@record_eta R _ r) in
        lazymatch eval pattern (f r) in body with
        | ?c _ => let t := eval cbv beta in (c (g (f r))) in exact t
        end))
  end.
#[export] Hint Extern 1 (FieldSetter _) => build_setter : typeclass_instances.

Declare Scope dbos_scope.
Delimit Scope dbos_scope with dbos.
Notation "r <| f := v |>" := (set_field f (λ _, v) r)
  (at level 1, f at level 2, v at level 200, left associativity,
   format "r  <| f  :=  v |>") : dbos_scope.
Open Scope dbos_scope.

(** ** SQL statements on one table

    A table is a finite map from its primary key to its row, so the primary-key
    constraint holds by construction. The [WHERE] clause is a boolean function of the
    key and the row: a comparison with [NULL] is not true, and so selects nothing. *)

Definition sql_eq {A} `{EqDecision A} (o : option A) (v : A) : bool := bool_decide (o = Some v).
Definition sql_in {A} `{EqDecision A} (o : option A) (vs : list A) : bool :=
  match o with Some v => bool_decide (v ∈ vs) | None => false end.
Definition sql_cmp {A} (c : A → A → bool) (o : option A) (v : A) : bool :=
  match o with Some x => c x v | None => false end.
Definition sql_coalesce {A} (o : option A) (v : A) : A := default v o.

Section tables.
Context `{Countable K} {R : Type}.
Implicit Types (t : gmap K R) (p : K → R → bool).

(** [SELECT ... WHERE p], in the (unspecified) order the table yields its rows. *)
Definition sql_select p t : list (K * R) := filter (λ kr, Is_true (p kr.1 kr.2)) (map_to_list t).
(** [SELECT count( * ) WHERE p] *)
Definition sql_count p t : Z := Z.of_nat (length (sql_select p t)).
(** [UPDATE ... SET f WHERE p] *)
Definition sql_update p (f : R → R) t : gmap K R :=
  map_imap (λ k r, Some (if p k r then f r else r)) t.
(** [DELETE ... WHERE p] *)
Definition sql_delete p t : gmap K R :=
  map_imap (λ k r, if p k r then None else Some r) t.
(** [INSERT], refused when the primary key is taken. *)
Definition sql_insert (k : K) (r : R) t : option (gmap K R) :=
  match t !! k with Some _ => None | None => Some (<[k := r]> t) end.
(** [INSERT INTO t SELECT ...] and a multi-row [INSERT]: refused when any of the keys is
    taken or repeated. *)
Definition sql_insert_all (l : list (K * R)) (t : gmap K R) : option (gmap K R) :=
  if bool_decide (NoDup l.*1) && forallb (λ kr, bool_decide (t !! kr.1 = None)) l
  then Some (list_to_map l ∪ t) else None.
(** [INSERT ... ON CONFLICT (pk) DO UPDATE SET f] *)
Definition sql_upsert (k : K) (r : R) (f : R → R) t : gmap K R :=
  match t !! k with Some r0 => <[k := f r0]> t | None => <[k := r]> t end.
(** [INSERT ... ON CONFLICT (pk) DO NOTHING] *)
Definition sql_insert_nothing (k : K) (r : R) t : gmap K R :=
  match t !! k with Some _ => t | None => <[k := r]> t end.

End tables.

(** [ORDER BY] a total preorder; rows that tie keep the table's order. *)
Definition sql_order_by {A} (le : A → A → bool) (l : list A) : list A :=
  merge_sort (λ x y, Is_true (le x y)) l.

(** ** Moves: what a computation may do to its store

    [moves Q m] says that every run of [m] relates the store it starts from to the store
    it leaves by [Q]. For a preorder [Q] the moves are closed under the constructions
    of the monad, so an invariant [I] ([Q s s' := I s → I s']) and a transition rule are
    proved operation by operation with the same lemmas. *)
Definition moves {S E A} (Q : relation S) (m : SM S E A) : Prop := ∀ s, Q s (m s).1.

(** ** Level-by-level search

    [while frontier: visit(frontier); new = [c for c in kids(frontier) if c not in seen]; ...],
    the loop the code runs over the descendants of a workflow, in a store that [visit] may
    change; [None] when the fuel ends first. *)
Section search.
Context `{EqDecision A} {S : Type} (visit : list A → S → S) (kids : S → list A → list A).

Fixpoint search (fuel : nat) (seen frontier : list A) (s : S) : option (list A * S) :=
  match frontier with
  | [] => Some (seen, s)
  | _ =>
      match fuel with
      | O => None
      | Datatypes.S fuel' =>
          let s' := visit frontier s in
          let new := filter (λ c, c ∉ seen) (kids s' frontier) in
          search fuel' (seen ++ new) new s'
      end
  end.

End search.

(** ** Lemmas: the monad *)

Section monad_lemmas.
Context {S E : Type}.
Implicit Types (Q : relation S).

Lemma bind_Ok {A B} (m : SM S E A) (k : A → SM S E B) s s' a :
  m s = (s', Ok a) → (m ≫= k) s = k a s'.
Proof. intros Hm. unfold mbind, SM_bind. by rewrite Hm. Qed.

Lemma bind_Err {A B} (m : SM S E A) (k : A → SM S E B) s s' e :
  m s = (s', Err e) → (m ≫= k) s = (s', Err e).
Proof. intros Hm. unfold mbind, SM_bind. by rewrite Hm. Qed.

Lemma bind_inv_Ok {A B} (m : SM S E A) (k : A → SM S E B) s s' b :
  (m ≫= k) s = (s', Ok b) → ∃ s0 a, m s = (s0, Ok a) ∧ k a s0 = (s', Ok b).
Proof.
  unfold mbind, SM_bind. destruct (m s) as [s0 [a|e]]; [eauto|]. by intros [= _ ?].
Qed.

(** A run from its two halves, for examples that compute the result alone. *)
Lemma snd_Ok_pair {A} (r : S * res E A) a : r.2 = Ok a → r = (r.1, Ok a).
Proof. destruct r. by intros <-. Qed.

Lemma moves_ret {A} Q `{!Reflexive Q} (a : A) : moves (E:=E) Q (mret a).
Proof. intros s. apply reflexivity. Qed.

Lemma moves_raise {A} Q `{!Reflexive Q} (e : E) : moves Q (raise (A:=A) e).
Proof. intros s. apply reflexivity. Qed.

Lemma moves_gets {A} Q `{!Reflexive Q} (f : S → A) : moves (E:=E) Q (gets f).
Proof. intros s. apply reflexivity. Qed.

Lemma moves_lift_res {A} Q `{!Reflexive Q} (r : res E A) : moves Q (lift_res r).
Proof. intros s. apply reflexivity. Qed.

Lemma moves_modify Q (f : S → S) : (∀ s, Q s (f s)) → moves (E:=E) Q (modify f).
Proof. intros Hf s. apply Hf. Qed.

Lemma moves_bind {A B} Q `{!Transitive Q} (m : SM S E A) (k : A → SM S E B) :
  moves Q m → (∀ a, moves Q (k a)) → moves Q (m ≫= k).
Proof.
  intros Hm Hk s. specialize (Hm s). unfold mbind, SM_bind.
  destruct (m s) as [s' [a|e]]; [|done]. by etrans; [apply Hm|apply Hk].
Qed.

Lemma moves_try {A} Q `{!Transitive Q} (m : SM S E A) h :
  moves Q m → (∀ e k, h e = Some k → moves Q k) → moves Q (try_except m h).
Proof.
  intros Hm Hh s. specialize (Hm s). unfold try_except.
  destruct (m s) as [s' [a|e]]; [done|]. destruct (h e) as [k|] eqn:He; [|done].
  by etrans; [apply Hm|apply (Hh _ _ He)].
Qed.

Lemma moves_for_each {A} Q `{!PreOrder Q} (l : list A) (f : A → SM S E unit) :
  (∀ x, moves Q (f x)) → moves Q (for_each l f).
Proof.
  intros Hf. induction l as [|x l IH]; simpl; [apply moves_ret, _|].
  apply moves_bind; [apply _|done|auto].
Qed.

End monad_lemmas.

Lemma moves_zoom {S T E A} (Q : relation S) (get : S → T) (put : T → S → S) (m : SM T E A) :
  (∀ s, Q s (put (m (get s)).1 s)) → moves Q (zoom get put m).
Proof. intros Hm s. specialize (Hm s). unfold zoom. by destruct (m (get s)). Qed.

Create HintDb moves discriminated.
#[export] Hint Resolve moves_ret moves_raise moves_gets moves_lift_res moves_bind
  moves_for_each moves_try : moves.
#[export] Hint Extern 1 (Reflexive _) => apply _ : moves.
#[export] Hint Extern 1 (Transitive _) => apply _ : moves.
#[export] Hint Extern 1 (PreOrder _) => apply _ : moves.

Lemma string_app_assoc (x y z : string) : x +:+ (y +:+ z) = (x +:+ y) +:+ z.
Proof. induction x as [|c x IH]; [done|]. exact (f_equal (String c) IH). Qed.

(** ** Lemmas: SQL *)

Section table_lemmas.
Context `{Countable K} {R : Type}.
Implicit Types (t : gmap K R) (p : K → R → bool).

Lemma lookup_sql_update p (f : R → R) t k :
  sql_update p f t !! k = (λ r, if p k r then f r else r) <$> t !! k.
Proof. unfold sql_update. rewrite map_lookup_imap. by destruct (t !! k). Qed.

Lemma lookup_sql_delete p t k :
  sql_delete p t !! k = t !! k ≫= λ r, if p k r then None else Some r.
Proof. unfold sql_delete. by rewrite map_lookup_imap. Qed.

Lemma sql_upsert_const (k : K) (r : R) t : sql_upsert k r (λ _, r) t = <[k := r]> t.
Proof. unfold sql_upsert. by destruct (t !! k). Qed.

Lemma elem_of_sql_select p t k r : (k, r) ∈ sql_select p t ↔ t !! k = Some r ∧ p k r = true.
Proof.
  unfold sql_select. rewrite list_elem_of_filter, elem_of_map_to_list, Is_true_true.
  simpl. tauto.
Qed.

Lemma NoDup_sql_select_keys p t : NoDup (sql_select p t).*1.
Proof.
  unfold sql_select. eapply sublist_NoDup; [apply (NoDup_fst_map_to_list t)|].
  apply fmap_sublist, sublist_filter.
Qed.

Lemma sql_select_nil p t : sql_select p t = [] ↔ ∀ k r, t !! k = Some r → p k r = false.
Proof.
  split.
  - intros Hnil k r Hk. apply not_true_is_false. intros Hp.
    cut ((k, r) ∈ sql_select p t); [by rewrite Hnil; intros ?%elem_of_nil|].
    by apply elem_of_sql_select.
  - intros Hall. destruct (sql_select p t) as [|[k r] l] eqn:Hs; [done|].
    assert ((k, r) ∈ sql_select p t) as [Hk Hp]%elem_of_sql_select
      by (rewrite Hs; left).
    by rewrite (Hall k r Hk) in Hp.
Qed.

Lemma sql_count_insert_None p t k r :
  t !! k = None → sql_count p (<[k := r]> t) = (Z.b2z (p k r) + sql_count p t)%Z.
Proof.
  intros Hk. unfold sql_count, sql_select.
  rewrite (map_to_list_insert t k r Hk), filter_cons; simpl.
  case_decide as Hp; destruct (p k r); simpl in *; try done; lia.
Qed.

Lemma sql_count_lookup p t k r :
  t !! k = Some r → sql_count p t = (Z.b2z (p k r) + sql_count p (delete k t))%Z.
Proof.
  intros Hk. rewrite <- (insert_delete_id t k r Hk) at 1.
  apply sql_count_insert_None, lookup_delete_eq.
Qed.

(** Updating one row changes a count by that row alone. *)
Lemma sql_count_insert_Some p t k r r' :
  t !! k = Some r →
  sql_count p (<[k := r']> t) = (sql_count p t - Z.b2z (p k r) + Z.b2z (p k r'))%Z.
Proof.
  intros Hk. rewrite (sql_count_lookup p t k r Hk).
  rewrite <- insert_delete_eq, sql_count_insert_None by apply lookup_delete_eq. lia.
Qed.

Lemma sql_count_nonneg p t : (0 ≤ sql_count p t)%Z.
Proof. unfold sql_count. lia. Qed.

(** [UPDATE ... WHERE pk = k AND p] touches at most the row at [k]. *)
Lemma sql_update_key k0 (p : R → bool) (f : R → R) t :
  sql_update (λ k r, bool_decide (k = k0) && p r) f t =
  match t !! k0 with Some r => if p r then <[k0 := f r]> t else t | None => t end.
Proof.
  apply map_eq. intros k. rewrite lookup_sql_update.
  destruct (decide (k = k0)) as [->|Hne].
  - rewrite bool_decide_eq_true_2 by done. simpl.
    destruct (t !! k0) as [r|] eqn:Hk; simpl; [|done].
    destruct (p r); [by rewrite lookup_insert_eq|by rewrite Hk].
  - rewrite bool_decide_eq_false_2 by done. simpl.
    destruct (t !! k0) as [r|]; [destruct (p r); rewrite ?lookup_insert_ne by done|];
      by destruct (t !! k).
Qed.

Lemma sql_insert_all_Some l t t' :
  sql_insert_all l t = Some t' →
  NoDup l.*1 ∧ (∀ k r, (k, r) ∈ l → t !! k = None ∧ t' !! k = Some r) ∧
  (∀ k, k ∉ l.*1 → t' !! k = t !! k) ∧ (∀ k, is_Some (t !! k) → t' !! k = t !! k).
Proof.
  unfold sql_insert_all. destruct (bool_decide _ && forallb _ _) eqn:Hb; [|done]. intros [= <-].
  apply andb_true_iff in Hb as [Hnd%bool_decide_eq_true Hall].
  assert (∀ k r, (k, r) ∈ l → t !! k = None) as Hfree.
  { intros k r Hin. rewrite forallb_forall in Hall. specialize (Hall (k, r)).
    rewrite bool_decide_eq_true in Hall. by apply Hall, list_elem_of_In. }
  assert (∀ k, k ∉ l.*1 → (list_to_map l ∪ t) !! k = t !! k) as Hout.
  { intros k Hk. apply lookup_union_r. by apply not_elem_of_list_to_map. }
  split_and!; [done| |done|].
  - intros k r Hin. split; [by eapply Hfree|]. apply lookup_union_Some_l. by apply elem_of_list_to_map.
  - intros k [r Hk]. destruct (decide (k ∈ l.*1)) as [Hin|]; [|by apply Hout].
    apply list_elem_of_fmap in Hin as ([k' r'] & -> & Hin). simpl in Hk. by rewrite (Hfree _ _ Hin) in Hk.
Qed.

Lemma sql_update_none p (f : R → R) t : sql_select p t = [] → sql_update p f t = t.
Proof.
  intros Hnil. rewrite sql_select_nil in Hnil. apply map_eq. intros k. rewrite lookup_sql_update.
  destruct (t !! k) as [r|] eqn:Hk; simpl; [|done]. by rewrite (Hnil k r Hk).
Qed.

Lemma sql_update_unique p (f : R → R) t k0 r :
  t !! k0 = Some r → p k0 r = true → (∀ k r', t !! k = Some r' → p k r' = true → k = k0) →
  sql_update p f t = <[k0 := f r]> t.
Proof.
  intros Hr Hp Hu. apply map_eq. intros k. rewrite lookup_sql_update.
  destruct (decide (k = k0)) as [->|Hne]; [by rewrite Hr, lookup_insert_eq; simpl; rewrite Hp|].
  rewrite lookup_insert_ne by done. destruct (t !! k) as [r'|] eqn:Hk; simpl; [|done].
  destruct (p k r') eqn:Hpk; [|done]. by destruct Hne; eapply Hu.
Qed.

Lemma sql_update_ids_nil (f : R → R) t : sql_update (λ k _, bool_decide (k ∈ [])) f t = t.
Proof.
  apply sql_update_none, sql_select_nil. intros k r _. apply bool_decide_eq_false. apply not_elem_of_nil.
Qed.

Lemma sql_update_ids_cons (f : R → R) t k ks r :
  t !! k = Some r → k ∉ ks →
  sql_update (λ i _, bool_decide (i ∈ k :: ks)) f t = <[k := f r]> (sql_update (λ i _, bool_decide (i ∈ ks)) f t).
Proof.
  intros Hr Hk. apply map_eq. intros i. destruct (decide (k = i)) as [<-|Hne].
  - rewrite lookup_insert_eq, lookup_sql_update, Hr. simpl. by rewrite bool_decide_eq_true_2 by left.
  - rewrite lookup_insert_ne, !lookup_sql_update by done. destruct (t !! i); simpl; [|done].
    rewrite (bool_decide_ext (i ∈ k :: ks) (i ∈ ks)); [done|]. rewrite elem_of_cons. naive_solver.
Qed.

(** Changing rows that a count did not have into rows it has adds them to it. *)
Lemma sql_count_update_ids p (f : R → R) t ks :
  NoDup ks → (∀ k, k ∈ ks → ∃ r, t !! k = Some r ∧ p k r = false ∧ p k (f r) = true) →
  sql_count p (sql_update (λ k _, bool_decide (k ∈ ks)) f t) = (sql_count p t + Z.of_nat (length ks))%Z.
Proof.
  intros Hnd. induction Hnd as [|k ks Hk Hnd IH]; intros Hks.
  { rewrite sql_update_ids_nil. simpl. lia. }
  destruct (Hks k ltac:(left)) as (r & Hr & Hp & Hf).
  rewrite (sql_update_ids_cons f t k ks r Hr Hk), (sql_count_insert_Some p _ k r).
  - rewrite IH, Hp, Hf by (intros i Hi; apply Hks; by right). simpl. lia.
  - rewrite lookup_sql_update, Hr. simpl. by rewrite bool_decide_eq_false_2.
Qed.

Lemma head_sql_select p t k r :
  head (sql_select p t) = Some (k, r) → t !! k = Some r ∧ p k r = true.
Proof.
  intros Hh. apply elem_of_sql_select. destruct (sql_select p t) as [|x l]; simplify_eq/=. left.
Qed.

Lemma sql_count_key k0 (p : R → bool) t :
  sql_count (λ k r, bool_decide (k = k0) && p r) t =
  match t !! k0 with Some r => Z.b2z (p r) | None => 0%Z end.
Proof.
  destruct (t !! k0) as [r|] eqn:Hk.
  - rewrite (sql_count_lookup _ t k0 r Hk), bool_decide_eq_true_2 by done. simpl.
    assert (sql_select (λ k r, bool_decide (k = k0) && p r) (delete k0 t) = []) as Hnil.
    { apply sql_select_nil. intros k r' [Hne _]%lookup_delete_Some.
      by rewrite bool_decide_eq_false_2. }
    unfold sql_count. rewrite Hnil. simpl. lia.
  - unfold sql_count.
    assert (sql_select (λ k r, bool_decide (k = k0) && p r) t = []) as ->; [|done].
    apply sql_select_nil. intros k r' Hk'. rewrite bool_decide_eq_false_2; [done|congruence].
Qed.

End table_lemmas.

Section order_lemmas.
Context {A : Type} (le : A → A → bool).

Lemma sql_order_by_Permutation l : sql_order_by le l ≡ₚ l.
Proof. apply merge_sort_Permutation. Qed.

Lemma elem_of_sql_order_by l x : x ∈ sql_order_by le l ↔ x ∈ l.
Proof. by rewrite sql_order_by_Permutation. Qed.

Lemma sql_order_by_sorted l :
  (∀ x y, le x y = true ∨ le y x = true) →
  (∀ x y z, le x y = true → le y z = true → le x z = true) →
  StronglySorted (λ x y, Is_true (le x y)) (sql_order_by le l).
Proof.
  intros Htot Htr. apply StronglySorted_merge_sort.
  - intros x y z. rewrite !Is_true_true. apply Htr.
  - intros x y. rewrite !Is_true_true. apply Htot.
Qed.

End order_lemmas.

(** ** Lemmas: lists *)

Lemma NoDup_fmap_inj {A B} (f : A → B) l x y :
  NoDup (f <$> l) → x ∈ l → y ∈ l → f x = f y → x = y.
Proof.
  induction l as [|z l IH]; [by intros _ ?%elem_of_nil|]. rewrite fmap_cons, NoDup_cons.
  intros [Hz Hnd] [->|Hx]%elem_of_cons [->|Hy]%elem_of_cons Hf; [done|..|by apply IH];
    destruct Hz; [rewrite Hf|rewrite <- Hf]; by apply list_elem_of_fmap_2.
Qed.

(** ** Lemmas: the search *)

Section search_lemmas.
Context `{Countable A} {S : Type} (visit : list A → S → S) (kids : S → list A → list A).
Lemma search_grows fuel seen frontier s R s' :
  search visit kids fuel seen frontier s = Some (R, s') → seen ⊆ R.
Proof.
  revert seen frontier s. induction fuel as [|fuel IH]; intros seen [|x fr] s; cbn [search];
    [by intros [= <- _]|done|by intros [= <- _]|].
  intros Hr%IH y Hy. apply Hr, elem_of_app. by left.
Qed.

Lemma search_NoDup fuel seen frontier s R s' :
  (∀ s xs, NoDup (kids s xs)) → NoDup seen → search visit kids fuel seen frontier s = Some (R, s') → NoDup R.
Proof.
  intros Hkids. revert seen frontier s. induction fuel as [|fuel IH]; intros seen [|x fr] s Hs; cbn [search];
    [by intros [= <- _]|done|by intros [= <- _]|].
  apply IH. apply NoDup_app. split_and!; [done| |by apply NoDup_filter].
  by intros y Hy [Hn _]%list_elem_of_filter.
Qed.

Context (I : S → Prop) (edge : relation A) (U : gset A).
Hypothesis visit_I : ∀ xs s, I s → I (visit xs s).
Hypothesis kids_spec : ∀ s xs y, I s → y ∈ kids s xs ↔ ∃ x, x ∈ xs ∧ edge x y.
Hypothesis edge_U : ∀ x y, edge x y → y ∈ U.

(** A round for each element of the universe, and one more, are enough. *)
Lemma search_total fuel seen frontier s :
  I s → size (U ∖ list_to_set seen) < fuel → is_Some (search visit kids fuel seen frontier s).
Proof.
  revert seen frontier s. induction fuel as [|fuel IH]; intros seen [|x fr] s Hs Hf;
    [by eexists|lia|by eexists|]. cbn [search].
  set (s' := visit (x :: fr) s). assert (I s') as Hs' by (by apply visit_I).
  set (new := filter (λ c, c ∉ seen) (kids s' (x :: fr))).
  destruct new as [|y l] eqn:Hnew; [destruct fuel; cbn [search]; eauto|].
  apply IH; [done|]. assert (y ∈ new) as Hy by (rewrite Hnew; left). clear IH.
  apply list_elem_of_filter in Hy as [Hys Hyk]. apply kids_spec in Hyk as (z & _ & Hyz%edge_U); [|done].
  enough (size (U ∖ list_to_set (seen ++ y :: l)) < size (U ∖ list_to_set seen)) by lia.
  apply subset_size. rewrite list_to_set_app_L, list_to_set_cons. split; [set_solver|].
  intros Hsub. assert (y ∈ U ∖ list_to_set seen) as Hin by set_solver. apply Hsub in Hin. set_solver.
Qed.

Lemma search_sound fuel seen frontier s R s' :
  I s → search visit kids fuel seen frontier s = Some (R, s') →
  ∀ y, y ∈ R → y ∈ seen ∨ ∃ x, x ∈ frontier ∧ tc edge x y.
Proof.
  revert seen frontier s. induction fuel as [|fuel IH]; intros seen [|x fr] s Hs; cbn [search];
    [intros [= <- _]; auto|done|intros [= <- _]; auto|].
  intros Hr y Hy. apply (IH _ _ _ (visit_I _ _ Hs) Hr) in Hy as [Hy|(z & Hz & Hzy)].
  - apply elem_of_app in Hy as [?|[_ Hy]%list_elem_of_filter]; [auto|].
    apply kids_spec in Hy as (w & ? & ?); [|auto]. right. exists w. split; [done|by constructor].
  - apply list_elem_of_filter in Hz as [_ Hz]. apply kids_spec in Hz as (w & ? & ?); [|auto].
    right. exists w. split; [done|by eapply tc_l].
Qed.

(** Everything in the result but the frontier has its edges inside it, and so has the
    frontier it started from. *)
Lemma search_closed fuel seen frontier s R s' :
  I s → search visit kids fuel seen frontier s = Some (R, s') →
  (∀ x y, x ∈ seen → edge x y → x ∈ frontier ∨ y ∈ seen) →
  (∀ x y, x ∈ R → edge x y → y ∈ R) ∧ (∀ x y, x ∈ frontier → edge x y → y ∈ R).
Proof.
  assert (∀ seen : list A, (∀ x y, x ∈ seen → edge x y → x ∈ @nil A ∨ y ∈ seen) →
    (∀ x y, x ∈ seen → edge x y → y ∈ seen) ∧ (∀ x y, x ∈ @nil A → edge x y → y ∈ seen)) as Hbase.
  { intros sn Hc. split; [|by intros ?? ?%elem_of_nil]. intros x y Hx Hxy.
    by destruct (Hc x y Hx Hxy) as [?%elem_of_nil|]. }
  revert seen frontier s. induction fuel as [|fuel IH]; intros seen fr s Hs.
  { destruct fr; [|done]. intros [= <- _]. apply Hbase. }
  destruct fr as [|x0 fr0]; [intros [= <- _]; apply Hbase|].
  cbn [search]. set (fr := x0 :: fr0). set (s1 := visit fr s). intros Hr Hc.
  assert (∀ x y, x ∈ fr → edge x y → y ∈ seen ++ filter (λ c, c ∉ seen) (kids s1 fr)) as Hfr.
  { intros x y Hx Hxy. apply elem_of_app. destruct (decide (y ∈ seen)); [by left|right].
    apply list_elem_of_filter. split; [done|]. apply kids_spec; subst s1; eauto. }
  destruct (IH _ _ _ (visit_I _ _ Hs) Hr) as [HR _].
  { intros x y [Hx|Hx]%elem_of_app Hxy; [right|by left].
    destruct (Hc x y Hx Hxy) as [Hxf|Hy]; [by eapply Hfr|by apply elem_of_app; left]. }
  split; [done|]. intros x y Hx Hxy. eapply search_grows; [exact Hr|by eapply Hfr].
Qed.

(** The search from [roots], which it may or may not count as seen, finds what is
    reachable from them. *)
Lemma search_reachable fuel seen roots s R s' :
  I s → search visit kids fuel seen roots s = Some (R, s') → seen ⊆ roots →
  ∀ y, y ∈ R ↔ y ∈ seen ∨ ∃ x, x ∈ roots ∧ tc edge x y.
Proof.
  intros Hs Hr Hsub y. split; [by apply (search_sound _ _ _ _ _ _ Hs Hr)|].
  destruct (search_closed _ _ _ _ _ _ Hs Hr) as [HR Hroots]; [intros x z Hx _; left; by apply Hsub|].
  intros [Hy|(x & Hx & Hxy)]; [by eapply search_grows|].
  assert (∃ z, edge x z ∧ rtc edge z y) as (z & Hxz & Hzy).
  { inversion Hxy as [? ? Hxy'|? z ? Hxz Hzy]; subst; [by exists y|]. exists z.
    split; [done|by apply tc_rtc]. }
  specialize (Hroots x z Hx Hxz). clear -Hroots Hzy HR.
  induction Hzy as [|z w y Hzw _ IH]; [done|]. apply IH. by eapply HR.
Qed.

End search_lemmas.
