(* ===== verification/Errors.v ===== *)
(** * The exceptions of [dbos/_error.py], and the Python and SQLAlchemy exceptions the
    modelled code raises or catches

    One constructor per class, with the arguments its [__init__] takes; [message],
    [dbos_error_code] and [py_str] are what the instances carry. [is_Exception] tells
    the classes a handler [except Exception] catches from the ones that derive from
    [BaseException] only. *)
From stdpp Require Import pretty.
From S2P Require Import Prelude.

Inductive DBOSErrorCode :=
| ConflictingIDError | RecoveryError | InitializationError | WorkflowFunctionNotFound
| NonExistentWorkflowError | MaxRecoveryAttemptsExceeded | MaxStepRetriesExceeded
| NotAuthorized | ConflictingWorkflowError | WorkflowCancelled | UnexpectedStep
| QueueDeduplicated | AwaitedWorkflowCancelled
| AwaitedWorkflowMaxRecoveryAttemptsExceeded | PatchNondeterminism
| ConflictingRegistrationError.

Definition error_code_value (c : DBOSErrorCode) : Z :=
  match c with
  | ConflictingIDError => 1 | RecoveryError => 2 | InitializationError => 3
  | WorkflowFunctionNotFound => 4 | NonExistentWorkflowError => 5
  | MaxRecoveryAttemptsExceeded => 6 | MaxStepRetriesExceeded => 7
  | NotAuthorized => 8 | ConflictingWorkflowError => 9 | WorkflowCancelled => 10
  | UnexpectedStep => 11 | QueueDeduplicated => 12 | AwaitedWorkflowCancelled => 13
  | AwaitedWorkflowMaxRecoveryAttemptsExceeded => 14 | PatchNondeterminism => 15
  | ConflictingRegistrationError => 25
  end.

(** The JSON values of [JsonValue]; numbers with a fraction are kept in thousandths. *)
Inductive json : Type :=
| JNull
| JBool (b : bool)
| JInt (z : Z)
| JMilli (z : Z)
| JStr (s : string)
| JArr (l : list json)
| JObj (l : list (string * json)).

(** [psycopg.OperationalError], as the code examines it. *)
Record operational_error := OperationalError {
  oe_sqlstate : option string;
  oe_text : string;
  oe_connection_timeout : bool;
}.

Inductive pyexn : Type :=
(* dbos/_error.py: subclasses of Exception *)
| DBOSException (msg : string)
| DBOSConflictingWorkflowError (workflow_id : string) (msg : string)
| DBOSRecoveryError (workflow_id : string) (msg : string)
| DBOSInitializationError (msg : string)
| DBOSWorkflowFunctionNotFoundError (workflow_id : string) (msg : string)
| DBOSNonExistentWorkflowError (destination destination_id : string)
| MaxRecoveryAttemptsExceededError (wf_id : string) (max_retries : Z)
| DBOSNotAuthorizedError (msg : string)
| DBOSMaxStepRetriesExceeded (step_name : string) (max_retries : Z) (errors : list pyexn)
| DBOSConflictingRegistrationError (name : string)
| DBOSUnexpectedStepError (workflow_id : string) (step_id : Z) (expected_name recorded_name : string)
| DBOSPatchNondeterminismError (workflow_id patch_name details : string)
| DBOSQueueDeduplicatedError (workflow_id queue_name deduplication_id : string)
| DBOSAwaitedWorkflowCancelledError (workflow_id : string)
| DBOSAwaitedWorkflowMaxRecoveryAttemptsExceeded (workflow_id : string)
(* dbos/_error.py: subclasses of BaseException only *)
| DBOSWorkflowCancelledError (msg : string)
| DBOSWorkflowConflictIDError (workflow_id : string)
(* Python *)
| PyException (msg : string)
| ValueError (msg : string)
| TypeError (msg : string)
| AssertionError (msg : string)
| KeyError (key : string)
| CancelledError
(* dbos/_serialization.py *)
| PortableWorkflowError (msg name : string) (code data : json)
(* an exception class of the application, by its name and message *)
| UserException (cls msg : string)
(* SQLAlchemy: the constraint violations the code tells apart, and any other refusal *)
| UniqueViolation
| ForeignKeyViolation
| DBAPIError (connection_invalidated : bool) (orig : option operational_error) (msg : string)
| ResourceClosedError (msg : string).

(** [isinstance(e, Exception)] *)
Definition is_Exception (e : pyexn) : bool :=
  match e with
  | DBOSWorkflowCancelledError _ | DBOSWorkflowConflictIDError _ | CancelledError => false
  | _ => true
  end.

Definition dbos_error_code (e : pyexn) : option DBOSErrorCode :=
  match e with
  | DBOSConflictingWorkflowError _ _ => Some ConflictingWorkflowError
  | DBOSRecoveryError _ _ => Some RecoveryError
  | DBOSInitializationError _ => Some InitializationError
  | DBOSWorkflowFunctionNotFoundError _ _ => Some WorkflowFunctionNotFound
  | DBOSNonExistentWorkflowError _ _ => Some NonExistentWorkflowError
  | MaxRecoveryAttemptsExceededError _ _ => Some MaxRecoveryAttemptsExceeded
  | DBOSNotAuthorizedError _ => Some NotAuthorized
  | DBOSMaxStepRetriesExceeded _ _ _ => Some MaxStepRetriesExceeded
  | DBOSConflictingRegistrationError _ => Some ConflictingRegistrationError
  | DBOSUnexpectedStepError _ _ _ _ => Some UnexpectedStep
  | DBOSPatchNondeterminismError _ _ _ => Some PatchNondeterminism
  | DBOSQueueDeduplicatedError _ _ _ => Some QueueDeduplicated
  | DBOSAwaitedWorkflowCancelledError _ => Some AwaitedWorkflowCancelled
  | DBOSAwaitedWorkflowMaxRecoveryAttemptsExceeded _ =>
      Some AwaitedWorkflowMaxRecoveryAttemptsExceeded
  | DBOSWorkflowCancelledError _ => Some WorkflowCancelled
  | DBOSWorkflowConflictIDError _ => Some ConflictingIDError
  | _ => None
  end.

(** The message each [__init__] builds. *)
Definition message (e : pyexn) : string :=
  match e with
  | DBOSException m | DBOSNotAuthorizedError m | DBOSWorkflowCancelledError m => m
  | PortableWorkflowError m _ _ _ => m
  | DBOSConflictingWorkflowError w m =>
      "Conflicting workflow invocation with the same ID (" +:+ w +:+ "): " +:+ m
  | DBOSRecoveryError w m => "Recovery error for workflow ID " +:+ w +:+ ": " +:+ m
  | DBOSInitializationError m => "Error initializing DBOS Transact: " +:+ m
  | DBOSWorkflowFunctionNotFoundError w m => "Could not execute workflow " +:+ w +:+ ": " +:+ m
  | DBOSNonExistentWorkflowError d i => "Non-existent " +:+ d +:+ " workflow ID: " +:+ i
  | MaxRecoveryAttemptsExceededError w n =>
      "Workflow " +:+ w +:+ " has exceeded its maximum of " +:+ pretty n +:+
      " execution or recovery attempts. Further attempts to execute or recover it will fail. See documentation for details: https://docs.dbos.dev/python/reference/decorators"
  | DBOSMaxStepRetriesExceeded s n _ =>
      "Step " +:+ s +:+ " has exceeded its maximum of " +:+ pretty n +:+ " retries"
  | DBOSConflictingRegistrationError n =>
      "Operation (Name: " +:+ n +:+ ") is already registered with a conflicting function type"
  | DBOSUnexpectedStepError w i expected recorded =>
      "During execution of workflow " +:+ w +:+ " step " +:+ pretty i +:+ ", function " +:+
      recorded +:+ " was recorded when " +:+ expected +:+
      " was expected. Check that your workflow is deterministic."
  | DBOSPatchNondeterminismError w p d =>
      "Cannot deterministically apply patch " +:+ p +:+ " in workflow " +:+ w +:+ ": " +:+ d +:+
      ". Check that your workflow is deterministic."
  | DBOSQueueDeduplicatedError w q d =>
      "Workflow " +:+ w +:+ " was deduplicated due to an existing workflow in queue " +:+ q +:+
      " with deduplication ID " +:+ d +:+ "."
  | DBOSAwaitedWorkflowCancelledError w => "Awaited workflow " +:+ w +:+ " was cancelled"
  | DBOSAwaitedWorkflowMaxRecoveryAttemptsExceeded w =>
      "Awaited workflow " +:+ w +:+ " exceeded its maximum recovery attempts"
  | DBOSWorkflowConflictIDError w => "Conflicting workflow ID " +:+ w
  | PyException m | ValueError m | TypeError m | AssertionError m | DBAPIError _ _ m
  | ResourceClosedError m => m
  | KeyError k => k
  | UserException _ m => m
  | CancelledError => ""
  | UniqueViolation => "UNIQUE constraint failed"
  | ForeignKeyViolation => "FOREIGN KEY constraint failed"
  end.

(** [DBOSException] and its subclasses prefix their message; the others do not. *)
Definition is_dbos_error (e : pyexn) : bool :=
  match e with
  | DBOSException _ => true
  | _ => match dbos_error_code e with Some _ => true | None => false end
  end.

(** [DBOSException.__str__] and [DBOSBaseException.__str__] *)
Definition py_str (e : pyexn) : string :=
  if is_dbos_error e then
    match dbos_error_code e with
    | Some c => "DBOS Error " +:+ pretty (error_code_value c) +:+ ": " +:+ message e
    | None => "DBOS Error: " +:+ message e
    end
  else message e.

(** The name of the class, [type(e).__name__]. *)
Definition class_name (e : pyexn) : string :=
  match e with
  | DBOSException _ => "DBOSException"
  | DBOSConflictingWorkflowError _ _ => "DBOSConflictingWorkflowError"
  | DBOSRecoveryError _ _ => "DBOSRecoveryError"
  | DBOSInitializationError _ => "DBOSInitializationError"
  | DBOSWorkflowFunctionNotFoundError _ _ => "DBOSWorkflowFunctionNotFoundError"
  | DBOSNonExistentWorkflowError _ _ => "DBOSNonExistentWorkflowError"
  | MaxRecoveryAttemptsExceededError _ _ => "MaxRecoveryAttemptsExceededError"
  | DBOSNotAuthorizedError _ => "DBOSNotAuthorizedError"
  | DBOSMaxStepRetriesExceeded _ _ _ => "DBOSMaxStepRetriesExceeded"
  | DBOSConflictingRegistrationError _ => "DBOSConflictingRegistrationError"
  | DBOSUnexpectedStepError _ _ _ _ => "DBOSUnexpectedStepError"
  | DBOSPatchNondeterminismError _ _ _ => "DBOSPatchNondeterminismError"
  | DBOSQueueDeduplicatedError _ _ _ => "DBOSQueueDeduplicatedError"
  | DBOSAwaitedWorkflowCancelledError _ => "DBOSAwaitedWorkflowCancelledError"
  | DBOSAwaitedWorkflowMaxRecoveryAttemptsExceeded _ =>
      "DBOSAwaitedWorkflowMaxRecoveryAttemptsExceeded"
  | DBOSWorkflowCancelledError _ => "DBOSWorkflowCancelledError"
  | DBOSWorkflowConflictIDError _ => "DBOSWorkflowConflictIDError"
  | PyException _ => "Exception"
  | ValueError _ => "ValueError"
  | TypeError _ => "TypeError"
  | AssertionError _ => "AssertionError"
  | KeyError _ => "KeyError"
  | CancelledError => "CancelledError"
  | PortableWorkflowError _ _ _ _ => "PortableWorkflowError"
  | UserException c _ => c
  | UniqueViolation | ForeignKeyViolation => "IntegrityError"
  | DBAPIError _ _ _ => "DBAPIError"
  | ResourceClosedError _ => "ResourceClosedError"
  end.

(** [except Exception: h] *)
Definition except_Exception {S A} (m : SM S pyexn A) (h : pyexn → SM S pyexn A) : SM S pyexn A :=
  try_except m (λ e, if is_Exception e then Some (h e) else None).

(** A substring test, [needle in hay]. *)
Fixpoint str_contains (needle hay : string) : bool :=
  String.prefix needle hay ||
  match hay with EmptyString => false | String _ hay' => str_contains needle hay' end.

(** ** Lemmas *)

(** The codes of [DBOSErrorCode] are pairwise distinct, as a Python [Enum] of distinct
    values: a client can tell the classes apart by their code. *)
Lemma error_code_value_inj c1 c2 : error_code_value c1 = error_code_value c2 → c1 = c2.
Proof. by destruct c1, c2. Qed.
