(* ===== verification/Schema.v ===== *)
(** * The system database: [dbos/_schemas/system_database.py], its rows and statements

    A record per table, its fields the table's columns; the primary key is the key of
    the finite map that holds the table. [db] is the database; [conn] a connection with
    an open transaction, whose statements act on [current] and whose commits copy it to
    [committed]; [engine_begin] is [with self.engine.begin() as c: ...], which commits
    on a normal exit and rolls back on an exception. The statements check the unique
    index on [(queue_name, deduplication_id)] and the foreign keys the schema declares,
    and a delete of workflow rows cascades. *)
From S2P Require Import Prelude Errors.

(** [WorkflowStatusString] *)
Inductive WorkflowStatusString :=
| PENDING | SUCCESS | ERROR | MAX_RECOVERY_ATTEMPTS_EXCEEDED | CANCELLED | ENQUEUED | DELAYED.

#[export] Instance WorkflowStatusString_eq_dec : EqDecision WorkflowStatusString.
Proof. solve_decision. Defined.

(** The [.value] of each member. *)
Definition status_value (s : WorkflowStatusString) : string :=
  match s with
  | PENDING => "PENDING" | SUCCESS => "SUCCESS" | ERROR => "ERROR"
  | MAX_RECOVERY_ATTEMPTS_EXCEEDED => "MAX_RECOVERY_ATTEMPTS_EXCEEDED"
  | CANCELLED => "CANCELLED" | ENQUEUED => "ENQUEUED" | DELAYED => "DELAYED"
  end.

Definition workflow_is_active (s : WorkflowStatusString) : bool :=
  bool_decide (s = ENQUEUED) || bool_decide (s = PENDING) || bool_decide (s = DELAYED).

(** A row of [workflow_status]; the key is [workflow_uuid]. *)
Record workflow_status_row := WorkflowStatusRow {
  ws_status : WorkflowStatusString;
  ws_name : option string;
  ws_authenticated_user : option string;
  ws_assumed_role : option string;
  ws_authenticated_roles : option string;
  ws_output : option string;
  ws_error : option string;
  ws_executor_id : option string;
  ws_created_at : Z;
  ws_updated_at : Z;
  ws_application_version : option string;
  ws_application_id : option string;
  ws_class_name : option string;
  ws_config_name : option string;
  ws_recovery_attempts : option Z;
  ws_queue_name : option string;
  ws_workflow_timeout_ms : option Z;
  ws_workflow_deadline_epoch_ms : option Z;
  ws_started_at_epoch_ms : option Z;
  ws_deduplication_id : option string;
  ws_inputs : option string;
  ws_priority : Z;
  ws_queue_partition_key : option string;
  ws_forked_from : option string;
  ws_was_forked_from : bool;
  ws_owner_xid : option string;
  ws_parent_workflow_id : option string;
  ws_serialization : option string;
  ws_delay_until_epoch_ms : option Z;
  ws_rate_limited : bool;
  ws_completed_at : option Z;
  ws_attributes : option string;
  ws_schedule_name : option string;
  ws_debounce_deadline_epoch_ms : option Z;
  ws_is_debounced : bool;
}.

(** A row of [operation_outputs]; the key is [(workflow_uuid, function_id)]. *)
Record operation_outputs_row := OperationOutputsRow {
  oo_function_name : string;
  oo_output : option string;
  oo_error : option string;
  oo_child_workflow_id : option string;
  oo_started_at_epoch_ms : option Z;
  oo_completed_at_epoch_ms : option Z;
  oo_serialization : option string;
}.

(** A row of [notifications]; the key is [message_uuid]. *)
Record notifications_row := NotificationsRow {
  no_destination_uuid : string;
  no_topic : option string;
  no_message : string;
  no_created_at_epoch_ms : Z;
  no_serialization : option string;
  no_consumed : bool;
}.

(** A row of [workflow_events]; the key is [(workflow_uuid, key)]. *)
Record workflow_events_row := WorkflowEventsRow {
  we_value : string;
  we_serialization : option string;
}.

(** A row of [workflow_events_history]; the key is [(workflow_uuid, key, function_id)]. *)
Record workflow_events_history_row := WorkflowEventsHistoryRow {
  weh_value : string;
  weh_serialization : option string;
}.

(** A row of [streams]; the key is [(workflow_uuid, key, offset)]. *)
Record streams_row := StreamsRow {
  st_value : string;
  st_function_id : Z;
  st_serialization : option string;
}.

(** A row of [workflow_schedules]; the key is [schedule_id], and [schedule_name] is unique. *)
Record workflow_schedules_row := WorkflowSchedulesRow {
  sc_schedule_name : string;
  sc_workflow_name : string;
  sc_workflow_class_name : option string;
  sc_schedule : string;
  sc_status : string;
  sc_context : string;
  sc_last_fired_at : option string;
  sc_automatic_backfill : bool;
  sc_cron_timezone : option string;
  sc_queue_name : option string;
}.

(** A row of [application_versions]; the key is [version_id], and [version_name] is unique. *)
Record application_versions_row := ApplicationVersionsRow {
  av_version_name : string;
  av_version_timestamp : Z;
  av_created_at : Z;
}.

(** A row of [queues]; the key is [name], which is unique ([queue_id] is never read).
    The columns of type [Float] are kept in thousandths of a second. *)
Record queues_row := QueuesRow {
  qu_concurrency : option Z;
  qu_worker_concurrency : option Z;
  qu_rate_limit_max : option Z;
  qu_rate_limit_period_ms : option Z;
  qu_priority_enabled : bool;
  qu_partition_queue : bool;
  qu_polling_interval_ms : Z;
  qu_created_at : Z;
  qu_updated_at : Z;
}.

Record db := Db {
  workflow_status : gmap string workflow_status_row;
  operation_outputs : gmap (string * Z) operation_outputs_row;
  notifications : gmap string notifications_row;
  workflow_events : gmap (string * string) workflow_events_row;
  workflow_events_history : gmap (string * string * Z) workflow_events_history_row;
  streams : gmap (string * string * Z) streams_row;
  workflow_schedules : gmap string workflow_schedules_row;
  application_versions : gmap string application_versions_row;
  queues : gmap string queues_row;
}.

Definition empty_db : db := Db ∅ ∅ ∅ ∅ ∅ ∅ ∅ ∅ ∅.

#[export] Instance workflow_status_row_eta : RecordEta workflow_status_row := λ r,
  WorkflowStatusRow (ws_status r) (ws_name r) (ws_authenticated_user r) (ws_assumed_role r)
    (ws_authenticated_roles r) (ws_output r) (ws_error r) (ws_executor_id r) (ws_created_at r)
    (ws_updated_at r) (ws_application_version r) (ws_application_id r) (ws_class_name r)
    (ws_config_name r) (ws_recovery_attempts r) (ws_queue_name r) (ws_workflow_timeout_ms r)
    (ws_workflow_deadline_epoch_ms r) (ws_started_at_epoch_ms r) (ws_deduplication_id r)
    (ws_inputs r) (ws_priority r) (ws_queue_partition_key r) (ws_forked_from r)
    (ws_was_forked_from r) (ws_owner_xid r) (ws_parent_workflow_id r) (ws_serialization r)
    (ws_delay_until_epoch_ms r) (ws_rate_limited r) (ws_completed_at r) (ws_attributes r)
    (ws_schedule_name r) (ws_debounce_deadline_epoch_ms r) (ws_is_debounced r).
#[export] Instance operation_outputs_row_eta : RecordEta operation_outputs_row := λ r,
  OperationOutputsRow (oo_function_name r) (oo_output r) (oo_error r) (oo_child_workflow_id r)
    (oo_started_at_epoch_ms r) (oo_completed_at_epoch_ms r) (oo_serialization r).
#[export] Instance notifications_row_eta : RecordEta notifications_row := λ r,
  NotificationsRow (no_destination_uuid r) (no_topic r) (no_message r)
    (no_created_at_epoch_ms r) (no_serialization r) (no_consumed r).
#[export] Instance workflow_schedules_row_eta : RecordEta workflow_schedules_row := λ r,
  WorkflowSchedulesRow (sc_schedule_name r) (sc_workflow_name r) (sc_workflow_class_name r)
    (sc_schedule r) (sc_status r) (sc_context r) (sc_last_fired_at r) (sc_automatic_backfill r)
    (sc_cron_timezone r) (sc_queue_name r).
#[export] Instance application_versions_row_eta : RecordEta application_versions_row := λ r,
  ApplicationVersionsRow (av_version_name r) (av_version_timestamp r) (av_created_at r).
#[export] Instance queues_row_eta : RecordEta queues_row := λ r,
  QueuesRow (qu_concurrency r) (qu_worker_concurrency r) (qu_rate_limit_max r)
    (qu_rate_limit_period_ms r) (qu_priority_enabled r) (qu_partition_queue r)
    (qu_polling_interval_ms r) (qu_created_at r) (qu_updated_at r).
#[export] Instance db_eta : RecordEta db := λ d,
  Db (workflow_status d) (operation_outputs d) (notifications d) (workflow_events d)
    (workflow_events_history d) (streams d) (workflow_schedules d) (application_versions d)
    (queues d).

(** ** Connections and transactions *)

Record conn := Conn { committed : db; current : db }.

(** A computation on the database, and one inside an open transaction. *)
Definition dbM : Type → Type := SM db pyexn.
Definition txn : Type → Type := SM conn pyexn.

(** [c.execute] of a statement that cannot be refused, of a query, and of a statement
    a constraint may refuse (the store is left as it was). *)
Definition execute (f : db → db) : txn unit := λ c, (Conn (committed c) (f (current c)), Ok tt).
Definition query {A} (f : db → A) : txn A := λ c, (c, Ok (f (current c))).
Definition execute_res {A} (f : db → res pyexn (db * A)) : txn A := λ c,
  match f (current c) with
  | Ok (d, a) => (Conn (committed c) d, Ok a)
  | Err e => (c, Err e)
  end.
(** [conn.commit()] *)
Definition commit : txn unit := λ c, (Conn (current c) (current c), Ok tt).

(** [with self.engine.begin() as c: m] *)
Definition engine_begin {A} (m : txn A) : dbM A := λ d,
  match m (Conn d d) with
  | (c, Ok a) => (current c, Ok a)
  | (c, Err e) => (committed c, Err e)
  end.

(** ** Statements that check a constraint *)

(** The partial unique index [uq_workflow_status_dedup_id]: another row has the same
    queue name and the same deduplication ID, both not [NULL]. *)
Definition dedup_taken (t : gmap string workflow_status_row) (queue dedup : option string) : bool :=
  match queue, dedup with
  | Some q, Some i =>
      bool_decide (sql_select (λ _ r, sql_eq (ws_queue_name r) q &&
                                      sql_eq (ws_deduplication_id r) i) t ≠ [])
  | _, _ => false
  end.

(** [INSERT INTO workflow_status] *)
Definition insert_workflow_row (id : string) (r : workflow_status_row) (d : db) : res pyexn (db * unit) :=
  match workflow_status d !! id with
  | Some _ => Err UniqueViolation
  | None =>
      if dedup_taken (workflow_status d) (ws_queue_name r) (ws_deduplication_id r)
      then Err UniqueViolation
      else Ok (d <| workflow_status := <[id := r]> (workflow_status d) |>, tt)
  end.

(** [DELETE FROM workflow_status WHERE p], with [ON DELETE CASCADE] on the five tables
    that reference it. *)
Definition delete_workflow_rows (p : string → workflow_status_row → bool) (d : db) : db :=
  let gone id := match workflow_status d !! id with Some r => p id r | None => false end in
  Db (sql_delete p (workflow_status d))
     (sql_delete (λ k _, gone k.1) (operation_outputs d))
     (sql_delete (λ _ r, gone (no_destination_uuid r)) (notifications d))
     (sql_delete (λ k _, gone k.1) (workflow_events d))
     (sql_delete (λ k _, gone k.1.1) (workflow_events_history d))
     (sql_delete (λ k _, gone k.1.1) (streams d))
     (workflow_schedules d) (application_versions d) (queues d).

Definition workflow_exists (d : db) (id : string) : bool :=
  bool_decide (is_Some (workflow_status d !! id)).

(** [INSERT] into the tables with a foreign key to [workflow_status.workflow_uuid]. *)
Definition insert_operation_row (k : string * Z) (r : operation_outputs_row) (d : db) :
    res pyexn (db * unit) :=
  match operation_outputs d !! k with
  | Some _ => Err UniqueViolation
  | None =>
      if workflow_exists d k.1
      then Ok (d <| operation_outputs := <[k := r]> (operation_outputs d) |>, tt)
      else Err ForeignKeyViolation
  end.

Definition insert_stream_row (k : string * string * Z) (r : streams_row) (d : db) :
    res pyexn (db * unit) :=
  match streams d !! k with
  | Some _ => Err UniqueViolation
  | None =>
      if workflow_exists d k.1.1
      then Ok (d <| streams := <[k := r]> (streams d) |>, tt)
      else Err ForeignKeyViolation
  end.

(** [INSERT ... ON CONFLICT (workflow_uuid, key) DO UPDATE SET value, serialization] *)
Definition upsert_event_row (k : string * string) (r : workflow_events_row) (d : db) :
    res pyexn (db * unit) :=
  if workflow_exists d k.1
  then Ok (d <| workflow_events := sql_upsert k r (λ _, r) (workflow_events d) |>, tt)
  else Err ForeignKeyViolation.

Definition upsert_event_history_row (k : string * string * Z) (r : workflow_events_history_row)
    (d : db) : res pyexn (db * unit) :=
  if workflow_exists d k.1.1
  then Ok (d <| workflow_events_history := sql_upsert k r (λ _, r) (workflow_events_history d) |>, tt)
  else Err ForeignKeyViolation.

(** [UPDATE workflow_status SET f WHERE p], which answers [rowcount]. The updates of the
    modelled code never set a deduplication ID, so the unique index cannot refuse them. *)
Definition update_workflow_rows (p : string → workflow_status_row → bool)
    (f : workflow_status_row → workflow_status_row) : txn Z := λ c,
  let d := current c in
  (Conn (committed c) (d <| workflow_status := sql_update p f (workflow_status d) |>),
   Ok (sql_count p (workflow_status d))).

(** ** The invariants the schema declares *)

(** The unique index on [(queue_name, deduplication_id)]. *)
Definition dedup_unique (t : gmap string workflow_status_row) : Prop :=
  ∀ id1 id2 r1 r2 q i,
    t !! id1 = Some r1 → t !! id2 = Some r2 →
    ws_queue_name r1 = Some q → ws_queue_name r2 = Some q →
    ws_deduplication_id r1 = Some i → ws_deduplication_id r2 = Some i → id1 = id2.

(** Every row of the referencing tables names a row of [workflow_status]. *)
Record fk_valid (d : db) : Prop := FkValid {
  fk_operation_outputs k r : operation_outputs d !! k = Some r → is_Some (workflow_status d !! k.1);
  fk_notifications k r : notifications d !! k = Some r →
    is_Some (workflow_status d !! no_destination_uuid r);
  fk_workflow_events k r : workflow_events d !! k = Some r → is_Some (workflow_status d !! k.1);
  fk_workflow_events_history k r :
    workflow_events_history d !! k = Some r → is_Some (workflow_status d !! k.1.1);
  fk_streams k r : streams d !! k = Some r → is_Some (workflow_status d !! k.1.1);
}.

Definition schema_valid (d : db) : Prop := dedup_unique (workflow_status d) ∧ fk_valid d.

(** The relation [moves] carries for an invariant. *)
Definition keeps (I : db → Prop) : relation db := λ d d', I d → I d'.

(** [Q] lifted to a connection: from a store that [Q] relates to both the committed and
    the current state, it still relates to both. *)
Definition conn_rel (Q : relation db) : relation conn := λ c c',
  ∀ d0, Q d0 (committed c) → Q d0 (current c) → Q d0 (committed c') ∧ Q d0 (current c').

(** A transaction that does not commit by itself. *)
Definition same_committed : relation conn := λ c c', committed c' = committed c.

(** Every row of [workflow_status] is still there, changed in the way [P] allows. *)
Definition rows_follow (P : relation workflow_status_row) : relation db := λ d d',
  ∀ id r, workflow_status d !! id = Some r → ∃ r', workflow_status d' !! id = Some r' ∧ P r r'.

(** The row of one workflow is. *)
Definition row_follows (P : relation workflow_status_row) (id : string) : relation db := λ d d',
  ∀ r, workflow_status d !! id = Some r → ∃ r', workflow_status d' !! id = Some r' ∧ P r r'.

(** What no operation changes once the row is written: the identity of the workflow. *)
Definition same_identity : relation workflow_status_row := λ r r',
  (ws_name r', ws_class_name r', ws_config_name r', ws_created_at r', ws_owner_xid r',
   ws_parent_workflow_id r', ws_application_id r', ws_authenticated_user r') =
  (ws_name r, ws_class_name r, ws_config_name r, ws_created_at r, ws_owner_xid r,
   ws_parent_workflow_id r, ws_application_id r, ws_authenticated_user r).

(** A completed workflow keeps its status and its outcome. *)
Definition frozen : relation workflow_status_row := λ r r',
  ws_status r ∈ [SUCCESS; ERROR] →
  ws_status r' = ws_status r ∧ ws_output r' = ws_output r ∧ ws_error r' = ws_error r ∧
  ws_completed_at r' = ws_completed_at r.

(** A cancelled workflow stays cancelled. *)
Definition stays_cancelled : relation workflow_status_row := λ r r',
  ws_status r = CANCELLED → ws_status r' = CANCELLED.

(** ** Lemmas *)

#[export] Instance rows_follow_preorder P `{!PreOrder P} : PreOrder (rows_follow P).
Proof.
  split.
  - intros d id r Hr. exists r. split; [done|reflexivity].
  - intros d1 d2 d3 H12 H23 id r Hr. destruct (H12 id r Hr) as (r2 & Hr2 & HP2).
    destruct (H23 id r2 Hr2) as (r3 & Hr3 & HP3). exists r3. split; [done|by etrans].
Qed.

#[export] Instance same_identity_preorder : PreOrder same_identity.
Proof. split; unfold same_identity; [done|]. intros r1 r2 r3 ??. congruence. Qed.

#[export] Instance frozen_preorder : PreOrder frozen.
Proof.
  split; unfold frozen; [by intros r _|]. intros r1 r2 r3 H12 H23 Hr.
  destruct (H12 Hr) as (E1 & E2 & E3 & E4). rewrite <- E1 in Hr.
  destruct (H23 Hr) as (F1 & F2 & F3 & F4). repeat split; congruence.
Qed.

#[export] Instance stays_cancelled_preorder : PreOrder stays_cancelled.
Proof. split; unfold stays_cancelled; [by intros r|]. intros r1 r2 r3; auto. Qed.

#[export] Instance row_follows_preorder P `{!PreOrder P} id : PreOrder (row_follows P id).
Proof.
  split; [intros d r Hr; by exists r|]. intros d1 d2 d3 H12 H23 r Hr.
  destruct (H12 r Hr) as (r' & Hr' & HP). destruct (H23 r' Hr') as (r'' & ? & HP'). exists r''. split; [done|by etrans].
Qed.

Lemma rows_follow_refl_table P `{!PreOrder P} d d' :
  workflow_status d' = workflow_status d → rows_follow P d d'.
Proof. intros He id r Hr. exists r. rewrite He. split; [done|reflexivity]. Qed.

Lemma rows_follow_update P `{!PreOrder P} p f d :
  (∀ id r, workflow_status d !! id = Some r → p id r = true → P r (f r)) →
  rows_follow P d (d <| workflow_status := sql_update p f (workflow_status d) |>).
Proof.
  intros Hf id r Hr. simpl. rewrite lookup_sql_update, Hr. simpl. eexists. split; [done|].
  destruct (p id r) eqn:Hp; [by eapply Hf|reflexivity].
Qed.

#[export] Instance keeps_preorder I : PreOrder (keeps I).
Proof. split; unfold keeps; [intros d ?; done|intros d1 d2 d3; auto]. Qed.

#[export] Instance conn_rel_preorder Q : PreOrder (conn_rel Q).
Proof.
  split; [intros c d0 ??; done|]. intros c1 c2 c3 H12 H23 d0 Hc Hd.
  destruct (H12 d0 Hc Hd). by apply H23.
Qed.

Section txn_moves.
Context (Q : relation db) `{!PreOrder Q}.

Lemma moves_execute f : (∀ d, Q d (f d)) → moves (conn_rel Q) (execute f).
Proof. intros Hf c d0 Hc Hd. split; [done|]. simpl. by etrans; [exact Hd|apply Hf]. Qed.

Lemma moves_query {A} (f : db → A) : moves (conn_rel Q) (query f).
Proof. intros c d0 Hc Hd. done. Qed.

Lemma moves_execute_res {A} (f : db → res pyexn (db * A)) :
  (∀ d d' a, f d = Ok (d', a) → Q d d') → moves (conn_rel Q) (execute_res f).
Proof.
  intros Hf c d0 Hc Hd. unfold execute_res.
  destruct (f (current c)) as [[d a]|e] eqn:Hfc; simpl; [|done].
  split; [done|]. by etrans; [exact Hd|apply (Hf _ _ _ Hfc)].
Qed.

Lemma moves_commit : moves (conn_rel Q) commit.
Proof. intros c d0 Hc Hd. done. Qed.

Lemma moves_update_workflow_rows p f :
  (∀ d, Q d (d <| workflow_status := sql_update p f (workflow_status d) |>)) →
  moves (conn_rel Q) (update_workflow_rows p f).
Proof. intros Hf c d0 Hc Hd. split; [done|]. simpl. by etrans; [exact Hd|apply Hf]. Qed.

Lemma moves_engine_begin {A} (m : txn A) : moves (conn_rel Q) m → moves Q (engine_begin m).
Proof.
  intros Hm d. specialize (Hm (Conn d d) d (reflexivity d) (reflexivity d)).
  unfold engine_begin. destruct (m (Conn d d)) as [c [a|e]]; tauto.
Qed.

End txn_moves.

#[export] Hint Resolve moves_query moves_commit moves_engine_begin moves_execute
  moves_execute_res moves_update_workflow_rows : moves.

#[export] Instance same_committed_preorder : PreOrder same_committed.
Proof. split; unfold same_committed; [done|]. intros c1 c2 c3 ??. congruence. Qed.

Lemma same_committed_execute f : moves same_committed (execute f).
Proof. done. Qed.

Lemma same_committed_query {A} (f : db → A) : moves same_committed (query f).
Proof. done. Qed.

Lemma same_committed_execute_res {A} (f : db → res pyexn (db * A)) : moves same_committed (execute_res f).
Proof. intros c. unfold execute_res. by destruct (f (current c)) as [[d a]|e]. Qed.

Lemma same_committed_update_workflow_rows p f : moves same_committed (update_workflow_rows p f).
Proof. done. Qed.

#[export] Hint Resolve same_committed_execute same_committed_query same_committed_execute_res
  same_committed_update_workflow_rows : moves.

(** An exception rolls such a transaction back. *)
Lemma engine_begin_Err {A} (m : txn A) d d' e :
  moves same_committed m → engine_begin m d = (d', Err e) → d' = d.
Proof.
  intros Hm. specialize (Hm (Conn d d)). unfold engine_begin, same_committed in *.
  destruct (m (Conn d d)) as [c [x|e']]; [done|]. by intros [= <- _].
Qed.

Lemma engine_begin_Ok {A} (m : txn A) d d' a :
  engine_begin m d = (d', Ok a) → ∃ c, m (Conn d d) = (c, Ok a) ∧ d' = current c.
Proof. unfold engine_begin. destruct (m (Conn d d)) as [c [x|e]]; [|done]. intros [= <- ->]. eauto. Qed.

Lemma execute_res_Ok {A} (f : db → res pyexn (db * A)) c c' a :
  execute_res f c = (c', Ok a) →
  ∃ d, f (current c) = Ok (d, a) ∧ c' = Conn (committed c) d.
Proof. unfold execute_res. destruct (f (current c)) as [[d x]|e]; [|done]. intros [= <- ->]. eauto. Qed.

Lemma empty_db_schema_valid : schema_valid empty_db.
Proof.
  split; [by intros ??????; simpl; rewrite lookup_empty|].
  by split; intros ??; simpl; rewrite lookup_empty.
Qed.

(** The check of the unique index is the invariant it protects. *)
Lemma dedup_taken_false t q i :
  dedup_taken t (Some q) (Some i) = false →
  ∀ id r, t !! id = Some r → ws_queue_name r = Some q → ws_deduplication_id r = Some i → False.
Proof.
  unfold dedup_taken. rewrite bool_decide_eq_false. intros Hnil id r Hid Hq Hi.
  apply Hnil. intros Hsel. rewrite sql_select_nil in Hsel.
  specialize (Hsel id r Hid). unfold sql_eq in Hsel.
  by rewrite !bool_decide_eq_true_2 in Hsel.
Qed.

Lemma dedup_unique_insert t id r :
  dedup_unique t → t !! id = None →
  dedup_taken t (ws_queue_name r) (ws_deduplication_id r) = false →
  dedup_unique (<[id := r]> t).
Proof.
  intros Hu Hid Ht id1 id2 r1 r2 q i H1 H2 Hq1 Hq2 Hi1 Hi2.
  destruct (decide (id = id1)) as [<-|Hn1], (decide (id = id2)) as [<-|Hn2]; [done|..];
    rewrite ?lookup_insert_eq in H1; rewrite ?lookup_insert_eq in H2;
    rewrite ?(lookup_insert_ne _ id id1) in H1 by done;
    rewrite ?(lookup_insert_ne _ id id2) in H2 by done; simplify_eq.
  - exfalso. rewrite Hq1, Hi1 in Ht. by eapply dedup_taken_false.
  - exfalso. rewrite Hq2, Hi2 in Ht. by eapply dedup_taken_false.
  - by eapply Hu.
Qed.

(** An update that leaves the queue name and the deduplication ID of a row, or clears
    the latter, keeps the index. *)
Lemma dedup_unique_update t p f :
  (∀ id r, t !! id = Some r → p id r = true → ws_deduplication_id (f r) = None ∨
        (ws_queue_name (f r) = ws_queue_name r ∧ ws_deduplication_id (f r) = ws_deduplication_id r)) →
  dedup_unique t → dedup_unique (sql_update p f t).
Proof.
  intros Hf Hu id1 id2 r1 r2 q i. rewrite !lookup_sql_update, !fmap_Some.
  intros (s1 & H1 & ->) (s2 & H2 & ->) Hq1 Hq2 Hi1 Hi2.
  destruct (p id1 s1) eqn:P1, (p id2 s2) eqn:P2;
    try (destruct (Hf _ s1 H1 P1) as [?|[??]]; [congruence|]);
    try (destruct (Hf _ s2 H2 P2) as [?|[??]]; [congruence|]);
    eapply (Hu id1 id2 s1 s2 q i); congruence.
Qed.

Lemma dedup_unique_delete t p : dedup_unique t → dedup_unique (sql_delete p t).
Proof.
  intros Hu id1 id2 r1 r2 q i. rewrite !lookup_sql_delete, !bind_Some.
  intros (s1 & H1 & Hp1) (s2 & H2 & Hp2). destruct (p id1 s1), (p id2 s2); simplify_eq.
  by apply Hu.
Qed.

Section fk_lemmas.
Implicit Types (d : db).

Lemma fk_valid_same_children d d' :
  (∀ id, is_Some (workflow_status d !! id) → is_Some (workflow_status d' !! id)) →
  operation_outputs d' = operation_outputs d → notifications d' = notifications d →
  workflow_events d' = workflow_events d →
  workflow_events_history d' = workflow_events_history d → streams d' = streams d →
  fk_valid d → fk_valid d'.
Proof.
  intros Hdom E1 E2 E3 E4 E5 [F1 F2 F3 F4 F5].
  split; intros k r; rewrite ?E1, ?E2, ?E3, ?E4, ?E5; intros Hk; apply Hdom; eauto.
Qed.

Lemma is_Some_sql_update p f (t : gmap string workflow_status_row) id :
  is_Some (sql_update p f t !! id) ↔ is_Some (t !! id).
Proof. rewrite lookup_sql_update. by rewrite fmap_is_Some. Qed.

Lemma keeps_update p f :
  ∀ d, (∀ id r, workflow_status d !! id = Some r → p id r = true →
          ws_deduplication_id (f r) = None ∨
          (ws_queue_name (f r) = ws_queue_name r ∧ ws_deduplication_id (f r) = ws_deduplication_id r)) →
  keeps schema_valid d (d <| workflow_status := sql_update p f (workflow_status d) |>).
Proof.
  intros d Hf [Hu Hfk]. split; simpl; [by apply dedup_unique_update|].
  eapply fk_valid_same_children; [..|exact Hfk]; try done.
  intros id Hid. simpl. by apply is_Some_sql_update.
Qed.

Lemma insert_workflow_row_Ok id r d d' a :
  insert_workflow_row id r d = Ok (d', a) →
  workflow_status d !! id = None ∧
  dedup_taken (workflow_status d) (ws_queue_name r) (ws_deduplication_id r) = false ∧
  d' = d <| workflow_status := <[id := r]> (workflow_status d) |>.
Proof.
  unfold insert_workflow_row. destruct (workflow_status d !! id) eqn:Hid; [done|].
  destruct (dedup_taken _ _ _) eqn:Ht; [done|]. by intros [= <- _].
Qed.

Lemma keeps_insert_workflow_row id r d d' a :
  insert_workflow_row id r d = Ok (d', a) → keeps schema_valid d d'.
Proof.
  intros (Hid & Ht & ->)%insert_workflow_row_Ok [Hu Hfk].
  split; simpl; [by apply dedup_unique_insert|].
  eapply fk_valid_same_children; [..|exact Hfk]; try done.
  intros id' Hid'. simpl. destruct (decide (id = id')) as [->|Hne];
    [rewrite lookup_insert_eq; eauto|by rewrite lookup_insert_ne].
Qed.

Lemma insert_operation_row_Ok k r d d' a :
  insert_operation_row k r d = Ok (d', a) →
  operation_outputs d !! k = None ∧ is_Some (workflow_status d !! k.1) ∧
  d' = d <| operation_outputs := <[k := r]> (operation_outputs d) |>.
Proof.
  unfold insert_operation_row, workflow_exists.
  destruct (operation_outputs d !! k); [done|]. case_bool_decide; [|done].
  by intros [= <- _].
Qed.

Lemma workflow_exists_is_Some d id : workflow_exists d id = true ↔ is_Some (workflow_status d !! id).
Proof. apply bool_decide_eq_true. Qed.

Lemma insert_stream_row_Ok k r d d' a :
  insert_stream_row k r d = Ok (d', a) →
  streams d !! k = None ∧ is_Some (workflow_status d !! k.1.1) ∧
  d' = d <| streams := <[k := r]> (streams d) |>.
Proof.
  unfold insert_stream_row, workflow_exists.
  destruct (streams d !! k); [done|]. case_bool_decide; [|done].
  by intros [= <- _].
Qed.

(** Deleting the rows of a referencing table with the workflow they name. *)
Lemma fk_cascade `{Countable K} {R} (t : gmap K R) (wf : K → R → string)
    (ws : gmap string workflow_status_row) p :
  (∀ k r, t !! k = Some r → is_Some (ws !! wf k r)) →
  ∀ k r, sql_delete (λ k r, match ws !! wf k r with Some w => p (wf k r) w | None => false end) t !! k
         = Some r →
    is_Some (sql_delete p ws !! wf k r).
Proof.
  intros Ht k r. rewrite lookup_sql_delete, bind_Some. intros (r' & Hk & Hp).
  destruct (Ht k r' Hk) as [w Hw]. rewrite Hw in Hp.
  destruct (p (wf k r') w) eqn:Hpw; simplify_eq. rewrite lookup_sql_delete, Hw. simpl.
  rewrite Hpw. eauto.
Qed.

Lemma keeps_delete_workflow_rows p d : keeps schema_valid d (delete_workflow_rows p d).
Proof.
  intros [Hu [F1 F2 F3 F4 F5]]. split; simpl; [by apply dedup_unique_delete|].
  split; simpl.
  - by apply (fk_cascade _ (λ k _, k.1)).
  - by apply (fk_cascade _ (λ _ r, no_destination_uuid r)).
  - by apply (fk_cascade _ (λ k _, k.1)).
  - by apply (fk_cascade _ (λ k _, k.1.1)).
  - by apply (fk_cascade _ (λ k _, k.1.1)).
Qed.

End fk_lemmas.

(** Step through a transaction: enter it, and take the next statement off its front. *)
Ltac move_begin := apply moves_engine_begin; [apply _|].
Ltac move_next := apply moves_bind; [apply _|eauto 10 with moves|].
