(* ===== verification/Retry.v ===== *)
(** * Retries on database failures: [dbos/_utils.py] and [db_retry] of [dbos/_sys_db.py]

    [retriable_postgres_exception] and [retriable_sqlite_exception] are the two tests of
    [dbos/_utils.py]; [db_retry] is the loop every operation of the system database is
    decorated with. What the loop is for, a server that drops a connection before or
    after the commit of a transaction, is [faulty]: a world of a database and the faults
    to come. [PollingLimiter] is the semaphore of [dbos/_utils.py]. *)
From S2P Require Import Prelude Errors Schema.

Definition retriable_postgres_exception (e : pyexn) : bool :=
  match e with
  | DBAPIError true _ _ => true
  | DBAPIError false (Some o) _ =>
      let pgcode := default "" (oe_sqlstate o) in
      str_contains "connection failed" (oe_text o)
      || str_contains "server closed the connection unexpectedly" (oe_text o)
      || oe_connection_timeout o
      || String.prefix "53" pgcode
      || String.prefix "08" pgcode
      || String.prefix "57" pgcode
  | _ => false
  end.

Definition retriable_sqlite_exception (e : pyexn) : bool :=
  str_contains "database is locked" (py_str e)
  || match e with ResourceClosedError m => str_contains "does not return rows" m | _ => false end.

Definition retriable (e : pyexn) : bool :=
  is_Exception e && (retriable_postgres_exception e || retriable_sqlite_exception e).

(** [wrapper] of [db_retry]: the call is made again while it raises a retriable
    exception. It returns the exponential backoffs slept (before their jitter), in
    milliseconds; [None] when the fuel ends before the call does. *)
Section db_retry.
Context {S A : Type} (max_backoff : Z) (func : SM S pyexn A).

Fixpoint retry_loop (fuel : nat) (backoff : Z) (s : S) : option (S * res pyexn A * list Z) :=
  match fuel with
  | O => None
  | Datatypes.S fuel' =>
      match func s with
      | (s', Ok a) => Some (s', Ok a, [])
      | (s', Err e) =>
          if negb (retriable e) then Some (s', Err e, [])
          else match retry_loop fuel' (Z.min (backoff * 2) max_backoff) s' with
               | Some (s'', r, slept) => Some (s'', r, backoff :: slept)
               | None => None
               end
      end
  end.

End db_retry.

Definition db_retry {S A} (fuel : nat) (func : SM S pyexn A) (s : S) : option (S * res pyexn A * list Z) :=
  retry_loop 60000 func fuel 1000 s.

(** The faults a transaction meets: the connection is lost before the server commits
    (nothing is done), or after (everything is, and the caller is not told). *)
Inductive fault := LostBefore | LostAfter.

Definition connection_lost : pyexn :=
  DBAPIError true None "server closed the connection unexpectedly".

(** One transaction in a world with faults to come; a call after the last fault is served.
    [m i] is the transaction as its [i]th call makes it: each call reads the clock anew. *)
Definition faulty {S A} (m : nat → SM S pyexn A) : SM (S * list fault * nat) pyexn A := λ w,
  match w with
  | (s, [], i) => let '(s', r) := m i s in ((s', [], Datatypes.S i), r)
  | (s, LostBefore :: fs, i) => ((s, fs, Datatypes.S i), Err connection_lost)
  | (s, LostAfter :: fs, i) =>
      match m i s with
      | (s', Ok _) => ((s', fs, Datatypes.S i), Err connection_lost)
      | (s', Err e) => ((s', fs, Datatypes.S i), Err e)
      end
  end.

(** What makes an operation safe under [db_retry], seen from a store [s]: every call made
    there answers [a] and leaves a store where it is [Done], and where it is done a call
    answers [a] again and leaves it done. *)
Definition retry_safe {S A} (m : nat → SM S pyexn A) (s : S) (a : A) (Done : S → Prop) : Prop :=
  (∀ i, ∃ s', m i s = (s', Ok a) ∧ Done s') ∧
  (∀ i s1, Done s1 → ∃ s2, m i s1 = (s2, Ok a) ∧ Done s2).

(** ** [PollingLimiter]

    The semaphore's permits; [None] when the limit is not positive. *)
Record PollingLimiter := { pl_limit : Z; pl_permits : option Z }.

Definition PollingLimiter_init (limit : Z) : PollingLimiter :=
  {| pl_limit := limit; pl_permits := if bool_decide (0 < limit)%Z then Some limit else None |}.

(** [__enter__]; [None] when the caller blocks. *)
Definition PollingLimiter_enter (l : PollingLimiter) : option PollingLimiter :=
  match pl_permits l with
  | None => Some l
  | Some n => if bool_decide (0 < n)%Z
              then Some {| pl_limit := pl_limit l; pl_permits := Some (n - 1)%Z |} else None
  end.

(** [__exit__]; a [BoundedSemaphore] refuses a release above its initial value. *)
Definition PollingLimiter_exit (l : PollingLimiter) : res pyexn PollingLimiter :=
  match pl_permits l with
  | None => Ok l
  | Some n => if bool_decide (n < pl_limit l)%Z
              then Ok {| pl_limit := pl_limit l; pl_permits := Some (n + 1)%Z |}
              else Err (ValueError "Semaphore released too many times")
  end.

(** The limiter and the number of callers inside it. *)
Inductive limiter_step : PollingLimiter * Z → PollingLimiter * Z → Prop :=
| limiter_enter l l' n : PollingLimiter_enter l = Some l' → limiter_step (l, n) (l', n + 1)%Z
| limiter_exit l l' n : (0 < n)%Z → PollingLimiter_exit l = Ok l' → limiter_step (l, n) (l', n - 1)%Z.

(** ** Lemmas *)

Section retry_lemmas.
Context {S A : Type}.

(** The backoffs slept are at most the cap, whatever the number of retries. *)
Lemma retry_loop_bounded (func : SM S pyexn A) cap fuel b s r :
  (0 ≤ b ≤ cap)%Z → retry_loop cap func fuel b s = Some r →
  Forall (λ z, 0 ≤ z ≤ cap)%Z r.2.
Proof.
  revert b s r. induction fuel as [|fuel IH]; intros b s r Hb; [done|]. simpl.
  destruct (func s) as [s' [a|e]]; [by intros [= <-]|].
  destruct (retriable e); [|by intros [= <-]]. simpl.
  destruct (retry_loop _ _ fuel _ s') as [[[s'' r'] slept]|] eqn:Hrec; [|done].
  intros [= <-]. simpl. constructor; [done|].
  apply (IH _ _ (s'', r', slept)) in Hrec; [done|lia].
Qed.

Lemma retry_loop_eq (func : SM S pyexn A) cap fuel b s :
  retry_loop cap func (Datatypes.S fuel) b s =
  match func s with
  | (s', Ok a) => Some (s', Ok a, [])
  | (s', Err e) =>
      if negb (retriable e) then Some (s', Err e, [])
      else match retry_loop cap func fuel (Z.min (b * 2) cap) s' with
           | Some (s'', r, slept) => Some (s'', r, b :: slept)
           | None => None
           end
  end.
Proof. done. Qed.

Lemma retriable_connection_lost : retriable connection_lost = true.
Proof. done. Qed.

End retry_lemmas.

(** The headline of the loop: whatever faults it meets, a [retry_safe] operation ends with
    its answer and is done. *)
Lemma db_retry_safe {S A} (m : nat → SM S pyexn A) s a Done fs :
  retry_safe m s a Done →
  ∃ w slept, db_retry (Datatypes.S (length fs)) (faulty m) (s, fs, 0) = Some (w, Ok a, slept) ∧
    Done w.1.1.
Proof.
  intros [Hfirst Hagain]. unfold db_retry. generalize 1000%Z as b. generalize 0 as i.
  assert (∀ i, ∃ s', m i s = (s', Ok a) ∧ Done s') as Hs by done. clear Hfirst. revert s Hs.
  induction fs as [|f fs IH]; intros s Hs i b; cbn [length]; rewrite retry_loop_eq.
  { destruct (Hs i) as (s' & Hm & Hd). simpl. rewrite Hm. eauto. }
  destruct (Hs i) as (s' & Hm & Hd). destruct f; cbn [faulty]; rewrite ?Hm, retriable_connection_lost;
    cbn [negb].
  - destruct (IH s Hs (Datatypes.S i) (Z.min (b * 2) 60000)) as (w & sl & -> & ?). eauto.
  - destruct (IH s' ltac:(eauto) (Datatypes.S i) (Z.min (b * 2) 60000)) as (w & sl & -> & ?). eauto.
Qed.

(** ** Properties *)

(** The polling limiter caps the concurrent polling reads: with a positive limit, in
    every state the callers reach by entering and leaving, at most [limit] are inside,
    the permits left are the rest, a caller is refused only when all are out, and a
    caller inside can always leave. *)
Lemma polling_limiter_bound limit l n :
  (0 < limit)%Z → rtc limiter_step (PollingLimiter_init limit, 0%Z) (l, n) →
  (0 ≤ n ≤ limit)%Z ∧ pl_permits l = Some (limit - n)%Z ∧
  (PollingLimiter_enter l = None ↔ n = limit) ∧
  ((0 < n)%Z → is_ok (PollingLimiter_exit l) = true).
Proof.
  intros Hl Hsteps.
  assert (∀ s s', rtc limiter_step s s' →
    ((0 ≤ s.2 ≤ limit)%Z ∧ pl_permits s.1 = Some (limit - s.2)%Z ∧ pl_limit s.1 = limit) →
    ((0 ≤ s'.2 ≤ limit)%Z ∧ pl_permits s'.1 = Some (limit - s'.2)%Z ∧ pl_limit s'.1 = limit)) as Hinv.
  { induction 1 as [|s1 s2 s3 Hstep _ IH]; [done|]. intros (Hn & Hp & Hlim). apply IH.
    destruct Hstep as [l0 l' n0 He|l0 l' n0 H0 He]; simpl in *.
    - unfold PollingLimiter_enter in He. rewrite Hp in He. case_bool_decide; simplify_eq. simpl.
      split_and!; [lia..|f_equal; lia|done].
    - unfold PollingLimiter_exit in He. rewrite Hp in He. case_bool_decide; simplify_eq. simpl.
      split_and!; [lia..|f_equal; lia|done]. }
  destruct (Hinv _ _ Hsteps) as (Hn & Hp & Hlim); simpl in *.
  { unfold PollingLimiter_init. rewrite bool_decide_eq_true_2 by done. simpl.
    split_and!; [lia..|f_equal; lia|done]. }
  split; [done|]. split; [done|]. unfold PollingLimiter_enter, PollingLimiter_exit. rewrite Hp, Hlim.
  split; [|intros ?; by rewrite bool_decide_eq_true_2 by lia].
  case_bool_decide; split; try done; lia.
Qed.

Lemma polling_limiter_bound_witness :
  ∃ l, rtc limiter_step (PollingLimiter_init 2, 0%Z) (l, 1%Z) ∧ pl_permits l = Some 1%Z ∧
    (PollingLimiter_enter l = None ↔ 1%Z = 2%Z).
Proof.
  assert (rtc limiter_step (PollingLimiter_init 2, 0%Z)
            ({| pl_limit := 2; pl_permits := Some 1%Z |}, 1%Z)) as H.
  { apply rtc_once. apply (limiter_enter _ _ 0). reflexivity. }
  destruct (polling_limiter_bound 2 _ _ ltac:(lia) H) as (_ & _ & He & _). eauto.
Defined.
