(* ===== verification/Serialization.v ===== *)
(** * Serialization: [dbos/_serialization.py]

    [pyval] is the space of Python values the module tells apart; [portableify] and the
    dispatch on the recorded serialization name are the module's. What the serializers
    call, [json] and [pickle], and a serializer the application supplies, are the
    operations of the class [Codecs] and of the record [Serializer]; the laws of
    [CodecLaws] are the round trips those libraries document. *)
From Stdlib Require Import Ascii.
From stdpp Require Import pretty.
From S2P Require Import Prelude Errors.

(** Python values, as [_portableify] distinguishes them. Floats are kept in thousandths;
    a [datetime] is its UTC instant in milliseconds, a [date] its ISO text and a
    [Decimal] its positional text; [POther] is any other object, by its class name. *)
Inductive pyval : Type :=
| PNone
| PBool (b : bool)
| PInt (z : Z)
| PFloat (milli : Z)
| PStr (s : string)
| PDatetime (utc_ms : Z)
| PDate (iso : string)
| PDecimal (text : string)
| PList (l : list pyval)
| PTuple (l : list pyval)
| PSet (l : list pyval)
| PDict (l : list (pyval * pyval))
| PExn (e : pyexn)
| POther (cls : string) (id : Z).

(** [class Serializer] *)
Record Serializer := {
  ser_name : string;
  ser_serialize : pyval → res pyexn string;
  ser_deserialize : string → res pyexn pyval;
}.

(** What the two built-in serializers call: [json.dumps] and [json.loads] on JSON values,
    [pickle] with [base64], [datetime.isoformat], and [float.__repr__]. *)
Class Codecs := {
  json_dumps : json → string;
  json_loads : string → res pyexn json;
  pickle_dumps : pyval → res pyexn string;
  pickle_loads : string → res pyexn pyval;
  rfc3339_utc : Z → string;
  float_repr : Z → string;
}.

(** [class WorkflowSerializationFormat] *)
Inductive WorkflowSerializationFormat := PORTABLE | NATIVE | DEFAULT.

#[export] Instance WorkflowSerializationFormat_eq_dec : EqDecision WorkflowSerializationFormat.
Proof. solve_decision. Defined.

(** [class WorkflowInputs] *)
Record WorkflowInputs := { args : list pyval; kwargs : list (string * pyval) }.

Section res_map.
Context {A B : Type} (f : A → res pyexn B).

Fixpoint res_map (l : list A) : res pyexn (list B) :=
  match l with
  | [] => Ok []
  | x :: l' =>
      match f x with
      | Err e => Err e
      | Ok y => match res_map l' with Ok l'' => Ok (y :: l'') | Err e => Err e end
      end
  end.

End res_map.

(** [json.loads] builds these Python values. *)
Fixpoint json_to_py (j : json) : pyval :=
  match j with
  | JNull => PNone
  | JBool b => PBool b
  | JInt z => PInt z
  | JMilli z => PFloat z
  | JStr s => PStr s
  | JArr l => PList (json_to_py <$> l)
  | JObj l => PDict ((λ kv, (PStr kv.1, json_to_py kv.2)) <$> l)
  end.

Section with_codecs.
Context `{Codecs}.

(** [_portableify] *)
Fixpoint portableify (v : pyval) : res pyexn json :=
  match v with
  | PNone => Ok JNull
  | PBool b => Ok (JBool b)
  | PInt z => Ok (JInt z)
  | PFloat z => Ok (JMilli z)
  | PStr s => Ok (JStr s)
  | PDatetime t => Ok (JStr (rfc3339_utc t))
  | PDate s => Ok (JStr s)
  | PDecimal s => Ok (JStr s)
  | PList l | PTuple l | PSet l =>
      match res_map portableify l with Ok l' => Ok (JArr l') | Err e => Err e end
  | PDict l =>
      match
        res_map (λ kv, match kv.1 with
                       | PStr k => match portableify kv.2 with
                                   | Ok j => Ok (k, j) | Err e => Err e end
                       | _ => Err (TypeError "Attempt to do portable JSON serialization of a map with non-string keys")
                       end) l
      with Ok l' => Ok (JObj l') | Err e => Err e end
  | PExn e => Err (TypeError ("Object of type " +:+ class_name e +:+ " is not portable JSON serializable"))
  | POther c _ => Err (TypeError ("Object of type " +:+ c +:+ " is not portable JSON serializable"))
  end.

(** [json.dumps] on a Python value: the JSON value it prints. *)
Definition json_key (k : pyval) : res pyexn string :=
  match k with
  | PStr s => Ok s
  | PInt z => Ok (pretty z)
  | PBool b => Ok (if b then "true" else "false")
  | PNone => Ok "null"
  | PFloat z => Ok (float_repr z)
  | _ => Err (TypeError "keys must be str, int, float, bool or None")
  end.

Fixpoint json_of_py (v : pyval) : res pyexn json :=
  match v with
  | PNone => Ok JNull
  | PBool b => Ok (JBool b)
  | PInt z => Ok (JInt z)
  | PFloat z => Ok (JMilli z)
  | PStr s => Ok (JStr s)
  | PList l | PTuple l =>
      match res_map json_of_py l with Ok l' => Ok (JArr l') | Err e => Err e end
  | PDict l =>
      match
        res_map (λ kv, match json_key kv.1, json_of_py kv.2 with
                       | Ok k, Ok j => Ok (k, j)
                       | Err e, _ | _, Err e => Err e end) l
      with Ok l' => Ok (JObj l') | Err e => Err e end
  | _ => Err (TypeError "Object is not JSON serializable")
  end.

Definition py_json_dumps (v : pyval) : res pyexn string :=
  match json_of_py v with Ok j => Ok (json_dumps j) | Err e => Err e end.

(** [class DBOSPortableJSONSerializer] *)
Definition DBOSPortableJSON : Serializer := {|
  ser_name := "portable_json";
  ser_serialize v := match portableify v with Ok j => Ok (json_dumps j) | Err e => Err e end;
  ser_deserialize t := match json_loads t with Ok j => Ok (json_to_py j) | Err e => Err e end;
|}.

(** [class DefaultSerializer] *)
Definition DBOSDefaultSerializer : Serializer := {|
  ser_name := "py_pickle";
  ser_serialize := pickle_dumps;
  ser_deserialize := pickle_loads;
|}.

Definition serialization_for_type (t : option WorkflowSerializationFormat) (s : Serializer) : string :=
  match t with
  | Some PORTABLE => ser_name DBOSPortableJSON
  | Some NATIVE => ser_name DBOSDefaultSerializer
  | _ => ser_name s
  end.

Definition named (t : string) (r : res pyexn string) : res pyexn (string * string) :=
  match r with Ok x => Ok (x, t) | Err e => Err e end.

Definition not_available {A} (n : string) : res pyexn A :=
  Err (TypeError ("Serialization " +:+ n +:+ " is not available")).

(** The serializer a recorded name selects, in the order the module tests the names;
    [None] when the name is not available. *)
Definition select_serializer (serialization : option string) (s : Serializer) : option Serializer :=
  match serialization with
  | Some n =>
      if bool_decide (n = ser_name DBOSPortableJSON) then Some DBOSPortableJSON
      else if bool_decide (n = ser_name DBOSDefaultSerializer) then Some DBOSDefaultSerializer
      else if bool_decide (n ≠ ser_name s) then None
      else Some s
  | None => Some s
  end.

Definition serialize_value_as (value : pyval) (serialization : option string) (s : Serializer) :
    res pyexn (string * string) :=
  match select_serializer serialization s with
  | Some s' => named (ser_name s') (ser_serialize s' value)
  | None => not_available (default "" serialization)
  end.

Definition serialize_value (value : pyval) (t : option WorkflowSerializationFormat) (s : Serializer) :
    res pyexn (string * string) :=
  serialize_value_as value (Some (serialization_for_type t s)) s.

Definition deserialize_value (serialized_value : option string) (serialization : option string)
    (s : Serializer) : res pyexn pyval :=
  match serialized_value with
  | None => Ok PNone
  | Some x =>
      match select_serializer serialization s with
      | Some s' => ser_deserialize s' x
      | None => not_available (default "" serialization)
      end
  end.

(** The dictionaries [{"namedArgs": kwargs, "positionalArgs": list(args)}] and
    [{"args": args, "kwargs": kwargs}] as Python values. *)
Definition kwargs_val (k : list (string * pyval)) : pyval := PDict ((λ kv, (PStr kv.1, kv.2)) <$> k).
Definition portable_args_val (i : WorkflowInputs) : pyval :=
  PDict [(PStr "namedArgs", kwargs_val (kwargs i)); (PStr "positionalArgs", PList (args i))].
Definition native_args_val (i : WorkflowInputs) : pyval :=
  PDict [(PStr "args", PTuple (args i)); (PStr "kwargs", kwargs_val (kwargs i))].

Definition serialize_args (i : WorkflowInputs) (t : option WorkflowSerializationFormat)
    (s : Serializer) : res pyexn (string * string) :=
  let serialization := serialization_for_type t s in
  if bool_decide (serialization = ser_name DBOSPortableJSON) then
    named (ser_name DBOSPortableJSON) (ser_serialize DBOSPortableJSON (portable_args_val i))
  else if bool_decide (serialization = ser_name DBOSDefaultSerializer) then
    named (ser_name DBOSDefaultSerializer) (ser_serialize DBOSDefaultSerializer (native_args_val i))
  else if bool_decide (serialization ≠ ser_name s) then not_available serialization
  else named (ser_name s) (ser_serialize s (native_args_val i)).

(** Python dictionary access by a string key. *)
Fixpoint dict_get (k : string) (l : list (pyval * pyval)) : option pyval :=
  match l with
  | [] => None
  | (PStr k', v) :: l' => if bool_decide (k = k') then Some v else dict_get k l'
  | _ :: l' => dict_get k l'
  end.

Fixpoint str_items (l : list (pyval * pyval)) : option (list (string * pyval)) :=
  match l with
  | [] => Some []
  | (PStr k, v) :: l' => match str_items l' with Some r => Some ((k, v) :: r) | None => None end
  | _ => None
  end.

(** The two shapes a stored input may have, read back as [WorkflowInputs]. *)
Definition portable_args_of (v : pyval) : res pyexn WorkflowInputs :=
  match v with
  | PDict l =>
      match (match dict_get "positionalArgs" l with
             | None | Some PNone => Some []
             | Some (PList a) | Some (PTuple a) => Some a
             | Some _ => None end),
            (match dict_get "namedArgs" l with
             | None | Some PNone => Some []
             | Some (PDict k) => str_items k
             | Some _ => None end) with
      | Some a, Some k => Ok {| args := a; kwargs := k |}
      | _, _ => Err (TypeError "malformed portable arguments")
      end
  | _ => Err (TypeError "malformed portable arguments")
  end.

Definition native_args_of (v : pyval) : res pyexn WorkflowInputs :=
  match v with
  | PDict l =>
      match dict_get "args" l, dict_get "kwargs" l with
      | Some (PTuple a | PList a), Some (PDict k) =>
          match str_items k with
          | Some k' => Ok {| args := a; kwargs := k' |}
          | None => Err (TypeError "malformed arguments")
          end
      | _, _ => Err (TypeError "malformed arguments")
      end
  | _ => Err (TypeError "malformed arguments")
  end.

Definition deserialize_args (serialized_value : string) (serialization : option string)
    (s : Serializer) : res pyexn WorkflowInputs :=
  match select_serializer serialization s with
  | None => not_available (default "" serialization)
  | Some s' =>
      match ser_deserialize s' serialized_value with
      | Err e => Err e
      | Ok v =>
          if bool_decide (serialization = Some (ser_name DBOSPortableJSON))
          then portable_args_of v else native_args_of v
      end
  end.

(** [_extract_code] and the structured attribute of [exception_to_workflow_error_data]:
    of the classes of [pyexn], [PortableWorkflowError] has [code] and [data] and the
    [DBOSException] family a [status_code], [403] on [DBOSNotAuthorizedError]. *)
Definition extract_code (e : pyexn) : json :=
  match e with
  | PortableWorkflowError _ _ (JInt z) _ => JInt z
  | PortableWorkflowError _ _ (JBool b) _ => JBool b
  | PortableWorkflowError _ _ (JStr s) _ => JStr s
  | DBOSNotAuthorizedError _ => JInt 403
  | _ => JNull
  end.

Definition exception_to_workflow_error_data (e : pyexn) : pyval :=
  PDict ([(PStr "name", PStr (class_name e)); (PStr "message", PStr (py_str e));
          (PStr "code", json_to_py (extract_code e))] ++
         match e with
         | PortableWorkflowError _ _ _ data => [(PStr "data", json_to_py data)]
         | _ => []
         end).

Definition serialize_exception (value : pyexn) (serialization : option string) (s : Serializer) :
    res pyexn (string * string) :=
  let serialization := Some (default (ser_name s) serialization) in
  if bool_decide (serialization = Some (ser_name DBOSPortableJSON)) then
    named (ser_name DBOSPortableJSON)
      (ser_serialize DBOSPortableJSON (exception_to_workflow_error_data value))
  else serialize_value_as (PExn value) serialization s.

Definition py_to_json (v : option pyval) : json :=
  match v with
  | Some v' => match portableify v' with Ok j => j | Err _ => JNull end
  | None => JNull
  end.

(** [PortableWorkflowError(errdata["message"], errdata["name"], errdata.get("code"),
    errdata.get("data"))] *)
Definition error_of_data (v : pyval) : res pyexn pyexn :=
  match v with
  | PDict l =>
      match dict_get "message" l, dict_get "name" l with
      | Some (PStr m), Some (PStr n) =>
          Ok (PortableWorkflowError m n (py_to_json (dict_get "code" l)) (py_to_json (dict_get "data" l)))
      | None, _ => Err (KeyError "message")
      | _, None => Err (KeyError "name")
      | _, _ => Err (TypeError "malformed error data")
      end
  | _ => Err (TypeError "malformed error data")
  end.

(** [raise v], which Python refuses for a value that is not an exception. *)
Definition as_exception (v : pyval) : pyexn :=
  match v with PExn e => e | _ => TypeError "exceptions must derive from BaseException" end.

(** The exception a recorded error stands for, as the caller raises it. *)
Definition deserialize_exception (serialized_value : string) (serialization : option string)
    (s : Serializer) : res pyexn pyexn :=
  let serialization := Some (default (ser_name s) serialization) in
  match select_serializer serialization s with
  | None => not_available (default "" serialization)
  | Some s' =>
      match ser_deserialize s' serialized_value with
      | Err e => Err e
      | Ok v =>
          if bool_decide (serialization = Some (ser_name DBOSPortableJSON))
          then error_of_data v else Ok (as_exception v)
      end
  end.

(** A value read back for introspection: the object, or the stored text when it cannot
    be deserialized. *)
Inductive safe (A : Type) := Deserialized (a : A) | RawText (t : string).
Arguments Deserialized {A} a.
Arguments RawText {A} t.

Definition safely {A} (f : string → res pyexn A) (t : option string) : option (safe A) :=
  match t with
  | None => None
  | Some x => Some (match f x with Ok a => Deserialized a | Err _ => RawText x end)
  end.

Definition safe_deserialize (s : Serializer) (serialization : option string)
    (serialized_input serialized_output serialized_exception : option string) :
    option (safe WorkflowInputs) * option (safe pyval) * option (safe pyexn) :=
  (safely (λ x, deserialize_args x serialization s) serialized_input,
   safely (λ x, deserialize_value (Some x) serialization s) serialized_output,
   safely (λ x, deserialize_exception x serialization s) serialized_exception).

Definition safe_deserialize_schedule_context (s : Serializer) (serialized_context : string) : safe pyval :=
  match ser_deserialize s serialized_context with
  | Ok v => Deserialized v
  | Err _ => RawText serialized_context
  end.

(** ** Laws *)

(** A serializer that reads back what it writes. *)
Definition round_trips (s : Serializer) : Prop :=
  ∀ v t, ser_serialize s v = Ok t → ser_deserialize s t = Ok v.

(** What [json] and [pickle] document: parsing what was printed. *)
Class CodecLaws : Prop := {
  json_round_trip j : json_loads (json_dumps j) = Ok j;
  pickle_round_trip v t : pickle_dumps v = Ok t → pickle_loads t = Ok v;
}.

(** What a value becomes when it is written and read under a serialization name. *)
Definition canonical (n : string) (v : pyval) : res pyexn pyval :=
  if bool_decide (n = ser_name DBOSPortableJSON)
  then match portableify v with Ok j => Ok (json_to_py j) | Err e => Err e end
  else Ok v.

(** A serializer whose name is one of the two reserved names is that serializer. *)
Definition honest_name (s : Serializer) : Prop :=
  (ser_name s = ser_name DBOSPortableJSON → s = DBOSPortableJSON) ∧
  (ser_name s = ser_name DBOSDefaultSerializer → s = DBOSDefaultSerializer).

End with_codecs.

(** ** Sample codecs

    A concrete [json] and [pickle], for the examples: JSON values as the digits of their
    code, and a [pickle] of strings and of application exceptions. *)
Fixpoint json_tree (j : json) : gen_tree (bool + Z + Z + string) :=
  match j with
  | JNull => GenNode 0 []
  | JBool b => GenLeaf (inl (inl (inl b)))
  | JInt z => GenLeaf (inl (inl (inr z)))
  | JMilli z => GenLeaf (inl (inr z))
  | JStr s => GenLeaf (inr s)
  | JArr l => GenNode 1 (json_tree <$> l)
  | JObj l => GenNode 2 ((λ kv, GenNode 3 [GenLeaf (inr kv.1); json_tree kv.2]) <$> l)
  end.

Fixpoint tree_json (t : gen_tree (bool + Z + Z + string)) : json :=
  match t with
  | GenLeaf (inl (inl (inl b))) => JBool b
  | GenLeaf (inl (inl (inr z))) => JInt z
  | GenLeaf (inl (inr z)) => JMilli z
  | GenLeaf (inr s) => JStr s
  | GenNode 1 l => JArr (tree_json <$> l)
  | GenNode 2 l =>
      JObj ((λ t, match t with GenNode 3 [GenLeaf (inr k); v] => (k, tree_json v) | _ => ("", JNull) end) <$> l)
  | GenNode _ _ => JNull
  end.

Fixpoint digits (p : positive) : string :=
  match p with
  | xH => "."
  | xO p' => String "0"%char (digits p')
  | xI p' => String "1"%char (digits p')
  end.

Fixpoint undigits (s : string) : option positive :=
  match s with
  | String "0"%char s' => xO <$> undigits s'
  | String "1"%char s' => xI <$> undigits s'
  | String "."%char EmptyString => Some xH
  | _ => None
  end.

Definition decode_as {A B} `{Countable A} (f : A → B) (s : string) : res pyexn B :=
  match p ← undigits s; decode p with Some x => Ok (f x) | None => Err (ValueError "malformed") end.

Definition sample_pickle (x : string + string * string) : string := digits (encode x).

Definition sample_unpickle : string → res pyexn pyval :=
  decode_as (λ x : string + string * string,
    match x with inl s => PStr s | inr (c, m) => PExn (UserException c m) end).

Definition sample_codecs : Codecs := {|
  json_dumps j := digits (encode (json_tree j));
  json_loads := decode_as tree_json;
  pickle_dumps v :=
    match v with
    | PStr s => Ok (sample_pickle (inl s))
    | PExn (UserException c m) => Ok (sample_pickle (inr (c, m)))
    | _ => Err (TypeError "cannot pickle object")
    end;
  pickle_loads := sample_unpickle;
  rfc3339_utc ms := pretty ms;
  float_repr z := pretty z;
|}.

(** A serializer of the application's own: the sample [pickle] under its name. *)
Definition sample_serializer : Serializer := {|
  ser_name := "sample";
  ser_serialize := @pickle_dumps sample_codecs;
  ser_deserialize := @pickle_loads sample_codecs;
|}.

Definition sample_inputs : WorkflowInputs :=
  {| args := [PInt 1; PTuple [PStr "a"]]; kwargs := [("k", PBool true)] |}.

(** ** Lemmas *)

(** Induction on JSON values, through the nested lists. *)
Lemma json_nested_ind (P : json → Prop) :
  P JNull → (∀ b, P (JBool b)) → (∀ z, P (JInt z)) → (∀ z, P (JMilli z)) → (∀ s, P (JStr s)) →
  (∀ l, Forall P l → P (JArr l)) → (∀ l, Forall (λ kv, P kv.2) l → P (JObj l)) → ∀ j, P j.
Proof.
  intros H1 H2 H3 H4 H5 H6 H7. fix IH 1.
  intros [| | | | |l|l]; [apply H1|apply H2|apply H3|apply H4|apply H5|apply H6|apply H7].
  - induction l as [|j l IHl]; constructor; [apply IH|apply IHl].
  - induction l as [|[k v] l IHl]; constructor; [apply IH|apply IHl].
Qed.

Lemma res_map_Forall {A B C} (f : A → res pyexn B) (g : C → A) (h : C → B) l :
  Forall (λ x, f (g x) = Ok (h x)) l → res_map f (g <$> l) = Ok (h <$> l).
Proof.
  induction 1 as [|x l Hx _ IH]; [done|]. rewrite !fmap_cons. cbn [res_map]. by rewrite Hx, IH.
Qed.

Section with_codecs_lemmas.
Context `{Codecs}.

(** A JSON value read into Python is written back as itself. *)
Lemma portableify_json_to_py j : portableify (json_to_py j) = Ok j.
Proof.
  induction j as [| | | | |l IH|l IH] using json_nested_ind; try done; simpl.
  - rewrite (res_map_Forall _ _ id l); [by rewrite list_fmap_id|done].
  - rewrite (res_map_Forall _ _ id l); [by rewrite list_fmap_id|].
    eapply Forall_impl; [exact IH|]. intros [k v] Hv. simpl in *. by rewrite Hv.
Qed.

Lemma canonical_idempotent n v w : canonical n v = Ok w → canonical n w = Ok w.
Proof.
  unfold canonical. case_bool_decide; [|congruence].
  destruct (portableify v) as [j|]; [|done]. intros [= <-]. by rewrite portableify_json_to_py.
Qed.

Lemma select_serializer_name s serialization s' :
  honest_name s → select_serializer serialization s = Some s' →
  select_serializer (Some (ser_name s')) s = Some s' ∧
  (s' = DBOSPortableJSON ∨ s' = DBOSDefaultSerializer ∨ s' = s).
Proof.
  intros [Hp Hd] Hsel.
  assert (s' = DBOSPortableJSON ∨ s' = DBOSDefaultSerializer ∨ s' = s) as Hs'.
  { destruct serialization as [n|]; simpl in Hsel; [|simplify_eq; auto].
    repeat case_bool_decide; simplify_eq; auto. }
  split; [|done]. destruct Hs' as [->|[->| ->]]; simpl; [done|done|].
  case_bool_decide; [by rewrite <- Hp|]. case_bool_decide; [by rewrite <- Hd|].
  by rewrite bool_decide_eq_false_2 by naive_solver.
Qed.

(** A value is written under the name that was asked for. *)
Lemma serialize_value_as_name s v n0 t n :
  serialize_value_as v (Some n0) s = Ok (t, n) → n = n0.
Proof.
  unfold serialize_value_as. destruct (select_serializer _ s) as [s'|] eqn:Hsel; [|done]. unfold named.
  destruct (ser_serialize s' v); [|done]. intros [= _ <-]. simpl in Hsel.
  repeat case_bool_decide; simplify_eq; symmetry; [done|done|]. apply dec_stable. tauto.
Qed.

Context `{!CodecLaws}.

Lemma DBOSPortableJSON_canonical v t :
  ser_serialize DBOSPortableJSON v = Ok t →
  ser_deserialize DBOSPortableJSON t = canonical (ser_name DBOSPortableJSON) v.
Proof.
  simpl. unfold canonical. rewrite bool_decide_eq_true_2 by done.
  destruct (portableify v) as [j|]; [|done]. intros [= <-]. by rewrite json_round_trip.
Qed.

(** Reading a value back under the name it was written under. *)
Lemma serialize_then_deserialize s v serialization t n :
  honest_name s → round_trips s →
  serialize_value_as v serialization s = Ok (t, n) →
  deserialize_value (Some t) (Some n) s = canonical n v.
Proof.
  intros Hn Hrt. unfold serialize_value_as, deserialize_value.
  destruct (select_serializer serialization s) as [s'|] eqn:Hsel; [|done].
  unfold named. destruct (ser_serialize s' v) as [x|] eqn:Hser; [|done]. intros [= <- <-].
  destruct (select_serializer_name s serialization s' Hn Hsel) as [-> Hs'].
  assert (ser_name s' = ser_name DBOSPortableJSON → s' = DBOSPortableJSON) as Hport.
  { destruct Hs' as [->|[->| ->]]; [done|done|]. apply (proj1 Hn). }
  destruct (decide (ser_name s' = ser_name DBOSPortableJSON)) as [He|Hne].
  - rewrite (Hport He) in *. by apply DBOSPortableJSON_canonical.
  - assert (round_trips s') as Hrt'.
    { destruct Hs' as [->|[->| ->]]; [done|intros ??; apply pickle_round_trip|done]. }
    rewrite (Hrt' v x Hser). unfold canonical. by rewrite bool_decide_eq_false_2.
Qed.

(** An exception in a native format is read back as it was. *)
Lemma serialize_exception_name s e serialization x n :
  serialize_exception e serialization s = Ok (x, n) → n = default (ser_name s) serialization.
Proof.
  unfold serialize_exception. case_bool_decide as Hp; [|apply serialize_value_as_name].
  injection Hp as ->. unfold named. destruct (ser_serialize _ _); [|done]. by intros [= _ <-].
Qed.

Lemma native_exception_back s e serialization x n :
  honest_name s → round_trips s → serialize_exception e serialization s = Ok (x, n) →
  n ≠ ser_name DBOSPortableJSON → deserialize_exception x (Some n) s = Ok e.
Proof.
  intros Hn Hrt Hs Hp. pose proof (serialize_exception_name s e serialization x n Hs) as Hname.
  unfold serialize_exception in Hs. rewrite bool_decide_eq_false_2 in Hs by congruence.
  pose proof (serialize_then_deserialize s _ _ _ _ Hn Hrt Hs) as Hd.
  unfold canonical in Hd. rewrite bool_decide_eq_false_2 in Hd by done.
  unfold deserialize_value in Hd. unfold deserialize_exception. cbn [default].
  destruct (select_serializer _ s) as [s'|]; [|done].
  rewrite Hd, bool_decide_eq_false_2 by (intros Hx; apply Hp; by injection Hx). done.
Qed.

Lemma res_map_Forall2 {A B} (f : A → res pyexn B) l l' :
  res_map f l = Ok l' → Forall2 (λ x y, f x = Ok y) l l'.
Proof.
  revert l'. induction l as [|x l IH]; intros l'; simpl; [intros [= <-]; constructor|].
  destruct (f x) as [y|] eqn:Hf; [|done]. destruct (res_map f l) as [l''|]; [|done].
  intros [= <-]. constructor; auto.
Qed.

Lemma str_items_kwargs (k : list (string * pyval)) : str_items ((λ kv, (PStr kv.1, kv.2)) <$> k) = Some k.
Proof. induction k as [|[x v] k IH]; [done|]. rewrite fmap_cons. simpl. by rewrite IH. Qed.

Lemma portable_name : ser_name DBOSPortableJSON = "portable_json".
Proof. done. Qed.

(** The keyword arguments of a portable input, written and read back. *)
Lemma portable_kwargs_back k j :
  portableify (kwargs_val k) = Ok j →
  ∃ k', json_to_py j = kwargs_val k' ∧
    Forall2 (λ kv kw, kv.1 = kw.1 ∧ canonical (ser_name DBOSPortableJSON) kv.2 = Ok kw.2) k k'.
Proof.
  unfold kwargs_val. cbn [portableify].
  destruct (res_map _ _) as [l|] eqn:Hl; [|done]. intros [= <-].
  apply res_map_Forall2 in Hl. exists ((λ kv, (kv.1, json_to_py kv.2)) <$> l). split.
  { simpl. f_equal. by rewrite <- list_fmap_compose. }
  rewrite Forall2_fmap_l in Hl. rewrite Forall2_fmap_r. eapply Forall2_impl; [exact Hl|].
  intros [x v] [y w]. simpl. unfold canonical. rewrite bool_decide_eq_true_2 by done.
  destruct (portableify v) as [jv|]; [|done]. by intros [= -> ->].
Qed.

Lemma portable_args_back a j :
  portableify (PList a) = Ok j →
  ∃ a', json_to_py j = PList a' ∧ Forall2 (λ v w, canonical (ser_name DBOSPortableJSON) v = Ok w) a a'.
Proof.
  simpl. destruct (res_map portableify a) as [l|] eqn:Hl; [|done]. intros [= <-].
  exists (json_to_py <$> l). split; [done|]. rewrite Forall2_fmap_r.
  eapply Forall2_impl; [exact (res_map_Forall2 _ _ _ Hl)|]. intros v jv Hv.
  unfold canonical. by rewrite bool_decide_eq_true_2, Hv.
Qed.

Lemma portableify_args i :
  portableify (portable_args_val i) =
  match portableify (kwargs_val (kwargs i)), portableify (PList (args i)) with
  | Ok jk, Ok ja => Ok (JObj [("namedArgs", jk); ("positionalArgs", ja)])
  | Err e, _ | _, Err e => Err e
  end.
Proof.
  unfold portable_args_val. generalize (kwargs_val (kwargs i)) as k, (PList (args i)) as a. intros k a.
  cbn. by destruct (portableify k), (portableify a).
Qed.

Lemma py_to_json_back j : py_to_json (Some (json_to_py j)) = j.
Proof. unfold py_to_json. by rewrite portableify_json_to_py. Qed.

End with_codecs_lemmas.

Lemma tree_json_json_tree j : tree_json (json_tree j) = j.
Proof.
  induction j as [| | | | |l IH|l IH] using json_nested_ind; try done; simpl; f_equal.
  - rewrite <- list_fmap_compose. induction IH as [|x l Hx _ IHl]; [done|].
    rewrite fmap_cons, IHl. by simpl; rewrite Hx.
  - rewrite <- list_fmap_compose. induction IH as [|[k v] l Hx _ IHl]; [done|].
    rewrite fmap_cons, IHl. simpl in *. by rewrite Hx.
Qed.

Lemma undigits_digits p : undigits (digits p) = Some p.
Proof. induction p as [p IH|p IH|]; simpl; by rewrite ?IH. Qed.

Lemma decode_as_encode {A B} `{Countable A} (f : A → B) (x : A) :
  decode_as f (digits (encode x)) = Ok (f x).
Proof. unfold decode_as. rewrite undigits_digits. simpl. by rewrite decode_encode. Qed.

Lemma sample_laws : @CodecLaws sample_codecs.
Proof.
  split.
  - intros j. cbn [json_loads json_dumps sample_codecs]. by rewrite decode_as_encode, tree_json_json_tree.
  - intros v t. cbn [pickle_dumps pickle_loads sample_codecs].
    assert (∀ x, t = sample_pickle x → sample_unpickle t = Ok (match x with
              inl s => PStr s | inr (c, m) => PExn (UserException c m) end)) as Hback
      by (intros x ->; apply (decode_as_encode (λ x, match x with inl s => _ | inr (c, m) => _ end))).
    destruct v as [| | | |s| | | | | | | |e|]; try done; [|destruct e as [| | | | | | | | | | | | | | | | | | | | | | | |c m| | | |]; try done];
      intros Ht; (rewrite (Hback (inl s)) || rewrite (Hback (inr (c, m)))); congruence.
Qed.

(** ** Properties *)

Section properties.
Context `{Codecs, !CodecLaws} (s : Serializer).
Hypothesis honest : honest_name s.
Hypothesis reads_back : round_trips s.

(** A value written under the serialization of a workflow is read back under the
    recorded name as the value that format can represent; writing that value again and
    reading it changes nothing more, so replays of replays agree. *)
Lemma value_round_trip v t x n :
  serialize_value v t s = Ok (x, n) →
  deserialize_value (Some x) (Some n) s = canonical n v ∧ n = serialization_for_type t s ∧
  ∀ w, canonical n v = Ok w → canonical n w = Ok w.
Proof.
  intros Hs. split; [by eapply serialize_then_deserialize|]. split; [|by apply canonical_idempotent].
  by eapply serialize_value_as_name.
Qed.

(** The inputs of a workflow survive their trip through the database: natively they
    are read back as they were, and in the portable format every positional and keyword
    argument is read back as JSON represents it, in order and under its name. *)
Lemma inputs_round_trip i t x n :
  serialize_args i t s = Ok (x, n) →
  ∃ i', deserialize_args x (Some n) s = Ok i' ∧
    (n ≠ ser_name DBOSPortableJSON → i' = i) ∧
    (n = ser_name DBOSPortableJSON →
     Forall2 (λ v w, canonical n v = Ok w) (args i) (args i') ∧
     Forall2 (λ kv kw, kv.1 = kw.1 ∧ canonical n kv.2 = Ok kw.2) (kwargs i) (kwargs i')).
Proof.
  assert (∀ s', ser_name s' ≠ ser_name DBOSPortableJSON → (s' = DBOSDefaultSerializer ∨ s' = s) →
    ser_serialize s' (native_args_val i) = Ok x → n = ser_name s' →
    ∃ i', deserialize_args x (Some n) s = Ok i' ∧ (n ≠ ser_name DBOSPortableJSON → i' = i) ∧
      (n = ser_name DBOSPortableJSON → False)) as Hnative.
  { intros s' Hne Hs' Hx ->. unfold deserialize_args.
    assert (select_serializer (Some (ser_name s')) s = Some s') as ->.
    { eapply (select_serializer_name s (Some (ser_name s'))); [done|]. simpl.
      destruct Hs' as [->| ->]; [done|]. rewrite bool_decide_eq_false_2 by done.
      case_bool_decide as Hd; [by rewrite <- (proj2 honest Hd)|].
      by rewrite bool_decide_eq_false_2 by naive_solver. }
    assert (ser_deserialize s' x = Ok (native_args_val i)) as ->.
    { destruct Hs' as [->| ->]; [by apply pickle_round_trip|by apply reads_back]. }
    rewrite bool_decide_eq_false_2 by naive_solver. exists i. split; [|naive_solver].
    simpl. rewrite str_items_kwargs. by destruct i. }
  unfold serialize_args. case_bool_decide as Hp.
  { unfold named. cbn [ser_serialize DBOSPortableJSON]. rewrite portableify_args.
    destruct (portableify (kwargs_val (kwargs i))) as [jk|] eqn:Hk; [|done].
    destruct (portableify (PList (args i))) as [ja|] eqn:Ha; [|done]. intros [= <- <-].
    destruct (portable_kwargs_back _ _ Hk) as (k' & Hk' & Hkw).
    destruct (portable_args_back _ _ Ha) as (a' & Ha' & Haw).
    exists {| args := a'; kwargs := k' |}. split; [|done].
    unfold deserialize_args. simpl. rewrite json_round_trip. simpl. rewrite Hk', Ha'. simpl.
    by rewrite str_items_kwargs. }
  case_bool_decide as Hd; [|case_bool_decide as Hs; [done|]].
  - unfold named. destruct (ser_serialize _ _) as [y|] eqn:Hy; [|done]. intros [= <- <-].
    destruct (Hnative DBOSDefaultSerializer) as (i' & ? & ? & ?); [done|by left|done|done|].
    exists i'. naive_solver.
  - unfold named. destruct (ser_serialize _ _) as [y|] eqn:Hy; [|done]. intros [= <- <-].
    destruct (Hnative s) as (i' & ? & ? & ?); [congruence|by right|done|done|].
    exists i'. naive_solver.
Qed.

(** An exception that is written in the portable format. *)
Lemma portable_exception_back e serialization x :
  serialize_exception e serialization s = Ok (x, ser_name DBOSPortableJSON) →
  deserialize_exception x (Some (ser_name DBOSPortableJSON)) s =
  Ok (PortableWorkflowError (py_str e) (class_name e) (extract_code e)
        (match e with PortableWorkflowError _ _ _ data => data | _ => JNull end)).
Proof.
  intros Hs. pose proof (serialize_exception_name s e serialization x _ Hs) as Hn. revert Hs.
  unfold serialize_exception. rewrite bool_decide_eq_true_2 by congruence.
  unfold named. destruct (ser_serialize _ _) as [y|] eqn:Hy; [|done]. intros [= <-].
  unfold deserialize_exception. cbn [default select_serializer].
  rewrite !bool_decide_eq_true_2 by done. rewrite (DBOSPortableJSON_canonical _ _ Hy).
  unfold canonical, exception_to_workflow_error_data. rewrite bool_decide_eq_true_2 by done.
  destruct e; simpl; rewrite ?portableify_json_to_py; simpl; rewrite ?py_to_json_back;
    try (destruct code; simpl); rewrite ?portableify_json_to_py; done.
Qed.

(** The error of a workflow or step reaches whoever waits for it: natively the
    exception itself, and in the portable format a [PortableWorkflowError] with its
    message, the name of its class, its code and its data. *)
Lemma exception_round_trip e serialization x n :
  serialize_exception e serialization s = Ok (x, n) →
  deserialize_exception x (Some n) s =
  Ok (if bool_decide (n = ser_name DBOSPortableJSON) then
        PortableWorkflowError (py_str e) (class_name e) (extract_code e)
          (match e with PortableWorkflowError _ _ _ data => data | _ => JNull end)
      else e).
Proof.
  intros Hs. case_bool_decide as Hp; [subst n; by eapply portable_exception_back|].
  by apply (native_exception_back s e serialization).
Qed.

End properties.

Lemma sample_honest : @honest_name sample_codecs sample_serializer.
Proof. split; intros H; discriminate H. Qed.

Lemma sample_reads_back : round_trips sample_serializer.
Proof. intros v t. apply (@pickle_round_trip sample_codecs sample_laws). Qed.

Lemma value_round_trip_witness :
  match @serialize_value sample_codecs (PStr "v") (Some PORTABLE) sample_serializer with
  | Ok (x, n) => n = "portable_json" ∧
      @deserialize_value sample_codecs (Some x) (Some n) sample_serializer = Ok (PStr "v")
  | Err _ => False
  end.
Proof.
  destruct (@serialize_value _ _ _ _) as [[x n]|e] eqn:Hx; [|discriminate Hx].
  destruct (@value_round_trip sample_codecs sample_laws sample_serializer sample_honest
              sample_reads_back (PStr "v") (Some PORTABLE) x n Hx) as (Hd & Hn & _).
  split; [exact Hn|]. rewrite Hd, Hn. reflexivity.
Defined.

Lemma inputs_round_trip_witness :
  match @serialize_args sample_codecs sample_inputs (Some PORTABLE) sample_serializer with
  | Ok (x, n) => ∃ i', @deserialize_args sample_codecs x (Some n) sample_serializer = Ok i'
  | Err _ => False
  end.
Proof.
  destruct (@serialize_args _ _ _ _) as [[x n]|e] eqn:Hx; [|discriminate Hx].
  destruct (@inputs_round_trip sample_codecs sample_laws sample_serializer sample_honest
    sample_reads_back sample_inputs (Some PORTABLE) x n Hx) as (i' & Hi & _).
  exists i'. exact Hi.
Defined.

Lemma exception_round_trip_witness :
  match @serialize_exception sample_codecs (UserException "MyError" "oops") None sample_serializer with
  | Ok (x, n) =>
      @deserialize_exception sample_codecs x (Some n) sample_serializer = Ok (UserException "MyError" "oops")
  | Err _ => False
  end.
Proof.
  destruct (@serialize_exception _ _ _ _) as [[x n]|e] eqn:Hx; [|discriminate Hx].
  rewrite (@exception_round_trip sample_codecs sample_laws sample_serializer sample_honest
             sample_reads_back (UserException "MyError" "oops") None x n Hx).
  assert (n = "sample") as -> by (injection Hx; intros <- _; reflexivity). reflexivity.
Defined.
