(* ===== verification/Workflows.v ===== *)
(** * The life of a workflow's row: the operations of [SystemDatabase] on [workflow_status]

    [insert_workflow_status] is the upsert every start, enqueue, dequeue and recovery of a
    workflow goes through; [update_workflow_outcome], [cancel_workflows],
    [resume_workflows], [set_workflow_delay], [debounce_delayed_workflow],
    [update_workflow_attributes] and [delete_workflows] are the other writers of
    [dbos/_sys_db.py] that are not about queues or forks, and [check_workflow_result] and
    [check_first_workflow_id] the reads that wait for a workflow's end. Every operation
    takes the database clock of its transaction, [now], in milliseconds. *)
From S2P Require Import Prelude Errors Schema Retry Serialization.

Definition INTERNAL_QUEUE_NAME : string := "_dbos_internal_queue".

(** [class WorkflowStatusInternal] *)
Record WorkflowStatusInternal := MkStatus {
  wi_workflow_uuid : string;
  wi_status : WorkflowStatusString;
  wi_name : option string;
  wi_class_name : option string;
  wi_config_name : option string;
  wi_authenticated_user : option string;
  wi_assumed_role : option string;
  wi_authenticated_roles : option string;
  wi_output : option string;
  wi_error : option string;
  wi_created_at : option Z;
  wi_updated_at : option Z;
  wi_queue_name : option string;
  wi_executor_id : option string;
  wi_app_version : option string;
  wi_app_id : option string;
  wi_recovery_attempts : option Z;
  wi_workflow_timeout_ms : option Z;
  wi_workflow_deadline_epoch_ms : option Z;
  wi_deduplication_id : option string;
  wi_priority : Z;
  wi_inputs : option string;
  wi_queue_partition_key : option string;
  wi_forked_from : option string;
  wi_parent_workflow_id : option string;
  wi_started_at_epoch_ms : option Z;
  wi_serialization : option string;
  wi_owner_xid : option string;
  wi_delay_until_epoch_ms : option Z;
  wi_attributes : option string;
  wi_schedule_name : option string;
  wi_debounce_deadline_epoch_ms : option Z;
  wi_is_debounced : bool;
}.

#[export] Instance WorkflowStatusInternal_eta : RecordEta WorkflowStatusInternal := λ s,
  MkStatus (wi_workflow_uuid s) (wi_status s) (wi_name s) (wi_class_name s) (wi_config_name s)
    (wi_authenticated_user s) (wi_assumed_role s) (wi_authenticated_roles s) (wi_output s) (wi_error s)
    (wi_created_at s) (wi_updated_at s) (wi_queue_name s) (wi_executor_id s) (wi_app_version s)
    (wi_app_id s) (wi_recovery_attempts s) (wi_workflow_timeout_ms s) (wi_workflow_deadline_epoch_ms s)
    (wi_deduplication_id s) (wi_priority s) (wi_inputs s) (wi_queue_partition_key s) (wi_forked_from s)
    (wi_parent_workflow_id s) (wi_started_at_epoch_ms s) (wi_serialization s) (wi_owner_xid s)
    (wi_delay_until_epoch_ms s) (wi_attributes s) (wi_schedule_name s) (wi_debounce_deadline_epoch_ms s)
    (wi_is_debounced s).

Definition is_enqueued_status (s : WorkflowStatusString) : bool :=
  bool_decide (s ∈ [ENQUEUED; DELAYED]).
(** [status.notin_([SUCCESS, ERROR])] *)
Definition not_complete (s : WorkflowStatusString) : bool := bool_decide (s ∉ [SUCCESS; ERROR]).

(** ** [_insert_workflow_status] *)

(** The [.values(...)] of the insert, with the table's column defaults. *)
Definition inserted_row (now : Z) (status : WorkflowStatusInternal) (owner_xid : option string) :
    workflow_status_row := {|
  ws_status := wi_status status;
  ws_name := wi_name status;
  ws_authenticated_user := wi_authenticated_user status;
  ws_assumed_role := wi_assumed_role status;
  ws_authenticated_roles := wi_authenticated_roles status;
  ws_output := wi_output status;
  ws_error := wi_error status;
  ws_executor_id := wi_executor_id status;
  ws_created_at := now;
  ws_updated_at := now;
  ws_application_version := wi_app_version status;
  ws_application_id := wi_app_id status;
  ws_class_name := wi_class_name status;
  ws_config_name := wi_config_name status;
  ws_recovery_attempts := Some (if is_enqueued_status (wi_status status) then 0 else 1)%Z;
  ws_queue_name := wi_queue_name status;
  ws_workflow_timeout_ms := wi_workflow_timeout_ms status;
  ws_workflow_deadline_epoch_ms := wi_workflow_deadline_epoch_ms status;
  ws_started_at_epoch_ms := None;
  ws_deduplication_id := wi_deduplication_id status;
  ws_inputs := wi_inputs status;
  ws_priority := wi_priority status;
  ws_queue_partition_key := wi_queue_partition_key status;
  ws_forked_from := None;
  ws_was_forked_from := false;
  ws_owner_xid := owner_xid;
  ws_parent_workflow_id := wi_parent_workflow_id status;
  ws_serialization := wi_serialization status;
  ws_delay_until_epoch_ms := wi_delay_until_epoch_ms status;
  ws_rate_limited := false;
  ws_completed_at := None;
  ws_attributes := wi_attributes status;
  ws_schedule_name := wi_schedule_name status;
  ws_debounce_deadline_epoch_ms := wi_debounce_deadline_epoch_ms status;
  ws_is_debounced := wi_is_debounced status;
|}.

(** [update_values]: what the upsert does to a row that is already there. *)
Definition existing_row (now : Z) (status : WorkflowStatusInternal) (force_execute : bool)
    (r : workflow_status_row) : workflow_status_row :=
  let r := if is_enqueued_status (ws_status r) then r
           else r <| ws_recovery_attempts :=
                      (λ n, n + (if force_execute then 1 else 0))%Z <$> ws_recovery_attempts r |> in
  let r := r <| ws_updated_at := now |> in
  if is_enqueued_status (wi_status status) then r
  else r <| ws_executor_id := wi_executor_id status |>.

(** [INSERT ... ON CONFLICT (workflow_uuid) DO UPDATE ... RETURNING] *)
Definition upsert_workflow_row (id : string) (r : workflow_status_row)
    (f : workflow_status_row → workflow_status_row) (d : db) :
    res pyexn (db * workflow_status_row) :=
  match workflow_status d !! id with
  | Some r0 => Ok (d <| workflow_status := <[id := f r0]> (workflow_status d) |>, f r0)
  | None => match insert_workflow_row id r d with
            | Ok (d', _) => Ok (d', r)
            | Err e => Err e
            end
  end.

(** [except DBAPIError]: a unique violation can only come from the deduplication ID. *)
Definition dedup_conflict (status : WorkflowStatusInternal) (e : pyexn) : pyexn :=
  match e with
  | UniqueViolation =>
      match wi_deduplication_id status, wi_queue_name status with
      | Some i, Some q => DBOSQueueDeduplicatedError (wi_workflow_uuid status) q i
      | _, _ => AssertionError ""
      end
  | _ => e
  end.

Definition py_opt (o : option string) : string := default "None" o.

(** The error message of a start that names another function. *)
Definition conflict_message (row : workflow_status_row) (status : WorkflowStatusInternal) : option string :=
  if bool_decide (ws_name row ≠ wi_name status) then
    Some ("Workflow already exists with a different function name: " +:+ py_opt (ws_name row) +:+
          ", but the provided function name is: " +:+ py_opt (wi_name status))
  else if bool_decide (ws_class_name row ≠ wi_class_name status) then
    Some ("Workflow already exists with a different class name: " +:+ py_opt (ws_class_name row) +:+
          ", but the provided class name is: " +:+ py_opt (wi_class_name status))
  else if bool_decide (ws_config_name row ≠ wi_config_name status) then
    Some ("Workflow already exists with a different config name: " +:+ py_opt (ws_config_name row) +:+
          ", but the provided config name is: " +:+ py_opt (wi_config_name status))
  else None.

(** The test that sends a workflow to the dead letter queue; comparing a [NULL]
    [recovery_attempts] is Python's [TypeError]. *)
Definition exceeds_attempts (row : workflow_status_row) (max_recovery_attempts : option Z)
    (owner_xid : option string) : res pyexn bool :=
  if not_complete (ws_status row) then
    match max_recovery_attempts with
    | None => Ok false
    | Some m =>
        match ws_recovery_attempts row with
        | None => Err (TypeError "'>' not supported between instances of 'NoneType' and 'int'")
        | Some n => Ok (bool_decide (m + 1 < n)%Z && bool_decide (owner_xid ≠ ws_owner_xid row))
        end
    end
  else Ok false.

(** The [values] of [dlq_cmd]. *)
Definition dlq_row (r : workflow_status_row) : workflow_status_row :=
  r <| ws_status := MAX_RECOVERY_ATTEMPTS_EXCEEDED |> <| ws_deduplication_id := None |>
    <| ws_started_at_epoch_ms := None |> <| ws_queue_name := None |>.

(** What the call answers, and the serialization it writes into [status]. *)
Record init_result := {
  ir_status : WorkflowStatusString;
  ir_deadline : option Z;
  ir_should_execute : bool;
  ir_serialization : option string;
}.

Definition insert_workflow_status (now : Z) (status : WorkflowStatusInternal)
    (max_recovery_attempts : option Z) (owner_xid : option string)
    (is_recovery_request is_dequeued_request : bool) : txn init_result :=
  let force_execute := is_recovery_request || is_dequeued_request in
  row ← try_except
          (execute_res (upsert_workflow_row (wi_workflow_uuid status) (inserted_row now status owner_xid)
                          (existing_row now status force_execute)))
          (λ e, Some (raise (dedup_conflict status e)));
  match conflict_message row status with
  | Some err_msg => raise (DBOSConflictingWorkflowError (wi_workflow_uuid status) err_msg)
  | None =>
      exceeded ← lift_res (exceeds_attempts row max_recovery_attempts owner_xid);
      if exceeded : bool then
        _ ← update_workflow_rows
              (λ id r, bool_decide (id = wi_workflow_uuid status) && bool_decide (ws_status r = PENDING))
              dlq_row;
        _ ← commit;
        raise (MaxRecoveryAttemptsExceededError (wi_workflow_uuid status) (default 0%Z max_recovery_attempts))
      else
        mret {| ir_status := ws_status row;
                ir_deadline := ws_workflow_deadline_epoch_ms row;
                ir_should_execute := negb (bool_decide (owner_xid ≠ ws_owner_xid row) &&
                                           negb is_dequeued_request && negb is_recovery_request);
                ir_serialization := ws_serialization row |}
  end.

Definition init_workflow (now : Z) (status : WorkflowStatusInternal)
    (max_recovery_attempts : option Z) (owner_xid : option string)
    (is_recovery_request is_dequeued_request : bool) : dbM init_result :=
  engine_begin (insert_workflow_status now status max_recovery_attempts owner_xid
                  is_recovery_request is_dequeued_request).

(** [k] recoveries in a row, the [i]th at the time [nows i] under the owner [xids i]. *)
Fixpoint recoveries (k : nat) (nows : nat → Z) (xids : nat → option string)
    (status : WorkflowStatusInternal) (m : Z) (d : db) : db :=
  match k with
  | O => d
  | S k' => (init_workflow (nows k') status (Some m) (xids k') true false
               (recoveries k' nows xids status m d)).1
  end.

(** In the caller's own transaction. *)
Definition init_workflow_with_connection (now : Z) (status : WorkflowStatusInternal)
    (max_recovery_attempts : option Z) (owner_xid : option string) : txn init_result :=
  insert_workflow_status now status max_recovery_attempts owner_xid false false.

(** ** Outcomes, cancellation, resumption *)

Definition outcome_row (now : Z) (status : WorkflowStatusString) (output error : option string)
    (r : workflow_status_row) : workflow_status_row :=
  r <| ws_status := status |> <| ws_output := output |> <| ws_error := error |>
    <| ws_deduplication_id := None |> <| ws_updated_at := now |> <| ws_completed_at := Some now |>.

Definition update_workflow_outcome (now : Z) (workflow_id : string) (status : WorkflowStatusString)
    (output error : option string) : dbM unit :=
  engine_begin (
    rowcount ← update_workflow_rows
                 (λ id r, bool_decide (id = workflow_id) && negb (bool_decide (ws_status r = CANCELLED)))
                 (outcome_row now status output error);
    if bool_decide (rowcount = 0)%Z then
      current_status ← query (λ d, ws_status <$> workflow_status d !! workflow_id);
      if bool_decide (current_status = Some CANCELLED)
      then raise (DBOSAwaitedWorkflowCancelledError workflow_id)
      else mret tt
    else mret tt).

Definition cancelled_row (now : Z) (r : workflow_status_row) : workflow_status_row :=
  r <| ws_status := CANCELLED |> <| ws_queue_name := None |> <| ws_deduplication_id := None |>
    <| ws_started_at_epoch_ms := None |> <| ws_updated_at := now |> <| ws_completed_at := Some now |>.

(** [_cancel_workflows(ids)] *)
Definition cancel_ids (now : Z) (ids : list string) : dbM unit :=
  engine_begin (
    _ ← update_workflow_rows (λ id r, bool_decide (id ∈ ids) && not_complete (ws_status r))
          (cancelled_row now);
    mret tt).

(** [_get_direct_children] *)
Definition get_direct_children (d : db) (workflow_ids : list string) : list string :=
  match workflow_ids with
  | [] => []
  | _ => (sql_select (λ _ r, sql_in (ws_parent_workflow_id r) workflow_ids) (workflow_status d)).*1
  end.

(** [child] was started by [parent]. *)
Definition child_of (d : db) (parent child : string) : Prop :=
  ∃ r, workflow_status d !! child = Some r ∧ ws_parent_workflow_id r = Some parent.

(** [id] is one of [roots] or was started, directly or not, by one of them. *)
Definition reachable_child (d : db) (roots : list string) (id : string) : Prop :=
  ∃ root, root ∈ roots ∧ rtc (child_of d) root id.

(** [get_workflow_children]. One round for each workflow at most, and a last one that
    finds none, are enough. *)
Definition children_fuel (d : db) : nat := size (workflow_status d) + 2.

Definition get_workflow_children (d : db) (workflow_id : string) : option (list string) :=
  fst <$> search (λ _, id) get_direct_children (children_fuel d) [] [workflow_id] d.

(** With [cancel_children], a level of children at a time. *)
Definition cancel_workflows (now : Z) (workflow_ids : list string) (cancel_children : bool) (d : db) :
    option db :=
  if cancel_children then
    snd <$> search (λ frontier d, (cancel_ids now frontier d).1) get_direct_children (children_fuel d)
              workflow_ids workflow_ids d
  else Some (cancel_ids now workflow_ids d).1.

Definition resumed_row (now : Z) (queue_name : option string) (r : workflow_status_row) :
    workflow_status_row :=
  r <| ws_status := ENQUEUED |> <| ws_queue_name := Some (default INTERNAL_QUEUE_NAME queue_name) |>
    <| ws_recovery_attempts := Some 0%Z |> <| ws_workflow_deadline_epoch_ms := None |>
    <| ws_deduplication_id := None |> <| ws_started_at_epoch_ms := None |>
    <| ws_updated_at := now |> <| ws_completed_at := None |>.

Definition resume_workflows (now : Z) (workflow_ids : list string) (queue_name : option string) : dbM unit :=
  engine_begin (
    _ ← update_workflow_rows (λ id r, bool_decide (id ∈ workflow_ids) && not_complete (ws_status r))
          (resumed_row now queue_name);
    mret tt).

(** ** Delays and debouncing *)

(** The delay requested, in milliseconds: [delay_seconds] is in thousandths of a second
    and [time_ms] is [time.time()]. *)
Definition resolve_delay (time_ms : Z) (delay_seconds delay_until_epoch_ms : option Z) : res pyexn Z :=
  match delay_until_epoch_ms, delay_seconds with
  | Some _, Some _ => Err (DBOSException "Specify either delay_seconds or delay_until_epoch_ms, not both")
  | Some u, None =>
      if bool_decide (u < 0)%Z then Err (DBOSException "delay_until_epoch_ms must be >= 0") else Ok u
  | None, Some s =>
      if bool_decide (s < 0)%Z then Err (DBOSException "delay_seconds must be >= 0") else Ok (time_ms + s)%Z
  | None, None => Err (DBOSException "Must specify either delay_seconds or delay_until_epoch_ms")
  end.

Definition set_workflow_delay (now time_ms : Z) (workflow_id : string)
    (delay_seconds delay_until_epoch_ms : option Z) : dbM unit :=
  resolved ← lift_res (resolve_delay time_ms delay_seconds delay_until_epoch_ms);
  engine_begin (
    _ ← update_workflow_rows (λ id r, bool_decide (id = workflow_id) && bool_decide (ws_status r = DELAYED))
          (λ r, r <| ws_delay_until_epoch_ms := Some resolved |> <| ws_updated_at := now |>);
    mret tt).

(** [class DebounceResult] *)
Record DebounceResult := {
  bounced_workflow_id : option string;
  holder_workflow_id : option string;
  holder_is_debounced : bool;
  holder_workflow_name : option string;
}.

(** [capped_delay] *)
Definition capped_delay (r : workflow_status_row) (delay_until_epoch_ms : Z) : Z :=
  match ws_debounce_deadline_epoch_ms r with
  | Some deadline => if bool_decide (deadline < delay_until_epoch_ms)%Z then deadline
                     else delay_until_epoch_ms
  | None => delay_until_epoch_ms
  end.

Definition debounce_match (workflow_name queue_name deduplication_id : string) (r : workflow_status_row) : bool :=
  sql_eq (ws_name r) workflow_name && sql_eq (ws_queue_name r) queue_name &&
  sql_eq (ws_deduplication_id r) deduplication_id && bool_decide (ws_status r = DELAYED) &&
  ws_is_debounced r.

(** [_do(c)] *)
Definition debounce_delayed_workflow (now : Z) (workflow_name queue_name deduplication_id : string)
    (delay_until_epoch_ms : Z) (inputs : string) (serialization : option string) : txn DebounceResult :=
  updated ← query (λ d, head (sql_select (λ _, debounce_match workflow_name queue_name deduplication_id)
                                (workflow_status d)).*1);
  _ ← update_workflow_rows (λ _, debounce_match workflow_name queue_name deduplication_id)
        (λ r, r <| ws_delay_until_epoch_ms := Some (capped_delay r delay_until_epoch_ms) |>
                <| ws_inputs := Some inputs |> <| ws_serialization := serialization |>
                <| ws_updated_at := now |>);
  match updated with
  | Some id =>
      mret {| bounced_workflow_id := Some id; holder_workflow_id := None;
              holder_is_debounced := false; holder_workflow_name := None |}
  | None =>
      holder ← query (λ d, head (sql_select (λ _ r, sql_eq (ws_queue_name r) queue_name &&
                                                     sql_eq (ws_deduplication_id r) deduplication_id)
                                   (workflow_status d)));
      match holder with
      | None => mret {| bounced_workflow_id := None; holder_workflow_id := None;
                        holder_is_debounced := false; holder_workflow_name := None |}
      | Some (id, r) => mret {| bounced_workflow_id := None; holder_workflow_id := Some id;
                                holder_is_debounced := ws_is_debounced r;
                                holder_workflow_name := ws_name r |}
      end
  end.

(** ** Attributes and deletion *)

Section attributes.
Context `{Codecs}.

(** [validate_workflow_attributes] of [dbos/_context.py], with the JSON text that the
    column keeps: a dictionary that [json.dumps] accepts. *)
Definition validate_workflow_attributes (attributes : option pyval) : res pyexn (option string) :=
  match attributes with
  | None => Ok None
  | Some (PDict _ as a) =>
      match py_json_dumps a with
      | Ok text => Ok (Some text)
      | Err _ => Err (DBOSException "Invalid workflow attributes. Attributes must be JSON-serializable.")
      end
  | Some _ => Err (DBOSException "Invalid workflow attributes. Attributes must be a dict.")
  end.

Definition update_workflow_attributes (now : Z) (workflow_id : string) (attributes : option pyval) : dbM unit :=
  text ← lift_res (validate_workflow_attributes attributes);
  engine_begin (
    _ ← update_workflow_rows (λ id _, bool_decide (id = workflow_id))
          (λ r, r <| ws_attributes := text |> <| ws_updated_at := now |>);
    mret tt).

End attributes.

Definition delete_workflows (workflow_ids : list string) : dbM unit :=
  engine_begin (execute (delete_workflow_rows (λ id _, bool_decide (id ∈ workflow_ids)))).

(** ** Reads *)

Definition get_workflow_status (d : db) (workflow_uuid : string) : option WorkflowStatusInternal :=
  (λ r, {|
    wi_workflow_uuid := workflow_uuid;
    wi_status := ws_status r;
    wi_name := ws_name r;
    wi_class_name := ws_class_name r;
    wi_config_name := ws_config_name r;
    wi_authenticated_user := ws_authenticated_user r;
    wi_assumed_role := ws_assumed_role r;
    wi_authenticated_roles := ws_authenticated_roles r;
    wi_output := None;
    wi_error := None;
    wi_created_at := Some (ws_created_at r);
    wi_updated_at := Some (ws_updated_at r);
    wi_queue_name := ws_queue_name r;
    wi_executor_id := ws_executor_id r;
    wi_app_version := ws_application_version r;
    wi_app_id := ws_application_id r;
    wi_recovery_attempts := ws_recovery_attempts r;
    wi_workflow_timeout_ms := ws_workflow_timeout_ms r;
    wi_workflow_deadline_epoch_ms := ws_workflow_deadline_epoch_ms r;
    wi_deduplication_id := ws_deduplication_id r;
    wi_priority := ws_priority r;
    wi_inputs := ws_inputs r;
    wi_queue_partition_key := ws_queue_partition_key r;
    wi_forked_from := ws_forked_from r;
    wi_parent_workflow_id := ws_parent_workflow_id r;
    wi_started_at_epoch_ms := ws_started_at_epoch_ms r;
    wi_serialization := ws_serialization r;
    wi_owner_xid := None;
    wi_delay_until_epoch_ms := ws_delay_until_epoch_ms r;
    wi_attributes := ws_attributes r;
    wi_schedule_name := ws_schedule_name r;
    wi_debounce_deadline_epoch_ms := ws_debounce_deadline_epoch_ms r;
    wi_is_debounced := ws_is_debounced r;
  |}) <$> workflow_status d !! workflow_uuid.

(** [_read_workflow_result_row] *)
Definition read_workflow_result_row (d : db) (workflow_id : string) :
    option (WorkflowStatusString * option string * option string * option string) :=
  (λ r, (ws_status r, ws_output r, ws_error r, ws_serialization r)) <$> workflow_status d !! workflow_id.

Section results.
Context `{Codecs} (serializer : Serializer).

(** [Ok None] is [NoResult()]. *)
Definition check_workflow_result (d : db) (workflow_id : string) : res pyexn (option pyval) :=
  match read_workflow_result_row d workflow_id with
  | Some (SUCCESS, output, _, serialization) =>
      match deserialize_value output serialization serializer with
      | Ok v => Ok (Some v)
      | Err e => Err e
      end
  | Some (ERROR, _, error, serialization) =>
      match error with
      | Some x =>
          match deserialize_exception x serialization serializer with
          | Ok e => Err e
          | Err e => Err e
          end
      | None => Err (TypeError "exceptions must derive from BaseException")
      end
  | Some (CANCELLED, _, _, _) => Err (DBOSAwaitedWorkflowCancelledError workflow_id)
  | Some (MAX_RECOVERY_ATTEMPTS_EXCEEDED, _, _, _) =>
      Err (DBOSAwaitedWorkflowMaxRecoveryAttemptsExceeded workflow_id)
  | _ => Ok None
  end.

(** [while True: ... time.sleep(polling_interval)], the database as each poll finds it. *)
Fixpoint await_workflow_result (polls : nat) (world : nat → db) (workflow_id : string) :
    option (res pyexn pyval) :=
  match polls with
  | O => None
  | S polls' =>
      match check_workflow_result (world 0) workflow_id with
      | Ok (Some v) => Some (Ok v)
      | Err e => Some (Err e)
      | Ok None => await_workflow_result polls' (λ n, world (S n)) workflow_id
      end
  end.

End results.

(** [Ok None] is [NoResult()]. *)
Definition check_first_workflow_id (d : db) (workflow_ids : list string) : res pyexn (option string) :=
  match workflow_ids with
  | [] => Err (ValueError "workflow_ids must not be empty")
  | _ => Ok (head (sql_select (λ id r, bool_decide (id ∈ workflow_ids) && negb (workflow_is_active (ws_status r)))
                     (workflow_status d)).*1)
  end.

Fixpoint await_first_workflow_id (polls : nat) (world : nat → db) (workflow_ids : list string) :
    option (res pyexn string) :=
  match polls with
  | O => None
  | S polls' =>
      match check_first_workflow_id (world 0) workflow_ids with
      | Ok (Some v) => Some (Ok v)
      | Err e => Some (Err e)
      | Ok None => await_first_workflow_id polls' (λ n, world (S n)) workflow_ids
      end
  end.

(** ** Sample data *)

(** A workflow [w] submitted under [status], for the examples. *)
Definition sample_status (id : string) (status : WorkflowStatusString) : WorkflowStatusInternal := {|
  wi_workflow_uuid := id; wi_status := status; wi_name := Some "wf"; wi_class_name := None;
  wi_config_name := None; wi_authenticated_user := None; wi_assumed_role := None;
  wi_authenticated_roles := None; wi_output := None; wi_error := None; wi_created_at := None;
  wi_updated_at := None; wi_queue_name := None; wi_executor_id := Some "exec"; wi_app_version := Some "v1";
  wi_app_id := None; wi_recovery_attempts := None; wi_workflow_timeout_ms := None;
  wi_workflow_deadline_epoch_ms := None; wi_deduplication_id := None; wi_priority := 0;
  wi_inputs := Some "[]"; wi_queue_partition_key := None; wi_forked_from := None;
  wi_parent_workflow_id := None; wi_started_at_epoch_ms := None; wi_serialization := Some "sample";
  wi_owner_xid := None; wi_delay_until_epoch_ms := None; wi_attributes := None;
  wi_schedule_name := None; wi_debounce_deadline_epoch_ms := None; wi_is_debounced := false;
|}.

Definition sample_row (id : string) (status : WorkflowStatusString) : workflow_status_row :=
  inserted_row 100 (sample_status id status) (Some "x").

Definition sample_db (rows : list (string * workflow_status_row)) : db :=
  empty_db <| workflow_status := list_to_map rows |>.

(** ** Lemmas *)

(** Run a transaction symbolically: unfold the monad, not the statements. *)
Ltac run_txn :=
  unfold engine_begin, mbind, SM_bind, mret, SM_ret, raise, lift_res, query, execute, execute_res,
    try_except, update_workflow_rows, commit; cbn [fst snd committed current].

Lemma not_complete_true s : not_complete s = true ↔ s ≠ SUCCESS ∧ s ≠ ERROR.
Proof.
  unfold not_complete. rewrite bool_decide_eq_true, !not_elem_of_cons, elem_of_nil. tauto.
Qed.

Lemma upsert_workflow_row_spec id r f d d' row :
  upsert_workflow_row id r f d = Ok (d', row) →
  d' = d <| workflow_status := <[id := row]> (workflow_status d) |> ∧
  ((∃ r0, workflow_status d !! id = Some r0 ∧ row = f r0) ∨
   (workflow_status d !! id = None ∧ row = r ∧
    dedup_taken (workflow_status d) (ws_queue_name r) (ws_deduplication_id r) = false)).
Proof.
  unfold upsert_workflow_row. destruct (workflow_status d !! id) as [r0|] eqn:Hid.
  - intros [= <- <-]. eauto.
  - destruct (insert_workflow_row id r d) as [[d0 []]|] eqn:Hins; [|done]. intros [= <- <-].
    apply insert_workflow_row_Ok in Hins as (_ & Ht & ->). eauto.
Qed.

Lemma existing_row_identity now status b r : same_identity r (existing_row now status b r).
Proof.
  unfold existing_row. by destruct (is_enqueued_status (ws_status r)), (is_enqueued_status _).
Qed.

Lemma existing_row_status now status b r :
  ws_status (existing_row now status b r) = ws_status r ∧
  ws_output (existing_row now status b r) = ws_output r ∧
  ws_error (existing_row now status b r) = ws_error r ∧
  ws_completed_at (existing_row now status b r) = ws_completed_at r ∧
  ws_queue_name (existing_row now status b r) = ws_queue_name r ∧
  ws_deduplication_id (existing_row now status b r) = ws_deduplication_id r ∧
  ws_serialization (existing_row now status b r) = ws_serialization r ∧
  ws_workflow_deadline_epoch_ms (existing_row now status b r) = ws_workflow_deadline_epoch_ms r.
Proof.
  unfold existing_row. by destruct (is_enqueued_status (ws_status r)), (is_enqueued_status _).
Qed.

(** What the writers of this file share: whatever relation on databases each statement
    keeps, the transaction keeps. *)
Lemma moves_insert_workflow_status Q `{!PreOrder Q} now status m xid b1 b2 :
  (∀ d d' row, upsert_workflow_row (wi_workflow_uuid status) (inserted_row now status xid)
                 (existing_row now status (b1 || b2)) d = Ok (d', row) → Q d d') →
  (∀ d, Q d (d <| workflow_status := sql_update
               (λ id r, bool_decide (id = wi_workflow_uuid status) && bool_decide (ws_status r = PENDING))
               dlq_row (workflow_status d) |>)) →
  moves (conn_rel Q) (insert_workflow_status now status m xid b1 b2).
Proof.
  intros Hup Hdlq. unfold insert_workflow_status. apply moves_bind; [apply _|..].
  - apply moves_try; [apply _|eauto with moves|]. intros e k [= <-]. auto with moves.
  - intros row. destruct (conflict_message row status); [auto with moves|]. move_next. intros [|]; eauto 10 with moves.
Qed.

Section writers.
Context (Q : relation db) `{!PreOrder Q}.

Lemma moves_update_only p f :
  (∀ d, Q d (d <| workflow_status := sql_update p f (workflow_status d) |>)) →
  moves Q (engine_begin (_ ← update_workflow_rows p f; mret tt)).
Proof. intros Hf. eauto with moves. Qed.

Lemma moves_update_workflow_outcome now id s o e :
  (∀ d, Q d (d <| workflow_status := sql_update
               (λ i r, bool_decide (i = id) && negb (bool_decide (ws_status r = CANCELLED)))
               (outcome_row now s o e) (workflow_status d) |>)) →
  moves Q (update_workflow_outcome now id s o e).
Proof.
  intros Hf. unfold update_workflow_outcome. move_begin. move_next. intros n.
  destruct (bool_decide (n = 0)%Z); [|auto with moves]. move_next. intros st.
  destruct (bool_decide (st = Some CANCELLED)); auto with moves.
Qed.

Lemma moves_debounce now n q i t inp ser :
  (∀ d, Q d (d <| workflow_status := sql_update (λ _, debounce_match n q i)
               (λ r, r <| ws_delay_until_epoch_ms := Some (capped_delay r t) |>
                       <| ws_inputs := Some inp |> <| ws_serialization := ser |>
                       <| ws_updated_at := now |>) (workflow_status d) |>)) →
  moves (conn_rel Q) (debounce_delayed_workflow now n q i t inp ser).
Proof.
  intros Hf. unfold debounce_delayed_workflow. move_next. intros u. move_next. intros _.
  destruct u; [auto with moves|]. move_next. intros [[? ?]|]; auto with moves.
Qed.

Lemma moves_cancel_workflows now ids c d d' :
  (∀ (ids : list string) d, Q d (d <| workflow_status := sql_update
                   (λ i r, bool_decide (i ∈ ids) && not_complete (ws_status r))
                   (cancelled_row now) (workflow_status d) |>)) →
  cancel_workflows now ids c d = Some d' → Q d d'.
Proof.
  intros Hf. assert (∀ ids d, Q d (cancel_ids now ids d).1) as Hids.
  { intros ids' d0. apply (moves_update_only _ _ (Hf ids') d0). }
  unfold cancel_workflows. destruct c; [|by intros [= <-]].
  intros ([R d''] & Hs & ->)%fmap_Some. revert Hs. generalize (children_fuel d) as fuel.
  generalize ids at 2 as fr. generalize ids as sn. intros sn fr fuel. revert sn fr d.
  induction fuel as [|fuel IH]; intros sn [|x fr] d; cbn [search];
    [by intros [= _ <-]|done|by intros [= _ <-]|].
  intros Hs. etrans; [apply Hids|by eapply IH].
Qed.

End writers.

(** *** [insert_workflow_status] on a row that is there, and on one that is not *)

Lemma conflict_message_existing now status b r :
  conflict_message (existing_row now status b r) status = conflict_message r status.
Proof.
  unfold existing_row. by destruct (is_enqueued_status (ws_status r)), (is_enqueued_status _).
Qed.

Lemma init_workflow_existing now status m xid b1 b2 d r :
  workflow_status d !! wi_workflow_uuid status = Some r → conflict_message r status = None →
  let r' := existing_row now status (b1 || b2) r in
  let d' := d <| workflow_status := <[wi_workflow_uuid status := r']> (workflow_status d) |> in
  init_workflow now status m xid b1 b2 d =
  match exceeds_attempts r' m xid with
  | Err e => (d, Err e)
  | Ok true =>
      (d <| workflow_status := <[wi_workflow_uuid status :=
              if bool_decide (ws_status r' = PENDING) then dlq_row r' else r']> (workflow_status d) |>,
       Err (MaxRecoveryAttemptsExceededError (wi_workflow_uuid status) (default 0%Z m)))
  | Ok false =>
      (d', Ok {| ir_status := ws_status r'; ir_deadline := ws_workflow_deadline_epoch_ms r';
                 ir_should_execute := negb (bool_decide (xid ≠ ws_owner_xid r') && negb b2 && negb b1);
                 ir_serialization := ws_serialization r' |})
  end.
Proof.
  intros Hr Hc r' d'. unfold init_workflow, insert_workflow_status, upsert_workflow_row.
  run_txn. rewrite Hr. cbn [fst snd committed current]. fold r' d'.
  assert (conflict_message r' status = None) as -> by (by rewrite <- Hc; apply conflict_message_existing).
  destruct (exceeds_attempts r' m xid) as [[|]|e]; try done. cbn [fst snd committed current].
  f_equal. subst d'. simpl. unfold set_field. f_equal.
  rewrite (sql_update_key (wi_workflow_uuid status) (λ r, bool_decide (ws_status r = PENDING))),
    lookup_insert_eq. simpl.
  case_bool_decide; by rewrite ?insert_insert_eq.
Qed.

Lemma init_workflow_fresh now status m xid b1 b2 d :
  workflow_status d !! wi_workflow_uuid status = None →
  dedup_taken (workflow_status d) (wi_queue_name status) (wi_deduplication_id status) = false →
  let r := inserted_row now status xid in
  init_workflow now status m xid b1 b2 d =
  (d <| workflow_status := <[wi_workflow_uuid status := r]> (workflow_status d) |>,
   Ok {| ir_status := wi_status status; ir_deadline := wi_workflow_deadline_epoch_ms status;
         ir_should_execute := true; ir_serialization := wi_serialization status |}).
Proof.
  intros Hr Ht r. unfold init_workflow, insert_workflow_status, upsert_workflow_row, insert_workflow_row.
  run_txn. rewrite Hr. simpl ws_queue_name. simpl ws_deduplication_id. rewrite Ht.
  cbn [fst snd committed current]. fold r.
  assert (conflict_message r status = None) as ->.
  { unfold conflict_message. by rewrite !bool_decide_eq_false_2 by (intros Hne; by apply Hne). }
  assert (exceeds_attempts r m xid = Ok false) as ->.
  { unfold exceeds_attempts. destruct (not_complete _), m; try done. simpl.
    by rewrite (bool_decide_eq_false_2 (xid ≠ xid)), andb_false_r by (intros Hne; by apply Hne). }
  cbn [fst snd committed current]. by rewrite (bool_decide_eq_false_2 (xid ≠ _)) by (intros Hne; by apply Hne).
Qed.

(** A start that was admitted is the start of the workflow's owner. *)
Lemma init_workflow_owner now status m xid d d' out :
  init_workflow now status m xid false false d = (d', Ok out) → ir_should_execute out = true →
  ∃ r, workflow_status d' !! wi_workflow_uuid status = Some r ∧ ws_owner_xid r = xid.
Proof.
  unfold init_workflow, insert_workflow_status. run_txn.
  destruct (upsert_workflow_row _ _ _ d) as [[d0 row]|e] eqn:Hup; cbn [fst snd committed current].
  2: done.
  destruct (conflict_message row status); [done|].
  destruct (exceeds_attempts row m xid) as [[|]|]; [done| |done]. cbn [fst snd committed current].
  intros [= <- <-]. simpl. rewrite !andb_true_r, negb_true_iff, bool_decide_eq_false.
  intros Hx. apply dec_stable in Hx. apply upsert_workflow_row_spec in Hup as (-> & _).
  exists row. simpl. by rewrite lookup_insert_eq.
Qed.

(** *** The single-row writers *)

Lemma update_workflow_outcome_eq now id s o e d :
  update_workflow_outcome now id s o e d =
  match workflow_status d !! id with
  | None => (d, Ok tt)
  | Some r =>
      if bool_decide (ws_status r = CANCELLED) then (d, Err (DBOSAwaitedWorkflowCancelledError id))
      else (d <| workflow_status := <[id := outcome_row now s o e r]> (workflow_status d) |>, Ok tt)
  end.
Proof.
  unfold update_workflow_outcome. run_txn.
  rewrite (sql_update_key id (λ r, negb (bool_decide (ws_status r = CANCELLED)))).
  rewrite (sql_count_key id (λ r, negb (bool_decide (ws_status r = CANCELLED)))).
  destruct (workflow_status d !! id) as [r|] eqn:Hr.
  - destruct (decide (ws_status r = CANCELLED)) as [Hc|Hc].
    + rewrite (bool_decide_eq_true_2 (ws_status r = _)) by done. simpl. rewrite Hr. simpl.
      rewrite bool_decide_eq_true_2 by congruence. by destruct d.
    + by rewrite (bool_decide_eq_false_2 (ws_status r = _)) by done.
  - simpl. rewrite Hr. by destruct d.
Qed.

Lemma lookup_cancel_ids now ids d id :
  workflow_status (cancel_ids now ids d).1 !! id =
  (λ r, if bool_decide (id ∈ ids) && not_complete (ws_status r) then cancelled_row now r else r)
    <$> workflow_status d !! id.
Proof. unfold cancel_ids. run_txn. simpl. by rewrite lookup_sql_update. Qed.

Lemma lookup_resume_workflows now ids q d id :
  workflow_status (resume_workflows now ids q d).1 !! id =
  (λ r, if bool_decide (id ∈ ids) && not_complete (ws_status r) then resumed_row now q r else r)
    <$> workflow_status d !! id.
Proof. unfold resume_workflows. run_txn. simpl. by rewrite lookup_sql_update. Qed.

(** *** Children *)

Lemma elem_of_get_direct_children d ids id :
  id ∈ get_direct_children d ids ↔ ∃ p, p ∈ ids ∧ child_of d p id.
Proof.
  assert (get_direct_children d ids =
          (sql_select (λ _ r, sql_in (ws_parent_workflow_id r) ids) (workflow_status d)).*1 ∨ ids = [])
    as [->| ->] by (destruct ids; auto).
  - rewrite list_elem_of_fmap. split.
    + intros ([i r] & -> & [Hr Hp]%elem_of_sql_select). unfold sql_in in Hp.
      destruct (ws_parent_workflow_id r) as [p|] eqn:Hpar; [|done].
      apply bool_decide_eq_true in Hp. exists p. split; [done|]. by exists r.
    + intros (p & Hp & r & Hr & Hpar). exists (id, r). split; [done|].
      apply elem_of_sql_select. split; [done|]. by rewrite Hpar; apply bool_decide_eq_true.
  - split; [by intros ?%elem_of_nil|]. by intros (? & ?%elem_of_nil & _).
Qed.

Lemma child_of_dom d p c : child_of d p c → c ∈ dom (workflow_status d).
Proof. intros (r & Hr & _). by apply elem_of_dom_2 in Hr. Qed.

Lemma children_fuel_enough d (seen : list string) :
  size (dom (workflow_status d) ∖ list_to_set seen) < children_fuel d.
Proof.
  unfold children_fuel. rewrite <- size_dom.
  pose proof (subseteq_size (dom (workflow_status d) ∖ list_to_set seen) (dom (workflow_status d))
                ltac:(set_solver)). lia.
Qed.

(** Cancelling does not change who started whom. *)
Lemma child_of_cancel_ids now ids d p c : child_of (cancel_ids now ids d).1 p c ↔ child_of d p c.
Proof.
  unfold child_of. rewrite lookup_cancel_ids. destruct (workflow_status d !! c) as [r|]; simpl.
  - split; intros (r' & [= <-] & Hp); eexists; (split; [done|]).
    + by destruct (_ && _).
    + by destruct (_ && _).
  - by split; intros (? & ? & _).
Qed.

(** The cascade cancels what the search visits. *)
Lemma lookup_cancel_search now fuel visited frontier d R d' :
  frontier ⊆ visited →
  search (λ fr d, (cancel_ids now fr d).1) get_direct_children fuel visited frontier d = Some (R, d') →
  ∀ i, workflow_status d' !! i =
    (λ r, if bool_decide (i ∈ frontier ∨ (i ∈ R ∧ i ∉ visited)) && not_complete (ws_status r)
          then cancelled_row now r else r) <$> workflow_status d !! i.
Proof.
  revert visited frontier d. induction fuel as [|fuel IH]; intros vis [|x fr] d Hsub; cbn [search];
    [|done| |].
  1, 2: intros [= <- <-] i; rewrite bool_decide_eq_false_2 by (rewrite elem_of_nil; tauto);
    by destruct (workflow_status d !! i).
  set (d1 := (cancel_ids now (x :: fr) d).1).
  set (new := filter (λ c, c ∉ vis) (get_direct_children d1 (x :: fr))).
  intros Hs i. assert (new ⊆ vis ++ new) as Hn by (intros y Hy; apply elem_of_app; by right).
  rewrite (IH _ _ _ Hn Hs i). subst d1. rewrite lookup_cancel_ids.
  assert (vis ++ new ⊆ R) as HR by (eapply search_grows; exact Hs).
  destruct (workflow_status d !! i) as [r|]; simpl; [|done]. f_equal.
  destruct (decide (i ∈ x :: fr)) as [Hi|Hi].
  - rewrite (bool_decide_eq_true_2 (i ∈ x :: fr)), (bool_decide_eq_true_2 (i ∈ x :: fr ∨ i ∈ R ∧ i ∉ vis)) by auto.
    rewrite (bool_decide_eq_false_2 (i ∈ new ∨ _)); [done|].
    intros [[Hni _]%list_elem_of_filter|[_ Hni]]; [by apply Hni, Hsub|].
    apply Hni, elem_of_app. left. by apply Hsub.
  - rewrite (bool_decide_eq_false_2 (i ∈ x :: fr)) by done. simpl.
    assert (bool_decide (i ∈ new ∨ i ∈ R ∧ i ∉ vis ++ new) =
            bool_decide (i ∈ x :: fr ∨ i ∈ R ∧ i ∉ vis)) as ->; [|done].
    apply bool_decide_ext. rewrite elem_of_app. split.
    + intros [Hni|[? ?]]; [|tauto]. right. split; [apply HR, elem_of_app; by right|].
      by apply list_elem_of_filter in Hni as [? _].
    + intros [?|[? ?]]; [done|]. destruct (decide (i ∈ new)); tauto.
Qed.

(** *** Recovery *)

Lemma conflict_message_identity r r' status :
  same_identity r r' → conflict_message r' status = conflict_message r status.
Proof. unfold same_identity, conflict_message. by intros [= -> -> -> _ _ _ _ _]. Qed.

Lemma existing_row_owner now status b r : ws_owner_xid (existing_row now status b r) = ws_owner_xid r.
Proof. pose proof (existing_row_identity now status b r) as Hid. by injection Hid. Qed.

Lemma existing_row_attempts now status r n :
  ws_status r = PENDING → ws_recovery_attempts r = Some n →
  ws_recovery_attempts (existing_row now status true r) = Some (n + 1)%Z.
Proof.
  intros Hp Hn. unfold existing_row. rewrite Hp. simpl.
  destruct (is_enqueued_status (wi_status status)); simpl; by rewrite Hn.
Qed.

(** The row while a pending workflow is recovered: it counts the attempts. *)
Lemma recoveries_row k nows xids status m d r :
  workflow_status d !! wi_workflow_uuid status = Some r → conflict_message r status = None →
  ws_status r = PENDING → ws_recovery_attempts r = Some 1%Z → (Z.of_nat k ≤ m)%Z →
  ∃ rk, workflow_status (recoveries k nows xids status m d) !! wi_workflow_uuid status = Some rk ∧
    conflict_message rk status = None ∧ ws_status rk = PENDING ∧
    ws_recovery_attempts rk = Some (1 + Z.of_nat k)%Z ∧ ws_owner_xid rk = ws_owner_xid r.
Proof.
  intros Hr Hc Hp Ha. induction k as [|k IH]; intros Hk; [by exists r|].
  destruct (IH ltac:(lia)) as (rk & Hrk & Hck & Hpk & Hak & Hok). cbn [recoveries].
  rewrite (init_workflow_existing _ _ _ _ _ _ _ rk Hrk Hck). cbn [orb]. cbv zeta.
  set (r' := existing_row (nows k) status true rk).
  assert (ws_status r' = PENDING) as Hp' by (rewrite <- Hpk; apply existing_row_status).
  assert (ws_recovery_attempts r' = Some (1 + Z.of_nat (S k))%Z) as Ha'.
  { subst r'. rewrite (existing_row_attempts _ _ _ _ Hpk Hak). f_equal. lia. }
  assert (exceeds_attempts r' (Some m) (xids k) = Ok false) as ->.
  { unfold exceeds_attempts. rewrite Hp', Ha'. simpl. by rewrite bool_decide_eq_false_2 by lia. }
  simpl. exists r'. rewrite lookup_insert_eq. repeat split; try done.
  - rewrite <- Hck. apply conflict_message_identity, existing_row_identity.
  - rewrite <- Hok. apply existing_row_owner.
Qed.

(** *** The cascade *)

Lemma cancel_search_facts now ids d :
  ∃ R d', search (λ fr d, (cancel_ids now fr d).1) get_direct_children (children_fuel d) ids ids d
          = Some (R, d') ∧ ∀ y, y ∈ R ↔ y ∈ ids ∨ ∃ x, x ∈ ids ∧ tc (child_of d) x y.
Proof.
  set (I := λ d', ∀ p c, child_of d' p c ↔ child_of d p c).
  assert (∀ xs s, I s → I (cancel_ids now xs s).1) as HvI.
  { intros xs s Hs p c. rewrite child_of_cancel_ids. apply Hs. }
  assert (∀ s xs y, I s → y ∈ get_direct_children s xs ↔ ∃ x, x ∈ xs ∧ child_of d x y) as Hkids.
  { intros s xs y Hs. rewrite elem_of_get_direct_children. unfold I in Hs. by setoid_rewrite Hs. }
  destruct (search_total _ get_direct_children I (child_of d) (dom (workflow_status d)) HvI Hkids
              (child_of_dom d) (children_fuel d) ids ids d) as [[R d'] Hs];
    [by intros ??|apply children_fuel_enough|].
  exists R, d'. split; [exact Hs|].
  eapply (search_reachable _ _ I (child_of d) HvI Hkids _ ids ids d R d'); [by intros ??|exact Hs|done].
Qed.

Lemma reachable_child_tc d ids i :
  reachable_child d ids i ↔ i ∈ ids ∨ ∃ x, x ∈ ids ∧ tc (child_of d) x i.
Proof.
  unfold reachable_child. split.
  - intros (x & Hx & [->|Hxi]%rtc_tc); eauto.
  - intros [Hi|(x & Hx & Hxi)]; [by exists i|]. exists x. split; [done|by apply tc_rtc].
Qed.

Lemma check_workflow_result_success `{Codecs} serializer d id r :
  workflow_status d !! id = Some r → ws_status r = SUCCESS →
  check_workflow_result serializer d id =
  match deserialize_value (ws_output r) (ws_serialization r) serializer with
  | Ok v => Ok (Some v)
  | Err e => Err e
  end.
Proof.
  intros Hr Hs. unfold check_workflow_result, read_workflow_result_row. rewrite Hr. cbn. by rewrite Hs.
Qed.

(** *** Properties *)

(** C12: a pending workflow with a budget of [m] recoveries is executed by each of its
    first [m] recoveries, which leave it with one attempt more each, so the last of them with
    [m + 1]; the next one parks it in the dead letter queue
    ([MAX_RECOVERY_ATTEMPTS_EXCEEDED], off its queue, its deduplication ID released) and
    raises, and this is committed although the call raises. *)
Theorem recovery_budget status m nows xids d r :
  workflow_status d !! wi_workflow_uuid status = Some r → conflict_message r status = None →
  ws_status r = PENDING → ws_recovery_attempts r = Some 1%Z → (0 ≤ m)%Z →
  (∀ k, xids k ≠ ws_owner_xid r) →
  (∀ k, (Z.of_nat k < m)%Z → ∃ out,
     (init_workflow (nows k) status (Some m) (xids k) true false (recoveries k nows xids status m d)).2
       = Ok out ∧ ir_should_execute out = true ∧ ir_status out = PENDING ∧
     ∃ r', workflow_status (recoveries (S k) nows xids status m d) !! wi_workflow_uuid status = Some r' ∧
       ws_status r' = PENDING ∧ ws_recovery_attempts r' = Some (Z.of_nat k + 2)%Z) ∧
  (let k := Z.to_nat m in
   (init_workflow (nows k) status (Some m) (xids k) true false (recoveries k nows xids status m d)).2
     = Err (MaxRecoveryAttemptsExceededError (wi_workflow_uuid status) m) ∧
   ∃ r', workflow_status (recoveries (S k) nows xids status m d) !! wi_workflow_uuid status = Some r' ∧
     ws_status r' = MAX_RECOVERY_ATTEMPTS_EXCEEDED ∧ ws_queue_name r' = None ∧
     ws_deduplication_id r' = None).
Proof.
  intros Hr Hc Hp Ha Hm Hx. split.
  - intros k Hk.
    destruct (recoveries_row k nows xids status m d r Hr Hc Hp Ha ltac:(lia)) as (rk & Hrk & Hck & Hpk & Hak & Hok).
    rewrite (init_workflow_existing _ _ _ _ _ _ _ rk Hrk Hck). cbn [orb]. cbv zeta.
    destruct (existing_row_status (nows k) status true rk) as (Hst & _).
    unfold exceeds_attempts. rewrite Hst, Hpk. simpl.
    rewrite (existing_row_attempts _ _ _ _ Hpk Hak).
    rewrite bool_decide_eq_false_2 by lia. simpl. eexists. split; [done|]. simpl.
    split; [by rewrite ?Hst, andb_false_r|]. split; [by rewrite ?Hst|].
    destruct (recoveries_row (S k) nows xids status m d r Hr Hc Hp Ha ltac:(lia)) as (r' & Hr' & _ & Hp' & Ha' & _).
    exists r'. split_and!; [done..|]. rewrite Ha'. f_equal. lia.
  - intros k.
    destruct (recoveries_row k nows xids status m d r Hr Hc Hp Ha ltac:(lia)) as (rk & Hrk & Hck & Hpk & Hak & Hok).
    cbn [recoveries]. rewrite (init_workflow_existing _ _ _ _ _ _ _ rk Hrk Hck). cbn [orb]. cbv zeta.
    set (r' := existing_row (nows k) status true rk).
    destruct (existing_row_status (nows k) status true rk) as (Hst & _). fold r' in Hst.
    assert (exceeds_attempts r' (Some m) (xids k) = Ok true) as ->.
    { unfold exceeds_attempts, r'. rewrite (existing_row_attempts _ _ _ _ Hpk Hak), existing_row_owner.
      fold r'. rewrite Hst, Hpk, Hok. simpl. by rewrite !bool_decide_eq_true_2 by (done || lia). }
    split; [done|]. simpl. rewrite lookup_insert_eq, Hst, Hpk.
    rewrite bool_decide_eq_true_2 by done. eexists. done.
Qed.

(** Starting a workflow is safe under [db_retry]: whatever connections are lost before
    or after the commit, a start that would be admitted ends with the answer of its first
    attempt, [should_execute] included, and with exactly one attempt counted; only the
    time of the last update tells the retries apart. *)
Lemma init_workflow_retried nows status m xid d fs :
  workflow_status d !! wi_workflow_uuid status = None →
  dedup_taken (workflow_status d) (wi_queue_name status) (wi_deduplication_id status) = false →
  let out := {| ir_status := wi_status status; ir_deadline := wi_workflow_deadline_epoch_ms status;
                ir_should_execute := true; ir_serialization := wi_serialization status |} in
  ∃ w slept created updated,
    db_retry (S (length fs)) (faulty (λ i, init_workflow (nows i) status m xid false false)) (d, fs, 0)
      = Some (w, Ok out, slept) ∧
    w.1.1 = d <| workflow_status := <[wi_workflow_uuid status :=
              (inserted_row created status xid) <| ws_updated_at := updated |>]> (workflow_status d) |>.
Proof.
  intros Hn Ht out.
  set (Done d' := ∃ created updated, d' = d <| workflow_status := <[wi_workflow_uuid status :=
              (inserted_row created status xid) <| ws_updated_at := updated |>]> (workflow_status d) |>).
  assert (retry_safe (λ i, init_workflow (nows i) status m xid false false) d out Done) as Hsafe.
  { split.
    - intros i. rewrite (init_workflow_fresh (nows i)) by done. eexists. split; [done|].
      by exists (nows i), (nows i).
    - intros i d1 (t0 & t1 & ->). set (r1 := (inserted_row t0 status xid) <| ws_updated_at := t1 |>).
      set (d1 := d <| workflow_status := <[wi_workflow_uuid status := r1]> (workflow_status d) |>).
      assert (workflow_status d1 !! wi_workflow_uuid status = Some r1) as Hr1
        by (simpl; apply lookup_insert_eq).
      assert (conflict_message r1 status = None) as Hc.
      { unfold conflict_message. by rewrite !bool_decide_eq_false_2 by (intros Hne; by apply Hne). }
      rewrite (init_workflow_existing (nows i) status m xid false false d1 r1 Hr1 Hc).
      cbn [orb]. cbv zeta. set (r2 := existing_row (nows i) status false r1).
      assert (r2 = (inserted_row t0 status xid) <| ws_updated_at := nows i |>) as Hr2.
      { subst r2 r1. unfold existing_row. simpl.
        destruct (is_enqueued_status (wi_status status)) eqn:He; [done|].
        unfold inserted_row. by rewrite He. }
      assert (exceeds_attempts r2 m xid = Ok false) as ->.
      { rewrite Hr2. unfold exceeds_attempts. destruct (not_complete _), m; try done. simpl.
        by rewrite (bool_decide_eq_false_2 (xid ≠ xid)), andb_false_r by (intros Hne; by apply Hne). }
      eexists. split.
      + rewrite Hr2. simpl. by rewrite (bool_decide_eq_false_2 (xid ≠ xid)) by (intros Hne; by apply Hne).
      + exists t0, (nows i). unfold d1, set_field. simpl. by rewrite insert_insert_eq. }
  destruct (db_retry_safe _ _ _ _ fs Hsafe) as (w & slept & Hw & created & updated & Hd). eauto 10.
Qed.

(** C28: cancelling with [cancel_children] ends, and it cancels exactly the workflows of
    the call and their descendants that are not complete: those rows leave their queue
    and release their deduplication ID, and every other row is untouched. *)
Theorem cancel_cascade now ids d :
  ∃ d', cancel_workflows now ids true d = Some d' ∧
    ∀ i r, workflow_status d !! i = Some r →
      (reachable_child d ids i → not_complete (ws_status r) = true →
         workflow_status d' !! i = Some (cancelled_row now r)) ∧
      (¬ reachable_child d ids i ∨ not_complete (ws_status r) = false →
         workflow_status d' !! i = Some r).
Proof.
  destruct (cancel_search_facts now ids d) as (R & d' & Hs & HR).
  exists d'. unfold cancel_workflows. rewrite Hs. split; [done|]. intros i r Hr.
  rewrite (lookup_cancel_search _ _ _ _ _ _ _ (reflexivity ids) Hs i), Hr. simpl.
  assert ((i ∈ ids ∨ (i ∈ R ∧ i ∉ ids)) ↔ reachable_child d ids i) as Hiff.
  { rewrite reachable_child_tc, HR. destruct (decide (i ∈ ids)); tauto. }
  split; [intros Hreach ->|intros [Hreach| ->]].
  - by rewrite bool_decide_eq_true_2 by tauto.
  - by rewrite bool_decide_eq_false_2 by tauto.
  - by rewrite andb_false_r.
Qed.

(** [get_workflow_children] ends, and it lists exactly the workflows that the given
    one started, directly or not; a cycle of parent links does not keep it running. *)
Lemma get_workflow_children_reachable d workflow_id :
  ∃ R, get_workflow_children d workflow_id = Some R ∧
    ∀ i, i ∈ R ↔ tc (child_of d) workflow_id i.
Proof.
  assert (∀ s xs y, s = d → y ∈ get_direct_children s xs ↔ ∃ x, x ∈ xs ∧ child_of d x y) as Hkids.
  { intros s xs y ->. apply elem_of_get_direct_children. }
  assert (∀ (xs : list string) (s : db), s = d → id s = d) as HvI by (by intros ?? ->).
  destruct (search_total (λ _, id) get_direct_children (λ s, s = d) (child_of d) (dom (workflow_status d))
              HvI Hkids (child_of_dom d) (children_fuel d) [] [workflow_id] d) as [[R d'] Hs];
    [done|apply children_fuel_enough|].
  exists R. unfold get_workflow_children. rewrite Hs. split; [done|]. intros i.
  rewrite (search_reachable (λ _, id) _ (λ s, s = d) (child_of d) HvI Hkids _ _ _ d R d' eq_refl Hs)
    by (intros ? ?%elem_of_nil; done).
  rewrite elem_of_nil. split; [intros [[]|(x & ->%list_elem_of_singleton & ?)]; done|].
  intros Hi. right. exists workflow_id. split; [by apply list_elem_of_singleton|done].
Qed.

Section outcome_properties.
Context `{Codecs, !CodecLaws} (serializer : Serializer).

(** What a workflow returned is what every reader of its result gets: the output that
    was serialized and recorded is read back (as its serialization represents it). But a
    workflow that was cancelled cannot complete: recording its outcome raises and
    changes nothing, and its readers are told that it was cancelled. *)
Lemma outcome_reaches_readers now now' id v t n d r :
  workflow_status d !! id = Some r → not_complete (ws_status r) = true → ws_status r ≠ CANCELLED →
  honest_name serializer → round_trips serializer →
  serialize_value_as v (ws_serialization r) serializer = Ok (t, n) → ws_serialization r = Some n →
  (let d' := (update_workflow_outcome now id SUCCESS (Some t) None d).1 in
   check_workflow_result serializer d' id =
     match canonical n v with Ok w => Ok (Some w) | Err e => Err e end) ∧
  (let d' := (cancel_ids now [id] d).1 in
   update_workflow_outcome now' id SUCCESS (Some t) None d' = (d', Err (DBOSAwaitedWorkflowCancelledError id)) ∧
   check_workflow_result serializer d' id = Err (DBOSAwaitedWorkflowCancelledError id)).
Proof.
  intros Hr Hnc Hc Hn Hrt Hser Hrn. split; cbv zeta.
  - rewrite update_workflow_outcome_eq, Hr, bool_decide_eq_false_2 by done. simpl.
    rewrite (check_workflow_result_success _ _ _ (outcome_row now SUCCESS (Some t) None r));
      [|apply lookup_insert_eq|done].
    change (ws_output _) with (Some t). change (ws_serialization _) with (ws_serialization r).
    by rewrite Hrn, (serialize_then_deserialize serializer v (ws_serialization r) t n Hn Hrt Hser).
  - assert (workflow_status (cancel_ids now [id] d).1 !! id = Some (cancelled_row now r)) as Hr'.
    { rewrite lookup_cancel_ids, Hr. simpl.
      by rewrite bool_decide_eq_true_2, Hnc by (by apply list_elem_of_singleton). }
    split.
    + rewrite update_workflow_outcome_eq, Hr'. by rewrite bool_decide_eq_true_2.
    + unfold check_workflow_result, read_workflow_result_row. by rewrite Hr'.
Qed.

(** Waiting for a result ends once the workflow has ended: if from some moment on the
    workflow is in a final status, a wait that polls past that moment returns, and what it
    returns is what the first poll that found the workflow ended read. *)
Lemma await_workflow_result_returns world id n polls :
  n < polls →
  (∃ r, workflow_status (world n) !! id = Some r ∧ workflow_is_active (ws_status r) = false) →
  ∃ k r, k ≤ n ∧ await_workflow_result serializer polls world id = Some r ∧
    check_workflow_result serializer (world k) id =
      (match r with Ok v => Ok (Some v) | Err e => Err e end) ∧
    (∀ j, j < k → check_workflow_result serializer (world j) id = Ok None).
Proof.
  revert world polls. induction n as [|n IH]; intros world polls Hlt (r & Hr & Hact);
    (destruct polls as [|polls]; [lia|]); simpl.
  - assert (check_workflow_result serializer (world 0) id ≠ Ok None) as Hne.
    { unfold check_workflow_result, read_workflow_result_row. rewrite Hr. simpl.
      destruct (ws_status r); try done; [destruct (deserialize_value _ _ _); done|].
      destruct (ws_error r); [destruct (deserialize_exception _ _ _)|]; done. }
    destruct (check_workflow_result serializer (world 0) id) as [[v|]|e] eqn:Hc; [|done|].
    + exists 0, (Ok v). split_and!; [lia|done|done|lia].
    + exists 0, (Err e). split_and!; [lia|done|done|lia].
  - destruct (check_workflow_result serializer (world 0) id) as [[v|]|e] eqn:Hc.
    + exists 0, (Ok v). split_and!; [lia|done|done|lia].
    + destruct (IH (λ n, world (S n)) polls ltac:(lia) (ex_intro _ r (conj Hr Hact)))
        as (k & r' & Hk & Ha & Hck & Hj).
      exists (S k), r'. split_and!; [lia|done|done|]. intros [|j] Hlt'; [done|]. apply Hj. lia.
    + exists 0, (Err e). split_and!; [lia|done|done|lia].
Qed.

End outcome_properties.

(** Bouncing a debounced workflow: the row of the key, if it is a delayed debounced
    workflow of that name, gets the new inputs and a delay that never passes its debounce
    deadline, and no other row changes; otherwise nothing changes and the answer names
    the row that holds the key, if any. *)
Lemma debounce_delayed_workflow_spec now n q i t inp ser c :
  dedup_unique (workflow_status (current c)) →
  match debounce_delayed_workflow now n q i t inp ser c with
  | (c', Ok out) =>
      committed c' = committed c ∧
      match bounced_workflow_id out with
      | Some id => ∃ r r', workflow_status (current c) !! id = Some r ∧
          ws_queue_name r = Some q ∧ ws_deduplication_id r = Some i ∧ ws_name r = Some n ∧
          ws_status r = DELAYED ∧
          workflow_status (current c') = <[id := r']> (workflow_status (current c)) ∧
          ws_inputs r' = Some inp ∧ ws_serialization r' = ser ∧
          (∃ t', ws_delay_until_epoch_ms r' = Some t' ∧ (t' ≤ t)%Z ∧
             ∀ dl, ws_debounce_deadline_epoch_ms r = Some dl → (t' ≤ dl)%Z)
      | None => current c' = current c ∧
          ∀ id r, workflow_status (current c) !! id = Some r →
            ws_queue_name r = Some q → ws_deduplication_id r = Some i →
            holder_workflow_id out = Some id ∧ holder_is_debounced out = ws_is_debounced r ∧
            holder_workflow_name out = ws_name r
      end
  | (_, Err _) => False
  end.
Proof.
  intros Hu. unfold debounce_delayed_workflow. run_txn.
  set (t0 := workflow_status (current c)) in *. set (p := λ _ : string, debounce_match n q i).
  assert (∀ id r, t0 !! id = Some r → p id r = true → ws_name r = Some n ∧ ws_queue_name r = Some q ∧
            ws_deduplication_id r = Some i ∧ ws_status r = DELAYED) as Hp.
  { intros id r _. unfold p, debounce_match, sql_eq. rewrite !andb_true_iff, !bool_decide_eq_true. tauto. }
  destruct (sql_select p t0) as [|[id r] l] eqn:Hsel; cbn [fmap list_fmap head fst].
  - rewrite (sql_update_none _ _ _ Hsel). cbn [fst snd committed current workflow_status].
    change (workflow_status (_ <| workflow_status := t0 |>)) with t0.
    destruct (head (sql_select _ t0)) as [[id r]|] eqn:Hh; cbn [fst snd committed current].
    + apply head_sql_select in Hh as [Hr Hk]. unfold sql_eq in Hk.
      rewrite andb_true_iff, !bool_decide_eq_true in Hk. destruct Hk as [Hq Hi].
      split; [done|]. simpl. split; [by destruct (current c)|].
      intros id' r' Hr' Hq' Hi'. assert (id' = id) as -> by (by eapply Hu).
      by rewrite Hr in Hr'; simplify_eq.
    + split; [done|]. simpl. split; [by destruct (current c)|]. intros id' r' Hr' Hq' Hi'.
      apply head_None in Hh. rewrite sql_select_nil in Hh. specialize (Hh id' r' Hr').
      unfold sql_eq in Hh. by rewrite !bool_decide_eq_true_2 in Hh.
  - assert ((id, r) ∈ sql_select p t0) as [Hr Hpr]%elem_of_sql_select by (rewrite Hsel; left).
    destruct (Hp id r Hr Hpr) as (Hn & Hq & Hi & Hs).
    rewrite (sql_update_unique p _ t0 id r Hr Hpr).
    2: { intros id' r' Hr' Hp'. destruct (Hp id' r' Hr' Hp') as (_ & ? & ? & _). by eapply Hu. }
    split; [done|]. simpl. exists r. eexists. split_and!; try done.
    simpl. eexists. split; [done|]. unfold capped_delay.
    destruct (ws_debounce_deadline_epoch_ms r) as [dl|]; [|split; [lia|done]].
    case_bool_decide; split; try lia; intros ? [= <-]; lia.
Qed.

(** ** Witnesses *)

Lemma recovery_budget_witness :
  let d := sample_db [("w", sample_row "w" PENDING)] in
  (init_workflow 7 (sample_status "w" PENDING) (Some 2%Z) (Some "y") true false
     (recoveries 2 (λ _, 7%Z) (λ _, Some "y") (sample_status "w" PENDING) 2 d)).2 =
  Err (MaxRecoveryAttemptsExceededError "w" 2).
Proof.
  refine (proj1 (proj2 (recovery_budget (sample_status "w" PENDING) 2 (λ _, 7%Z) (λ _, Some "y")
    (sample_db [("w", sample_row "w" PENDING)]) (sample_row "w" PENDING) _ _ _ _ _ _)));
    try reflexivity; [lia|intros _; discriminate].
Defined.

Lemma init_workflow_retried_witness :
  ∃ w slept created updated,
    db_retry 3 (faulty (λ i, init_workflow (Z.of_nat i) (sample_status "w" PENDING) None (Some "x") false false))
      (empty_db, [LostAfter; LostBefore], 0) = Some (w, Ok {| ir_status := PENDING; ir_deadline := None;
         ir_should_execute := true; ir_serialization := Some "sample" |}, slept) ∧
    w.1.1 = empty_db <| workflow_status := <["w" :=
       (inserted_row created (sample_status "w" PENDING) (Some "x")) <| ws_updated_at := updated |>]> ∅ |>.
Proof.
  exact (init_workflow_retried Z.of_nat (sample_status "w" PENDING) None (Some "x") empty_db
           [LostAfter; LostBefore] eq_refl eq_refl).
Defined.

Lemma outcome_reaches_readers_witness :
  let d := sample_db [("w", sample_row "w" PENDING)] in
  @check_workflow_result sample_codecs sample_serializer
    (update_workflow_outcome 9 "w" SUCCESS (Some (sample_pickle (inl "out"))) None d).1 "w" = Ok (Some (PStr "out")).
Proof.
  refine (proj1 (@outcome_reaches_readers sample_codecs sample_laws sample_serializer 9 10 "w" (PStr "out")
    (sample_pickle (inl "out")) "sample" (sample_db [("w", sample_row "w" PENDING)]) (sample_row "w" PENDING)
    _ _ _ sample_honest sample_reads_back _ _)); try reflexivity. discriminate.
Defined.

Lemma await_workflow_result_returns_witness :
  let world n := sample_db [("w", sample_row "w" (if n <? 2 then PENDING else CANCELLED))] in
  ∃ r, @await_workflow_result sample_codecs sample_serializer 3 world "w" = Some r.
Proof.
  intros world.
  destruct (@await_workflow_result_returns sample_codecs sample_serializer world "w" 2 3) as (k & r & _ & H & _);
    [lia|exists (sample_row "w" CANCELLED); split; reflexivity|]. exists r. exact H.
Defined.

Lemma debounce_delayed_workflow_spec_witness :
  let r := (sample_row "w" DELAYED) <| ws_queue_name := Some "q" |> <| ws_deduplication_id := Some "k" |>
             <| ws_is_debounced := true |> <| ws_debounce_deadline_epoch_ms := Some 150%Z |> in
  let d := sample_db [("w", r)] in
  dedup_unique (workflow_status d) ∧
  match debounce_delayed_workflow 110 "wf" "q" "k" 200 "[1]" None (Conn d d) with
  | (c', Ok out) => committed c' = d ∧ bounced_workflow_id out = Some "w"
  | _ => False
  end.
Proof.
  intros r d. assert (dedup_unique (workflow_status d)) as Hu.
  { intros id1 id2 r1 r2 q i H1 H2 _ _ _ _. unfold d, sample_db in H1, H2. simpl in H1, H2.
    apply lookup_insert_Some in H1 as [[<- _]|[_ H1]]; [|by rewrite lookup_empty in H1].
    apply lookup_insert_Some in H2 as [[<- _]|[_ H2]]; [done|by rewrite lookup_empty in H2]. }
  split; [exact Hu|].
  pose proof (debounce_delayed_workflow_spec 110 "wf" "q" "k" 200 "[1]" None (Conn d d) Hu) as H.
  assert (∃ c' out, debounce_delayed_workflow 110 "wf" "q" "k" 200 "[1]" None (Conn d d) = (c', Ok out) ∧
            bounced_workflow_id out = Some "w") as (c' & out & He & Ho).
  { eexists _, _. split; [vm_compute; reflexivity|reflexivity]. }
  rewrite He in *. split; [exact (proj1 H)|exact Ho].
Defined.
