(* ===== verification/Introspection.v ===== *)
(** * The queries of introspection: [list_workflows], [list_workflow_steps], the aggregates and
      the metrics of [dbos/_sys_db.py], [get_workflow] and [global_timeout] of
      [dbos/_workflow_commands.py]

    A query is a list of [WHERE] clauses, in the order the code adds them, some of which may
    fail to be built (a time that is not ISO 8601). What the code leaves to libraries are
    arguments: [fromisoformat_ms] is [datetime.fromisoformat(s).timestamp() * 1000], and
    [jsonb_contains] the operator [@>] of Postgres. [ORDER BY] has nothing to say about rows that
    tie: [scan], the order a query meets the rows in, is an argument of each query. *)
From Stdlib Require Import QArith.
From stdpp Require Import pretty.
From S2P Require Import Prelude Errors Schema Serialization Workflows.
Open Scope nat_scope.

(** ** Values of SQL *)

(** The groups of [GROUP BY], each with its rows. *)
Definition sql_group_by {A K} `{EqDecision K} (key : A → K) (l : list A) : list (K * list A) :=
  (λ k, (k, filter (λ x, key x = k) l)) <$> remove_dups (key <$> l).

(** [MAX] and [MIN], which ignore [NULL]. *)
Definition sql_fold (f : Z → Z → Z) (l : list (option Z)) : option Z :=
  foldr (λ x acc, match x, acc with Some a, Some b => Some (f a b) | Some a, None => Some a | None, _ => acc end) None l.
Definition sql_max : list (option Z) → option Z := sql_fold Z.max.
Definition sql_min : list (option Z) → option Z := sql_fold Z.min.

(** [LIMIT] and [OFFSET], which Postgres refuses below zero. *)
Definition not_negative (sqlstate clause : string) (n : option Z) : res pyexn unit :=
  match n with
  | Some n => if bool_decide (n < 0)%Z
              then Err (DBAPIError false (Some (OperationalError (Some sqlstate) (clause +:+ " must not be negative") false)) clause)
              else Ok tt
  | None => Ok tt
  end.

Definition sql_page {A} (limit offset : option Z) (l : list A) : res pyexn (list A) :=
  match not_negative "2201W" "LIMIT" limit, not_negative "2201X" "OFFSET" offset with
  | Err e, _ | _, Err e => Err e
  | Ok _, Ok _ =>
      let l := drop (Z.to_nat (default 0%Z offset)) l in
      Ok (match limit with Some n => take (Z.to_nat n) l | None => l end)
  end.

(** ** Filters *)

(** [str | list[str]], and [_to_list]. *)
Definition str_or_list : Type := string + list string.
Definition to_list (val : option str_or_list) : option (list string) :=
  (λ v, match v with inl s => [s] | inr l => l end) <$> val.

(** The filters of a query, those that take lists as an [L]. *)
Record WorkflowFilters (L : Type) := {
  fi_workflow_ids : option (list string);
  fi_status : option L;
  fi_start_time : option string; fi_end_time : option string;
  fi_completed_after : option string; fi_completed_before : option string;
  fi_dequeued_after : option string; fi_dequeued_before : option string;
  fi_name : option L; fi_app_version : option L; fi_forked_from : option L;
  fi_parent_workflow_id : option L; fi_user : option L; fi_queue_name : option L;
  fi_workflow_id_prefix : option L; fi_executor_id : option L; fi_schedule_name : option L;
  fi_was_forked_from : option bool; fi_has_parent : option bool;
  fi_attributes : option (list (pyval * pyval));
}.
Arguments fi_workflow_ids {L} _. Arguments fi_status {L} _. Arguments fi_start_time {L} _.
Arguments fi_end_time {L} _. Arguments fi_completed_after {L} _. Arguments fi_completed_before {L} _.
Arguments fi_dequeued_after {L} _. Arguments fi_dequeued_before {L} _. Arguments fi_name {L} _.
Arguments fi_app_version {L} _. Arguments fi_forked_from {L} _. Arguments fi_parent_workflow_id {L} _.
Arguments fi_user {L} _. Arguments fi_queue_name {L} _. Arguments fi_workflow_id_prefix {L} _.
Arguments fi_executor_id {L} _. Arguments fi_schedule_name {L} _. Arguments fi_was_forked_from {L} _.
Arguments fi_has_parent {L} _. Arguments fi_attributes {L} _.

Definition map_filters {L M} (f : option L → option M) (w : WorkflowFilters L) : WorkflowFilters M := {|
  fi_workflow_ids := fi_workflow_ids w; fi_status := f (fi_status w);
  fi_start_time := fi_start_time w; fi_end_time := fi_end_time w;
  fi_completed_after := fi_completed_after w; fi_completed_before := fi_completed_before w;
  fi_dequeued_after := fi_dequeued_after w; fi_dequeued_before := fi_dequeued_before w;
  fi_name := f (fi_name w); fi_app_version := f (fi_app_version w); fi_forked_from := f (fi_forked_from w);
  fi_parent_workflow_id := f (fi_parent_workflow_id w); fi_user := f (fi_user w);
  fi_queue_name := f (fi_queue_name w); fi_workflow_id_prefix := f (fi_workflow_id_prefix w);
  fi_executor_id := f (fi_executor_id w); fi_schedule_name := f (fi_schedule_name w);
  fi_was_forked_from := fi_was_forked_from w; fi_has_parent := fi_has_parent w;
  fi_attributes := fi_attributes w |}.

(** No filter but the IDs. *)
Definition only_ids {L} (workflow_ids : option (list string)) : WorkflowFilters L := {|
  fi_workflow_ids := workflow_ids; fi_status := None; fi_start_time := None; fi_end_time := None;
  fi_completed_after := None; fi_completed_before := None; fi_dequeued_after := None; fi_dequeued_before := None;
  fi_name := None; fi_app_version := None; fi_forked_from := None; fi_parent_workflow_id := None; fi_user := None;
  fi_queue_name := None; fi_workflow_id_prefix := None; fi_executor_id := None; fi_schedule_name := None;
  fi_was_forked_from := None; fi_has_parent := None; fi_attributes := None |}.

(** [if l:], on a list that may be absent. *)
Definition given {A} (l : option (list A)) : option (list A) :=
  match l with Some (_ :: _) => l | _ => None end.

(** [if n:], on a number that may be absent. *)
Definition nonzero (n : option Z) : option Z := match n with Some 0%Z => None | _ => n end.

(** ** Clauses *)

Section clauses.
Context {K R : Type}.

(** A clause of [WHERE], or the exception that building it raised. *)
Definition clause : Type := res pyexn (K → R → bool).

Definition in_clause (column : K → R → option string) (l : option (list string)) : list clause :=
  match given l with Some l => [Ok (λ k r, sql_in (column k r) l)] | None => [] end.

(** [column.startswith(p, autoescape=True)], for any of the prefixes. *)
Definition prefix_clause (column : K → R → string) (l : option (list string)) : list clause :=
  match given l with Some l => [Ok (λ k r, existsb (λ p, String.prefix p (column k r)) l)] | None => [] end.

Definition null_clause (column : K → R → option string) (has : option bool) : list clause :=
  match has with
  | Some b => [Ok (λ k r, Bool.eqb b (bool_decide (is_Some (column k r))))]
  | None => []
  end.

Definition bool_clause (column : K → R → bool) (v : option bool) : list clause :=
  match v with Some b => [Ok (λ k r, Bool.eqb (column k r) b)] | None => [] end.

(** A bound on a column of times: [column >= t] if [after], else [column <= t]. *)
Definition time_clause (fromisoformat_ms : string → res pyexn Q) (column : K → R → option Z) (after : bool)
    (t : option string) : list clause :=
  match t with
  | Some s =>
      if bool_decide (s = "") then [] else
      [match fromisoformat_ms s with
       | Ok q => Ok (λ k r, match column k r with
                            | Some z => if after then Qle_bool q (inject_Z z) else Qle_bool (inject_Z z) q
                            | None => false
                            end)
       | Err e => Err e
       end]
  | None => []
  end.

(** [query.where] of one clause after the other: the first exception is raised. *)
Fixpoint where_ (cs : list clause) : clause :=
  match cs with
  | [] => Ok (λ _ _, true)
  | c :: cs => match c with
               | Err e => Err e
               | Ok p => match where_ cs with Ok q => Ok (λ k r, p k r && q k r) | Err e => Err e end
               end
  end.

End clauses.
Arguments clause : clear implicits.

(** ** Workflows *)

(** [class WorkflowStatus] *)
Record WorkflowStatus := {
  wf_workflow_id : string; wf_status : string; wf_name : option string; wf_recovery_attempts : option Z;
  wf_config_name : option string; wf_class_name : option string; wf_authenticated_user : option string;
  wf_authenticated_roles : option pyval; wf_assumed_role : option string; wf_queue_name : option string;
  wf_executor_id : option string; wf_created_at : Z; wf_updated_at : Z; wf_app_version : option string;
  wf_app_id : option string; wf_workflow_deadline_epoch_ms : option Z; wf_workflow_timeout_ms : option Z;
  wf_deduplication_id : option string; wf_priority : Z; wf_queue_partition_key : option string;
  wf_forked_from : option string; wf_parent_workflow_id : option string; wf_dequeued_at : option Z;
  wf_delay_until_epoch_ms : option Z; wf_was_forked_from : bool; wf_completed_at : option Z;
  wf_attributes : option string; wf_schedule_name : option string;
  wf_input : option (safe WorkflowInputs); wf_output : option (safe pyval); wf_error : option (safe pyexn);
}.

Notation row := (string * workflow_status_row)%type.
Notation row_clause := (clause string workflow_status_row).

Section queries.
Context `{Codecs} (serializer : Serializer) (fromisoformat_ms : string → res pyexn Q)
  (jsonb_contains : string → pyval → bool).
Notation status_in := (in_clause (λ _ r, Some (status_value (ws_status r)))).
Notation time := (time_clause (K := string) fromisoformat_ms).

(** [self._attributes_contains_clause(attributes)] of Postgres, [if attributes:]. *)
Definition attributes_contains_clause (attributes : option (list (pyval * pyval))) : list row_clause :=
  match given attributes with
  | Some kvs => [Ok (λ _ r, match ws_attributes r with Some t => jsonb_contains t (PDict kvs) | None => false end)]
  | None => []
  end.

(** The clauses of [list_workflows]. *)
Definition list_clauses (queues_only : bool) (f : WorkflowFilters (list string)) : list row_clause :=
  (if queues_only
   then null_clause (λ _ r, ws_queue_name r) (Some true) ++
        (if bool_decide (given (fi_status f) = None) then status_in (Some ["DELAYED"; "ENQUEUED"; "PENDING"]%string) else [])
   else []) ++
  in_clause (λ _ r, ws_name r) (fi_name f) ++
  in_clause (λ _ r, ws_schedule_name r) (fi_schedule_name f) ++
  in_clause (λ _ r, ws_authenticated_user r) (fi_user f) ++
  attributes_contains_clause (fi_attributes f) ++
  time (λ _ r, Some (ws_created_at r)) true (fi_start_time f) ++
  time (λ _ r, Some (ws_created_at r)) false (fi_end_time f) ++
  time (λ _ r, ws_completed_at r) true (fi_completed_after f) ++
  time (λ _ r, ws_completed_at r) false (fi_completed_before f) ++
  time (λ _ r, ws_started_at_epoch_ms r) true (fi_dequeued_after f) ++
  time (λ _ r, ws_started_at_epoch_ms r) false (fi_dequeued_before f) ++
  status_in (fi_status f) ++
  in_clause (λ _ r, ws_application_version r) (fi_app_version f) ++
  in_clause (λ _ r, ws_forked_from r) (fi_forked_from f) ++
  in_clause (λ _ r, ws_parent_workflow_id r) (fi_parent_workflow_id f) ++
  in_clause (λ id _, Some id) (fi_workflow_ids f) ++
  prefix_clause (λ id _, id) (fi_workflow_id_prefix f) ++
  in_clause (λ _ r, ws_queue_name r) (fi_queue_name f) ++
  in_clause (λ _ r, ws_executor_id r) (fi_executor_id f) ++
  bool_clause (λ _ r, ws_was_forked_from r) (fi_was_forked_from f) ++
  null_clause (λ _ r, ws_parent_workflow_id r) (fi_has_parent f).

(** [ORDER BY created_at]. *)
Definition created_before (sort_desc : bool) (a b : row) : bool :=
  if sort_desc then Z.leb (ws_created_at b.2) (ws_created_at a.2) else Z.leb (ws_created_at a.2) (ws_created_at b.2).

(** The information of a row; the columns that were not loaded are [NULL]. *)
Definition info_of_row (load_input load_output : bool) (x : row) : res pyexn WorkflowStatus :=
  let '(id, r) := x in
  match (match ws_authenticated_roles r with
         | Some t => match json_loads t with Ok j => Ok (Some (json_to_py j)) | Err e => Err e end
         | None => Ok None
         end) with
  | Err e => Err e
  | Ok roles =>
      let '(input, output, exception) :=
        safe_deserialize serializer (if load_input || load_output then ws_serialization r else None)
          (if load_input then ws_inputs r else None) (if load_output then ws_output r else None)
          (if load_output then ws_error r else None) in
      Ok {| wf_workflow_id := id; wf_status := status_value (ws_status r); wf_name := ws_name r;
            wf_recovery_attempts := ws_recovery_attempts r; wf_config_name := ws_config_name r;
            wf_class_name := ws_class_name r; wf_authenticated_user := ws_authenticated_user r;
            wf_authenticated_roles := roles; wf_assumed_role := ws_assumed_role r; wf_queue_name := ws_queue_name r;
            wf_executor_id := ws_executor_id r; wf_created_at := ws_created_at r; wf_updated_at := ws_updated_at r;
            wf_app_version := ws_application_version r; wf_app_id := ws_application_id r;
            wf_workflow_deadline_epoch_ms := ws_workflow_deadline_epoch_ms r;
            wf_workflow_timeout_ms := ws_workflow_timeout_ms r; wf_deduplication_id := ws_deduplication_id r;
            wf_priority := ws_priority r; wf_queue_partition_key := ws_queue_partition_key r;
            wf_forked_from := ws_forked_from r; wf_parent_workflow_id := ws_parent_workflow_id r;
            wf_dequeued_at := ws_started_at_epoch_ms r; wf_delay_until_epoch_ms := ws_delay_until_epoch_ms r;
            wf_was_forked_from := ws_was_forked_from r; wf_completed_at := ws_completed_at r;
            wf_attributes := ws_attributes r; wf_schedule_name := ws_schedule_name r;
            wf_input := input; wf_output := output; wf_error := exception |}
  end.

(** The rows of a query of workflows, in its order. *)
Definition query_workflows (scan : list row → list row) (f : WorkflowFilters str_or_list) (limit offset : option Z)
    (sort_desc queues_only : bool) (d : db) : res pyexn (list row) :=
  match where_ (list_clauses queues_only (map_filters to_list f)) with
  | Err e => Err e
  | Ok p =>
      sql_page (nonzero limit) (nonzero offset)
        (sql_order_by (created_before sort_desc) (scan (sql_select p (workflow_status d))))
  end.

Definition list_workflows (scan : list row → list row) (f : WorkflowFilters str_or_list) (limit offset : option Z)
    (sort_desc load_input load_output queues_only : bool) (d : db) : res pyexn (list WorkflowStatus) :=
  match query_workflows scan f limit offset sort_desc queues_only d with
  | Err e => Err e
  | Ok rows => res_map (info_of_row load_input load_output) rows
  end.

(** [get_workflow] of [_workflow_commands.py]. *)
Definition get_workflow (scan : list row → list row) (workflow_id : string) (load_input load_output : bool) (d : db) :
    res pyexn (option WorkflowStatus) :=
  match list_workflows scan (only_ids (Some [workflow_id])) None None false load_input load_output false d with
  | Err e => Err e
  | Ok infos => Ok (head infos)
  end.

(** ** Steps *)

(** [class StepInfo] *)
Record StepInfo := {
  si_function_id : Z; si_function_name : string; si_output : option (safe pyval); si_error : option (safe pyexn);
  si_child_workflow_id : option string; si_started_at_epoch_ms : option Z; si_completed_at_epoch_ms : option Z;
}.

Definition step_info (load_output : bool) (x : (string * Z) * operation_outputs_row) : StepInfo :=
  let r := x.2 in
  let '(_, output, exception) :=
    if load_output then safe_deserialize serializer (oo_serialization r) None (oo_output r) (oo_error r)
    else (None, None, None) in
  {| si_function_id := x.1.2; si_function_name := oo_function_name r; si_output := output; si_error := exception;
     si_child_workflow_id := oo_child_workflow_id r; si_started_at_epoch_ms := oo_started_at_epoch_ms r;
     si_completed_at_epoch_ms := oo_completed_at_epoch_ms r |}.

Definition list_workflow_steps (workflow_id : string) (load_output : bool) (limit offset : option Z) (d : db) :
    res pyexn (list StepInfo) :=
  match sql_page limit offset
          (sql_order_by (λ a b, Z.leb a.1.2 b.1.2)
             (sql_select (λ k _, bool_decide (k.1 = workflow_id)) (operation_outputs d))) with
  | Err e => Err e
  | Ok rows => Ok (step_info load_output <$> rows)
  end.

(** ** Aggregates *)

(** The clauses of [get_workflow_aggregates]. *)
Definition aggregate_clauses (f : WorkflowFilters (list string)) : list row_clause :=
  status_in (fi_status f) ++
  time (λ _ r, Some (ws_created_at r)) true (fi_start_time f) ++
  time (λ _ r, Some (ws_created_at r)) false (fi_end_time f) ++
  time (λ _ r, ws_completed_at r) true (fi_completed_after f) ++
  time (λ _ r, ws_completed_at r) false (fi_completed_before f) ++
  time (λ _ r, ws_started_at_epoch_ms r) true (fi_dequeued_after f) ++
  time (λ _ r, ws_started_at_epoch_ms r) false (fi_dequeued_before f) ++
  in_clause (λ _ r, ws_name r) (fi_name f) ++
  in_clause (λ _ r, ws_application_version r) (fi_app_version f) ++
  in_clause (λ _ r, ws_executor_id r) (fi_executor_id f) ++
  in_clause (λ _ r, ws_queue_name r) (fi_queue_name f) ++
  prefix_clause (λ id _, id) (fi_workflow_id_prefix f) ++
  in_clause (λ id _, Some id) (fi_workflow_ids f) ++
  in_clause (λ _ r, ws_forked_from r) (fi_forked_from f) ++
  in_clause (λ _ r, ws_parent_workflow_id r) (fi_parent_workflow_id f) ++
  in_clause (λ _ r, ws_authenticated_user r) (fi_user f) ++
  in_clause (λ _ r, ws_schedule_name r) (fi_schedule_name f) ++
  bool_clause (λ _ r, ws_was_forked_from r) (fi_was_forked_from f) ++
  null_clause (λ _ r, ws_parent_workflow_id r) (fi_has_parent f) ++
  attributes_contains_clause (fi_attributes f).

(** A value of a grouped column: a text, or a number; and [str(v) if v is not None else None]. *)
Definition group_value : Type := option (string + Z).
Definition group_text (v : group_value) : option string :=
  (λ v, match v with inl s => s | inr z => pretty z end) <$> v.

(** [cast(floor(t / bucket), BigInteger) * bucket] *)
Definition time_bucket (size : Z) (t : option Z) : group_value := (λ t, inr (t / size * size)%Z) <$> t.

(** The enabled columns, with their names. *)
Definition enabled {A} (flags : list (string * bool * A)) : list (string * A) :=
  flags ≫= λ x, let '(name, on, col) := x in if on : bool then [(name, col)] else [].

Definition bucket_column {R} (size : option Z) (t : R → option Z) : list (string * (R → group_value)) :=
  match size with Some size => [("time_bucket"%string, λ r, time_bucket size (t r))] | None => [] end.

(** The guards of both queries. *)
Definition check_aggregate {R} (size : option Z) (columns : list (string * (R → group_value))) (selects : list bool) :
    res pyexn unit :=
  if match size with Some n => bool_decide (n <= 0)%Z | None => false end
  then Err (ValueError "time_bucket_size_ms must be > 0")
  else match columns with
       | [] => Err (ValueError "At least one group_by flag must be set to True")
       | _ => if existsb id selects then Ok tt else Err (ValueError "At least one select_ flag must be set to True")
       end.

(** [{group_names[i]: str(row[i]) ...}] *)
Definition group_dict {R} (columns : list (string * (R → group_value))) (values : list group_value) :
    list (string * option string) := zip columns.*1 (group_text <$> values).

(** The flags that choose columns. *)
Record WorkflowGroupBy := {
  gb_status : bool; gb_name : bool; gb_queue_name : bool; gb_executor_id : bool; gb_application_version : bool;
  gb_time_bucket_size_ms : option Z;
}.
Record WorkflowSelect := {
  se_count : bool; se_min_created_at : bool; se_max_queue_wait_ms : bool; se_max_total_latency_ms : bool;
}.

(** [class WorkflowAggregateRow] *)
Record WorkflowAggregateRow := {
  ag_group : list (string * option string); ag_count : option Z; ag_min_created_at : option Z;
  ag_max_queue_wait_ms : option Z; ag_max_total_latency_ms : option Z;
}.

Definition workflow_columns (g : WorkflowGroupBy) : list (string * (workflow_status_row → group_value)) :=
  enabled [("status"%string, gb_status g, λ r, Some (inl (status_value (ws_status r))));
           ("name"%string, gb_name g, λ r, inl <$> ws_name r);
           ("queue_name"%string, gb_queue_name g, λ r, inl <$> ws_queue_name r);
           ("executor_id"%string, gb_executor_id g, λ r, inl <$> ws_executor_id r);
           ("application_version"%string, gb_application_version g, λ r, inl <$> ws_application_version r)] ++
  bucket_column (gb_time_bucket_size_ms g) (λ r, Some (ws_created_at r)).

(** [a - b], which is [NULL] when either is. *)
Definition sql_minus (a b : option Z) : option Z :=
  match a, b with Some a, Some b => Some (a - b)%Z | _, _ => None end.

Definition get_workflow_aggregates (g : WorkflowGroupBy) (s : WorkflowSelect) (f : WorkflowFilters (list string)) (d : db) :
    res pyexn (list WorkflowAggregateRow) :=
  let columns := workflow_columns g in
  match check_aggregate (gb_time_bucket_size_ms g) columns
          [se_count s; se_min_created_at s; se_max_queue_wait_ms s; se_max_total_latency_ms s] with
  | Err e => Err e
  | Ok _ =>
      match where_ (aggregate_clauses f) with
      | Err e => Err e
      | Ok p =>
          Ok ((λ kg, {|
                 ag_group := group_dict columns kg.1;
                 ag_count := if se_count s then Some (Z.of_nat (length kg.2)) else None;
                 ag_min_created_at := if se_min_created_at s then sql_min ((λ r, Some (ws_created_at r)) <$> kg.2) else None;
                 ag_max_queue_wait_ms := if se_max_queue_wait_ms s
                   then sql_max ((λ r, sql_minus (ws_started_at_epoch_ms r) (Some (ws_created_at r))) <$> kg.2) else None;
                 ag_max_total_latency_ms := if se_max_total_latency_ms s
                   then sql_max ((λ r, sql_minus (ws_completed_at r) (Some (ws_created_at r))) <$> kg.2) else None |}) <$>
              sql_group_by (λ r, (λ col, col.2 r) <$> columns) (sql_select p (workflow_status d)).*2)
      end
  end.

(** The flags and filters of [get_step_aggregates]. *)
Record StepQuery := {
  sq_group_by_function_name : bool; sq_group_by_status : bool; sq_select_count : bool; sq_select_max_duration_ms : bool;
  sq_time_bucket_size_ms : option Z; sq_status : option (list string); sq_function_name : option (list string);
  sq_workflow_id_prefix : option (list string); sq_completed_after : option string; sq_completed_before : option string;
}.

(** [class StepAggregateRow] *)
Record StepAggregateRow := {
  sa_group : list (string * option string); sa_count : option Z; sa_max_duration_ms : option Z;
}.

(** [status_expr] *)
Definition step_status (r : operation_outputs_row) : string :=
  match oo_error r with None => "SUCCESS" | Some _ => "ERROR" end.

Definition step_columns (q : StepQuery) : list (string * (operation_outputs_row → group_value)) :=
  enabled [("function_name"%string, sq_group_by_function_name q, λ r, Some (inl (oo_function_name r)));
           ("status"%string, sq_group_by_status q, λ r, Some (inl (step_status r)))] ++
  bucket_column (sq_time_bucket_size_ms q) oo_completed_at_epoch_ms.

Definition step_clauses (q : StepQuery) : list (clause (string * Z) operation_outputs_row) :=
  in_clause (λ _ r, Some (step_status r)) (sq_status q) ++
  in_clause (λ _ r, Some (oo_function_name r)) (sq_function_name q) ++
  prefix_clause (λ k _, k.1) (sq_workflow_id_prefix q) ++
  time_clause fromisoformat_ms (λ _ r, oo_completed_at_epoch_ms r) true (sq_completed_after q) ++
  time_clause fromisoformat_ms (λ _ r, oo_completed_at_epoch_ms r) false (sq_completed_before q).

Definition get_step_aggregates (q : StepQuery) (d : db) : res pyexn (list StepAggregateRow) :=
  let columns := step_columns q in
  match check_aggregate (sq_time_bucket_size_ms q) columns [sq_select_count q; sq_select_max_duration_ms q] with
  | Err e => Err e
  | Ok _ =>
      match where_ (step_clauses q) with
      | Err e => Err e
      | Ok p =>
          Ok ((λ kg, {|
                 sa_group := group_dict columns kg.1;
                 sa_count := if sq_select_count q then Some (Z.of_nat (length kg.2)) else None;
                 sa_max_duration_ms := if sq_select_max_duration_ms q
                   then sql_max ((λ r, sql_minus (oo_completed_at_epoch_ms r) (oo_started_at_epoch_ms r)) <$> kg.2) else None |}) <$>
              sql_group_by (λ r, (λ col, col.2 r) <$> columns) (sql_select p (operation_outputs d)).*2)
      end
  end.

(** ** Metrics *)

(** [class MetricData] *)
Record MetricData := { md_metric_type : string; md_metric_name : option string; md_value : Z }.

(** [int(datetime.fromisoformat(t).timestamp() * 1000)] *)
Definition epoch_ms (t : string) : res pyexn Z :=
  match fromisoformat_ms t with Ok q => Ok (Z.quot (Qnum q) (Z.pos (Qden q))) | Err e => Err e end.

(** [SELECT name, count( * ) ... GROUP BY name] of the rows with a time in [start, end). *)
Definition count_by_name {K R} `{Countable K} (metric_type : string) (name : R → option string) (t : R → option Z)
    (start_epoch_ms end_epoch_ms : Z) (table : gmap K R) : list MetricData :=
  (λ kg, {| md_metric_type := metric_type; md_metric_name := kg.1; md_value := Z.of_nat (length kg.2) |}) <$>
  sql_group_by name
    (sql_select (λ _ r, sql_cmp Z.geb (t r) start_epoch_ms && sql_cmp Z.ltb (t r) end_epoch_ms) table).*2.

Definition get_metrics (start_time end_time : string) (d : db) : res pyexn (list MetricData) :=
  match epoch_ms start_time, epoch_ms end_time with
  | Err e, _ | _, Err e => Err e
  | Ok start_epoch_ms, Ok end_epoch_ms =>
      Ok (count_by_name "workflow_count" ws_name (λ r, Some (ws_created_at r)) start_epoch_ms end_epoch_ms (workflow_status d) ++
          count_by_name "step_count" (λ r, Some (oo_function_name r)) oo_completed_at_epoch_ms start_epoch_ms end_epoch_ms
            (operation_outputs d))
  end.

(** ** The global timeout *)

Definition timeout_filters (cutoff_iso : string) : WorkflowFilters str_or_list := {|
  fi_status := Some (inr (status_value <$> [PENDING; ENQUEUED; DELAYED])); fi_end_time := Some cutoff_iso;
  fi_workflow_ids := None; fi_start_time := None; fi_completed_after := None; fi_completed_before := None;
  fi_dequeued_after := None; fi_dequeued_before := None; fi_name := None; fi_app_version := None; fi_forked_from := None;
  fi_parent_workflow_id := None; fi_user := None; fi_queue_name := None; fi_workflow_id_prefix := None;
  fi_executor_id := None; fi_schedule_name := None; fi_was_forked_from := None; fi_has_parent := None;
  fi_attributes := None |}.

(** [global_timeout] of [_workflow_commands.py]; [isoformat] is
    [datetime.fromtimestamp(ms / 1000).isoformat()], [now] the clock at each cancellation. *)
Definition global_timeout (isoformat : Z → string) (scan : list row → list row) (now : string → Z)
    (cutoff_epoch_timestamp_ms : Z) : dbM unit :=
  infos ← (λ d, (d, list_workflows scan (timeout_filters (isoformat cutoff_epoch_timestamp_ms)) None None false true true false d));
  for_each infos (λ workflow, cancel_ids (now (wf_workflow_id workflow)) [wf_workflow_id workflow]).

End queries.

(** ** A concrete database *)

(** Times are texts of as many letters as milliseconds. *)
Definition sample_iso (s : string) : res pyexn Q :=
  if String.eqb s "never" then Err (ValueError "Invalid isoformat string: 'never'")
  else Ok (inject_Z (Z.of_nat (String.length s))).
Fixpoint sample_text (n : nat) : string := match n with O => "" | S n => "t" +:+ sample_text n end.
Definition created (t : Z) (x : string * workflow_status_row) : string * workflow_status_row :=
  (x.1, x.2 <| ws_created_at := t |>).
Definition sample_history : db :=
  sample_db [created 1 ("a", sample_row "a" SUCCESS); created 2 ("b", sample_row "b" PENDING);
             created 3 ("c", sample_row "c" ENQUEUED)].
(** Two workflows of the same millisecond. *)
Definition sample_tie : db := sample_db [created 1 ("a", sample_row "a" PENDING); created 1 ("b", sample_row "b" PENDING)].
Definition sample_list (scan : list row → list row) (limit offset : option Z) (d : db) : res pyexn (list WorkflowStatus) :=
  @list_workflows sample_codecs sample_serializer sample_iso (λ _ _, false) scan (only_ids None) limit offset
    false false false false d.

(** ** What is meant *)

Section specifications.
Context (fromisoformat_ms : string → res pyexn Q) (jsonb_contains : string → pyval → bool).

(** A filter that takes a list; the empty list filters nothing. *)
Definition one_of (v : option string) (l : option (list string)) : Prop :=
  l = None ∨ l = Some [] ∨ ∃ s l', v = Some s ∧ l = Some l' ∧ s ∈ l'.

(** Bounds on a time; the empty text bounds nothing. *)
Definition since (t : option Z) (bound : option string) : Prop :=
  bound = None ∨ bound = Some ""%string ∨
  ∃ z s q, t = Some z ∧ bound = Some s ∧ fromisoformat_ms s = Ok q ∧ (q <= inject_Z z)%Q.
Definition until (t : option Z) (bound : option string) : Prop :=
  bound = None ∨ bound = Some ""%string ∨
  ∃ z s q, t = Some z ∧ bound = Some s ∧ fromisoformat_ms s = Ok q ∧ (inject_Z z <= q)%Q.

(** The workflows that a caller of the queries asks for. *)
Record matches (f : WorkflowFilters (list string)) (id : string) (r : workflow_status_row) : Prop := {
  ma_workflow_ids : one_of (Some id) (fi_workflow_ids f);
  ma_status : one_of (Some (status_value (ws_status r))) (fi_status f);
  ma_created : since (Some (ws_created_at r)) (fi_start_time f) ∧ until (Some (ws_created_at r)) (fi_end_time f);
  ma_completed : since (ws_completed_at r) (fi_completed_after f) ∧ until (ws_completed_at r) (fi_completed_before f);
  ma_dequeued : since (ws_started_at_epoch_ms r) (fi_dequeued_after f) ∧
                until (ws_started_at_epoch_ms r) (fi_dequeued_before f);
  ma_name : one_of (ws_name r) (fi_name f);
  ma_app_version : one_of (ws_application_version r) (fi_app_version f);
  ma_forked_from : one_of (ws_forked_from r) (fi_forked_from f);
  ma_parent : one_of (ws_parent_workflow_id r) (fi_parent_workflow_id f);
  ma_user : one_of (ws_authenticated_user r) (fi_user f);
  ma_queue_name : one_of (ws_queue_name r) (fi_queue_name f);
  ma_prefix : fi_workflow_id_prefix f = None ∨ fi_workflow_id_prefix f = Some [] ∨
    ∃ p rest l, fi_workflow_id_prefix f = Some l ∧ p ∈ l ∧ id = (p +:+ rest);
  ma_executor_id : one_of (ws_executor_id r) (fi_executor_id f);
  ma_schedule_name : one_of (ws_schedule_name r) (fi_schedule_name f);
  ma_was_forked_from b : fi_was_forked_from f = Some b → ws_was_forked_from r = b;
  ma_has_parent b : fi_has_parent f = Some b → b = true ↔ is_Some (ws_parent_workflow_id r);
  ma_attributes kvs : fi_attributes f = Some kvs → kvs ≠ [] →
    ∃ t, ws_attributes r = Some t ∧ jsonb_contains t (PDict kvs) = true;
}.

(** The ones that are on a queue, and unless a status is asked for not yet over. *)
Definition queued (f : WorkflowFilters (list string)) (r : workflow_status_row) : Prop :=
  is_Some (ws_queue_name r) ∧
  (fi_status f = None ∨ fi_status f = Some [] → ws_status r ∈ [DELAYED; ENQUEUED; PENDING]).

(** The group of a listed workflow, and the aggregate of the listed workflows of a group. *)
Definition info_group (g : WorkflowGroupBy) (i : WorkflowStatus) : list (string * option string) :=
  (if gb_status g then [("status"%string, Some (wf_status i))] else []) ++
  (if gb_name g then [("name"%string, wf_name i)] else []) ++
  (if gb_queue_name g then [("queue_name"%string, wf_queue_name i)] else []) ++
  (if gb_executor_id g then [("executor_id"%string, wf_executor_id i)] else []) ++
  (if gb_application_version g then [("application_version"%string, wf_app_version i)] else []) ++
  match gb_time_bucket_size_ms g with
  | Some size => [("time_bucket"%string, Some (pretty (wf_created_at i / size * size)%Z))]
  | None => []
  end.

Definition aggregate_of (s : WorkflowSelect) (g : WorkflowGroupBy) (infos : list WorkflowStatus)
    (group : list (string * option string)) : WorkflowAggregateRow :=
  let members := filter (λ i, info_group g i = group) infos in
  {| ag_group := group;
     ag_count := if se_count s then Some (Z.of_nat (length members)) else None;
     ag_min_created_at := if se_min_created_at s then sql_min ((λ i, Some (wf_created_at i)) <$> members) else None;
     ag_max_queue_wait_ms := if se_max_queue_wait_ms s
       then sql_max ((λ i, sql_minus (wf_dequeued_at i) (Some (wf_created_at i))) <$> members) else None;
     ag_max_total_latency_ms := if se_max_total_latency_ms s
       then sql_max ((λ i, sql_minus (wf_completed_at i) (Some (wf_created_at i))) <$> members) else None |}.


(** Clauses that admit a row, and clauses that were built. *)
Definition admits {K R} (cs : list (clause K R)) (k : K) (r : R) : Prop := ∀ c, Ok c ∈ cs → c k r = true.

Definition built {K R} (cs : list (clause K R)) : Prop := ∀ c, c ∈ cs → is_ok c = true.

(** The times of the filters that can be read. *)
Definition time_ok (t : option string) : Prop :=
  ∀ s, t = Some s → s ≠ ""%string → is_ok (fromisoformat_ms s) = true.

Definition times_ok (f : WorkflowFilters (list string)) : Prop :=
  time_ok (fi_start_time f) ∧ time_ok (fi_end_time f) ∧
  time_ok (fi_completed_after f) ∧ time_ok (fi_completed_before f) ∧
  time_ok (fi_dequeued_after f) ∧ time_ok (fi_dequeued_before f).

(** An order to meet rows in. *)
Definition scans (scan : list row → list row) : Prop := ∀ l, scan l ≡ₚ l.

(** The workflows that match, one from another by the time of their creation. *)
Definition created_apart (f : WorkflowFilters (list string)) (qo : bool) (d : db) : Prop :=
  ∀ id id' r r', workflow_status d !! id = Some r → workflow_status d !! id' = Some r' →
    matches f id r → matches f id' r' → (qo = true → queued f r ∧ queued f r') →
    ws_created_at r = ws_created_at r' → id = id'.

(** A column that is loaded is read, or given as it is when it cannot be. *)
Definition loaded {A} (load : bool) (read : string → res pyexn A) (column : option string) (v : option (safe A)) : Prop :=
  match column with
  | Some text => if load then match read text with Ok a => v = Some (@Deserialized A a) | _ => v = Some (@RawText A text) end
                 else v = None
  | None => v = None
  end.

(** The information on a workflow, field by field, from the columns of its row. *)
Definition reads_back `{Codecs} (serializer : Serializer) (load_input load_output : bool) (id : string)
    (r : workflow_status_row) (i : WorkflowStatus) : Prop :=
  (wf_workflow_id i = id ∧ wf_status i = status_value (ws_status r) ∧ wf_name i = ws_name r ∧
   wf_class_name i = ws_class_name r ∧ wf_config_name i = ws_config_name r ∧
   wf_recovery_attempts i = ws_recovery_attempts r ∧ wf_executor_id i = ws_executor_id r ∧
   wf_app_version i = ws_application_version r ∧ wf_app_id i = ws_application_id r) ∧
  (wf_authenticated_user i = ws_authenticated_user r ∧ wf_assumed_role i = ws_assumed_role r ∧
   match ws_authenticated_roles r with
   | Some t => ∃ j, json_loads t = Ok j ∧ wf_authenticated_roles i = Some (json_to_py j)
   | None => wf_authenticated_roles i = None
   end) ∧
  (wf_queue_name i = ws_queue_name r ∧ wf_deduplication_id i = ws_deduplication_id r ∧ wf_priority i = ws_priority r ∧
   wf_queue_partition_key i = ws_queue_partition_key r ∧ wf_dequeued_at i = ws_started_at_epoch_ms r ∧
   wf_delay_until_epoch_ms i = ws_delay_until_epoch_ms r) ∧
  (wf_created_at i = ws_created_at r ∧ wf_updated_at i = ws_updated_at r ∧ wf_completed_at i = ws_completed_at r ∧
   wf_workflow_timeout_ms i = ws_workflow_timeout_ms r ∧
   wf_workflow_deadline_epoch_ms i = ws_workflow_deadline_epoch_ms r) ∧
  (wf_forked_from i = ws_forked_from r ∧ wf_was_forked_from i = ws_was_forked_from r ∧
   wf_parent_workflow_id i = ws_parent_workflow_id r ∧ wf_attributes i = ws_attributes r ∧
   wf_schedule_name i = ws_schedule_name r) ∧
  loaded load_input (λ x, deserialize_args x (ws_serialization r) serializer) (ws_inputs r) (wf_input i) ∧
  loaded load_output (λ x, deserialize_value (Some x) (ws_serialization r) serializer) (ws_output r) (wf_output i) ∧
  loaded load_output (λ x, deserialize_exception x (ws_serialization r) serializer) (ws_error r) (wf_error i).

(** The columns that [str] keeps apart. *)
Definition text_faithful {R} (columns : list (string * (R → group_value))) : Prop :=
  Forall (λ c, ∀ r r', group_text (c.2 r) = group_text (c.2 r') → c.2 r = c.2 r') columns.

(** What the aggregates read of a row, and of the information of a workflow. *)
Definition row_view (g : WorkflowGroupBy) (r : workflow_status_row) :=
  (group_dict (workflow_columns g) ((λ c, c.2 r) <$> workflow_columns g),
   (ws_created_at r, ws_started_at_epoch_ms r, ws_completed_at r)).
Definition info_view (g : WorkflowGroupBy) (i : WorkflowStatus) :=
  (info_group g i, (wf_created_at i, wf_dequeued_at i, wf_completed_at i)).

(** The value of a metric: the sum of its entries. *)
Definition metric (metric_type : string) (name : option string) (ms : list MetricData) : Z :=
  foldr (λ m acc, if decide (md_metric_type m = metric_type ∧ md_metric_name m = name) then (md_value m + acc)%Z else acc) 0%Z ms.

End specifications.

(** ** Lemmas: clauses *)

Section clause_lemmas.
Context {K R : Type}.
Implicit Types (k : K) (r : R).

Lemma one_of_some (s : string) (l : list string) : one_of (Some s) (Some l) ↔ l = [] ∨ s ∈ l.
Proof. unfold one_of. naive_solver. Qed.

Lemma where_spec (cs : list (clause K R)) p : where_ cs = Ok p → ∀ k r, p k r = true ↔ admits cs k r.
Proof.
  revert p. induction cs as [|[c|e] cs IH]; intros p; simpl; [| |done].
  - intros [= <-] k r. split; [by intros _ c ?%elem_of_nil|done].
  - destruct (where_ cs) as [q|e]; [|done]. intros [= <-] k r. rewrite andb_true_iff, (IH q eq_refl).
    unfold admits. setoid_rewrite elem_of_cons. naive_solver.
Qed.

Lemma where_is_ok (cs : list (clause K R)) : is_ok (where_ cs) = true ↔ ∀ c, c ∈ cs → is_ok c = true.
Proof.
  induction cs as [|[c|e] cs IH]; simpl.
  - split; [by intros _ c ?%elem_of_nil|done].
  - transitivity (is_ok (where_ cs) = true); [by destruct (where_ cs)|].
    rewrite IH. setoid_rewrite elem_of_cons. naive_solver.
  - split; [done|]. intros Hall. apply (Hall (Err e)). left.
Qed.

Lemma admits_app (cs cs' : list (clause K R)) k r : admits (cs ++ cs') k r ↔ admits cs k r ∧ admits cs' k r.
Proof. unfold admits. setoid_rewrite elem_of_app. naive_solver. Qed.

Lemma admits_nil k r : admits (K:=K) (R:=R) [] k r ↔ True.
Proof. split; [done|]. by intros _ c ?%elem_of_nil. Qed.

Lemma admits_one (p : K → R → bool) k r : admits [Ok p] k r ↔ p k r = true.
Proof. unfold admits. setoid_rewrite list_elem_of_singleton. naive_solver. Qed.

Lemma admits_in (column : K → R → option string) l k r : admits (in_clause column l) k r ↔ one_of (column k r) l.
Proof.
  unfold in_clause, one_of. destruct l as [[|x l]|]; cbn [given]; rewrite ?admits_nil, ?admits_one; [naive_solver| |naive_solver].
  unfold sql_in. destruct (column k r) as [s|]; [rewrite bool_decide_eq_true|]; naive_solver.
Qed.

Lemma admits_prefix (column : K → R → string) l k r : admits (prefix_clause column l) k r ↔
  l = None ∨ l = Some [] ∨ ∃ p rest l', l = Some l' ∧ p ∈ l' ∧ column k r = (p +:+ rest).
Proof.
  assert (∀ p s, String.prefix p s = true ↔ ∃ rest, s = (p +:+ rest)) as Hprefix.
  { induction p as [|c p IH]; intros [|c' s]; simpl; [naive_solver..|].
    destruct (Ascii.ascii_dec c c') as [->|Hne]; [rewrite IH|].
    - split; intros [rest Hr]; exists rest; [by rewrite Hr|]. by injection Hr.
    - split; [done|]. intros [rest [= Hc _]]. by destruct Hne. }
  unfold prefix_clause. destruct l as [[|x l]|]; cbn [given]; rewrite ?admits_nil, ?admits_one; [naive_solver| |naive_solver].
  rewrite existsb_exists. setoid_rewrite Hprefix. setoid_rewrite <- list_elem_of_In. naive_solver.
Qed.

Lemma admits_null (column : K → R → option string) has k r : admits (null_clause column has) k r ↔
  ∀ b, has = Some b → b = true ↔ is_Some (column k r).
Proof.
  unfold null_clause. destruct has as [b|]; rewrite ?admits_nil, ?admits_one; [|naive_solver].
  rewrite eqb_true_iff. split.
  - intros -> ? [= <-]. apply bool_decide_eq_true.
  - intros Hb. specialize (Hb b eq_refl). destruct b; symmetry;
      [apply bool_decide_eq_true; by apply Hb|apply bool_decide_eq_false; intros ?%Hb; done].
Qed.

Lemma admits_bool (column : K → R → bool) v k r : admits (bool_clause column v) k r ↔ ∀ b, v = Some b → column k r = b.
Proof. unfold bool_clause. destruct v as [b|]; rewrite ?admits_nil, ?admits_one, ?eqb_true_iff; naive_solver. Qed.

Lemma admits_time iso (column : K → R → option Z) after t k r :
  (∀ s, t = Some s → s ≠ ""%string → is_ok (iso s) = true) →
  admits (time_clause iso column after t) k r ↔
  if after then since iso (column k r) t else until iso (column k r) t.
Proof.
  intros Hok. unfold time_clause, since, until. destruct t as [s|]; [|rewrite admits_nil; destruct after; naive_solver].
  destruct (decide (s = ""%string)) as [->|Hne]; [rewrite bool_decide_eq_true_2, admits_nil by done; destruct after; naive_solver|].
  rewrite bool_decide_eq_false_2 by done. specialize (Hok s eq_refl Hne). destruct (iso s) as [q|e] eqn:Hq; [|done].
  rewrite admits_one. destruct (column k r) as [z|]; destruct after; rewrite ?Qle_bool_iff; split;
    try solve [done | intros ?; right; right; eexists _, _, _; by split_and!].
  all: intros [?|[[= ?]|(z' & s' & q' & [= <-] & [= <-] & Hq' & Hle)]]; [done|by destruct Hne|..].
  all: rewrite Hq in Hq'; by injection Hq' as <-.
Qed.

Lemma built_app (cs cs' : list (clause K R)) : built (cs ++ cs') ↔ built cs ∧ built cs'.
Proof. unfold built. setoid_rewrite elem_of_app. naive_solver. Qed.

Lemma built_nil : built (K:=K) (R:=R) [].
Proof. by intros c ?%elem_of_nil. Qed.

Lemma built_one p : built (K:=K) (R:=R) [Ok p].
Proof. by intros c ->%list_elem_of_singleton. Qed.

Lemma built_in (column : K → R → option string) l : built (in_clause column l).
Proof. unfold in_clause. destruct (given l); auto using built_nil, built_one. Qed.

Lemma built_prefix (column : K → R → string) l : built (prefix_clause column l).
Proof. unfold prefix_clause. destruct (given l); auto using built_nil, built_one. Qed.

Lemma built_null (column : K → R → option string) has : built (null_clause column has).
Proof. destruct has; simpl; auto using built_nil, built_one. Qed.

Lemma built_bool (column : K → R → bool) v : built (bool_clause column v).
Proof. destruct v; simpl; auto using built_nil, built_one. Qed.

Lemma built_time iso (column : K → R → option Z) after t : built (time_clause iso column after t) ↔ time_ok iso t.
Proof.
  unfold time_clause, time_ok. destruct t as [s|]; [|split; [done|intros _; apply built_nil]].
  destruct (decide (s = ""%string)) as [->|Hne].
  { rewrite bool_decide_eq_true_2 by done. split; [by intros _ ? [= <-]|intros _; apply built_nil]. }
  rewrite bool_decide_eq_false_2 by done. destruct (iso s) as [q|e] eqn:Hq.
  - split; [intros _ ? [= <-] _; by rewrite Hq|intros _; apply built_one].
  - split; [intros Hb; by specialize (Hb (Err e) ltac:(left))|].
    intros Hs. specialize (Hs s eq_refl Hne). by rewrite Hq in Hs.
Qed.

End clause_lemmas.

#[export] Hint Resolve built_in built_prefix built_null built_bool built_nil built_one : core.

(** ** Lemmas: the clauses of the queries *)

Section query_lemmas.
Context `{Codecs} (serializer : Serializer) (fromisoformat_ms : string → res pyexn Q)
  (jsonb_contains : string → pyval → bool).
Notation list_clauses := (list_clauses fromisoformat_ms jsonb_contains).
Notation aggregate_clauses := (aggregate_clauses fromisoformat_ms jsonb_contains).
Notation times_ok := (times_ok fromisoformat_ms).
Notation matches := (matches fromisoformat_ms jsonb_contains).

Lemma built_attributes attributes : built (attributes_contains_clause jsonb_contains attributes).
Proof. unfold attributes_contains_clause. destruct (given attributes); auto. Qed.

Lemma admits_attributes attributes id r : admits (attributes_contains_clause jsonb_contains attributes) id r ↔
  ∀ kvs, attributes = Some kvs → kvs ≠ [] → ∃ t, ws_attributes r = Some t ∧ jsonb_contains t (PDict kvs) = true.
Proof.
  unfold attributes_contains_clause. destruct attributes as [[|x l]|]; cbn [given];
    rewrite ?admits_nil, ?admits_one; [naive_solver| |naive_solver].
  destruct (ws_attributes r); naive_solver.
Qed.

Lemma built_list qo f : built (list_clauses qo f) ↔ times_ok f.
Proof.
  unfold list_clauses, times_ok. rewrite !built_app, !built_time.
  assert (built (if qo then null_clause (λ (_ : string) r, ws_queue_name r) (Some true) ++
     (if bool_decide (given (fi_status f) = None)
      then in_clause (λ _ r, Some (status_value (ws_status r))) (Some ["DELAYED"; "ENQUEUED"; "PENDING"]%string) else [])
     else [])).
  { destruct qo; [|auto]. apply built_app. split; [auto|]. case_bool_decide; auto. }
  pose proof (built_attributes (fi_attributes f)). split; [tauto|]. intros. split_and!; auto; tauto.
Qed.

Lemma built_aggregate f : built (aggregate_clauses f) ↔ times_ok f.
Proof.
  unfold aggregate_clauses, times_ok. rewrite !built_app, !built_time.
  pose proof (built_attributes (fi_attributes f)). split; [tauto|]. intros. split_and!; auto; tauto.
Qed.

Lemma admits_aggregate f id r : times_ok f → admits (aggregate_clauses f) id r ↔ matches f id r.
Proof.
  intros (? & ? & ? & ? & ? & ?). unfold aggregate_clauses.
  rewrite !admits_app, !admits_in, admits_prefix, admits_bool, admits_null, admits_attributes, !admits_time by done.
  split.
  - intros (? & ? & ? & ? & ? & ? & ? & ? & ? & ? & ? & ? & ? & ? & ? & ? & ? & ? & ? & ?).
    constructor; first [assumption | split; assumption].
  - intros []. tauto.
Qed.

Lemma admits_list qo f id r : times_ok f →
  admits (list_clauses qo f) id r ↔ matches f id r ∧ (qo = true → queued f r).
Proof.
  intros (? & ? & ? & ? & ? & ?). unfold list_clauses.
  rewrite !admits_app, !admits_in, admits_prefix, admits_bool, admits_null, admits_attributes, !admits_time by done.
  match goal with |- ?A ∧ ?B ↔ _ => assert (A ↔ (qo = true → queued f r)) as -> end.
  - destruct qo; [|rewrite admits_nil; naive_solver]. rewrite admits_app, admits_null. unfold queued.
    assert ((∀ b, Some true = Some b → b = true ↔ is_Some (ws_queue_name r)) ↔ is_Some (ws_queue_name r)) as ->
      by naive_solver.
    assert (given (fi_status f) = None ↔ fi_status f = None ∨ fi_status f = Some []) as Hg
      by (destruct (fi_status f) as [[]|]; naive_solver).
    rewrite <- Hg. case_bool_decide as Hnone; [|rewrite admits_nil; naive_solver].
    rewrite admits_in, one_of_some, !elem_of_cons, !elem_of_nil.
    split; [intros [Hq Hs]|intros Hs; specialize (Hs eq_refl)]; destruct (ws_status r); naive_solver.
  - split.
    + intros (Hq & ? & ? & ? & ? & ? & ? & ? & ? & ? & ? & ? & ? & ? & ? & ? & ? & ? & ? & ? & ?).
      split; [constructor; first [assumption | split; assumption]|exact Hq].
    + intros [[] Hq]. tauto.
Qed.

End query_lemmas.


(** ** Lemmas: the queries *)

Section listing.
Context `{Codecs} (serializer : Serializer) (fromisoformat_ms : string → res pyexn Q)
  (jsonb_contains : string → pyval → bool).
Notation query_workflows := (query_workflows fromisoformat_ms jsonb_contains).
Notation list_workflows := (list_workflows serializer fromisoformat_ms jsonb_contains).
Notation matches := (matches fromisoformat_ms jsonb_contains).
Notation times_ok := (times_ok fromisoformat_ms).

Lemma query_selects f limit offset desc qo scan d rows :
  query_workflows scan f limit offset desc qo d = Ok rows →
  times_ok (map_filters to_list f) ∧
  ∃ p, where_ (list_clauses fromisoformat_ms jsonb_contains qo (map_filters to_list f)) = Ok p ∧
       (∀ id r, p id r = true ↔ matches (map_filters to_list f) id r ∧ (qo = true → queued (map_filters to_list f) r)).
Proof.
  unfold Introspection.query_workflows.
  destruct (where_ (list_clauses _ _ _ _)) as [p|e] eqn:Hp; [|done]. intros _.
  assert (times_ok (map_filters to_list f)) as Hok.
  { apply (built_list _ jsonb_contains qo). intros c. apply where_is_ok. by rewrite Hp. }
  split; [done|]. exists p. split; [done|]. intros id r. rewrite (where_spec _ _ Hp). by apply admits_list.
Qed.

Lemma created_before_sorted desc l :
  StronglySorted (λ x y, Is_true (created_before desc x y)) (sql_order_by (created_before desc) l).
Proof.
  apply sql_order_by_sorted; unfold created_before; intros; destruct desc; rewrite ?Z.leb_le in *; lia.
Qed.

(** Without ties the order of a query is the only one. *)
Lemma order_unique desc (l l' : list row) :
  l ≡ₚ l' → (∀ x y, x ∈ l → y ∈ l → ws_created_at x.2 = ws_created_at y.2 → x = y) →
  sql_order_by (created_before desc) l = sql_order_by (created_before desc) l'.
Proof.
  intros Hperm Hd. eapply StronglySorted_unique_strong; [|apply created_before_sorted..|by rewrite !sql_order_by_Permutation].
  intros x y Hx%elem_of_sql_order_by Hy%elem_of_sql_order_by Hxy Hyx. rewrite <- Hperm in Hy. apply Hd; [done..|].
  unfold created_before in *. destruct desc; rewrite ?Is_true_true, ?Z.leb_le in *; lia.
Qed.

Lemma info_of_row_view li lo id r i : info_of_row serializer li lo (id, r) = Ok i →
  wf_workflow_id i = id ∧ wf_status i = status_value (ws_status r) ∧ wf_name i = ws_name r ∧
  wf_queue_name i = ws_queue_name r ∧ wf_executor_id i = ws_executor_id r ∧
  wf_app_version i = ws_application_version r ∧ wf_created_at i = ws_created_at r ∧
  wf_dequeued_at i = ws_started_at_epoch_ms r ∧ wf_completed_at i = ws_completed_at r.
Proof.
  unfold info_of_row. destruct (ws_authenticated_roles r) as [t|]; [destruct (json_loads t); [|done]|]; by intros [= <-].
Qed.

Lemma safely_loaded {A} (load b : bool) (read : string → option string → res pyexn A) name column :
  (load = true → b = true) →
  loaded load (λ x, read x name) column (safely (λ x, read x (if b then name else None)) (if load then column else None)).
Proof. intros Hb. destruct load, column as [x|]; simpl; [rewrite Hb by done; by destruct (read x name)|done..]. Qed.

Lemma info_of_row_reads li lo id r i : info_of_row serializer li lo (id, r) = Ok i → reads_back serializer li lo id r i.
Proof.
  unfold info_of_row. destruct (match ws_authenticated_roles r with Some _ => _ | None => _ end) as [roles|] eqn:Hroles; [|done].
  intros [= <-]. unfold reads_back. cbn. split_and!; try done.
  - destruct (ws_authenticated_roles r) as [t|]; [destruct (json_loads t) as [j|]; [|done]|]; injection Hroles as <-; [by exists j|done].
  - apply (safely_loaded li _ (λ x n, deserialize_args x n serializer)). by intros ->.
  - apply (safely_loaded lo _ (λ x n, deserialize_value (Some x) n serializer)). intros ->. by rewrite orb_true_r.
  - apply (safely_loaded lo _ (λ x n, deserialize_exception x n serializer)). intros ->. by rewrite orb_true_r.
Qed.

Lemma take_pages {A} (n : nat) (l : list A) m : mjoin ((λ i, take n (drop (i * n) l)) <$> seq 0 m) = take (m * n) l.
Proof.
  induction m as [|m IH]; [done|]. rewrite seq_S, fmap_app, join_app, IH. simpl. rewrite app_nil_r.
  rewrite <- (take_drop (m * n) (take (n + m * n) l)), take_take, skipn_firstn_comm. f_equal; f_equal; lia.
Qed.

Lemma Forall2_functional {A B} (f : A → res pyexn B) l k k' :
  Forall2 (λ x y, f x = Ok y) l k → Forall2 (λ x y, f x = Ok y) l k' → k = k'.
Proof.
  intros Hk. revert k'. induction Hk; intros k' Hk'; inversion Hk'; subst; [done|]. f_equal; [congruence|auto].
Qed.

Lemma Forall2_elem_r {A B} (P : A → B → Prop) l k y : Forall2 P l k → y ∈ k → ∃ x, x ∈ l ∧ P x y.
Proof. intros HF (j & Hj)%list_elem_of_lookup. destruct (Forall2_lookup_r _ _ _ _ _ HF Hj) as (x & Hx & ?). exists x. split; [by eapply list_elem_of_lookup_2|done]. Qed.

Lemma joined_pages {A B} (P : A → B → Prop) l n m (pages : nat → list B) :
  0 < n → (∀ i, i ≤ m → Forall2 P (take n (drop (i * n) l)) (pages i)) → pages m = [] →
  Forall2 P l (mjoin (pages <$> seq 0 m)).
Proof.
  intros Hn Hpages Hend.
  assert (l = mjoin ((λ i, take n (drop (i * n) l)) <$> seq 0 m)) as Hl.
  { rewrite take_pages, take_ge; [done|]. specialize (Hpages m ltac:(lia)). rewrite Hend in Hpages.
    apply Forall2_length in Hpages. rewrite length_take, length_drop in Hpages. simpl in Hpages. lia. }
  rewrite Hl. clear Hl.
  assert (∀ i, i ∈ seq 0 m → i ≤ m) as Hin by (intros i ?%elem_of_seq; lia). revert Hin.
  generalize (seq 0 m). intros js Hin. induction js as [|j js IH]; simpl; [constructor|].
  apply Forall2_app; [apply Hpages, Hin; left|apply IH; intros; apply Hin; by right].
Qed.

(** The rows and information of a page; [n] is not zero. *)
Lemma page_rows f desc qo li lo scan d (n : positive) k infos :
  list_workflows scan f (Some (Zpos n)) (Some (Z.of_nat k)) desc li lo qo d = Ok infos →
  ∃ p, where_ (list_clauses fromisoformat_ms jsonb_contains qo (map_filters to_list f)) = Ok p ∧
    Forall2 (λ x i, info_of_row serializer li lo x = Ok i)
      (take (Pos.to_nat n) (drop k (sql_order_by (created_before desc) (scan (sql_select p (workflow_status d)))))) infos.
Proof.
  unfold Introspection.list_workflows, Introspection.query_workflows.
  destruct (where_ _) as [p|e]; [|done]. intros Hl. exists p. split; [done|].
  apply res_map_Forall2.
  assert (∀ j, (0 ≤ j)%Z → not_negative "2201X" "OFFSET" (nonzero (Some j)) = Ok tt ∧
                           Z.to_nat (default 0%Z (nonzero (Some j))) = Z.to_nat j) as Hj.
  { intros [|j|j] Hj; [done|done|lia]. }
  destruct (Hj (Z.of_nat k) ltac:(lia)) as [Hj1 Hj2]. unfold sql_page in Hl. rewrite Hj1, Hj2, Nat2Z.id in Hl.
  unfold nonzero, not_negative in Hl. rewrite bool_decide_eq_false_2 in Hl by lia. exact Hl.
Qed.

Lemma info_of_row_ok li lo x :
  (∀ t, ws_authenticated_roles x.2 = Some t → is_ok (json_loads t) = true) → ∃ i, info_of_row serializer li lo x = Ok i.
Proof.
  destruct x as [id r]. simpl. intros Hroles. destruct (ws_authenticated_roles r) as [t|]; [|eauto].
  specialize (Hroles t eq_refl). destruct (json_loads t); [eauto|done].
Qed.

(** What is listed without limit, and that it is. *)
Lemma listed f scan desc li lo qo d infos :
  scans scan → list_workflows scan f None None desc li lo qo d = Ok infos →
  NoDup (wf_workflow_id <$> infos) ∧
  ∀ id, id ∈ wf_workflow_id <$> infos ↔
    ∃ r, workflow_status d !! id = Some r ∧ matches (map_filters to_list f) id r ∧ (qo = true → queued (map_filters to_list f) r).
Proof.
  unfold Introspection.list_workflows. intros Hscan Hl.
  destruct (query_workflows _ _ _ _ _ _ _) as [rows|] eqn:Hq; [|done].
  destruct (query_selects _ _ _ _ _ _ _ _ Hq) as (_ & p & Hp & Hsel). unfold Introspection.query_workflows in Hq.
  rewrite Hp in Hq. injection Hq as Hq.
  assert ((wf_workflow_id <$> infos) ≡ₚ (sql_select p (workflow_status d)).*1) as Hids.
  { rewrite <- (Hscan (sql_select p _)), <- (sql_order_by_Permutation (created_before desc)).
    change (sql_order_by (created_before desc) (scan (sql_select p (workflow_status d))) = rows) in Hq. rewrite Hq.
    apply res_map_Forall2 in Hl. clear Hq. induction Hl as [|[id r] i l l' Hi _ IH]; [done|].
    apply info_of_row_view in Hi as (Hid & _). by rewrite !fmap_cons, IH, Hid. }
  rewrite Hids. split; [apply NoDup_sql_select_keys|]. intros id. rewrite Hids, list_elem_of_fmap. split.
  - intros ([id' r] & -> & [? ?%Hsel]%elem_of_sql_select). eauto.
  - intros (r & Hr & Hm). exists (id, r). split; [done|]. apply elem_of_sql_select. by rewrite Hsel.
Qed.

Lemma listing_ok f scan desc li lo qo d :
  scans scan → times_ok (map_filters to_list f) →
  (∀ id r t, workflow_status d !! id = Some r → ws_authenticated_roles r = Some t → is_ok (json_loads t) = true) →
  ∃ infos, list_workflows scan f None None desc li lo qo d = Ok infos.
Proof.
  unfold Introspection.list_workflows, Introspection.query_workflows. intros Hscan Hok Hroles.
  destruct (where_ _) as [p|e] eqn:Hp.
  2: { apply (built_list _ jsonb_contains qo) in Hok. unfold built in Hok. rewrite <- where_is_ok, Hp in Hok. done. }
  change (∃ infos, res_map (info_of_row serializer li lo) (sql_order_by (created_before desc) (scan (sql_select p (workflow_status d)))) = Ok infos).
  assert (∀ x, x ∈ sql_order_by (created_before desc) (scan (sql_select p (workflow_status d))) →
               ∃ i, info_of_row serializer li lo x = Ok i) as Hall.
  { intros [id r]. rewrite sql_order_by_Permutation, (Hscan _), elem_of_sql_select. intros [Hr _].
    apply info_of_row_ok. intros t Ht. by eapply Hroles. }
  revert Hall. generalize (sql_order_by (created_before desc) (scan (sql_select p (workflow_status d)))).
  intros l Hall. induction l as [|x l IH]; [by exists []|]. simpl.
  destruct (Hall x ltac:(left)) as [i ->]. destruct IH as [is' ->]; [intros y Hy; apply Hall; by right|eauto].
Qed.

Lemma timeout_listed isoformat scan cutoff d :
  scans scan → isoformat ≠ ""%string → fromisoformat_ms isoformat = Ok (inject_Z cutoff) →
  (∀ id r t, workflow_status d !! id = Some r → ws_authenticated_roles r = Some t → is_ok (json_loads t) = true) →
  ∃ infos, list_workflows scan (timeout_filters isoformat) None None false true true false d = Ok infos ∧
    NoDup (wf_workflow_id <$> infos) ∧
    ∀ id, id ∈ wf_workflow_id <$> infos ↔
      ∃ r, workflow_status d !! id = Some r ∧ (ws_created_at r ≤ cutoff)%Z ∧ workflow_is_active (ws_status r) = true.
Proof.
  intros Hscan Hiso Hround Hroles.
  assert (times_ok (map_filters to_list (timeout_filters isoformat))) as Hok.
  { unfold Introspection.times_ok, time_ok. simpl. split_and!; try by intros. intros ? [= <-] _. by rewrite Hround. }
  destruct (listing_ok _ scan false true true false d Hscan Hok Hroles) as [infos Hl].
  exists infos. split; [done|]. destruct (listed _ _ _ _ _ _ _ _ Hscan Hl) as [Hnd Hin]. split; [done|].
  intros id. rewrite Hin. split.
  - intros (r & Hr & [] & _). exists r. split; [done|]. simpl in *. split.
    + destruct ma_created0 as [_ [?|[?|(z & s & q & [= <-] & [= <-] & Hq & Hle)]]]; [done|congruence|].
      rewrite Hround in Hq. injection Hq as <-. by rewrite <- Zle_Qle in Hle.
    + unfold one_of in ma_status0. destruct ma_status0 as [?|[?|(s & l & [= <-] & [= <-] & Hs)]]; [done..|].
      rewrite !elem_of_cons, elem_of_nil in Hs. destruct (ws_status r); naive_solver.
  - intros (r & Hr & Hc & Ha). exists r. split; [done|]. split; [|done].
    constructor; simpl; try (by left); try done.
    + right. right. eexists _, _. split_and!; [done..|]. destruct (ws_status r); try done; rewrite !elem_of_cons; auto.
    + split; [by left|]. right. right. eexists _, _, _. split_and!; [done..|by rewrite <- Zle_Qle].
    + split; by left.
    + split; by left.
Qed.

End listing.

Lemma cancel_listed (now : string → Z) (infos : list WorkflowStatus) d :
  NoDup (wf_workflow_id <$> infos) →
  ∃ d', for_each infos (λ i, cancel_ids (now (wf_workflow_id i)) [wf_workflow_id i]) d = (d', Ok tt) ∧
    ∀ id r, workflow_status d !! id = Some r → workflow_status d' !! id =
      Some (if bool_decide (id ∈ wf_workflow_id <$> infos) && not_complete (ws_status r) then cancelled_row (now id) r else r).
Proof.
  revert d. induction infos as [|i infos IH]; intros d Hnd.
  { exists d. split; [done|]. intros id r Hr. rewrite bool_decide_eq_false_2; [done|]. apply not_elem_of_nil. }
  rewrite fmap_cons, NoDup_cons in Hnd. destruct Hnd as [Hi Hnd].
  set (w := wf_workflow_id i) in *. destruct (IH (cancel_ids (now w) [w] d).1 Hnd) as (d' & Hd' & Hrows).
  exists d'. split.
  - simpl. fold w. erewrite bind_Ok; [exact Hd'|]. apply snd_Ok_pair. by unfold cancel_ids, engine_begin.
  - intros id r Hr. specialize (Hrows id). rewrite lookup_cancel_ids, Hr in Hrows. specialize (Hrows _ eq_refl). rewrite Hrows.
    rewrite fmap_cons. fold w. destruct (decide (id = w)) as [->|Hne].
    + rewrite (bool_decide_eq_true_2 (w ∈ [w])) by (by left). rewrite (bool_decide_eq_false_2 (w ∈ _ <$> infos)) by done.
      rewrite (bool_decide_eq_true_2 (w ∈ w :: _)) by (by left). done.
    + rewrite (bool_decide_eq_false_2 (id ∈ [w])) by (by rewrite list_elem_of_singleton).
      rewrite (bool_decide_ext (id ∈ w :: _) (id ∈ wf_workflow_id <$> infos)); [done|].
      rewrite elem_of_cons. naive_solver.
Qed.


(** ** Lemmas: groups *)

Lemma elem_of_sql_group_by {A K} `{EqDecision K} (key : A → K) (l : list A) k g :
  (k, g) ∈ sql_group_by key l ↔ (∃ x, x ∈ l ∧ key x = k) ∧ g = filter (λ x, key x = k) l.
Proof.
  unfold sql_group_by. rewrite list_elem_of_fmap. setoid_rewrite elem_of_remove_dups.
  setoid_rewrite list_elem_of_fmap. naive_solver.
Qed.

Lemma NoDup_sql_group_by {A K} `{EqDecision K} (key : A → K) (l : list A) : NoDup (sql_group_by key l).*1.
Proof.
  unfold sql_group_by. rewrite <- list_fmap_compose.
  rewrite (list_fmap_ext _ (λ x, x)) by done. rewrite list_fmap_id. apply NoDup_remove_dups.
Qed.

(** Two lists with the same views: those of their elements with a given part. *)
Lemma filter_view {A B V W} `{EqDecision V} (f : A → V) (g : B → V) (u : A → W) (w : B → W) (v : V) (l : list A) (l' : list B) :
  (λ x, (f x, u x)) <$> l ≡ₚ (λ x, (g x, w x)) <$> l' →
  u <$> filter (λ x, f x = v) l ≡ₚ w <$> filter (λ x, g x = v) l'.
Proof.
  intros Hp. apply (filter_Permutation (λ x, x.1 = v)) in Hp. apply (fmap_Permutation snd) in Hp.
  revert Hp. clear. intros Hp.
  assert (∀ {X} (h : X → V) (k : X → W) (l : list X),
    snd <$> filter (λ x, x.1 = v) ((λ x, (h x, k x)) <$> l) = k <$> filter (λ x, h x = v) l) as Heq.
  { intros X h k l0. induction l0 as [|x l0 IH]; [done|]. rewrite fmap_cons, !filter_cons. simpl.
    case_decide; rewrite ?fmap_cons, IH; done. }
  by rewrite !Heq in Hp.
Qed.

(** The extrema depend on the values alone, not on their order. *)
Lemma sql_fold_Permutation f l l' : (∀ a b, f a b = f b a) → (∀ a b c, f a (f b c) = f (f a b) c) →
  l ≡ₚ l' → sql_fold f l = sql_fold f l'.
Proof.
  intros Hc Ha. induction 1 as [|[x|] l l' _ IH|[x|] [y|] l|l1 l2 l3 _ IH1 _ IH2]; simpl; try congruence.
  - by rewrite IH.
  - destruct (sql_fold f l); f_equal; [by rewrite !Ha, (Hc x y)|apply Hc].
Qed.

Lemma sql_max_spec l z : sql_max l = Some z ↔ Some z ∈ l ∧ ∀ y, Some y ∈ l → (y ≤ z)%Z.
Proof.
  revert z. induction l as [|[x|] l IH]; intros z; cbn [sql_max sql_fold foldr].
  - split; [done|]. by intros [?%elem_of_nil _].
  - setoid_rewrite elem_of_cons. fold (sql_fold Z.max l) (sql_max l).
    destruct (sql_max l) as [m|] eqn:Hm.
    + pose proof (proj1 (IH m) eq_refl) as [Hin Hmax]. split.
      * intros [= <-]. destruct (Z.max_spec x m) as [[? ->]|[? ->]]; (split; [auto|]);
          intros y [[= ->]|Hy]; [lia|by apply Hmax|lia|]. specialize (Hmax _ Hy). lia.
      * intros [[[= ->]|Hz] Hall]; f_equal; [assert (m ≤ x)%Z by auto; lia|].
        assert (x ≤ z)%Z by auto. assert (m ≤ z)%Z by auto. specialize (Hmax _ Hz). lia.
    + assert (∀ y, Some y ∉ l) as Hno.
      { intros y Hy. assert (∃ m, sql_max l = Some m) as [? ?]; [|congruence].
        clear -Hy. induction l as [|[a|] l IHl]; [by apply elem_of_nil in Hy|..].
        - cbn [sql_max sql_fold foldr]. destruct (foldr _ _ _); eauto.
        - apply elem_of_cons in Hy as [?|Hy]; [done|]. destruct (IHl Hy) as [m Hm]. exists m. exact Hm. }
      split; [intros [= <-]; split; [auto|intros y [[= ->]|Hy]; [lia|by destruct (Hno y)]]|].
      intros [[[= ->]|Hz] _]; [done|by destruct (Hno z)].
  - setoid_rewrite elem_of_cons. fold (sql_fold Z.max l) (sql_max l). rewrite IH. naive_solver.
Qed.

Lemma group_dict_inj {R} (columns : list (string * (R → group_value))) r r' :
  text_faithful columns →
  group_dict columns ((λ c, c.2 r) <$> columns) = group_dict columns ((λ c, c.2 r') <$> columns) →
  (λ c, c.2 r) <$> columns = (λ c, c.2 r') <$> columns.
Proof.
  unfold group_dict. induction 1 as [|c columns Hc _ IH]; [done|]. simpl. intros [= Ht Hd]. f_equal; [by apply Hc|by apply IH].
Qed.

Lemma workflow_columns_faithful g : text_faithful (workflow_columns g).
Proof.
  assert (∀ (o o' : option string), group_text (inl <$> o) = group_text (inl <$> o') → (inl <$> o : group_value) = inl <$> o') as Ho.
  { by intros [] []; simpl; congruence. }
  unfold text_faithful, workflow_columns, enabled. cbn [mbind list_bind]. apply Forall_app. split.
  - destruct (gb_status g), (gb_name g), (gb_queue_name g), (gb_executor_id g), (gb_application_version g); simpl;
      repeat constructor; simpl; intros r r' Hr; first [by apply Ho|congruence].
  - destruct (gb_time_bucket_size_ms g); repeat constructor. simpl. intros r r' [= Hr%(inj pretty)]. by rewrite Hr.
Qed.

Lemma group_dict_info serializer li lo g x i `{Codecs} :
  info_of_row serializer li lo x = Ok i →
  group_dict (workflow_columns g) ((λ c, c.2 x.2) <$> workflow_columns g) = info_group g i.
Proof.
  destruct x as [id r]. intros (_ & Es & En & Eq & Ee & Ea & Ec & _)%info_of_row_view.
  unfold info_group. rewrite Es, En, Eq, Ee, Ea, Ec. unfold workflow_columns, enabled, group_dict.
  assert (∀ o : option string, group_text (inl <$> o) = o) as Ho by by intros [].
  destruct (gb_status g), (gb_name g), (gb_queue_name g), (gb_executor_id g), (gb_application_version g),
    (gb_time_bucket_size_ms g); simpl; rewrite ?Ho; done.
Qed.

Lemma view_elem {A B V} (u : A → V) (w : B → V) l l' :
  u <$> l ≡ₚ w <$> l' → ∀ x, x ∈ l → ∃ y, y ∈ l' ∧ u x = w y.
Proof.
  intros Hp x Hx. assert (u x ∈ w <$> l') as (y & Hy & ?)%list_elem_of_fmap by (rewrite <- Hp; by apply list_elem_of_fmap_2).
  by exists y.
Qed.

(** The row of a group is the aggregate of the information of its members. *)
Lemma aggregate_row s g sel infos r i :
  row_view g <$> sel ≡ₚ info_view g <$> infos → row_view g r = info_view g i →
  aggregate_of s g infos (info_group g i) =
  let columns := workflow_columns g in
  let k := (λ c, c.2 r) <$> columns in
  let members := filter (λ x, (λ c, c.2 x) <$> columns = k) sel in
  {| ag_group := group_dict columns k;
     ag_count := if se_count s then Some (Z.of_nat (length members)) else None;
     ag_min_created_at := if se_min_created_at s then sql_min ((λ r, Some (ws_created_at r)) <$> members) else None;
     ag_max_queue_wait_ms := if se_max_queue_wait_ms s
       then sql_max ((λ r, sql_minus (ws_started_at_epoch_ms r) (Some (ws_created_at r))) <$> members) else None;
     ag_max_total_latency_ms := if se_max_total_latency_ms s
       then sql_max ((λ r, sql_minus (ws_completed_at r) (Some (ws_created_at r))) <$> members) else None |}.
Proof.
  intros Hview Hri. cbv zeta. injection Hri as Hk _. rewrite <- Hk. unfold aggregate_of.
  set (dict r := group_dict (workflow_columns g) ((λ c, c.2 r) <$> workflow_columns g)).
  assert (filter (λ x, (λ c, c.2 x) <$> workflow_columns g = (λ c, c.2 r) <$> workflow_columns g) sel =
          filter (λ x, dict x = dict r) sel) as ->.
  { apply list_filter_iff. intros x. subst dict. simpl. split; [by intros ->|].
    apply group_dict_inj, workflow_columns_faithful. }
  fold (dict r).
  assert ((λ x, (ws_created_at x, ws_started_at_epoch_ms x, ws_completed_at x)) <$> filter (λ x, dict x = dict r) sel ≡ₚ
          (λ x, (wf_created_at x, wf_dequeued_at x, wf_completed_at x)) <$> filter (λ x, info_group g x = dict r) infos) as Hm
    by exact (filter_view dict (info_group g) _ _ (dict r) _ _ Hview).
  assert (∀ h : Z * option Z * option Z → option Z,
    (λ x, h (ws_created_at x, ws_started_at_epoch_ms x, ws_completed_at x)) <$> filter (λ x, dict x = dict r) sel ≡ₚ
    (λ x, h (wf_created_at x, wf_dequeued_at x, wf_completed_at x)) <$> filter (λ x, info_group g x = dict r) infos) as Hh.
  { intros h. apply (fmap_Permutation h) in Hm. by rewrite <- !list_fmap_compose in Hm. }
  f_equal.
  - apply Permutation_length in Hm. rewrite !length_fmap in Hm. by rewrite Hm.
  - destruct (se_min_created_at s); [|done]. symmetry.
    exact (sql_fold_Permutation Z.min _ _ Z.min_comm Z.min_assoc (Hh (λ v, Some v.1.1))).
  - destruct (se_max_queue_wait_ms s); [|done]. symmetry.
    exact (sql_fold_Permutation Z.max _ _ Z.max_comm Z.max_assoc (Hh (λ v, sql_minus v.1.2 (Some v.1.1)))).
  - destruct (se_max_total_latency_ms s); [|done]. symmetry.
    exact (sql_fold_Permutation Z.max _ _ Z.max_comm Z.max_assoc (Hh (λ v, sql_minus v.2 (Some v.1.1)))).
Qed.

Lemma sql_select_ext `{Countable K} {R} (p q : K → R → bool) t : (∀ k r, p k r = q k r) → sql_select p t = sql_select q t.
Proof. intros Hpq. unfold sql_select. apply list_filter_iff. intros [k r]. by rewrite Hpq. Qed.

(** The listed information and the rows the aggregates are made of have the same views. *)
Lemma listed_view `{Codecs} serializer iso contains scan f desc li lo d infos g :
  scans scan → list_workflows serializer iso contains scan f None None desc li lo false d = Ok infos →
  ∃ p q, where_ (aggregate_clauses iso contains (map_filters to_list f)) = Ok q ∧ (∀ id r, p id r = q id r) ∧
    row_view g <$> (sql_select p (workflow_status d)).*2 ≡ₚ info_view g <$> infos.
Proof.
  unfold list_workflows, query_workflows. intros Hscan.
  destruct (where_ (list_clauses _ _ _ _)) as [p|e] eqn:Hp; [|done]. intros Hl.
  change (res_map (info_of_row serializer li lo) (sql_order_by (created_before desc) (scan (sql_select p (workflow_status d)))) = Ok infos) in Hl.
  assert (times_ok iso (map_filters to_list f)) as Hok.
  { apply (built_list _ contains false). intros c. apply where_is_ok. by rewrite Hp. }
  destruct (where_ (aggregate_clauses iso contains (map_filters to_list f))) as [q|e] eqn:Hq.
  2: { apply (built_aggregate iso contains) in Hok. unfold built in Hok. rewrite <- where_is_ok, Hq in Hok. done. }
  exists p, q. split; [done|]. split.
  - intros id r. apply eq_true_iff_eq. rewrite (where_spec _ _ Hp), (where_spec _ _ Hq).
    rewrite admits_list, admits_aggregate by done. naive_solver.
  - apply res_map_Forall2 in Hl. rewrite <- (Hscan (sql_select p _)), <- (sql_order_by_Permutation (created_before desc)).
    revert Hl. generalize (sql_order_by (created_before desc) (scan (sql_select p (workflow_status d)))). intros l HF.
    induction HF as [|[id r] i l l' Hi _ IH]; [done|]. rewrite !fmap_cons, IH.
    replace (row_view g (id, r).2) with (info_view g i); [done|]. unfold info_view, row_view.
    rewrite <- (group_dict_info _ _ _ g _ _ Hi). by apply info_of_row_view in Hi as (_ & _ & _ & _ & _ & _ & -> & -> & ->).
Qed.

(** ** Lemmas: counts, and the global timeout *)

Lemma sql_count_ext `{Countable K} {R} (p q : K → R → bool) t : (∀ k r, p k r = q k r) → sql_count p t = sql_count q t.
Proof. intros Hpq. unfold sql_count. by rewrite (sql_select_ext p q). Qed.

(** A condition that splits in two. *)
Lemma sql_count_split `{Countable K} {R} (p q1 q2 : K → R → bool) t :
  (∀ k r, Z.b2z (p k r) = (Z.b2z (q1 k r) + Z.b2z (q2 k r))%Z) → sql_count p t = (sql_count q1 t + sql_count q2 t)%Z.
Proof.
  intros Hp. unfold sql_count, sql_select. induction (map_to_list t) as [|[k r] l IH]; [done|].
  rewrite !filter_cons. simpl. specialize (Hp k r).
  destruct (p k r), (q1 k r), (q2 k r); simpl in *; repeat case_decide; simpl in *; try done; lia.
Qed.

Lemma adjacent_intervals e0 e1 e2 (t : option Z) : (e0 ≤ e1 ≤ e2)%Z →
  Z.b2z (sql_cmp Z.geb t e0 && sql_cmp Z.ltb t e2) =
  (Z.b2z (sql_cmp Z.geb t e0 && sql_cmp Z.ltb t e1) + Z.b2z (sql_cmp Z.geb t e1 && sql_cmp Z.ltb t e2))%Z.
Proof.
  intros ?. destruct t as [z|]; [|done]. simpl. rewrite !Z.geb_leb.
  destruct (Z.leb_spec e0 z), (Z.ltb_spec z e2), (Z.ltb_spec z e1), (Z.leb_spec e1 z); simpl; lia.
Qed.

Lemma metric_app ty name ms ms' : metric ty name (ms ++ ms') = (metric ty name ms + metric ty name ms')%Z.
Proof. unfold metric. induction ms as [|m ms IH]; [done|]. cbn [app foldr]. rewrite IH. case_decide; lia. Qed.

Lemma metric_count `{Countable K} {R} ty ty' (name : R → option string) (t : R → option Z) e e' (table : gmap K R) n :
  metric ty' n (count_by_name ty name t e e' table) =
  if decide (ty = ty') then sql_count (λ _ r, bool_decide (name r = n) && (sql_cmp Z.geb (t r) e && sql_cmp Z.ltb (t r) e')) table
  else 0%Z.
Proof.
  unfold count_by_name, sql_group_by. set (p := λ (_ : K) r, sql_cmp Z.geb (t r) e && sql_cmp Z.ltb (t r) e').
  set (sel := (sql_select p table).*2). rewrite <- list_fmap_compose.
  destruct (decide (ty = ty')) as [<-|Hne].
  2: { induction (remove_dups (name <$> sel)) as [|k ks IH]; [done|]. simpl. rewrite decide_False by naive_solver. exact IH. }
  transitivity (Z.of_nat (length (filter (λ x, name x = n) sel))).
  - assert (n ∉ remove_dups (name <$> sel) → length (filter (λ x, name x = n) sel) = 0) as Hno.
    { rewrite elem_of_remove_dups. intros Hn. destruct (filter _ sel) as [|x l] eqn:Hf; [done|].
      assert (x ∈ filter (λ x, name x = n) sel) as [Heq Hx]%list_elem_of_filter by (rewrite Hf; left).
      destruct Hn. rewrite <- Heq. by apply list_elem_of_fmap_2. }
    pose proof (NoDup_remove_dups (name <$> sel)) as Hnd. revert Hno Hnd.
    generalize (remove_dups (name <$> sel)). intros ks. induction ks as [|k ks IH]; intros Hno Hnd.
    { rewrite Hno; [done|apply not_elem_of_nil]. }
    apply NoDup_cons in Hnd as [Hk Hnd]. simpl. case_decide as Hd.
    + destruct Hd as [_ ->]. enough (metric ty n ((λ k, {| md_metric_type := ty; md_metric_name := k;
        md_value := Z.of_nat (length (filter (λ x, name x = k) sel)) |}) <$> ks) = 0%Z) as Hz.
      { etrans; [exact (f_equal (Z.add _) Hz)|lia]. }
      clear -Hk. induction ks as [|k ks IH]; [done|]. apply not_elem_of_cons in Hk as [? ?]. simpl.
      rewrite decide_False by naive_solver. by apply IH.
    + apply IH; [|done]. intros Hn. apply Hno. apply not_elem_of_cons. naive_solver.
  - unfold sql_count, sel, sql_select. f_equal. induction (map_to_list table) as [|[k r] l IH]; [done|].
    rewrite !filter_cons. simpl. destruct (p k r) eqn:Hp; unfold p in Hp; rewrite Hp.
    + rewrite decide_True by done. rewrite fmap_cons, filter_cons. simpl. rewrite andb_true_r.
      destruct (decide (name r = n)) as [Hn|Hn]; [rewrite bool_decide_eq_true_2 by done|rewrite bool_decide_eq_false_2 by done];
        simpl; by rewrite ?IH.
    + rewrite andb_false_r. simpl. exact IH.
Qed.

(** ** The properties *)

Section properties.
Context `{Codecs} (serializer : Serializer) (fromisoformat_ms : string → res pyexn Q)
  (jsonb_contains : string → pyval → bool).
Notation list_workflows := (list_workflows serializer fromisoformat_ms jsonb_contains).
Notation matches := (matches fromisoformat_ms jsonb_contains).
Notation created_apart := (created_apart fromisoformat_ms jsonb_contains).

(** C30: The pages of [list_workflows], read one after the other until one is empty, list every
    workflow that matches the filters, once, in the order of creation, if no two of them
    were created in the same millisecond. Each page is the [n] workflows of that list from its
    offset on; and the information on each workflow is, field by field, what the columns of its
    row say, its inputs and its result read if they are asked for. *)
Theorem list_workflows_pages f desc qo li lo scan d (n : positive) m pages :
  (∀ i, scans (scan i)) → created_apart (map_filters to_list f) qo d →
  (∀ i, i ≤ m → list_workflows (scan i) f (Some (Zpos n)) (Some (Z.of_nat (i * Pos.to_nat n))) desc li lo qo d = Ok (pages i)) →
  pages m = [] →
  let infos := mjoin (pages <$> seq 0 m) in
  (∀ i, i ≤ m → pages i = take (Pos.to_nat n) (drop (i * Pos.to_nat n) infos)) ∧
  (∀ i, i ∈ infos → ∃ r, workflow_status d !! wf_workflow_id i = Some r ∧ reads_back serializer li lo (wf_workflow_id i) r i) ∧
  NoDup (wf_workflow_id <$> infos) ∧
  StronglySorted (λ t t', if desc then (t' <= t)%Z else (t <= t')%Z) (wf_created_at <$> infos) ∧
  ∀ id, id ∈ wf_workflow_id <$> infos ↔
    ∃ r, workflow_status d !! id = Some r ∧ matches (map_filters to_list f) id r ∧
         (qo = true → queued (map_filters to_list f) r).
Proof.
  intros Hscan Hapart Hpages Hend infos.
  assert (∃ p, where_ (list_clauses fromisoformat_ms jsonb_contains qo (map_filters to_list f)) = Ok p) as [p Hp].
  { destruct (page_rows _ _ _ _ _ _ _ _ _ _ _ _ _ (Hpages 0 ltac:(lia))) as (p & ? & _). by exists p. }
  assert (times_ok fromisoformat_ms (map_filters to_list f)) as Hok.
  { apply (built_list _ jsonb_contains qo). intros c. apply where_is_ok. by rewrite Hp. }
  set (sel := sql_select p (workflow_status d)). set (L := sql_order_by (created_before desc) sel).
  assert (∀ id r, (id, r) ∈ sel ↔ workflow_status d !! id = Some r ∧
    matches (map_filters to_list f) id r ∧ (qo = true → queued (map_filters to_list f) r)) as Hsel.
  { intros id r. subst sel. rewrite elem_of_sql_select, (where_spec _ _ Hp). by rewrite admits_list. }
  assert (∀ i, i ≤ m → Forall2 (λ x i, info_of_row serializer li lo x = Ok i)
    (take (Pos.to_nat n) (drop (i * Pos.to_nat n) L)) (pages i)) as Hrows.
  { intros i Hi. destruct (page_rows _ _ _ _ _ _ _ _ _ _ _ _ _ (Hpages i Hi)) as (p' & Hp' & HF).
    rewrite Hp in Hp'. injection Hp' as <-. subst L.
    rewrite (order_unique desc sel (scan i sel)); [done|by symmetry; apply Hscan|].
    intros [id r] [id' r'] (? & ? & ?)%Hsel (? & ? & ?)%Hsel Hc.
    assert (id = id') as -> by (eapply Hapart; eauto). simplify_eq/=. congruence. }
  assert (Forall2 (λ x i, info_of_row serializer li lo x = Ok i) L infos) as HL by (subst infos; by apply (joined_pages _ _ (Pos.to_nat n)); [lia|..]).
  assert ((wf_workflow_id <$> infos) = L.*1 ∧ (wf_created_at <$> infos) = ((λ x : row, ws_created_at x.2) <$> L)) as [Hids Htimes].
  { revert HL. generalize L infos. intros l1 l2 HL. induction HL as [|[id r] i l l' Hi _ [IH1 IH2]]; [done|].
    apply info_of_row_view in Hi as (Hid & _ & _ & _ & _ & _ & Ht & _). rewrite !fmap_cons, IH1, IH2, Hid, Ht. done. }
  rewrite Hids, Htimes. split_and!.
  - intros i Hi. eapply Forall2_functional; [apply Hrows, Hi|by apply Forall2_take, Forall2_drop].
  - intros i Hi. destruct (Forall2_elem_r _ _ _ _ HL Hi) as ([id r] & Hin & Hir).
    destruct (info_of_row_view _ _ _ _ _ _ Hir) as (Hid & _). rewrite Hid. exists r. split; [|by apply info_of_row_reads].
    subst L. rewrite sql_order_by_Permutation in Hin. by apply Hsel in Hin as [? _].
  - subst L. rewrite sql_order_by_Permutation. apply NoDup_sql_select_keys.
  - eapply StronglySorted_fmap; [|apply created_before_sorted]. intros x y. unfold created_before.
    destruct desc; rewrite Is_true_true, Z.leb_le; lia.
  - intros id. subst L. rewrite sql_order_by_Permutation, list_elem_of_fmap. split.
    + intros ([id' r] & -> & Hin). exists r. by apply Hsel.
    + intros (r & Hr). exists (id, r). split; [done|]. by apply Hsel.
Qed.

(** The aggregates of [get_workflow_aggregates] are those of the workflows that
    [list_workflows] lists with the same filters: one row for each group that a listed
    workflow is in, with their number, the first creation, the longest wait in a queue and the
    longest latency. *)
Lemma aggregates_of_listed f g s scan desc li lo d infos :
  scans scan →
  list_workflows scan f None None desc li lo false d = Ok infos →
  check_aggregate (gb_time_bucket_size_ms g) (workflow_columns g)
    [se_count s; se_min_created_at s; se_max_queue_wait_ms s; se_max_total_latency_ms s] = Ok tt →
  ∃ rows, get_workflow_aggregates fromisoformat_ms jsonb_contains g s (map_filters to_list f) d = Ok rows ∧
    NoDup (ag_group <$> rows) ∧
    ∀ row, row ∈ rows ↔ ∃ i, i ∈ infos ∧ row = aggregate_of s g infos (info_group g i).
Proof.
  intros Hscan Hl Hcheck. destruct (listed_view _ _ _ _ _ _ _ _ _ _ g Hscan Hl) as (p & q & Hq & Hpq & Hview).
  unfold get_workflow_aggregates. rewrite Hcheck, Hq.
  rewrite (sql_select_ext _ _ _ Hpq) in Hview.
  set (sel := (sql_select q (workflow_status d)).*2) in *. set (cols := workflow_columns g) in *.
  eexists. split; [done|]. rewrite <- list_fmap_compose. split.
  - apply NoDup_fmap_2_strong; [|eapply NoDup_fmap_1, NoDup_sql_group_by].
    intros [k l] [k' l'] [(r & Hr & <-) ->]%elem_of_sql_group_by [(r' & Hr' & <-) ->]%elem_of_sql_group_by Heq.
    simpl in Heq. apply group_dict_inj in Heq; [|apply workflow_columns_faithful]. by rewrite Heq.
  - intros row. rewrite list_elem_of_fmap. split.
    + intros ([k l] & -> & [(r & Hr & <-) ->]%elem_of_sql_group_by).
      destruct (view_elem _ _ _ _ Hview r Hr) as (i & Hi & Hri). exists i. split; [done|].
      symmetry. by apply (aggregate_row s g sel infos r i).
    + intros (i & Hi & ->). destruct (view_elem _ _ _ _ (symmetry Hview) i Hi) as (r & Hr & Hri).
      exists ((λ c, c.2 r) <$> cols, filter (λ x, (λ c, c.2 x) <$> cols = (λ c, c.2 r) <$> cols) sel).
      split; [by apply (aggregate_row s g sel infos r i)|]. apply elem_of_sql_group_by. eauto.
Qed.

(** The metrics of an interval count the workflows created and the steps completed in it,
    so that those of adjacent intervals add up to those of the whole. *)
Lemma metrics_add t0 t1 t2 e0 e1 e2 d m01 m12 m02 :
  epoch_ms fromisoformat_ms t0 = Ok e0 → epoch_ms fromisoformat_ms t1 = Ok e1 → epoch_ms fromisoformat_ms t2 = Ok e2 →
  (e0 ≤ e1 ≤ e2)%Z →
  get_metrics fromisoformat_ms t0 t1 d = Ok m01 → get_metrics fromisoformat_ms t1 t2 d = Ok m12 →
  get_metrics fromisoformat_ms t0 t2 d = Ok m02 →
  ∀ metric_type name,
    metric metric_type name m02 = (metric metric_type name m01 + metric metric_type name m12)%Z ∧
    (metric_type = "workflow_count"%string → metric metric_type name m02 = sql_count (λ _ r, bool_decide (ws_name r = name) &&
       bool_decide (e0 ≤ ws_created_at r < e2)%Z) (workflow_status d)).
Proof.
  unfold get_metrics. intros -> -> -> [H01 H12] [= <-] [= <-] [= <-] ty name.
  rewrite !metric_app, !metric_count. split.
  - destruct (decide ("workflow_count"%string = ty)) as [<-|]; [rewrite decide_False by done|destruct (decide _); [|done]];
      rewrite ?Z.add_0_r, ?Z.add_0_l; apply sql_count_split; intros _ r;
      (destruct (bool_decide _); [|done]); by apply adjacent_intervals.
  - intros ->. rewrite decide_True, decide_False by done. rewrite Z.add_0_r. apply sql_count_ext. intros _ r.
    unfold sql_cmp. rewrite Z.geb_leb. f_equal. apply eq_true_iff_eq.
    rewrite andb_true_iff, Z.leb_le, Z.ltb_lt, bool_decide_eq_true. lia.
Qed.

(** [global_timeout] cancels every workflow that is pending, enqueued or delayed and was
    created by the cutoff, and changes no other. *)
Lemma global_timeout_cancels isoformat scan now cutoff d :
  scans scan → isoformat cutoff ≠ ""%string → fromisoformat_ms (isoformat cutoff) = Ok (inject_Z cutoff) →
  (∀ id r t, workflow_status d !! id = Some r → ws_authenticated_roles r = Some t → is_ok (json_loads t) = true) →
  ∃ d', global_timeout serializer fromisoformat_ms jsonb_contains isoformat scan now cutoff d = (d', Ok tt) ∧
    ∀ id r, workflow_status d !! id = Some r →
      workflow_status d' !! id =
        Some (if bool_decide (ws_created_at r ≤ cutoff)%Z && workflow_is_active (ws_status r) then cancelled_row (now id) r else r).
Proof.
  intros Hscan Hiso Hround Hroles.
  destruct (timeout_listed serializer fromisoformat_ms jsonb_contains (isoformat cutoff) scan cutoff d Hscan Hiso Hround Hroles) as (infos & Hl & Hnd & Hin).
  unfold global_timeout. erewrite bind_Ok; [|by rewrite Hl].
  destruct (cancel_listed now infos d Hnd) as (d' & Hd' & Hrows). exists d'. split; [exact Hd'|].
  intros id r Hr. rewrite (Hrows id r Hr). f_equal.
  destruct (decide (id ∈ wf_workflow_id <$> infos)) as [Hid|Hid].
  - rewrite bool_decide_eq_true_2 by done. apply Hin in Hid as (r' & Hr' & Hc & Ha). simplify_eq.
    rewrite bool_decide_eq_true_2, Ha by done. simpl. by destruct (ws_status r).
  - rewrite bool_decide_eq_false_2 by done. simpl. destruct (bool_decide (_ ≤ _)%Z) eqn:Hc; [|done]. simpl.
    destruct (workflow_is_active _) eqn:Ha; [|done]. destruct Hid. apply Hin. apply bool_decide_eq_true in Hc. eauto.
Qed.

Lemma list_workflow_steps_spec workflow_id load_output d :
  ∃ steps, list_workflow_steps serializer workflow_id load_output None None d = Ok steps ∧
    StronglySorted Z.lt (si_function_id <$> steps) ∧
    ∀ step, step ∈ steps ↔ ∃ k r, operation_outputs d !! (workflow_id, k) = Some r ∧
                                   step = step_info serializer load_output ((workflow_id, k), r).
Proof.
  unfold list_workflow_steps, sql_page, not_negative. cbn [default]. eexists. split; [done|].
  change (drop (Z.to_nat (default 0%Z None))) with (@drop ((string * Z) * operation_outputs_row) 0). rewrite drop_0.
  set (sel := sql_select _ _). set (le := λ a b : (string * Z) * operation_outputs_row, Z.leb a.1.2 b.1.2).
  assert (∀ k r, (k, r) ∈ sql_order_by le sel ↔ operation_outputs d !! k = Some r ∧ k.1 = workflow_id) as Hin.
  { intros k r. rewrite elem_of_sql_order_by. subst sel. by rewrite elem_of_sql_select, bool_decide_eq_true. }
  split.
  - assert (NoDup (sql_order_by le sel).*1) as Hnd by (rewrite sql_order_by_Permutation; apply NoDup_sql_select_keys).
    assert (StronglySorted (λ x y, Is_true (le x y)) (sql_order_by le sel)) as Hs.
    { apply sql_order_by_sorted; unfold le; intros; rewrite ?Z.leb_le in *; lia. }
    rewrite <- list_fmap_compose. revert Hin Hnd Hs. generalize (sql_order_by le sel). intros l Hin.
    assert (∀ x, x ∈ l → x.1.1 = workflow_id) as Hw by by intros [k r] [_ ?]%Hin. clear Hin.
    induction l as [|x l IH]; intros Hnd Hs; [constructor|]. apply StronglySorted_cons in Hs as [Hx Hs].
    rewrite fmap_cons, NoDup_cons in Hnd. destruct Hnd as [Hxl Hnd]. rewrite fmap_cons. constructor.
    + apply IH; [intros y Hy; apply Hw; by right|done|done].
    + apply Forall_fmap, Forall_forall. intros y Hy. rewrite Forall_forall in Hx. specialize (Hx y Hy).
      unfold le in Hx. rewrite Is_true_true, Z.leb_le in Hx. simpl. unfold step_info.
      destruct load_output; simpl; (destruct (decide (x.1.2 = y.1.2)) as [He|]; [|lia]); destruct Hxl;
        (replace x.1 with y.1; [by apply list_elem_of_fmap_2|]);
        rewrite (surjective_pairing x.1), (surjective_pairing y.1), He, !Hw by (by left || by right); done.
  - intros step. rewrite list_elem_of_fmap. split.
    + intros ([[w k] r] & -> & [Hr Hk]%Hin). simpl in Hk. subst w. eauto.
    + intros (k & r & Hr & ->). exists ((workflow_id, k), r). split; [done|]. by apply Hin.
Qed.

End properties.

(** Pages of [list_workflows] are not stable where workflows were created in the same
    millisecond: the order has no tie-breaker, so that two pages may show the same workflow and
    leave another one out. *)
Lemma tied_pages_repeat :
  ∃ i, scans (λ l, l) ∧ scans (@rev row) ∧
    sample_list (λ l, l) (Some 1%Z) None sample_tie = Ok [i] ∧ sample_list (@rev row) (Some 1%Z) (Some 1%Z) sample_tie = Ok [i] ∧
    sample_list (λ l, l) (Some 1%Z) (Some 2%Z) sample_tie = Ok [].
Proof.
  eexists. split_and!; [by intros l|intros l; symmetry; apply Permutation_rev|by vm_compute|by vm_compute|by vm_compute].
Qed.

(** ** Witnesses *)

Lemma sample_lookup (id : string) (r : workflow_status_row) : workflow_status sample_history !! id = Some r →
  (id, ws_created_at r, ws_status r, ws_authenticated_roles r) ∈
    [("a"%string, 1%Z, SUCCESS, None); ("b"%string, 2%Z, PENDING, None); ("c"%string, 3%Z, ENQUEUED, None)].
Proof.
  unfold sample_history, sample_db. cbn [workflow_status]. intros Hr. apply elem_of_list_to_map_2 in Hr.
  unfold created in Hr. rewrite !elem_of_cons, elem_of_nil in Hr. rewrite !elem_of_cons.
  destruct Hr as [Hr|[Hr|[Hr|[]]]]; injection Hr as -> ->; [by left|by right; left|by right; right; left].
Qed.

Lemma list_workflows_pages_witness :
  let pages i := match i with
                 | 0 => match sample_list (λ l, l) (Some 2%Z) (Some 0%Z) sample_history with Ok l => l | Err _ => [] end
                 | 1 => match sample_list (λ l, l) (Some 2%Z) (Some 2%Z) sample_history with Ok l => l | Err _ => [] end
                 | _ => []
                 end in
  (wf_workflow_id <$> mjoin (pages <$> seq 0 2)) = ["a"; "b"; "c"]%string ∧ NoDup (wf_workflow_id <$> mjoin (pages <$> seq 0 2)).
Proof.
  intros pages. split; [by vm_compute|].
  apply (@list_workflows_pages sample_codecs sample_serializer sample_iso (λ _ _, false) (only_ids None) false false false false
           (λ _ l, l) sample_history 2 2 pages).
  - by intros i l.
  - intros id id' r r' Hr%sample_lookup Hr'%sample_lookup _ _ _ Hc. rewrite !elem_of_cons, elem_of_nil in Hr, Hr'.
    destruct Hr as [[=]|[[=]|[[=]|[]]]], Hr' as [[=]|[[=]|[[=]|[]]]]; congruence.
  - intros [|[|[|i]]] Hi; [by vm_compute..|lia].
  - done.
Defined.

Lemma aggregates_of_listed_witness :
  let g := {| gb_status := true; gb_name := false; gb_queue_name := false; gb_executor_id := false;
              gb_application_version := false; gb_time_bucket_size_ms := Some 2%Z |} in
  let s := {| se_count := true; se_min_created_at := true; se_max_queue_wait_ms := false; se_max_total_latency_ms := false |} in
  ∃ rows, get_workflow_aggregates sample_iso (λ _ _, false) g s (map_filters to_list (only_ids None)) sample_history = Ok rows ∧
    length rows = 3 ∧ NoDup (ag_group <$> rows).
Proof.
  intros g s.
  destruct (@aggregates_of_listed sample_codecs sample_serializer sample_iso (λ _ _, false) (only_ids None) g s (λ l, l) false
              false false sample_history _ (λ l, reflexivity l) eq_refl eq_refl) as (rows & Hrows & Hnd & _).
  exists rows. split_and!; [done| |done]. revert Hrows. vm_compute. by intros [= <-].
Defined.

Lemma metrics_add_witness :
  ∃ m01 m12 m02, get_metrics sample_iso "" (sample_text 2) sample_history = Ok m01 ∧
    get_metrics sample_iso (sample_text 2) (sample_text 4) sample_history = Ok m12 ∧
    get_metrics sample_iso "" (sample_text 4) sample_history = Ok m02 ∧
    ∀ name, metric "workflow_count" name m02 = (metric "workflow_count" name m01 + metric "workflow_count" name m12)%Z.
Proof.
  eexists _, _, _. split_and!; [reflexivity..|]. intros name.
  apply (metrics_add sample_iso "" (sample_text 2) (sample_text 4) 0 2 4 sample_history); try reflexivity. lia.
Defined.

Lemma global_timeout_cancels_witness :
  ∃ d', @global_timeout sample_codecs sample_serializer sample_iso (λ _ _, false) (λ z, sample_text (Z.to_nat z)) (λ l, l)
          (λ _, 9%Z) 2 sample_history = (d', Ok tt) ∧
    (ws_status <$> workflow_status d' !! "b"%string) = Some CANCELLED ∧ (ws_status <$> workflow_status d' !! "c"%string) = Some ENQUEUED.
Proof.
  destruct (@global_timeout_cancels sample_codecs sample_serializer sample_iso (λ _ _, false) (λ z, sample_text (Z.to_nat z))
              (λ l, l) (λ _, 9%Z) 2 sample_history) as (d' & Hd' & Hrows); [by intros l|done|done| |].
  - intros id r t Hr%sample_lookup Ht. rewrite !elem_of_cons, elem_of_nil in Hr.
    destruct Hr as [[=]|[[=]|[[=]|[]]]]; congruence.
  - exists d'. split; [done|].
    rewrite (Hrows "b"%string _ eq_refl), (Hrows "c"%string _ eq_refl). by vm_compute.
Defined.
