(* ===== verification/Context.v ===== *)
(** * The execution context: [DBOSContext] of [dbos/_context.py]

    A context is a mutable object: a method that changes it, or that derives a child from
    it, returns the context it leaves together with its result. The generated workflow ID
    ([generate_uuid]) is an argument of the methods that may draw one. Loggers and tracing
    spans are left out. *)
From stdpp Require Import pretty.
From S2P Require Import Prelude Errors Serialization.

Record StepStatus := { step_id : Z; current_attempt : option Z; max_attempts : option Z }.

Record DBOSContext := Ctx {
  cx_executor_id : string;
  cx_app_id : string;
  cx_id_assigned_for_next_workflow : string;
  cx_is_within_set_workflow_id_block : bool;
  cx_parent_workflow_id : string;
  cx_parent_workflow_fid : Z;
  cx_workflow_id : string;
  cx_function_id : Z;
  cx_curr_step_function_id : Z;
  cx_curr_tx_function_id : Z;
  cx_in_sql_session : bool;
  cx_authenticated_user : option string;
  cx_authenticated_roles : option (list string);
  cx_assumed_role : option string;
  cx_step_status : option StepStatus;
  cx_app_version : option string;
  cx_serialization_type : WorkflowSerializationFormat;
  cx_workflow_timeout_ms : option Z;
  cx_workflow_deadline_epoch_ms : option Z;
  cx_deduplication_id : option string;
  cx_priority : option Z;
  cx_workflow_attributes : option pyval;
  cx_queue_partition_key : option string;
  cx_delay_until_epoch_ms : option Z;
  cx_debounce_deadline_epoch_ms : option Z;
  cx_is_debounced : bool;
}.

#[export] Instance DBOSContext_eta : RecordEta DBOSContext := λ c,
  Ctx (cx_executor_id c) (cx_app_id c) (cx_id_assigned_for_next_workflow c)
    (cx_is_within_set_workflow_id_block c) (cx_parent_workflow_id c) (cx_parent_workflow_fid c)
    (cx_workflow_id c) (cx_function_id c) (cx_curr_step_function_id c) (cx_curr_tx_function_id c)
    (cx_in_sql_session c) (cx_authenticated_user c) (cx_authenticated_roles c) (cx_assumed_role c)
    (cx_step_status c) (cx_app_version c) (cx_serialization_type c) (cx_workflow_timeout_ms c)
    (cx_workflow_deadline_epoch_ms c) (cx_deduplication_id c) (cx_priority c)
    (cx_workflow_attributes c) (cx_queue_partition_key c) (cx_delay_until_epoch_ms c)
    (cx_debounce_deadline_epoch_ms c) (cx_is_debounced c).

(** [__init__], of an executor and application (the process's environment). *)
Definition new_context (executor_id app_id : string) : DBOSContext :=
  Ctx executor_id app_id "" false "" (-1) "" (-1) (-1) (-1) false None None None None None
    DEFAULT None None None None None None None None false.

Definition create_child (is_for_workflow : bool) (self : DBOSContext) : DBOSContext * DBOSContext :=
  let rv := new_context (cx_executor_id self) (cx_app_id self) in
  let '(self, rv) :=
    if is_for_workflow then
      (self <| cx_id_assigned_for_next_workflow := "" |>,
       rv <| cx_id_assigned_for_next_workflow := cx_id_assigned_for_next_workflow self |>
          <| cx_workflow_attributes := cx_workflow_attributes self |>)
    else (self, rv) in
  let rv := rv <| cx_is_within_set_workflow_id_block := cx_is_within_set_workflow_id_block self |>
               <| cx_parent_workflow_id := cx_workflow_id self |>
               <| cx_parent_workflow_fid := cx_function_id self |>
               <| cx_authenticated_user := cx_authenticated_user self |>
               <| cx_authenticated_roles := cx_authenticated_roles self |>
               <| cx_assumed_role := cx_assumed_role self |> in
  (self, if is_for_workflow then rv
         else rv <| cx_serialization_type := cx_serialization_type self |>).

Definition snapshot_step_ctx (reserve_sleep_id : bool) (self : DBOSContext) : DBOSContext * DBOSContext :=
  let '(self, rv) := create_child false self in
  let rv := rv <| cx_executor_id := cx_executor_id self |> <| cx_app_id := cx_app_id self |>
               <| cx_app_version := cx_app_version self |> <| cx_workflow_id := cx_workflow_id self |>
               <| cx_workflow_deadline_epoch_ms := cx_workflow_deadline_epoch_ms self |>
               <| cx_workflow_timeout_ms := cx_workflow_timeout_ms self |>
               <| cx_deduplication_id := cx_deduplication_id self |>
               <| cx_priority := cx_priority self |>
               <| cx_queue_partition_key := cx_queue_partition_key self |>
               <| cx_delay_until_epoch_ms := cx_delay_until_epoch_ms self |>
               <| cx_debounce_deadline_epoch_ms := cx_debounce_deadline_epoch_ms self |>
               <| cx_is_debounced := cx_is_debounced self |>
               <| cx_workflow_attributes := cx_workflow_attributes self |> in
  let self := self <| cx_function_id := (cx_function_id self + 1)%Z |> in
  let rv := rv <| cx_function_id := cx_function_id self |> in
  (if reserve_sleep_id then self <| cx_function_id := (cx_function_id self + 1)%Z |> else self, rv).

Definition has_parent (self : DBOSContext) : bool := negb (bool_decide (cx_parent_workflow_id self = "")).

Definition is_step (self : DBOSContext) : bool := bool_decide (0 ≤ cx_curr_step_function_id self)%Z.
Definition is_transaction (self : DBOSContext) : bool := cx_in_sql_session self.
Definition is_within_workflow (self : DBOSContext) : bool := negb (bool_decide (cx_workflow_id self = "")).
Definition is_workflow (self : DBOSContext) : bool :=
  negb (bool_decide (cx_workflow_id self = "")) && negb (is_step self) && negb (is_transaction self).

Definition assign_workflow_id (uuid : string) (self : DBOSContext) : string :=
  if bool_decide (cx_id_assigned_for_next_workflow self = "") then uuid
  else cx_id_assigned_for_next_workflow self.

(** The ID of the child that function [fid] of a workflow starts. *)
Definition child_workflow_id (workflow_id : string) (fid : Z) : string :=
  workflow_id +:+ "-" +:+ pretty fid.

(** The current context, if any, as it is left, and the context of the new workflow. *)
Definition create_start_workflow_child (executor_id app_id uuid : string) (cur_ctx : option DBOSContext) :
    res pyexn (option DBOSContext * DBOSContext) :=
  match
    match cur_ctx with
    | Some ctx =>
        if is_within_workflow ctx then
          if is_workflow ctx then
            let ctx := ctx <| cx_function_id := (cx_function_id ctx + 1)%Z |> in
            Ok (Some (if bool_decide (cx_id_assigned_for_next_workflow ctx = "")
                      then ctx <| cx_id_assigned_for_next_workflow :=
                                    child_workflow_id (cx_workflow_id ctx) (cx_function_id ctx) |>
                      else ctx))
          else Err (AssertionError "")
        else Ok (Some ctx)
    | None => Ok None
    end
  with
  | Err e => Err e
  | Ok cur_ctx =>
      let '(cur_ctx, new_wf_ctx) :=
        match cur_ctx with
        | None => (None, new_context executor_id app_id)
        | Some ctx => let '(ctx, new) := create_child true ctx in (Some ctx, new)
        end in
      Ok (cur_ctx, new_wf_ctx <| cx_id_assigned_for_next_workflow := assign_workflow_id uuid new_wf_ctx |>)
  end.

Definition start_workflow (uuid : string) (wfid : option string) (self : DBOSContext) : DBOSContext :=
  let '(self, wfid) :=
    match wfid with
    | Some w => if bool_decide (w = "") then
                  (self <| cx_id_assigned_for_next_workflow := "" |>, assign_workflow_id uuid self)
                else (self, w)
    | None => (self <| cx_id_assigned_for_next_workflow := "" |>, assign_workflow_id uuid self)
    end in
  self <| cx_workflow_id := wfid |> <| cx_function_id := 0%Z |>.

Definition end_workflow (self : DBOSContext) : DBOSContext :=
  self <| cx_workflow_id := "" |> <| cx_function_id := (-1)%Z |>.
Definition start_step (fid : Z) (self : DBOSContext) : DBOSContext :=
  self <| cx_curr_step_function_id := fid |>
       <| cx_step_status := Some {| step_id := fid; current_attempt := None; max_attempts := None |} |>.
Definition end_step (self : DBOSContext) : DBOSContext :=
  self <| cx_curr_step_function_id := (-1)%Z |> <| cx_step_status := None |>.
Definition start_transaction (fid : Z) (self : DBOSContext) : DBOSContext :=
  self <| cx_in_sql_session := true |> <| cx_curr_tx_function_id := fid |>.
Definition end_transaction (self : DBOSContext) : DBOSContext :=
  self <| cx_in_sql_session := false |> <| cx_curr_tx_function_id := (-1)%Z |>.

(** [k] children started one after the other by a workflow, with the IDs they get. *)
Fixpoint start_children (k : nat) (uuids : nat → string) (ctx : DBOSContext) : list string :=
  match k with
  | O => []
  | S k' =>
      match create_start_workflow_child "" "" (uuids k') (Some ctx) with
      | Ok (Some ctx', child) => cx_id_assigned_for_next_workflow child :: start_children k' uuids ctx'
      | _ => []
      end
  end.

(** ** Lemmas *)

Lemma string_app_inj_l (s t u : string) : s +:+ t = s +:+ u → t = u.
Proof. induction s as [|c s IH]; simpl; [done|]. intros [= H]. auto. Qed.

Lemma child_workflow_id_inj w i j : child_workflow_id w i = child_workflow_id w j → i = j.
Proof.
  unfold child_workflow_id. intros H%string_app_inj_l. simpl in H. injection H as H.
  by apply (inj pretty).
Qed.

Lemma child_workflow_id_nonempty w i : child_workflow_id w i ≠ "".
Proof. unfold child_workflow_id. by destruct w. Qed.

Lemma create_start_workflow_child_eq e a uuid ctx :
  is_workflow ctx = true → cx_id_assigned_for_next_workflow ctx = "" →
  ∃ child,
    create_start_workflow_child e a uuid (Some ctx) =
      Ok (Some (ctx <| cx_function_id := (cx_function_id ctx + 1)%Z |>), child) ∧
    cx_id_assigned_for_next_workflow child =
      child_workflow_id (cx_workflow_id ctx) (cx_function_id ctx + 1) ∧
    cx_parent_workflow_id child = cx_workflow_id ctx.
Proof.
  intros Hw Hn. unfold create_start_workflow_child.
  assert (is_within_workflow ctx = true) as ->.
  { unfold is_workflow in Hw. by destruct (is_within_workflow ctx) eqn:He; unfold is_within_workflow in He;
      rewrite He in Hw. }
  rewrite Hw. simpl. rewrite Hn. simpl. eexists. split; [|split].
  - unfold create_child. simpl. f_equal. f_equal. destruct ctx; simpl in *. by subst.
  - simpl. unfold assign_workflow_id. simpl.
    by rewrite bool_decide_eq_false_2 by apply child_workflow_id_nonempty.
  - done.
Qed.

Lemma is_workflow_function_id ctx z : is_workflow (ctx <| cx_function_id := z |>) = is_workflow ctx.
Proof. done. Qed.

Lemma start_children_ids k uuids ctx :
  is_workflow ctx = true → cx_id_assigned_for_next_workflow ctx = "" →
  start_children k uuids ctx =
  (λ i, child_workflow_id (cx_workflow_id ctx) (cx_function_id ctx + 1 + Z.of_nat i)) <$> seq 0 k.
Proof.
  revert ctx. induction k as [|k IH]; intros ctx Hw Hn; [done|]. cbn [start_children].
  destruct (create_start_workflow_child_eq "" "" (uuids k) ctx Hw Hn) as (child & -> & Hc & _).
  rewrite Hc, IH by done. cbn [seq]. rewrite fmap_cons. f_equal; [f_equal; lia|].
  rewrite <- fmap_S_seq, <- list_fmap_compose. apply list_fmap_ext. intros _ i _. simpl. f_equal. lia.
Qed.

(** ** Properties *)

(** The children a workflow starts are named by the workflow and the function that
    starts them, and not by the generated IDs: a replay names them alike, and no two of
    them collide. *)
Lemma child_ids_deterministic k uuids uuids' ctx :
  is_workflow ctx = true → cx_id_assigned_for_next_workflow ctx = "" →
  start_children k uuids ctx = start_children k uuids' ctx ∧
  length (start_children k uuids ctx) = k ∧ NoDup (start_children k uuids ctx).
Proof.
  intros Hw Hn. rewrite !start_children_ids by done. split; [done|].
  split; [by rewrite length_fmap, length_seq|].
  apply NoDup_fmap_2_strong; [|apply NoDup_seq].
  intros i j _ _ H%child_workflow_id_inj. lia.
Qed.

Lemma child_ids_deterministic_witness :
  let ctx := start_workflow "" (Some "w") (new_context "exec" "") in
  start_children 2 (λ _, "u") ctx = start_children 2 (λ _, "v") ctx ∧ NoDup (start_children 2 (λ _, "u") ctx).
Proof.
  intros ctx.
  destruct (child_ids_deterministic 2 (λ _, "u") (λ _, "v") ctx eq_refl eq_refl) as (H1 & _ & H2).
  split; [exact H1|exact H2].
Defined.
