(* ===== verification/Steps.v ===== *)
(** * Checkpoints: the operations of [SystemDatabase] on [operation_outputs]

    [check_operation_execution] reads the checkpoint of a step, [record_operation_result]
    writes it, and [call_function_as_step], [call_txn_as_step], [record_sleep] and [patch]
    are the steps that [dbos/_sys_db.py] builds from the two. The executor of the process
    ([self.executor_id]) and its serializer are variables of the section; the times of the
    process's clock are arguments, one for each [time.time()]. *)
From stdpp Require Import pretty.
From S2P Require Import Prelude Errors Schema Retry Serialization Workflows Context.

(** [class RecordedResult] *)
Record RecordedResult := {
  rr_output : option string;
  rr_error : option string;
  rr_serialization : option string;
  rr_child_workflow_id : option string;
}.

(** [class OperationResultInternal] *)
Record OperationResultInternal := {
  or_workflow_uuid : string;
  or_function_id : Z;
  or_function_name : string;
  or_output : option string;
  or_error : option string;
  or_serialization : option string;
  or_started_at_epoch_ms : Z;
}.

(** [_check_operation_execution_txn] *)
Definition check_operation_execution_txn (workflow_id : string) (function_id : Z) (function_name : string) :
    txn (option RecordedResult) :=
  status ← query (λ d, ws_status <$> workflow_status d !! workflow_id);
  recorded ← query (λ d, operation_outputs d !! (workflow_id, function_id));
  match status with
  | None => raise (AssertionError ("Error: Workflow " +:+ workflow_id +:+ " does not exist"))
  | Some CANCELLED =>
      raise (DBOSWorkflowCancelledError ("Workflow " +:+ workflow_id +:+ " is cancelled. Aborting function."))
  | Some _ =>
      match recorded with
      | None => mret None
      | Some r =>
          if bool_decide (function_name ≠ oo_function_name r) then
            raise (DBOSUnexpectedStepError workflow_id function_id function_name (oo_function_name r))
          else mret (Some {| rr_output := oo_output r; rr_error := oo_error r;
                             rr_serialization := oo_serialization r;
                             rr_child_workflow_id := oo_child_workflow_id r |})
      end
  end.

Definition check_operation_execution (workflow_id : string) (function_id : Z) (function_name : string) :
    dbM (option RecordedResult) :=
  engine_begin (check_operation_execution_txn workflow_id function_id function_name).

(** [INSERT INTO operation_outputs ... ON CONFLICT DO UPDATE SET completed_at_epoch_ms =
    completed_at_epoch_ms RETURNING completed_at_epoch_ms]: a row that is there is left as
    it is, and its completion time returned. *)
Definition upsert_operation_row (k : string * Z) (r : operation_outputs_row) (d : db) :
    res pyexn (db * option Z) :=
  match operation_outputs d !! k with
  | Some r0 => Ok (d, oo_completed_at_epoch_ms r0)
  | None => match insert_operation_row k r d with
            | Ok (d', _) => Ok (d', oo_completed_at_epoch_ms r)
            | Err e => Err e
            end
  end.

Definition recorded_row (result : OperationResultInternal) (completed_at_epoch_ms : Z) :
    operation_outputs_row := {|
  oo_function_name := or_function_name result;
  oo_output := or_output result;
  oo_error := or_error result;
  oo_child_workflow_id := None;
  oo_started_at_epoch_ms := Some (or_started_at_epoch_ms result);
  oo_completed_at_epoch_ms := Some completed_at_epoch_ms;
  oo_serialization := or_serialization result;
|}.

Section steps.
Context (executor_id : option string).

(** The reset of the row's executor to the one that records a step. *)
Definition reset_executor (workflow_id : string) (wf_executor_id : option string) : txn unit :=
  if bool_decide (executor_id ≠ None) && bool_decide (wf_executor_id ≠ executor_id) then
    _ ← update_workflow_rows (λ id _, bool_decide (id = workflow_id))
          (λ r, r <| ws_executor_id := executor_id |>);
    mret tt
  else mret tt.

(** [_record_operation_result_txn] *)
Definition record_operation_result_txn (result : OperationResultInternal) (completed_at_epoch_ms : Z) :
    txn unit :=
  let wid := or_workflow_uuid result in
  if bool_decide (or_error result ≠ None) && bool_decide (or_output result ≠ None)
  then raise (AssertionError "Only one of error or output can be set")
  else
    wf_executor_id_row ← query (λ d, ws_executor_id <$> workflow_status d !! wid);
    match wf_executor_id_row with
    | None => raise (AssertionError "")
    | Some wf_executor_id =>
        _ ← reset_executor wid wf_executor_id;
        completed ← try_except
          (execute_res (upsert_operation_row (wid, or_function_id result)
                          (recorded_row result completed_at_epoch_ms)))
          (λ e, match e with
                | UniqueViolation => Some (raise (DBOSWorkflowConflictIDError wid))
                | _ => None
                end);
        match completed with
        | None => raise (TypeError "int() argument must be a string, a bytes-like object or a real number, not 'NoneType'")
        | Some t => if bool_decide (t ≠ completed_at_epoch_ms) then raise (DBOSWorkflowConflictIDError wid)
                    else mret tt
        end
    end.

(** [record_operation_result]: the completion time is read once, before the retries. *)
Definition record_operation_result (completed_at_epoch_ms : Z) (result : OperationResultInternal) : dbM unit :=
  engine_begin (record_operation_result_txn result completed_at_epoch_ms).

(** [INSERT INTO operation_outputs ... ON CONFLICT DO NOTHING] *)
Definition insert_operation_nothing (k : string * Z) (r : operation_outputs_row) (d : db) :
    res pyexn (db * unit) :=
  match operation_outputs d !! k with
  | Some _ => Ok (d, tt)
  | None => insert_operation_row k r d
  end.

(** [record_get_result]: of the current workflow, whose function counter it advances, or
    of the context it is given; outside a workflow it does nothing. *)
Definition record_get_result (result_workflow_id : string) (output error serialization : option string)
    (ctx : option DBOSContext) : dbM unit :=
  match ctx with
  | None => mret tt
  | Some ctx =>
      engine_begin (execute_res (insert_operation_nothing (cx_workflow_id ctx, cx_function_id ctx) {|
        oo_function_name := "DBOS.getResult";
        oo_output := output;
        oo_error := error;
        oo_child_workflow_id := Some result_workflow_id;
        oo_started_at_epoch_ms := None;
        oo_completed_at_epoch_ms := None;
        oo_serialization := serialization;
      |}))
  end.

(** The context [record_get_result] records under when the caller gives none: the
    thread's, with its counter advanced, if it is a workflow's. *)
Definition get_result_context (local : option DBOSContext) : option DBOSContext :=
  match local with
  | Some ctx => if is_workflow ctx then Some (ctx <| cx_function_id := (cx_function_id ctx + 1)%Z |>) else None
  | None => None
  end.

Definition child_row (childUUID functionName : string) : operation_outputs_row := {|
  oo_function_name := functionName;
  oo_output := None;
  oo_error := None;
  oo_child_workflow_id := Some childUUID;
  oo_started_at_epoch_ms := None;
  oo_completed_at_epoch_ms := None;
  oo_serialization := None;
|}.

Definition record_child_workflow (parentUUID childUUID : string) (functionID : Z) (functionName : string) :
    dbM unit :=
  if bool_decide (childUUID = "") then
    raise (DBOSException ("Attempted to record an empty child workflow ID for parent " +:+ parentUUID +:+
             " (function " +:+ pretty functionID +:+ ", " +:+ functionName +:+ ")."))
  else
    try_except
      (engine_begin (execute_res (insert_operation_row (parentUUID, functionID) (child_row childUUID functionName))))
      (λ e, match e with
            | UniqueViolation => Some (
                existing ← engine_begin (query (λ d, oo_child_workflow_id <$>
                                                     operation_outputs d !! (parentUUID, functionID)));
                if bool_decide (existing = Some (Some childUUID)) then mret tt
                else raise (DBOSWorkflowConflictIDError parentUUID))
            | _ => None
            end).

Context `{Codecs} (serializer : Serializer).

(** [record_sleep]: the end of the sleep, in milliseconds ([POther] values a checkpoint of
    another function may hold do not occur: the name is checked), and what is left of it. *)
Definition sleep_end (v : pyval) : res pyexn Z :=
  match v with
  | PFloat ms => Ok ms
  | PInt s => Ok (s * 1000)%Z
  | _ => Err (TypeError "unsupported operand type(s) for -")
  end.

Definition record_sleep (start_time time_ms completed_ms time_ms' : Z) (workflow_uuid : string) (function_id : Z)
    (milliseconds : Z) : dbM Z :=
  recorded_output ← check_operation_execution workflow_uuid function_id "DBOS.sleep";
  end_time ←
    match recorded_output with
    | Some recorded =>
        match rr_output recorded with
        | None => raise (AssertionError "no recorded end time")
        | Some output =>
            v ← lift_res (deserialize_value (Some output) (rr_serialization recorded) serializer);
            lift_res (sleep_end v)
        end
    | None =>
        let end_time := (time_ms + milliseconds)%Z in
        output ← lift_res (ser_serialize DBOSPortableJSON (PFloat end_time));
        _ ← try_except
              (record_operation_result completed_ms {|
                 or_workflow_uuid := workflow_uuid; or_function_id := function_id;
                 or_function_name := "DBOS.sleep"; or_output := Some output; or_error := None;
                 or_serialization := Some (ser_name DBOSPortableJSON);
                 or_started_at_epoch_ms := start_time |})
              (λ e, match e with DBOSWorkflowConflictIDError _ => Some (mret tt) | _ => None end);
        mret end_time
    end;
  mret (Z.max 0 (end_time - time_ms')).

(** What a recorded step answers: its output, its error raised, or the complaint that it
    has neither. *)
Definition replay (function_name : string) (recorded : RecordedResult) : res pyexn pyval :=
  match rr_output recorded, rr_error recorded with
  | Some output, _ => deserialize_value (Some output) (rr_serialization recorded) serializer
  | None, Some error =>
      match deserialize_exception error (rr_serialization recorded) serializer with
      | Ok e => Err e
      | Err e => Err e
      end
  | None, None => Err (PyException ("Recorded output and error are both None for " +:+ function_name))
  end.

Definition call_function_as_step (start_time completed_ms : Z) (fn : dbM pyval) (function_name : string)
    (ctx : option DBOSContext) : dbM pyval :=
  match ctx with
  | None => fn
  | Some ctx =>
      if is_transaction ctx then
        raise (PyException ("Invalid call to `" +:+ function_name +:+ "` inside a transaction"))
      else if is_workflow ctx then
        res ← check_operation_execution (cx_workflow_id ctx) (cx_function_id ctx) function_name;
        match res with
        | Some recorded => lift_res (replay function_name recorded)
        | None =>
            result ← fn;
            '(serval, serialization) ← lift_res (serialize_value result None serializer);
            _ ← record_operation_result completed_ms {|
                  or_workflow_uuid := cx_workflow_id ctx; or_function_id := cx_function_id ctx;
                  or_function_name := function_name; or_output := Some serval; or_error := None;
                  or_serialization := Some serialization; or_started_at_epoch_ms := start_time |};
            mret result
        end
      else fn
  end.

(** The step and its checkpoint in one transaction. *)
Definition call_txn_as_step (start_time completed_ms : Z) (workflow_uuid : string) (function_id : Z)
    (function_name : string) (op : txn pyval) : dbM pyval :=
  engine_begin (
    recorded ← check_operation_execution_txn workflow_uuid function_id function_name;
    match recorded with
    | Some recorded =>
        match rr_output recorded with
        | None => raise (AssertionError "")
        | Some output => lift_res (ser_deserialize serializer output)
        end
    | None =>
        result ← op;
        output ← lift_res (ser_serialize serializer result);
        _ ← record_operation_result_txn {|
              or_workflow_uuid := workflow_uuid; or_function_id := function_id;
              or_function_name := function_name; or_output := Some output; or_error := None;
              or_serialization := None; or_started_at_epoch_ms := start_time |} completed_ms;
        mret result
    end).

(** ** Patches *)

Definition get_checkpoint_name (d : db) (workflow_id : string) (function_id : Z) : option string :=
  oo_function_name <$> operation_outputs d !! (workflow_id, function_id).

Definition patch (started_ms completed_ms : Z) (workflow_id : string) (function_id : Z) (patch_name : string) :
    dbM bool :=
  engine_begin (
    checkpoint_name ← query (λ d, get_checkpoint_name d workflow_id function_id);
    match checkpoint_name with
    | None =>
        _ ← record_operation_result_txn {|
              or_workflow_uuid := workflow_id; or_function_id := function_id;
              or_function_name := patch_name; or_output := None; or_error := None;
              or_serialization := None; or_started_at_epoch_ms := started_ms |} completed_ms;
        mret true
    | Some name => mret (bool_decide (name = patch_name))
    end).

Definition deprecate_patch (d : db) (workflow_id : string) (function_id : Z) (patch_name : string) : bool :=
  bool_decide (get_checkpoint_name d workflow_id function_id = Some patch_name).

(** ** What the operations come to, for the proofs *)

Definition check_result (d : db) (workflow_id : string) (function_id : Z) (function_name : string) :
    res pyexn (option RecordedResult) :=
  match workflow_status d !! workflow_id with
  | None => Err (AssertionError ("Error: Workflow " +:+ workflow_id +:+ " does not exist"))
  | Some r =>
      if bool_decide (ws_status r = CANCELLED) then
        Err (DBOSWorkflowCancelledError ("Workflow " +:+ workflow_id +:+ " is cancelled. Aborting function."))
      else
        match operation_outputs d !! (workflow_id, function_id) with
        | None => Ok None
        | Some r =>
            if bool_decide (function_name ≠ oo_function_name r) then
              Err (DBOSUnexpectedStepError workflow_id function_id function_name (oo_function_name r))
            else Ok (Some {| rr_output := oo_output r; rr_error := oo_error r;
                             rr_serialization := oo_serialization r;
                             rr_child_workflow_id := oo_child_workflow_id r |})
        end
  end.

Definition reset_db (workflow_id : string) (d : db) : db :=
  match workflow_status d !! workflow_id with
  | Some r =>
      if bool_decide (executor_id ≠ None) && bool_decide (ws_executor_id r ≠ executor_id)
      then d <| workflow_status := <[workflow_id := r <| ws_executor_id := executor_id |>]> (workflow_status d) |>
      else d
  | None => d
  end.

(** The checkpoint of step [k] in [d'] is the one in [d], and its workflow still runs. *)
Definition step_kept (k : string * Z) (d d' : db) : Prop :=
  operation_outputs d' !! k = operation_outputs d !! k ∧
  ∃ r, workflow_status d' !! k.1 = Some r ∧ ws_status r ≠ CANCELLED.

End steps.

(** ** Sample data *)

Definition sample_ctx : DBOSContext := start_workflow "" (Some "w") (new_context "exec" "").
Definition sample_step (v : string) : dbM pyval := mret (PStr v).
Definition sample_running : db := sample_db [("w", sample_row "w" PENDING)].
Definition sample_result (output : string) : OperationResultInternal := {|
  or_workflow_uuid := "w"; or_function_id := 0; or_function_name := "step"; or_output := Some output;
  or_error := None; or_serialization := None; or_started_at_epoch_ms := 5 |}.

(** ** Lemmas *)

Section steps_lemmas.
Context (executor_id : option string).
Notation record_operation_result_txn := (record_operation_result_txn executor_id).
Notation record_operation_result := (record_operation_result executor_id).
Notation reset_db := (reset_db executor_id).

Lemma check_operation_execution_txn_eq wid fid name c :
  check_operation_execution_txn wid fid name c = (c, check_result (current c) wid fid name).
Proof.
  unfold check_operation_execution_txn, check_result. run_txn.
  destruct (workflow_status (current c) !! wid) as [r|]; [|done]. simpl.
  destruct (operation_outputs (current c) !! (wid, fid)) as [o|]; destruct (ws_status r); try done;
    simpl; by case_bool_decide.
Qed.

Lemma check_operation_execution_eq wid fid name d :
  check_operation_execution wid fid name d = (d, check_result d wid fid name).
Proof.
  unfold check_operation_execution, engine_begin. rewrite check_operation_execution_txn_eq. simpl.
  by destruct (check_result d wid fid name).
Qed.

Lemma reset_executor_eq wid r c :
  workflow_status (current c) !! wid = Some r →
  reset_executor executor_id wid (ws_executor_id r) c =
  (Conn (committed c) (reset_db wid (current c)), Ok tt).
Proof.
  intros Hr. unfold reset_executor, reset_db. rewrite Hr.
  destruct (bool_decide _ && bool_decide _); [|by destruct c]. run_txn.
  rewrite (sql_update_unique _ _ _ wid r Hr); [done|by apply bool_decide_eq_true|].
  intros k r' _. apply bool_decide_eq_true.
Qed.

Lemma reset_db_outputs wid d : operation_outputs (reset_db wid d) = operation_outputs d.
Proof. unfold reset_db. by destruct (workflow_status d !! wid); [destruct (_ && _)|]. Qed.

Lemma reset_db_status wid d id :
  ws_status <$> workflow_status (reset_db wid d) !! id = ws_status <$> workflow_status d !! id.
Proof.
  unfold reset_db. destruct (workflow_status d !! wid) as [r|] eqn:Hr; [|done].
  destruct (_ && _); [|done]. simpl. destruct (decide (wid = id)) as [<-|];
    [by rewrite lookup_insert_eq, Hr|by rewrite lookup_insert_ne].
Qed.

Lemma reset_db_idem wid d : reset_db wid (reset_db wid d) = reset_db wid d.
Proof.
  unfold reset_db at 2 3. destruct (workflow_status d !! wid) as [r|] eqn:Hr;
    [|unfold reset_db; by rewrite Hr].
  destruct (bool_decide _ && bool_decide _) eqn:Hc; unfold reset_db.
  - simpl. rewrite lookup_insert_eq. simpl.
    by rewrite (bool_decide_eq_false_2 (executor_id ≠ executor_id)), andb_false_r by (intros H; by apply H).
  - by rewrite Hr, Hc.
Qed.

Lemma reset_db_insert wid k r d :
  reset_db wid (d <| operation_outputs := <[k := r]> (operation_outputs d) |>) =
  (reset_db wid d) <| operation_outputs := <[k := r]> (operation_outputs d) |>.
Proof.
  unfold reset_db. simpl. destruct (workflow_status d !! wid); [|done]. by destruct (_ && _).
Qed.

Lemma workflow_exists_reset wid d id : workflow_exists (reset_db wid d) id = workflow_exists d id.
Proof.
  unfold workflow_exists. apply bool_decide_ext.
  rewrite <- (fmap_is_Some ws_status (workflow_status (reset_db wid d) !! id)), reset_db_status.
  apply fmap_is_Some.
Qed.

Lemma record_operation_result_txn_eq result t c r :
  let k := (or_workflow_uuid result, or_function_id result) in
  workflow_status (current c) !! k.1 = Some r →
  or_error result = None ∨ or_output result = None →
  record_operation_result_txn result t c =
  let d1 := reset_db k.1 (current c) in
  match operation_outputs (current c) !! k with
  | None => (Conn (committed c) (d1 <| operation_outputs := <[k := recorded_row result t]> (operation_outputs d1) |>),
             Ok tt)
  | Some r0 =>
      (Conn (committed c) d1,
       match oo_completed_at_epoch_ms r0 with
       | None => Err (TypeError "int() argument must be a string, a bytes-like object or a real number, not 'NoneType'")
       | Some t0 => if bool_decide (t0 ≠ t) then Err (DBOSWorkflowConflictIDError k.1) else Ok tt
       end)
  end.
Proof.
  intros k Hr Hor. unfold Steps.record_operation_result_txn. fold k. simpl in Hr. 
  assert (bool_decide (or_error result ≠ None) && bool_decide (or_output result ≠ None) = false) as ->.
  { destruct Hor as [->| ->]; [done|]. by rewrite andb_false_r. }
  unfold query at 1. unfold mbind at 1, SM_bind at 1. rewrite Hr. cbn [fmap option_fmap option_map].
  unfold mbind at 1, SM_bind at 1. rewrite (reset_executor_eq _ _ _ Hr). cbv zeta.
  set (d1 := reset_db (or_workflow_uuid result) (current c)).
  unfold mbind, SM_bind, try_except, execute_res, upsert_operation_row, insert_operation_row.
  cbn [current committed fst]. fold k. subst d1. rewrite !reset_db_outputs.
  destruct (operation_outputs (current c) !! k) as [r0|]; cbn [fst snd current committed].
  - destruct (oo_completed_at_epoch_ms r0); [|done]. by case_bool_decide.
  - rewrite workflow_exists_reset.
    assert (workflow_exists (current c) k.1 = true) as -> by (apply bool_decide_eq_true; eauto).
    cbn [fst snd current committed recorded_row oo_completed_at_epoch_ms].
    by rewrite (bool_decide_eq_false_2 (t ≠ t)) by (intros H; by apply H).
Qed.

Lemma record_operation_result_eq result t d r :
  let k := (or_workflow_uuid result, or_function_id result) in
  workflow_status d !! k.1 = Some r →
  or_error result = None ∨ or_output result = None →
  record_operation_result t result d =
  let d1 := reset_db k.1 d in
  match operation_outputs d !! k with
  | None => (d1 <| operation_outputs := <[k := recorded_row result t]> (operation_outputs d1) |>, Ok tt)
  | Some r0 =>
      match oo_completed_at_epoch_ms r0 with
      | None => (d, Err (TypeError "int() argument must be a string, a bytes-like object or a real number, not 'NoneType'"))
      | Some t0 => if bool_decide (t0 ≠ t) then (d, Err (DBOSWorkflowConflictIDError k.1)) else (d1, Ok tt)
      end
  end.
Proof.
  intros k Hr Hor. unfold Steps.record_operation_result, engine_begin.
  rewrite (record_operation_result_txn_eq result t (Conn d d) r Hr Hor). cbv zeta. cbn [current committed].
  fold k. destruct (operation_outputs d !! k) as [r0|]; [|done].
  destruct (oo_completed_at_epoch_ms r0); [|done]. by case_bool_decide.
Qed.

End steps_lemmas.

(** What every relation kept by the two statements is kept by. *)
Section steps_moves.
Context (Q : relation db) `{!PreOrder Q} (executor_id : option string).
Hypothesis Q_executor : ∀ p d,
  Q d (d <| workflow_status := sql_update p (λ r, r <| ws_executor_id := executor_id |>) (workflow_status d) |>).
Hypothesis Q_operation : ∀ k r d d' a, insert_operation_row k r d = Ok (d', a) → Q d d'.

Lemma moves_check_operation_execution_txn wid fid name :
  moves (conn_rel Q) (check_operation_execution_txn wid fid name).
Proof. intros c. rewrite check_operation_execution_txn_eq. simpl. reflexivity. Qed.

Lemma moves_check_operation_execution wid fid name : moves Q (check_operation_execution wid fid name).
Proof. intros d. rewrite check_operation_execution_eq. simpl. reflexivity. Qed.

Lemma moves_upsert_operation_row k r d d' a : upsert_operation_row k r d = Ok (d', a) → Q d d'.
Proof.
  unfold upsert_operation_row. destruct (operation_outputs d !! k); [by intros [= <- _]|].
  destruct (insert_operation_row k r d) as [[d0 []]|] eqn:Hi; [|done]. intros [= <- _]. by eapply Q_operation.
Qed.

Lemma moves_record_operation_result_txn result t :
  moves (conn_rel Q) (record_operation_result_txn executor_id result t).
Proof.
  unfold record_operation_result_txn. destruct (_ && _); [auto with moves|]. move_next. intros [e|]; [|auto with moves].
  apply moves_bind; [apply _| |].
  { unfold reset_executor. destruct (_ && _); [|auto with moves]. move_next. auto with moves. }
  intros _. apply moves_bind; [apply _|apply moves_try; [apply _| |]|].
  - apply moves_execute_res; [apply _|]. intros d1 d2 a. apply moves_upsert_operation_row.
  - intros [] k; try done. intros [= <-]. auto with moves.
  - intros [t0|]; [|auto with moves]. case_bool_decide; auto with moves.
Qed.

Lemma moves_record_operation_result t result : moves Q (record_operation_result executor_id t result).
Proof. apply moves_engine_begin; [apply _|]. apply moves_record_operation_result_txn. Qed.

Lemma moves_record_get_result w o e s ctx : moves Q (record_get_result w o e s ctx).
Proof.
  destruct ctx; [|apply moves_ret, _]. apply moves_engine_begin; [apply _|].
  apply moves_execute_res; [apply _|]. intros d1 d2 a. unfold insert_operation_nothing.
  destruct (operation_outputs d1 !! _); [by intros [= <- _]|]. apply Q_operation.
Qed.

Lemma moves_record_child_workflow p c f n : moves Q (record_child_workflow p c f n).
Proof.
  unfold record_child_workflow. case_bool_decide; [apply moves_raise, _|].
  apply moves_try; [apply _|move_begin; eauto with moves|].
  intros [] k; try done. intros [= <-]. apply moves_bind; [apply _|move_begin; eauto with moves|].
  intros o. case_bool_decide; auto with moves.
Qed.

Lemma moves_call_function_as_step `{Codecs} serializer t0 t1 fn name ctx :
  moves Q fn → moves Q (call_function_as_step executor_id serializer t0 t1 fn name ctx).
Proof.
  intros Hfn. destruct ctx as [ctx|]; [|done]. simpl. destruct (is_transaction ctx); [apply moves_raise, _|].
  destruct (is_workflow ctx); [|done]. apply moves_bind; [apply _|apply moves_check_operation_execution|].
  intros [r|]; [apply moves_lift_res, _|]. apply moves_bind; [apply _|done|]. intros v.
  apply moves_bind; [apply _|apply moves_lift_res, _|]. intros [x n].
  apply moves_bind; [apply _|apply moves_record_operation_result|]. intros _. apply moves_ret, _.
Qed.

Lemma moves_call_txn_as_step serializer t0 t1 wid fid name op :
  moves (conn_rel Q) op → moves Q (call_txn_as_step executor_id serializer t0 t1 wid fid name op).
Proof.
  intros Hop. move_begin. apply moves_bind; [apply _|apply moves_check_operation_execution_txn|].
  intros [r|]; [destruct (rr_output r); auto with moves|].
  apply moves_bind; [apply _|done|]. intros v. move_next. intros o.
  apply moves_bind; [apply _|apply moves_record_operation_result_txn|]. auto with moves.
Qed.

Lemma moves_record_sleep `{Codecs} serializer t0 t1 t2 t3 wid fid ms :
  moves Q (record_sleep executor_id serializer t0 t1 t2 t3 wid fid ms).
Proof.
  unfold record_sleep. apply moves_bind; [apply _|apply moves_check_operation_execution|]. intros o.
  apply moves_bind; [apply _| |intros z; apply moves_ret, _]. destruct o as [r|].
  - destruct (rr_output r); [|apply moves_raise, _].
    apply moves_bind; [apply _|apply moves_lift_res, _|intros v; apply moves_lift_res, _].
  - apply moves_bind; [apply _|apply moves_lift_res, _|]. intros x.
    apply moves_bind; [apply _| |intros _; apply moves_ret, _].
    apply moves_try; [apply _|apply moves_record_operation_result|].
    intros [] k; try done. intros [= <-]. apply moves_ret, _.
Qed.

Lemma moves_patch t0 t1 wid fid name : moves Q (patch executor_id t0 t1 wid fid name).
Proof.
  move_begin. move_next. intros [n|]; [auto with moves|].
  apply moves_bind; [apply _|apply moves_record_operation_result_txn|]. auto with moves.
Qed.

End steps_moves.

(** A step that records succeeds only on a workflow that is there. *)
Lemma record_operation_result_Ok_row executor_id t result d d' :
  record_operation_result executor_id t result d = (d', Ok tt) →
  ∃ r, workflow_status d !! or_workflow_uuid result = Some r.
Proof.
  unfold record_operation_result, record_operation_result_txn, engine_begin.
  destruct (_ && _); [done|]. unfold query, mbind, SM_bind. cbn [current fst].
  destruct (workflow_status d !! or_workflow_uuid result); [eauto|done].
Qed.

Lemma check_result_kept wid fid name d d' o :
  step_kept (wid, fid) d d' → operation_outputs d !! (wid, fid) = Some o → oo_function_name o = name →
  check_result d' wid fid name =
    Ok (Some {| rr_output := oo_output o; rr_error := oo_error o;
                rr_serialization := oo_serialization o; rr_child_workflow_id := oo_child_workflow_id o |}).
Proof.
  intros (Ho & r & Hr & Hs) Hk Hn. unfold check_result. simpl in Hr.
  rewrite Hr, bool_decide_eq_false_2, Ho, Hk by done.
  by rewrite bool_decide_eq_false_2 by (intros Hne; by apply Hne).
Qed.

(** ** Properties *)

Section step_properties.
Context `{Codecs, !CodecLaws} (serializer : Serializer).
Hypothesis honest : honest_name serializer.
Hypothesis reads_back : round_trips serializer.

(** C8: a step runs once. When a step of a workflow has completed with a value and its
    checkpoint was free, every later execution of the same step, by any executor and with
    any body, answers the recorded value and changes nothing, as long as the workflow has
    not been cancelled. *)
Theorem step_replays e1 e2 t0 t1 t2 t3 fn fn' name ctx v d d' d'' :
  is_workflow ctx = true →
  let k := (cx_workflow_id ctx, cx_function_id ctx) in
  check_result d k.1 k.2 name = Ok None → operation_outputs (fn d).1 !! k = None →
  call_function_as_step e1 serializer t0 t1 fn name (Some ctx) d = (d', Ok v) →
  step_kept k d' d'' →
  call_function_as_step e2 serializer t2 t3 fn' name (Some ctx) d'' =
    (d'', canonical (ser_name serializer) v).
Proof.
  intros Hw k Hc Hfree Hrun Hkept.
  assert (is_transaction ctx = false) as Ht.
  { unfold is_workflow in Hw. by destruct (is_transaction ctx); rewrite ?andb_false_r in Hw. }
  simpl in Hrun |- *. rewrite Ht, Hw in *.
  apply bind_inv_Ok in Hrun as (d0 & o & Hch & Hrun). rewrite check_operation_execution_eq in Hch.
  injection Hch as <- Ho. unfold k in Hc. cbn [fst snd] in Hc. rewrite Hc in Ho. injection Ho as <-.
  apply bind_inv_Ok in Hrun as (d1 & v' & Hfn & Hrun). rewrite Hfn in Hfree. simpl in Hfree.
  apply bind_inv_Ok in Hrun as (d2 & [x n] & Hser & Hrun). unfold lift_res in Hser. injection Hser as <- Hser.
  apply bind_inv_Ok in Hrun as (d3 & [] & Hrec & Hret). unfold mret, SM_ret in Hret. simplify_eq.
  destruct (record_operation_result_Ok_row _ _ _ _ _ Hrec) as (r & Hr).
  rewrite (record_operation_result_eq e1 _ t1 d1 r Hr) in Hrec by by left.
  cbv zeta in Hrec. cbn [or_workflow_uuid or_function_id] in Hrec. fold k in Hrec. rewrite Hfree in Hrec.
  injection Hrec as <-. set (orow := recorded_row _ t1) in *.
  unfold mbind, SM_bind. rewrite check_operation_execution_eq.
  rewrite (check_result_kept _ _ name _ d'' orow Hkept); [|simpl; apply lookup_insert_eq|done].
  unfold lift_res, replay. cbn [rr_output rr_serialization orow recorded_row oo_output oo_serialization or_output or_serialization].
  assert (n = ser_name serializer) as -> by (by eapply serialize_value_as_name).
  by rewrite (serialize_then_deserialize serializer v _ x _ honest reads_back Hser).
Qed.

(** C11: a step run as one transaction takes effect exactly once: whatever connections
    are lost before or after a commit, [call_txn_as_step] ends with the value of [op], the
    effect of [op] applied once, and one checkpoint. *)
Theorem call_txn_as_step_exactly_once e starts ends wid fid name op f v x d r fs :
  (∀ c, op c = (Conn (committed c) (f (current c)), Ok v)) →
  ser_serialize serializer v = Ok x →
  check_result d wid fid name = Ok None →
  workflow_status (f d) !! wid = Some r → ws_status r ≠ CANCELLED →
  operation_outputs (f d) !! (wid, fid) = None →
  ∃ w slept i,
    db_retry (S (length fs))
      (faulty (λ i, call_txn_as_step e serializer (starts i) (ends i) wid fid name op)) (d, fs, 0) =
      Some (w, Ok v, slept) ∧
    let row := recorded_row {| or_workflow_uuid := wid; or_function_id := fid; or_function_name := name;
                               or_output := Some x; or_error := None; or_serialization := None;
                               or_started_at_epoch_ms := starts i |} (ends i) in
    w.1.1 = (reset_db e wid (f d)) <| operation_outputs := <[(wid, fid) := row]> (operation_outputs (f d)) |>.
Proof.
  intros Hop Hx Hc Hr Hs Hfree.
  set (row i := recorded_row {| or_workflow_uuid := wid; or_function_id := fid; or_function_name := name;
                 or_output := Some x; or_error := None; or_serialization := None;
                 or_started_at_epoch_ms := starts i |} (ends i)).
  set (D i := (reset_db e wid (f d)) <| operation_outputs := <[(wid, fid) := row i]> (operation_outputs (f d)) |>).
  assert (retry_safe (λ i, call_txn_as_step e serializer (starts i) (ends i) wid fid name op) d v
            (λ d', ∃ i, d' = D i)) as Hsafe.
  { split.
    - intros i. exists (D i). split; [|eauto]. unfold call_txn_as_step, engine_begin, mbind, SM_bind.
      rewrite check_operation_execution_txn_eq. cbn [current]. rewrite Hc. rewrite Hop.
      cbn [current committed]. unfold lift_res. rewrite Hx.
      rewrite (record_operation_result_txn_eq e _ _ _ r); [|exact Hr|by left].
      cbn [current committed or_workflow_uuid or_function_id]. rewrite Hfree. cbv zeta.
      unfold D. by rewrite reset_db_outputs.
    - intros i d1 (j & ->). exists (D j). split; [|eauto].
      unfold call_txn_as_step, engine_begin, mbind, SM_bind.
      rewrite check_operation_execution_txn_eq. cbn [current].
      assert (step_kept (wid, fid) (D j) (D j)) as Hkept.
      { split; [done|]. simpl. pose proof (reset_db_status e wid (f d) wid) as Hst. rewrite Hr in Hst.
        apply fmap_Some in Hst as (r' & Hr' & Hst). exists r'. split; [done|congruence]. }
      rewrite (check_result_kept wid fid name _ _ (row j) Hkept); [|simpl; apply lookup_insert_eq|done].
      cbn [rr_output row recorded_row oo_output or_output]. unfold lift_res.
      by rewrite (reads_back _ _ Hx). }
  destruct (db_retry_safe _ _ _ _ fs Hsafe) as (w & slept & Hw & i & Hi). by exists w, slept, i.
Qed.

(** A sleep is durable: replayed at any later time, by any executor, it ends at the
    time the first execution set, and so waits only for what is left of it. *)
Lemma record_sleep_durable e1 e2 t0 t1 t2 t3 u0 u1 u2 u3 wid fid ms ms' d d' d'' rest :
  check_result d wid fid "DBOS.sleep" = Ok None →
  record_sleep e1 serializer t0 t1 t2 t3 wid fid ms d = (d', Ok rest) →
  step_kept (wid, fid) d' d'' →
  rest = Z.max 0 (t1 + ms - t3) ∧
  record_sleep e2 serializer u0 u1 u2 u3 wid fid ms' d'' = (d'', Ok (Z.max 0 (t1 + ms - u3))).
Proof.
  intros Hc Hrun Hkept. assert (operation_outputs d !! (wid, fid) = None) as Hfree.
  { unfold check_result in Hc. destruct (workflow_status d !! wid); [|done].
    destruct (bool_decide _); [done|]. destruct (operation_outputs d !! _); [|done].
    by destruct (bool_decide _). }
  unfold record_sleep in Hrun.
  apply bind_inv_Ok in Hrun as (d0 & o & Hch & Hrun). rewrite check_operation_execution_eq, Hc in Hch.
  injection Hch as <- <-. apply bind_inv_Ok in Hrun as (d1 & z & Hrun & Hret).
  unfold mret, SM_ret in Hret. simplify_eq.
  apply bind_inv_Ok in Hrun as (d0 & x & Hx & Hrun). unfold lift_res in Hx. simpl in Hx. simplify_eq.
  apply bind_inv_Ok in Hrun as (d1 & [] & Hrec & Hret). unfold mret, SM_ret in Hret. simplify_eq.
  split; [done|].
  assert (∃ orow, operation_outputs d' !! (wid, fid) = Some orow ∧ oo_function_name orow = "DBOS.sleep" ∧
            oo_output orow = Some (json_dumps (JMilli (t1 + ms))) ∧
            oo_serialization orow = Some (ser_name DBOSPortableJSON)) as (orow & Ho & Hn & Hout & Hser).
  { unfold try_except in Hrec. unfold check_result in Hc. destruct (workflow_status d0 !! wid) as [r|] eqn:Hr; [|done].
    erewrite (record_operation_result_eq e1 _ t2 d0 r) in Hrec; [|exact Hr|by left].
    cbv zeta in Hrec. cbn [or_workflow_uuid or_function_id] in Hrec. rewrite Hfree in Hrec.
    injection Hrec as <-. eexists. simpl. rewrite lookup_insert_eq. done. }
  unfold record_sleep, mbind, SM_bind. rewrite check_operation_execution_eq.
  rewrite (check_result_kept wid fid "DBOS.sleep" d' d'' orow Hkept Ho Hn). cbn [rr_output rr_serialization].
  rewrite Hout, Hser. unfold lift_res, deserialize_value. cbn [select_serializer].
  rewrite bool_decide_eq_true_2 by done. cbn [ser_deserialize DBOSPortableJSON].
  by rewrite json_round_trip.
Qed.

End step_properties.

(** The first writer of a checkpoint wins: when a step of the workflow was recorded
    by one executor, another that records it at another millisecond is told so by
    [DBOSWorkflowConflictIDError] and changes nothing, its claim to the workflow included;
    the first writer itself may record again (a retry) without a change. *)
Lemma record_first_writer_wins e1 e2 t1 t2 result1 result2 d d' r :
  let k := (or_workflow_uuid result1, or_function_id result1) in
  (or_workflow_uuid result2, or_function_id result2) = k →
  or_error result2 = None ∨ or_output result2 = None →
  workflow_status d !! k.1 = Some r → operation_outputs d !! k = None →
  record_operation_result e1 t1 result1 d = (d', Ok tt) →
  operation_outputs d' !! k = Some (recorded_row result1 t1) ∧
  record_operation_result e1 t1 result1 d' = (d', Ok tt) ∧
  (t2 ≠ t1 → record_operation_result e2 t2 result2 d' = (d', Err (DBOSWorkflowConflictIDError k.1))).
Proof.
  intros k Hk Hor2 Hr Hfree Hrec.
  assert (or_error result1 = None ∨ or_output result1 = None) as Hor1.
  { unfold record_operation_result, record_operation_result_txn, engine_begin in Hrec.
    destruct (bool_decide (or_error result1 ≠ None) && bool_decide (or_output result1 ≠ None)) eqn:Hb; [done|].
    rewrite andb_false_iff, !bool_decide_eq_false in Hb. destruct Hb as [H|H]; apply dec_stable in H; auto. }
  rewrite (record_operation_result_eq e1 _ t1 d r Hr Hor1) in Hrec. cbv zeta in Hrec. fold k in Hrec.
  rewrite Hfree, reset_db_outputs in Hrec. injection Hrec as <-.
  set (d' := _ <| operation_outputs := _ |>).
  assert (operation_outputs d' !! k = Some (recorded_row result1 t1)) as Ho by apply lookup_insert_eq.
  assert (∃ r', workflow_status d' !! k.1 = Some r') as [r' Hr'].
  { pose proof (reset_db_status e1 k.1 d k.1) as Hst. rewrite Hr in Hst.
    apply fmap_Some in Hst as (r' & Hr' & _). by exists r'. }
  split; [done|]. split.
  - rewrite (record_operation_result_eq e1 _ t1 d' r' Hr' Hor1). cbv zeta. fold k. rewrite Ho.
    cbn [recorded_row oo_completed_at_epoch_ms].
    rewrite (bool_decide_eq_false_2 (t1 ≠ t1)) by (intros H; by apply H).
    unfold d'. rewrite <- (reset_db_insert e1 k.1). by rewrite reset_db_idem.
  - intros Hne. injection Hk as Hk1 Hk2.
    rewrite (record_operation_result_eq e2 _ t2 d' r'); [|by rewrite Hk1|done]. cbv zeta.
    rewrite Hk1, Hk2. fold k. rewrite Ho. cbn [recorded_row oo_completed_at_epoch_ms].
    by rewrite bool_decide_eq_true_2 by congruence.
Qed.

(** but the conflict is found by the completion time alone: an executor that records
    its own result of the step in the millisecond of the first writer is told nothing. The
    checkpoint keeps the first result, while the second executor goes on with its own. *)
Lemma same_millisecond_conflict_missed e1 e2 t result1 result2 d r :
  let k := (or_workflow_uuid result1, or_function_id result1) in
  (or_workflow_uuid result2, or_function_id result2) = k →
  or_error result1 = None ∨ or_output result1 = None →
  or_error result2 = None ∨ or_output result2 = None →
  workflow_status d !! k.1 = Some r → operation_outputs d !! k = None →
  let d' := (record_operation_result e1 t result1 d).1 in
  (record_operation_result e2 t result2 d').2 = Ok tt ∧
  operation_outputs (record_operation_result e2 t result2 d').1 !! k = Some (recorded_row result1 t).
Proof.
  intros k Hk Hor1 Hor2 Hr Hfree.
  rewrite (record_operation_result_eq e1 _ t d r Hr Hor1). cbv zeta. fold k. rewrite Hfree, reset_db_outputs.
  cbn [fst]. set (d' := _ <| operation_outputs := _ |>).
  assert (operation_outputs d' !! k = Some (recorded_row result1 t)) as Ho by apply lookup_insert_eq.
  assert (∃ r', workflow_status d' !! k.1 = Some r') as [r' Hr'].
  { pose proof (reset_db_status e1 k.1 d k.1) as Hst. rewrite Hr in Hst.
    apply fmap_Some in Hst as (r' & Hr' & _). by exists r'. }
  injection Hk as Hk1 Hk2.
  rewrite (record_operation_result_eq e2 _ t d' r'); [|by rewrite Hk1|done]. cbv zeta.
  rewrite Hk1, Hk2. fold k. rewrite Ho. cbn [recorded_row oo_completed_at_epoch_ms].
  rewrite (bool_decide_eq_false_2 (t ≠ t)) by (intros H; by apply H).
  split; [done|]. cbn [fst]. by rewrite reset_db_outputs.
Qed.

(** Starting a child is checkpointed by the child's ID: recording it again (a retry
    after a lost acknowledgement) is accepted and changes nothing, and recording another
    child at the same step is refused as a conflict. *)
Lemma record_child_workflow_once parent child child' fid name name' d d' :
  record_child_workflow parent child fid name d = (d', Ok tt) →
  operation_outputs d !! (parent, fid) = None →
  operation_outputs d' !! (parent, fid) = Some (child_row child name) ∧
  record_child_workflow parent child fid name d' = (d', Ok tt) ∧
  (child' ≠ "" → child' ≠ child →
   record_child_workflow parent child' fid name' d' = (d', Err (DBOSWorkflowConflictIDError parent))).
Proof.
  intros Hrec Hfree. unfold record_child_workflow in Hrec. case_bool_decide as Hc; [done|].
  assert (operation_outputs d' !! (parent, fid) = Some (child_row child name)) as Ho.
  { revert Hrec. unfold insert_operation_row. run_txn. rewrite Hfree.
    destruct (workflow_exists d _); cbn; [|done]. intros [= <-]. apply lookup_insert_eq. }
  assert (∀ c n, c ≠ "" → record_child_workflow parent c fid n d' =
            (d', if bool_decide (c = child) then Ok tt else Err (DBOSWorkflowConflictIDError parent))) as Hagain.
  { intros c n Hne. unfold record_child_workflow, insert_operation_row.
    rewrite bool_decide_eq_false_2 by done. run_txn. rewrite Ho. cbn [fst snd committed current].
    rewrite Ho. cbn. destruct (decide (c = child)) as [->|Hcc].
    - by rewrite !bool_decide_eq_true_2 by done.
    - by rewrite !bool_decide_eq_false_2 by congruence. }
  split; [done|]. split; [by rewrite Hagain, bool_decide_eq_true_2|].
  intros Hne Hd. by rewrite Hagain, bool_decide_eq_false_2.
Qed.

(** A patch is decided once. Where the history has no checkpoint, [patch] records its
    marker and answers [True]; from then on the same call answers [True], and the call of
    another patch [False], without a change, and [deprecate_patch] agrees. A history that
    passed this point before the patch answers [False]. *)
Lemma patch_decided_once e e' t0 t1 u0 u1 wid fid name other d d' r :
  workflow_status d !! wid = Some r → operation_outputs d !! (wid, fid) = None → other ≠ name →
  patch e t0 t1 wid fid name d = (d', Ok true) →
  ∀ d'', operation_outputs d'' !! (wid, fid) = operation_outputs d' !! (wid, fid) →
    patch e' u0 u1 wid fid name d'' = (d'', Ok true) ∧ patch e' u0 u1 wid fid other d'' = (d'', Ok false) ∧
    deprecate_patch d'' wid fid name = true ∧ deprecate_patch d wid fid name = false.
Proof.
  intros Hr Hfree Hne Hp.
  assert (get_checkpoint_name d' wid fid = Some name) as Hname.
  { unfold patch, engine_begin, query, mbind, SM_bind in Hp. unfold get_checkpoint_name in Hp at 1.
    cbn [current] in Hp. rewrite Hfree in Hp. cbn [fmap option_fmap option_map] in Hp.
    rewrite (record_operation_result_txn_eq e _ t1 (Conn d d) r) in Hp; [|exact Hr|by left].
    cbn [current committed or_workflow_uuid or_function_id] in Hp. rewrite Hfree in Hp. cbv zeta in Hp.
    injection Hp as <-. unfold get_checkpoint_name. simpl. by rewrite lookup_insert_eq. }
  intros d'' Ho.
  assert (get_checkpoint_name d'' wid fid = Some name) as Hname''.
  { unfold get_checkpoint_name in *. by rewrite Ho. }
  assert (∀ n, patch e' u0 u1 wid fid n d'' = (d'', Ok (bool_decide (name = n)))) as Hpatch.
  { intros n. unfold patch, engine_begin, query, mbind, SM_bind. cbn [current]. by rewrite Hname''. }
  rewrite !Hpatch, bool_decide_eq_true_2, bool_decide_eq_false_2 by done.
  split_and!; try done; unfold deprecate_patch.
  - by rewrite Hname'', bool_decide_eq_true_2.
  - unfold get_checkpoint_name. by rewrite Hfree.
Qed.

(** ** Witnesses *)

Lemma step_replays_witness :
  let step := λ fn, @call_function_as_step (Some "a") sample_codecs sample_serializer 1 2 (sample_step fn) "step" (Some sample_ctx) in
  step "second" (step "first" sample_running).1 = ((step "first" sample_running).1, Ok (PStr "first")).
Proof.
  intros step.
  refine (@step_replays sample_codecs sample_laws sample_serializer sample_honest sample_reads_back
            (Some "a") (Some "a") 1 2 1 2 (sample_step "first") (sample_step "second") "step" sample_ctx
            (PStr "first") sample_running (step "first" sample_running).1 (step "first" sample_running).1
            _ _ _ _ _); try reflexivity.
  split; [reflexivity|]. eexists. split; [reflexivity|discriminate].
Defined.

Lemma call_txn_as_step_exactly_once_witness :
  let op : txn pyval := λ c, (Conn (committed c) ((current c) <| notifications := ∅ |>), Ok (PStr "v")) in
  ∃ w slept i,
    db_retry 2 (faulty (λ i, call_txn_as_step None sample_serializer 1 (Z.of_nat i) "w" 3 "op" op))
      (sample_running, [LostAfter], 0) = Some (w, Ok (PStr "v"), slept) ∧
    w.1.1 = (reset_db None "w" sample_running) <| operation_outputs := <[("w", 3%Z) :=
       recorded_row {| or_workflow_uuid := "w"; or_function_id := 3; or_function_name := "op";
         or_output := Some (sample_pickle (inl "v")); or_error := None; or_serialization := None;
         or_started_at_epoch_ms := 1 |} (Z.of_nat i)]> ∅ |>.
Proof.
  intros op.
  exact (@call_txn_as_step_exactly_once sample_serializer sample_reads_back None
    (λ _, 1%Z) Z.of_nat "w" 3 "op" op (λ d, d <| notifications := ∅ |>) (PStr "v") (sample_pickle (inl "v"))
    sample_running (sample_row "w" PENDING) [LostAfter] (λ c, eq_refl) eq_refl eq_refl eq_refl ltac:(discriminate) eq_refl).
Defined.

Lemma record_sleep_durable_witness :
  let d' := (@record_sleep (Some "a") sample_codecs sample_serializer 1 2 3 4 "w" 1 100 sample_running).1 in
  @record_sleep (Some "b") sample_codecs sample_serializer 50 51 52 53 "w" 1 100 d' = (d', Ok 49%Z).
Proof.
  intros d'.
  refine (proj2 (@record_sleep_durable sample_codecs sample_laws sample_serializer (Some "a") (Some "b")
    1 2 3 4 50 51 52 53 "w" 1 100 100 sample_running d' d' 98 _ _ _)); try reflexivity.
  split; [reflexivity|]. eexists. split; [reflexivity|discriminate].
Defined.

Lemma record_first_writer_wins_witness :
  let d' := (record_operation_result (Some "a") 10 (sample_result "x") sample_running).1 in
  record_operation_result (Some "b") 11 (sample_result "y") d' = (d', Err (DBOSWorkflowConflictIDError "w")).
Proof.
  intros d'.
  destruct (record_first_writer_wins (Some "a") (Some "b") 10 11 (sample_result "x") (sample_result "y")
    sample_running d' (sample_row "w" PENDING) eq_refl (or_introl eq_refl) eq_refl eq_refl eq_refl) as (_ & _ & H).
  apply H. discriminate.
Defined.

Lemma same_millisecond_conflict_missed_witness :
  let d' := (record_operation_result (Some "a") 10 (sample_result "x") sample_running).1 in
  (record_operation_result (Some "b") 10 (sample_result "y") d').2 = Ok tt.
Proof.
  exact (proj1 (same_millisecond_conflict_missed (Some "a") (Some "b") 10 (sample_result "x") (sample_result "y")
    sample_running (sample_row "w" PENDING) eq_refl (or_introl eq_refl) (or_introl eq_refl) eq_refl eq_refl)).
Defined.

Lemma record_child_workflow_once_witness :
  let d' := (record_child_workflow "w" "w-1" 1 "child" sample_running).1 in
  record_child_workflow "w" "w-2" 1 "child" d' = (d', Err (DBOSWorkflowConflictIDError "w")).
Proof.
  intros d'.
  refine (proj2 (proj2 (record_child_workflow_once "w" "w-1" "w-2" 1 "child" "child" sample_running d' _ _)) _ _);
    try reflexivity; discriminate.
Defined.

Lemma patch_decided_once_witness :
  let d' := (patch None 1 2 "w" 1 "p" sample_running).1 in
  patch None 3 4 "w" 1 "p" d' = (d', Ok true).
Proof.
  intros d'.
  refine (proj1 (patch_decided_once None None 1 2 3 4 "w" 1 "p" "q" sample_running d' (sample_row "w" PENDING)
    _ _ _ _ d' _)); try reflexivity. discriminate.
Defined.
