(* ===== verification/Events.v ===== *)
(** * In-memory events: [ThreadSafeEventDict], the waits and the notification poller

    [proc] is a process beside its database: the three event dictionaries of
    [SystemDatabase] and the [threading.Event]s made so far, by number, with the set of
    those that are set. A dictionary's methods run under its lock, so each is one step. *)
From S2P Require Import Prelude Errors Schema.

(** [class EventCount] *)
Record EventCount := { ec_event : nat; ec_count : Z; ec_components : string * string }.

Notation ThreadSafeEventDict := (gmap string EventCount).

Definition dict_event (key : string) (d : ThreadSafeEventDict) : option nat := ec_event <$> d !! key.

(** [set]: the dictionary, whether the key was free, and the event to wait on. *)
Definition dict_set (key : string) (value : nat) (components : string * string) (d : ThreadSafeEventDict) :
    ThreadSafeEventDict * (bool * nat) :=
  match d !! key with
  | Some ec =>
      (<[key := {| ec_event := ec_event ec; ec_count := ec_count ec + 1; ec_components := ec_components ec |}]> d,
       (false, ec_event ec))
  | None => (<[key := {| ec_event := value; ec_count := 1; ec_components := components |}]> d, (true, value))
  end.

Definition dict_pop (key : string) (d : ThreadSafeEventDict) : ThreadSafeEventDict :=
  match d !! key with
  | Some ec =>
      let n := (ec_count ec - 1)%Z in
      if bool_decide (n = 0)%Z then delete key d
      else <[key := {| ec_event := ec_event ec; ec_count := n; ec_components := ec_components ec |}]> d
  | None => d
  end.

Definition dict_snapshot (d : ThreadSafeEventDict) : list (string * (string * string) * nat) :=
  (λ kc, (kc.1, ec_components kc.2, ec_event kc.2)) <$> map_to_list d.

Record proc := Proc {
  pr_db : db;
  pr_notifications_map : ThreadSafeEventDict;
  pr_workflow_events_map : ThreadSafeEventDict;
  pr_streams_map : ThreadSafeEventDict;
  pr_set : gset nat;
  pr_next : nat;
}.

#[export] Instance proc_eta : RecordEta proc := λ p,
  Proc (pr_db p) (pr_notifications_map p) (pr_workflow_events_map p) (pr_streams_map p) (pr_set p) (pr_next p).

Definition on_db {A} (m : dbM A) : SM proc pyexn A := zoom pr_db (λ d p, p <| pr_db := d |>) m.

(** [threading.Event()], [event.set()], [event.is_set()] *)
Definition new_event : SM proc pyexn nat := λ p, (p <| pr_next := S (pr_next p) |>, Ok (pr_next p)).
Definition event_set (e : nat) : SM proc pyexn unit := modify (λ p, p <| pr_set := {[e]} ∪ pr_set p |>).
Definition event_is_set (e : nat) (p : proc) : bool := bool_decide (e ∈ pr_set p).

(** [_event_recheck_interval], in milliseconds. *)
Definition notification_fallback_polling_interval : Z := 60000.
Definition event_recheck_interval (listener_running : bool) (polling_interval_ms : Z) : Z :=
  if listener_running then notification_fallback_polling_interval else polling_interval_ms.

(** The wait of [recv] and [get_event]: [while not event.is_set(): ...]. [env k] is what the
    other threads do during the [k]th wait, [check] the fallback read of the database; a
    wait that is not cut short lasts its timeout. [None] when the fuel ends first. *)
Fixpoint wait_loop (fuel : nat) (env : nat → proc → proc) (check : SM proc pyexn unit) (interval : Z)
    (event k : nat) (now deadline : Z) (p : proc) : option proc :=
  if event_is_set event p then Some p
  else
    let remaining := (deadline - now)%Z in
    if bool_decide (remaining ≤ 0)%Z then Some p
    else match fuel with
         | O => None
         | S fuel' =>
             let p1 := env k p in
             let p2 := if event_is_set event p1 then p1 else (check p1).1 in
             wait_loop fuel' env check interval event (S k) (now + Z.min remaining interval) deadline p2
         end.

(** What the poller looks for at each entry of each dictionary. *)
Definition notification_pending (d : db) (dest topic : string) : bool :=
  bool_decide (sql_select (λ _ r, bool_decide (no_destination_uuid r = dest) && sql_eq (no_topic r) topic &&
                                  negb (no_consumed r)) (notifications d) ≠ []).
Definition event_present (d : db) (workflow_uuid key : string) : bool :=
  bool_decide (is_Some (workflow_events d !! (workflow_uuid, key))).
Definition stream_present (d : db) (workflow_uuid key : string) : bool :=
  bool_decide (sql_select (λ k _, bool_decide (k.1 = (workflow_uuid, key))) (streams d) ≠ []).

Definition poll_map (present : string → string → bool) (d : ThreadSafeEventDict) (fired : gset nat) : gset nat :=
  foldr (λ entry fired, if present entry.1.2.1 entry.1.2.2 then {[entry.2]} ∪ fired else fired)
    fired (dict_snapshot d).

(** One round of [_notification_listener_polling]. *)
Definition notification_listener_round (p : proc) : proc :=
  let d := pr_db p in
  p <| pr_set := poll_map (stream_present d) (pr_streams_map p)
                   (poll_map (event_present d) (pr_workflow_events_map p)
                     (poll_map (notification_pending d) (pr_notifications_map p) (pr_set p))) |>.

(** The steps a dictionary's users take at a key: [holders] are the calls of [set] not yet
    followed by their [pop]. *)
Inductive dict_step : ThreadSafeEventDict * gmap string Z → ThreadSafeEventDict * gmap string Z → Prop :=
| dict_step_set d h key e c d' r :
    dict_set key e c d = (d', r) → dict_step (d, h) (d', <[key := default 0 (h !! key) + 1]> h)%Z
| dict_step_pop d h key :
    (0 < default 0 (h !! key))%Z →
    dict_step (d, h) (dict_pop key d, <[key := default 0 (h !! key) - 1]> h)%Z.

(** The count of every entry is its number of users, and is positive. *)
Definition dict_counts (s : ThreadSafeEventDict * gmap string Z) : Prop :=
  ∀ key, default 0%Z (s.2 !! key) = match s.1 !! key with Some ec => ec_count ec | None => 0%Z end ∧
         (∀ ec, s.1 !! key = Some ec → (0 < ec_count ec)%Z).

(** ** Lemmas *)

Lemma dict_step_counts s s' : dict_step s s' → dict_counts s → dict_counts s'.
Proof.
  intros [d h key e c d' r Hset|d h key Hpos] Hc key'; cbn [fst snd] in *;
    pose proof (Hc key) as [Hk Hkp]; cbn [fst snd] in Hk, Hkp.
  - destruct (decide (key = key')) as [<-|Hne].
    + unfold dict_set in Hset. destruct (d !! key) as [ec|] eqn:Hd; rewrite ?Hd in Hk, Hkp; simplify_eq;
        repeat rewrite lookup_insert_eq; simpl; rewrite Hk; (split; [lia|intros ? [= <-]; simpl]); [|lia].
      specialize (Hkp ec eq_refl). lia.
    + pose proof (Hc key') as Hk'. cbn [fst snd] in Hk'.
      assert (d' !! key' = d !! key') as ->; [|by rewrite lookup_insert_ne].
      unfold dict_set in Hset. destruct (d !! key); simplify_eq; by rewrite lookup_insert_ne.
  - destruct (decide (key = key')) as [<-|Hne].
    + unfold dict_pop. destruct (d !! key) as [ec|] eqn:Hd; rewrite ?Hd in Hk, Hkp; [|lia]. rewrite lookup_insert_eq. simpl. rewrite Hk.
      case_bool_decide; rewrite ?lookup_delete_eq, ?lookup_insert_eq; simpl; (split; [lia|]); [done|].
      intros ? [= <-]. simpl. lia.
    + pose proof (Hc key') as Hk'. cbn [fst snd] in Hk'.
      assert (dict_pop key d !! key' = d !! key') as ->; [|by rewrite lookup_insert_ne].
      unfold dict_pop. destruct (d !! key); [|done].
      case_bool_decide; by rewrite ?lookup_delete_ne, ?lookup_insert_ne.
Qed.

Lemma elem_of_poll_map present d fired e :
  e ∈ poll_map present d fired ↔
  e ∈ fired ∨ ∃ key ec, d !! key = Some ec ∧ ec_event ec = e ∧
                 present (ec_components ec).1 (ec_components ec).2 = true.
Proof.
  assert (∀ l : list (string * EventCount),
    e ∈ foldr (λ entry fired, if present entry.1.2.1 entry.1.2.2 then {[entry.2]} ∪ fired else fired) fired
          ((λ kc, (kc.1, ec_components kc.2, ec_event kc.2)) <$> l) ↔
    e ∈ fired ∨ Exists (λ kc, ec_event kc.2 = e ∧
                  present (ec_components kc.2).1 (ec_components kc.2).2 = true) l) as Hl.
  { induction l as [|[key ec] l IH]; simpl; [by rewrite Exists_nil; tauto|]. rewrite Exists_cons. simpl.
    destruct (present _ _) eqn:Hp.
    - rewrite elem_of_union, elem_of_singleton, IH. split; [intros [->|[?|?]]; auto|].
      intros [?|[[<- _]|?]]; auto.
    - rewrite IH. split; [intros [?|?]; auto|intros [?|[[_ ?]|?]]; auto; congruence]. }
  unfold poll_map, dict_snapshot. rewrite Hl, Exists_exists. split; (intros [?|H]; [by left|right]).
  - destruct H as ([key ec] & Hin%elem_of_map_to_list & ? & ?). eauto.
  - destruct H as (key & ec & Hin%elem_of_map_to_list & ? & ?). exists (key, ec). eauto.
Qed.

(** ** Properties *)

(** An event dictionary keeps an entry exactly as long as someone waits on it: in
    every state its users reach, the count of an entry is the number of its [set]s not
    yet undone by a [pop], and a key without users has no entry, so nothing leaks. *)
Lemma event_dict_counts d h :
  rtc dict_step (∅, ∅) (d, h) →
  ∀ key, match d !! key with
         | Some ec => ec_count ec = default 0%Z (h !! key) ∧ (0 < ec_count ec)%Z
         | None => default 0%Z (h !! key) = 0%Z
         end.
Proof.
  intros Hsteps. assert (dict_counts (d, h)) as Hc.
  { assert (∀ s s', rtc dict_step s s' → dict_counts s → dict_counts s') as Hinv.
    { induction 1; eauto using dict_step_counts. }
    apply (Hinv _ _ Hsteps). intros key. simpl. by rewrite !lookup_empty. }
  intros key. destruct (Hc key) as [Hk Hp]. simpl in *. destruct (d !! key); [|done]. auto.
Qed.

Lemma event_dict_counts_witness :
  ec_count <$> (dict_set "k" 1 ("w", "t") ∅).1 !! "k" = Some 1%Z ∧ (0 < 1)%Z.
Proof.
  pose proof (event_dict_counts (dict_set "k" 1 ("w", "t") ∅).1 {["k" := 1%Z]}
    (rtc_once _ _ (dict_step_set ∅ ∅ "k" 1 ("w", "t") _ _ eq_refl)) "k") as Hk.
  split; [reflexivity|]. destruct Hk as [_ Hk]. exact Hk.
Defined.

(** One round of the notification poller sets exactly the events that are due: those
    of a waiter whose message, event or stream entry is in the database. *)
Lemma notification_listener_round_signals p e :
  e ∈ pr_set (notification_listener_round p) ↔
  e ∈ pr_set p ∨
  (∃ key ec, pr_notifications_map p !! key = Some ec ∧ ec_event ec = e ∧
     notification_pending (pr_db p) (ec_components ec).1 (ec_components ec).2 = true) ∨
  (∃ key ec, pr_workflow_events_map p !! key = Some ec ∧ ec_event ec = e ∧
     event_present (pr_db p) (ec_components ec).1 (ec_components ec).2 = true) ∨
  (∃ key ec, pr_streams_map p !! key = Some ec ∧ ec_event ec = e ∧
     stream_present (pr_db p) (ec_components ec).1 (ec_components ec).2 = true).
Proof. simpl. rewrite !elem_of_poll_map. tauto. Qed.

(** The wait of [recv] and [get_event] ends by its deadline even if no event is ever
    set, after at most one wait for each recheck interval; and it ends either with the
    event set or with the deadline passed. *)
Lemma wait_loop_ends env check interval event k now deadline p :
  (0 < interval)%Z →
  ∃ p', wait_loop (Z.to_nat (Z.max 0 (deadline - now)) / Z.to_nat interval + 1)%nat env check interval event k
          now deadline p = Some p'.
Proof.
  intros Hi. assert (∃ i : nat, Z.to_nat interval = i ∧ interval = Z.of_nat i ∧ (0 < i)%nat) as (i & -> & Hii & Hip)
    by (exists (Z.to_nat interval); lia).
  remember (Z.to_nat (Z.max 0 (deadline - now)) / i + 1)%nat as fuel eqn:Hf.
  assert (Z.to_nat (Z.max 0 (deadline - now)) ≤ fuel * i)%nat as Hlt.
  { subst fuel. pose proof (Nat.mul_succ_div_gt (Z.to_nat (Z.max 0 (deadline - now))) i ltac:(lia)). lia. }
  clear Hf. revert k now p Hlt. induction fuel as [|fuel IH]; intros k now p Hlt; simpl;
    (destruct (event_is_set event p); [eauto|]); case_bool_decide; eauto; [lia|].
  apply IH. assert (S fuel * i = i + fuel * i)%nat as Hm by lia. lia.
Qed.

Lemma wait_loop_ends_witness :
  ∃ p', wait_loop 4 (λ _ p, p) (mret tt) 10 0 0 100 130 (Proc empty_db ∅ ∅ ∅ ∅ 1) = Some p'.
Proof. exact (wait_loop_ends (λ _ p, p) (mret tt) 10 0 0 100 130 (Proc empty_db ∅ ∅ ∅ ∅ 1) eq_refl). Defined.
