(* ===== verification/Forks.v ===== *)
(** * Forks: [fork_workflow], [fork_from_failure] and the fork forest

    A fork is a new workflow that starts from a copy of the history of another up to a
    step. [find_fork_descendants] is the bulk walk that [send] makes to reach the forks of
    a destination. Generated workflow IDs are arguments. *)
From S2P Require Import Prelude Errors Schema Retry Serialization Workflows Context Steps.

(** ** [_find_fork_descendants_txn] *)

Definition fork_of (d : db) (parent child : string) : Prop :=
  ∃ r, workflow_status d !! child = Some r ∧ ws_forked_from r = Some parent.

(** [SELECT workflow_uuid, forked_from WHERE forked_from IN frontier], as the edges
    [(forked_from, workflow_uuid)]. *)
Definition fork_rows (d : db) (frontier : list string) : list (string * string) :=
  omap (λ kr, (λ p, (p, kr.1)) <$> ws_forked_from kr.2)
    (sql_select (λ _ r, sql_in (ws_forked_from r) frontier) (workflow_status d)).

(** The edges of the forest that the walk over all roots finds; [children.get(node)] is
    [children_of]. *)
Definition fork_edges (d : db) (workflow_ids : list string) : option (list (string * string)) :=
  snd <$> search (λ frontier edges, edges ++ fork_rows d frontier) (λ _ frontier, (fork_rows d frontier).*2)
            (children_fuel d) workflow_ids (remove_dups workflow_ids) [].

Definition children_of (edges : list (string * string)) (node : string) : list string :=
  (filter (λ e, e.1 = node) edges).*2.

(** [while stack: node = stack.pop(); ...]; the head of the list is the top of the stack. *)
Fixpoint descend (fuel : nat) (edges : list (string * string)) (root : string)
    (descendants stack : list string) : option (list string) :=
  match stack with
  | [] => Some descendants
  | node :: stack' =>
      match fuel with
      | O => None
      | S fuel' =>
          if bool_decide (node ≠ root) && bool_decide (node ∉ descendants)
          then descend fuel' edges root (node :: descendants) (reverse (children_of edges node) ++ stack')
          else descend fuel' edges root descendants stack'
      end
  end.

(** Each edge is pushed once at most. *)
Definition descendants_of (edges : list (string * string)) (root : string) : option (list string) :=
  descend (length edges) edges root [] (reverse (children_of edges root)).

(** The dictionary from each root to its descendants. *)
Definition find_fork_descendants (d : db) (workflow_ids : list string) : option (gmap string (list string)) :=
  edges ← fork_edges d workflow_ids;
  (λ l, list_to_map (zip workflow_ids l)) <$> mapM (descendants_of edges) workflow_ids.

(** ** [fork_workflow] *)

Definition forked_row (now : Z) (application_version queue_name queue_partition_key : option string)
    (original_workflow_id : string) (status : workflow_status_row) : workflow_status_row := {|
  ws_status := ENQUEUED;
  ws_name := ws_name status;
  ws_authenticated_user := ws_authenticated_user status;
  ws_assumed_role := ws_assumed_role status;
  ws_authenticated_roles := ws_authenticated_roles status;
  ws_output := None;
  ws_error := None;
  ws_executor_id := None;
  ws_created_at := now;
  ws_updated_at := now;
  ws_application_version := application_version;
  ws_application_id := ws_application_id status;
  ws_class_name := ws_class_name status;
  ws_config_name := ws_config_name status;
  ws_recovery_attempts := Some 0%Z;
  ws_queue_name := Some (default INTERNAL_QUEUE_NAME queue_name);
  ws_workflow_timeout_ms := None;
  ws_workflow_deadline_epoch_ms := None;
  ws_started_at_epoch_ms := None;
  ws_deduplication_id := None;
  ws_inputs := ws_inputs status;
  ws_priority := 0;
  ws_queue_partition_key := queue_partition_key;
  ws_forked_from := Some original_workflow_id;
  ws_was_forked_from := false;
  ws_owner_xid := None;
  ws_parent_workflow_id := None;
  ws_serialization := ws_serialization status;
  ws_delay_until_epoch_ms := None;
  ws_rate_limited := false;
  ws_completed_at := None;
  ws_attributes := ws_attributes status;
  ws_schedule_name := None;
  ws_debounce_deadline_epoch_ms := None;
  ws_is_debounced := false;
|}.

(** A line of the mapping subquery: the original, its fork, and the step it starts at. *)
Record fork_mapping := ForkMapping { fm_orig : string; fm_fork : string; fm_start_step : Z }.

(** [child_wf_expr] *)
Definition replace_child (replacement_children : list (string * string)) (child : option string) : option string :=
  match child with
  | Some c => Some (default c (snd <$> find (λ on, bool_decide (on.1 = c)) replacement_children))
  | None => None
  end.

(** [INSERT INTO ... SELECT ...] of the history before the start step: the rows of
    the original, under the fork. *)
Definition copied {K R} `{Countable K} (workflow : K → string) (function_id : K → R → Z)
    (rekey : string → K → K) (change : R → R) (mapping : list fork_mapping) (t : gmap K R) : list (K * R) :=
  mapping ≫= λ m,
    (λ kr, (rekey (fm_fork m) kr.1, change kr.2)) <$>
      sql_select (λ k r, bool_decide (workflow k = fm_orig m) && bool_decide (function_id k r < fm_start_step m)%Z) t.

Definition copied_operations (replacement_children : list (string * string)) :
    list fork_mapping → gmap (string * Z) operation_outputs_row → list ((string * Z) * operation_outputs_row) :=
  copied (λ k, k.1) (λ k _, k.2) (λ f k, (f, k.2))
    (λ r, r <| oo_child_workflow_id := replace_child replacement_children (oo_child_workflow_id r) |>).

Definition copied_history :
    list fork_mapping → gmap (string * string * Z) workflow_events_history_row →
    list ((string * string * Z) * workflow_events_history_row) :=
  copied (λ k, k.1.1) (λ k _, k.2) (λ f k, (f, k.1.2, k.2)) id.

Definition copied_streams :
    list fork_mapping → gmap (string * string * Z) streams_row → list ((string * string * Z) * streams_row) :=
  copied (λ k, k.1.1) (λ _ r, st_function_id r) (λ f k, (f, k.1.2, k.2)) id.

(** A row of the join that [ranked] numbers: the original it is partitioned by, the fork,
    the key, the function and the value. *)
Record joined_event := JoinedEvent {
  je_orig : string; je_fork : string; je_key : string; je_function_id : Z;
  je_row : workflow_events_row
}.

Definition joined_events (mapping : list fork_mapping) (t : gmap (string * string * Z) workflow_events_history_row) :
    list joined_event :=
  mapping ≫= λ m,
    (λ kr, JoinedEvent (fm_orig m) (fm_fork m) kr.1.1.2 kr.1.2
             {| we_value := weh_value kr.2; we_serialization := weh_serialization kr.2 |}) <$>
      sql_select (λ k _, bool_decide (k.1.1 = fm_orig m) && bool_decide (k.2 < fm_start_step m)%Z) t.

(** [WHERE row_number() OVER (PARTITION BY part ORDER BY ...) = 1], the rows in order. *)
Fixpoint first_of_partition {A P} `{EqDecision P} (part : A → P) (seen : list P) (l : list A) : list A :=
  match l with
  | [] => []
  | x :: l' =>
      if bool_decide (part x ∈ seen) then first_of_partition part seen l'
      else x :: first_of_partition part (part x :: seen) l'
  end.

(** The partition is by the original workflow and the key, the order by the function,
    the last first. *)
Definition latest_events (mapping : list fork_mapping) (t : gmap (string * string * Z) workflow_events_history_row) :
    list ((string * string) * workflow_events_row) :=
  (λ e, ((je_fork e, je_key e), je_row e)) <$>
    first_of_partition (λ e, (je_orig e, je_key e)) []
      (sql_order_by (λ e1 e2, bool_decide (je_function_id e2 ≤ je_function_id e1)%Z) (joined_events mapping t)).

(** The four copies; each reads the table as the statement finds it. The forks are rows of
    [workflow_status] by then, so the foreign keys hold. *)
Definition insert_all_or {K R} `{Countable K} (l : list (K * R)) (t : gmap K R) : res pyexn (gmap K R) :=
  match sql_insert_all l t with Some t' => Ok t' | None => Err UniqueViolation end.

Definition copy_checkpoints (replacement_children : list (string * string)) (mapping : list fork_mapping) (d : db) :
    res pyexn (db * unit) :=
  match insert_all_or (copied_operations replacement_children mapping (operation_outputs d)) (operation_outputs d) with
  | Ok t => Ok (d <| operation_outputs := t |>, tt)
  | Err e => Err e
  end.

Definition copy_events_history (mapping : list fork_mapping) (d : db) : res pyexn (db * unit) :=
  match insert_all_or (copied_history mapping (workflow_events_history d)) (workflow_events_history d) with
  | Ok t => Ok (d <| workflow_events_history := t |>, tt)
  | Err e => Err e
  end.

Definition copy_latest_events (mapping : list fork_mapping) (d : db) : res pyexn (db * unit) :=
  match insert_all_or (latest_events mapping (workflow_events_history d)) (workflow_events d) with
  | Ok t => Ok (d <| workflow_events := t |>, tt)
  | Err e => Err e
  end.

Definition copy_streams (mapping : list fork_mapping) (d : db) : res pyexn (db * unit) :=
  match insert_all_or (copied_streams mapping (streams d)) (streams d) with
  | Ok t => Ok (d <| streams := t |>, tt)
  | Err e => Err e
  end.

Fixpoint zip3 (originals forks : list string) (steps : list Z) : list fork_mapping :=
  match originals, forks, steps with
  | o :: originals', f :: forks', s :: steps' => ForkMapping o f s :: zip3 originals' forks' steps'
  | _, _, _ => []
  end.

Definition fork_workflow (now : Z) (original_workflow_ids forked_workflow_ids : list string) (start_steps : list Z)
    (application_version queue_name queue_partition_key : option string)
    (replacement_children : list (string * string)) : dbM (list string) :=
  match original_workflow_ids with
  | [] => mret []
  | _ =>
      if bool_decide (length original_workflow_ids ≠ length forked_workflow_ids) ||
         bool_decide (length original_workflow_ids ≠ length start_steps)
      then raise (ValueError "original_workflow_ids, forked_workflow_ids, and start_steps must have the same length")
      else
        engine_begin (
          status_by_id ← query workflow_status;
          _ ← for_each original_workflow_ids (λ wid,
                match (status_by_id : gmap string workflow_status_row) !! wid with
                | None => raise (PyException ("Workflow " +:+ wid +:+ " not found"))
                | Some _ => mret tt
                end);
          let all := zip3 original_workflow_ids forked_workflow_ids start_steps in
          _ ← for_each all (λ m,
                match (status_by_id : gmap string workflow_status_row) !! fm_orig m with
                | None => raise (KeyError (fm_orig m))
                | Some status =>
                    execute_res (insert_workflow_row (fm_fork m)
                      (forked_row now application_version queue_name queue_partition_key (fm_orig m) status))
                end);
          _ ← update_workflow_rows (λ id _, bool_decide (id ∈ original_workflow_ids))
                (λ r, r <| ws_was_forked_from := true |>);
          let mapping := filter (λ m, (1 < fm_start_step m)%Z) all in
          _ ← execute_res (copy_checkpoints replacement_children mapping);
          _ ← execute_res (copy_events_history mapping);
          _ ← execute_res (copy_latest_events mapping);
          _ ← execute_res (copy_streams mapping);
          mret forked_workflow_ids)
  end.

(** ** [fork_from_failure] *)

Inductive fork_point :=
| FromLastFailure | FromLastStep | FromStep (step : Z) | FromStepName (name : string).

(** Exactly one of the four modes. *)
Definition fork_mode (from_last_failure from_last_step : bool) (from_step : option Z) (from_step_name : option string) :
    res pyexn fork_point :=
  match from_last_failure, from_last_step, from_step, from_step_name with
  | true, false, None, None => Ok FromLastFailure
  | false, true, None, None => Ok FromLastStep
  | false, false, Some s, None => Ok (FromStep s)
  | false, false, None, Some n => Ok (FromStepName n)
  | _, _, _, _ => Err (ValueError "Exactly one of from_last_failure, from_last_step, from_step, or from_step_name must be specified")
  end.

(** [SELECT max(function_id) WHERE workflow_uuid = wid AND p GROUP BY workflow_uuid] *)
Definition max_function_id (d : db) (p : operation_outputs_row → bool) (wid : string) : option Z :=
  foldr (λ kr acc, Some (match acc with Some m => Z.max kr.1.2 m | None => kr.1.2 end)) None
    (sql_select (λ k r, bool_decide (k.1 = wid) && p r) (operation_outputs d)).

Definition failure_start_step (d : db) (mode : fork_point) (wid : string) : option Z :=
  match mode with
  | FromStep s => Some s
  | FromLastFailure =>
      match max_function_id d (λ r, bool_decide (oo_error r ≠ None)) wid with
      | Some m => Some m
      | None => max_function_id d (λ _, true) wid
      end
  | FromLastStep => max_function_id d (λ _, true) wid
  | FromStepName n => max_function_id d (λ r, bool_decide (oo_function_name r = n)) wid
  end.

Definition fork_from_failure (now : Z) (forked_ids workflow_ids : list string) (application_version queue_name
    queue_partition_key : option string) (from_last_failure from_last_step : bool) (from_step : option Z)
    (from_step_name : option string) : dbM (list string) :=
  mode ← lift_res (fork_mode from_last_failure from_last_step from_step from_step_name);
  start_steps ← (λ d, (d, res_map (λ wid,
      match failure_start_step d mode wid with
      | Some s => Ok s
      | None =>
          match mode with
          | FromStepName n => Err (PyException ("Workflow " +:+ wid +:+ " has no step named '" +:+ n +:+ "'"))
          | _ => Err (PyException ("Workflow " +:+ wid +:+ " has no steps"))
          end
      end) workflow_ids));
  fork_workflow now workflow_ids forked_ids start_steps application_version queue_name queue_partition_key [].

(** ** Sample data *)

(** A workflow that started a child and set an event. *)
Definition sample_forkable : db :=
  sample_running <| operation_outputs := {[("w", 1%Z) := child_row "w-1" "child"]} |>
    <| workflow_events_history := {[("w", "k", 1%Z) := {| weh_value := "v"; weh_serialization := None |}]} |>.

(** ** Lemmas: the fork forest *)

Lemma elem_of_fork_rows d fr p c : (p, c) ∈ fork_rows d fr ↔ p ∈ fr ∧ fork_of d p c.
Proof.
  unfold fork_rows, fork_of. rewrite list_elem_of_omap. split.
  - intros ([i r] & [Hr Hp]%elem_of_sql_select & Ho). simpl in Ho.
    unfold sql_in in Hp. destruct (ws_forked_from r) as [q|] eqn:Hq; [|done]. simplify_eq/=.
    unfold sql_in in Hp. simpl in Hp. rewrite ?Hq in Hp. apply bool_decide_eq_true in Hp. eauto.
  - intros (Hp & r & Hr & Hq). exists (c, r). split; [|by simpl; rewrite Hq].
    apply elem_of_sql_select. split; [done|]. unfold sql_in. rewrite Hq. by apply bool_decide_eq_true.
Qed.

Lemma fork_of_dom d p c : fork_of d p c → c ∈ dom (workflow_status d).
Proof. intros (r & Hr & _). by apply elem_of_dom_2 in Hr. Qed.

Lemma fork_kids d (fr : list string) y : y ∈ (fork_rows d fr).*2 ↔ ∃ x, x ∈ fr ∧ fork_of d x y.
Proof.
  rewrite list_elem_of_fmap. split.
  - intros ([p c] & -> & [? ?]%elem_of_fork_rows). eauto.
  - intros (p & ? & ?). exists (p, y). split; [done|]. by apply elem_of_fork_rows.
Qed.

Lemma fork_search_edges d fuel vis fr edges R edges' :
  fr ⊆ vis →
  search (λ fr edges, edges ++ fork_rows d fr) (λ _ fr, (fork_rows d fr).*2) fuel vis fr edges = Some (R, edges') →
  ∀ p c, (p, c) ∈ edges' ↔ (p, c) ∈ edges ∨ (fork_of d p c ∧ (p ∈ fr ∨ (p ∈ R ∧ p ∉ vis))).
Proof.
  revert vis fr edges. induction fuel as [|fuel IH]; intros vis [|x fr] edges Hsub; cbn [search]; [|done| |].
  1, 2: intros [= <- <-] p c; rewrite elem_of_nil; tauto.
  set (new := filter (λ c, c ∉ vis) (fork_rows d (x :: fr)).*2).
  intros Hs p c. assert (new ⊆ vis ++ new) as Hn by (intros y Hy; apply elem_of_app; by right).
  assert (vis ++ new ⊆ R) as HR by (eapply search_grows; exact Hs).
  rewrite (IH _ _ _ Hn Hs), elem_of_app, elem_of_fork_rows.
  assert (p ∈ new → p ∈ R ∧ p ∉ vis) as Hnew.
  { intros Hp. split; [apply HR, elem_of_app; by right|]. by apply list_elem_of_filter in Hp as [? _]. }
  rewrite (elem_of_app vis new p).
  destruct (decide (p ∈ new)); destruct (decide (p ∈ x :: fr)); tauto.
Qed.

Lemma fork_edges_spec d ids :
  ∃ edges, fork_edges d ids = Some edges ∧
    ∀ p c, (p, c) ∈ edges ↔ fork_of d p c ∧ ∃ root, root ∈ ids ∧ rtc (fork_of d) root p.
Proof.
  assert (∀ (xs : list string) (s : list (string * string)), True → True) as HvI by done.
  assert (∀ (s : list (string * string)) xs y, True → y ∈ (fork_rows d xs).*2 ↔ ∃ x, x ∈ xs ∧ fork_of d x y) as Hkids
    by (intros; apply fork_kids).
  destruct (search_total (λ fr edges, edges ++ fork_rows d fr) (λ _ fr, (fork_rows d fr).*2) (λ _, True)
              (fork_of d) (dom (workflow_status d)) HvI Hkids (fork_of_dom d) (children_fuel d) ids
              (remove_dups ids) []) as [[R edges] Hs]; [done|apply children_fuel_enough|].
  exists edges. unfold fork_edges. rewrite Hs. split; [done|]. intros p c.
  assert (remove_dups ids ⊆ ids) as Hsub by (intros x Hx; by rewrite elem_of_remove_dups in Hx).
  rewrite (fork_search_edges d _ _ _ _ _ _ Hsub Hs), elem_of_nil, elem_of_remove_dups.
  assert (p ∈ R ↔ p ∈ ids ∨ ∃ x, x ∈ remove_dups ids ∧ tc (fork_of d) x p) as HR.
  { eapply (search_reachable _ _ (λ _, True) (fork_of d) HvI Hkids _ ids (remove_dups ids) [] R edges);
      [done|exact Hs|]. intros x Hx. by rewrite elem_of_remove_dups. }
  assert ((p ∈ ids ∨ p ∈ R ∧ p ∉ ids) ↔ ∃ root, root ∈ ids ∧ rtc (fork_of d) root p) as Hiff; [|tauto].
  rewrite HR. split.
  - intros [Hp|[[Hp|(x & Hin & Hx)] _]]; [by exists p|by exists p|].
    rewrite elem_of_remove_dups in Hin. exists x. split; [done|by apply tc_rtc].
  - intros (x & Hx & [->|Hxp]%rtc_tc); [by left|]. destruct (decide (p ∈ ids)); [by left|right].
    split; [right|done]. exists x. by rewrite elem_of_remove_dups.
Qed.

Section descend.
Context (edges : list (string * string)) (root : string).
Notation edge x y := ((x, y) ∈ edges).

Lemma elem_of_children_of x y : y ∈ children_of edges x ↔ edge x y.
Proof.
  unfold children_of. rewrite list_elem_of_fmap. split.
  - intros ([p c] & -> & [Hp Hin]%list_elem_of_filter). simpl in *. by subst.
  - intros Hin. exists (x, y). split; [done|]. by apply list_elem_of_filter.
Qed.

Definition unpushed (descendants : list string) : nat :=
  length (filter (λ e : string * string, e.1 ∉ descendants ∧ e.1 ≠ root) edges).

Lemma unpushed_cons node desc :
  node ≠ root → node ∉ desc → unpushed desc = unpushed (node :: desc) + length (children_of edges node).
Proof.
  intros Hr Hd. unfold unpushed, children_of. rewrite length_fmap.
  induction edges as [|[p c] l IH]; [done|]. rewrite !filter_cons. simpl.
  destruct (decide (p ∉ desc ∧ p ≠ root)), (decide (p ∉ node :: desc ∧ p ≠ root)), (decide (p = node));
    simpl; rewrite ?IH; try lia; exfalso; subst; rewrite ?not_elem_of_cons in *; try tauto.
Qed.

Lemma descend_total fuel desc stack :
  unpushed desc + length stack ≤ fuel → is_Some (descend fuel edges root desc stack).
Proof.
  revert desc stack. induction fuel as [|fuel IH]; intros desc [|node stack]; simpl; eauto; [lia|].
  intros Hf. destruct (decide (node ≠ root)) as [Hr|Hr], (decide (node ∉ desc)) as [Hd|Hd].
  - rewrite !bool_decide_eq_true_2 by done. apply IH.
    rewrite length_app, length_reverse. pose proof (unpushed_cons node desc Hr Hd). lia.
  - rewrite (bool_decide_eq_false_2 (node ∉ desc)), andb_false_r by done. apply IH. lia.
  - rewrite (bool_decide_eq_false_2 (node ≠ root)) by done. apply IH. lia.
  - rewrite (bool_decide_eq_false_2 (node ≠ root)) by done. apply IH. lia.
Qed.

Lemma descend_sound fuel desc stack R :
  descend fuel edges root desc stack = Some R → root ∉ desc →
  root ∉ R ∧ ∀ y, y ∈ R → y ∈ desc ∨ ∃ x, x ∈ stack ∧ rtc (λ x y, edge x y) x y.
Proof.
  revert desc stack. induction fuel as [|fuel IH]; intros desc [|node stack]; simpl;
    [intros [= <-]; auto|done|intros [= <-]; auto|].
  destruct (decide (node ≠ root ∧ node ∉ desc)) as [[Hr Hd]|Hn].
  - rewrite !bool_decide_eq_true_2 by done. intros Hs Hroot.
    destruct (IH _ _ Hs) as [HR HRs]; [rewrite not_elem_of_cons; auto|]. split; [done|].
    intros y [[->|?]%elem_of_cons|(x & Hx & Hxy)]%HRs; [|by left|].
    + right. exists node. split; [left|done].
    + right. apply elem_of_app in Hx as [Hx|Hx]; [|exists x; split; [by right|done]].
      exists node. split; [left|]. apply elem_of_reverse, elem_of_children_of in Hx. by eapply rtc_l.
  - assert (bool_decide (node ≠ root) && bool_decide (node ∉ desc) = false) as ->.
    { rewrite <- bool_decide_and. by apply bool_decide_eq_false. }
    intros Hs Hroot. destruct (IH _ _ Hs Hroot) as [HR HRs]. split; [done|].
    intros y [?|(x & Hx & Hxy)]%HRs; [by left|]. right. exists x. split; [by right|done].
Qed.

Lemma descend_closed fuel desc stack R :
  descend fuel edges root desc stack = Some R →
  (∀ x y, x ∈ desc ∨ x = root → edge x y → y = root ∨ y ∈ desc ∨ y ∈ stack) →
  ∀ x y, x ∈ R ∨ x = root → edge x y → y = root ∨ y ∈ R.
Proof.
  revert desc stack. induction fuel as [|fuel IH]; intros desc [|node stack]; simpl.
  1, 3: intros [= <-] Hc x y Hx Hxy; destruct (Hc x y Hx Hxy) as [?|[?|?%elem_of_nil]]; auto; done.
  { done. }
  destruct (decide (node ≠ root ∧ node ∉ desc)) as [[Hr Hd]|Hn].
  - rewrite !bool_decide_eq_true_2 by done. intros Hs Hc. apply (IH _ _ Hs).
    intros x y [[->|Hx]%elem_of_cons|Hx] Hxy.
    + right. right. apply elem_of_app. left. by apply elem_of_reverse, elem_of_children_of.
    + destruct (Hc x y (or_introl Hx) Hxy) as [?|[?|[->|?]%elem_of_cons]]; [by left|..]; right.
      * left. by right.
      * left. left.
      * right. apply elem_of_app. by right.
    + destruct (Hc x y (or_intror Hx) Hxy) as [?|[?|[->|?]%elem_of_cons]]; [by left|..]; right.
      * left. by right.
      * left. left.
      * right. apply elem_of_app. by right.
  - assert (bool_decide (node ≠ root) && bool_decide (node ∉ desc) = false) as ->.
    { rewrite <- bool_decide_and. by apply bool_decide_eq_false. }
    intros Hs Hc. apply (IH _ _ Hs). intros x y Hx Hxy.
    destruct (Hc x y Hx Hxy) as [?|[?|[->|?]%elem_of_cons]]; [auto|auto| |auto].
    destruct (decide (node = root)); [by left|]. right. left. by destruct (decide (node ∈ desc)); [|tauto].
Qed.

Lemma descendants_of_spec :
  ∃ R, descendants_of edges root = Some R ∧ ∀ y, y ∈ R ↔ y ≠ root ∧ tc (λ x y, edge x y) root y.
Proof.
  destruct (descend_total (length edges) [] (reverse (children_of edges root))) as [R Hs].
  { rewrite length_reverse. unfold unpushed, children_of. rewrite length_fmap.
    clear. induction edges as [|[p c] l IH]; [done|]. rewrite !filter_cons. simpl.
    destruct (decide (p ∉ [] ∧ p ≠ root)) as [[_ ?]|], (decide (p = root)); simpl in *; [done|lia..]. }
  exists R. split; [done|].
  destruct (descend_sound _ _ _ _ Hs) as [HR HRs]; [by apply not_elem_of_nil|].
  assert (∀ x y, x ∈ R ∨ x = root → edge x y → y = root ∨ y ∈ R) as Hc.
  { apply (descend_closed _ _ _ _ Hs). intros x y [?%elem_of_nil| ->] Hxy; [done|].
    right. right. by apply elem_of_reverse, elem_of_children_of. }
  intros y. split.
  - intros Hy. split; [by intros ->|]. destruct (HRs y Hy) as [?%elem_of_nil|(x & Hx & Hxy)]; [done|].
    apply elem_of_reverse, elem_of_children_of in Hx. by eapply tc_rtc_r; [constructor|].
  - intros [Hne Hy]. assert (∀ x y, tc (λ x y, edge x y) x y → x ∈ R ∨ x = root → y = root ∨ y ∈ R) as Htc.
    { clear y Hne Hy. induction 1 as [x y Hxy|x y z Hxy _ IH]; intros Hx; [by eapply Hc|].
      apply IH. destruct (Hc x y Hx Hxy); auto. }
    destruct (Htc root y Hy (or_intror eq_refl)); done.
Qed.

End descend.

(** ** Lemmas: the copies *)

Lemma elem_of_copied `{Countable K} {R} (wf : K → string) (fid : K → R → Z) rekey (change : R → R)
    mapping (t : gmap K R) k' r' :
  (k', r') ∈ copied wf fid rekey change mapping t ↔
  ∃ m k r, m ∈ mapping ∧ t !! k = Some r ∧ wf k = fm_orig m ∧ (fid k r < fm_start_step m)%Z ∧
    k' = rekey (fm_fork m) k ∧ r' = change r.
Proof.
  unfold copied. rewrite list_elem_of_bind. split.
  - intros (m & Hin & Hm). apply list_elem_of_fmap in Hin as ([k r] & [= -> ->] & [Hk Hp]%elem_of_sql_select).
    apply andb_true_iff in Hp as [?%bool_decide_eq_true ?%bool_decide_eq_true]. eauto 10.
  - intros (m & k & r & Hm & Hk & Hw & Hf & -> & ->). exists m. split; [|done].
    apply list_elem_of_fmap. exists (k, r). split; [done|]. apply elem_of_sql_select. split; [done|].
    by rewrite !bool_decide_eq_true_2.
Qed.

(** The rows a copy leaves: a fork's are the copies of its original's, and the others are
    as they were. *)
Lemma copied_lookup `{Countable K} {R} (wf : K → string) (fid : K → R → Z) (rekey : string → K → K)
    (change : R → R) mapping (t t' : gmap K R) :
  (∀ f k, wf (rekey f k) = f) →
  (∀ k, rekey (wf k) k = k) → (∀ f g k, rekey f (rekey g k) = rekey f k) →
  sql_insert_all (copied wf fid rekey change mapping t) t = Some t' →
  NoDup (fm_fork <$> mapping) →
  (∀ m k r, m ∈ mapping → t !! k = Some r → wf k ≠ fm_fork m) →
  (∀ m k, m ∈ mapping → wf k = fm_fork m →
     t' !! k = r ← t !! rekey (fm_orig m) k;
               if bool_decide (fid (rekey (fm_orig m) k) r < fm_start_step m)%Z then Some (change r) else None) ∧
  (∀ k, wf k ∉ (fm_fork <$> mapping) → t' !! k = t !! k).
Proof.
  intros Hwf Hself Htwice Hins Hnd Hfresh. apply sql_insert_all_Some in Hins as (_ & Hin & Hout & _).
  set (l := copied wf fid rekey change mapping t) in *. split.
  - intros m k Hm Hk.
    assert (t !! k = None) as Hnone.
    { destruct (t !! k) as [r'|] eqn:Hr'; [|done]. by destruct (Hfresh m k r' Hm Hr'). }
    assert (k ∈ l.*1 → ∃ r0, t !! rekey (fm_orig m) k = Some r0 ∧
              (fid (rekey (fm_orig m) k) r0 < fm_start_step m)%Z) as Hback.
    { intros ([? r'] & -> & Hc)%list_elem_of_fmap. simpl in *.
      apply elem_of_copied in Hc as (m' & k' & r0 & Hm' & Hk' & Hw & Hf & He & _).
      assert (fm_fork m' = fm_fork m) as Hff by (by rewrite <- Hk, He, Hwf).
      assert (m' = m) as -> by (by eapply NoDup_fmap_inj).
      rewrite He, Htwice, <- Hw, Hself. eauto. }
    destruct (t !! rekey (fm_orig m) k) as [r|] eqn:Hr; simpl.
    + case_bool_decide as Hlt.
      * apply Hin, elem_of_copied. exists m, (rekey (fm_orig m) k), r. split_and!; try done.
        by rewrite Htwice, <- Hk, Hself.
      * rewrite Hout; [done|]. intros (r0 & [= <-] & ?)%Hback. done.
    + rewrite Hout; [done|]. by intros (r0 & ? & _)%Hback.
  - intros k Hk. apply Hout. intros ([? r'] & -> & Hc)%list_elem_of_fmap. simpl in *.
    apply elem_of_copied in Hc as (m' & k' & r0 & Hm' & _ & _ & _ & -> & _). rewrite Hwf in Hk.
    apply Hk, list_elem_of_fmap. eauto.
Qed.

(** The bulk insert of the forks' rows. *)
Lemma for_each_insert_forks now app q part (t : gmap string workflow_status_row) all c c' :
  for_each all (λ m, match t !! fm_orig m with
                     | None => raise (KeyError (fm_orig m))
                     | Some status =>
                         execute_res (insert_workflow_row (fm_fork m) (forked_row now app q part (fm_orig m) status))
                     end) c = (c', Ok tt) →
  committed c' = committed c ∧
  (∃ ws, current c' = (current c) <| workflow_status := ws |>) ∧
  NoDup (fm_fork <$> all) ∧
  (∀ m, m ∈ all → workflow_status (current c) !! fm_fork m = None ∧
     ∃ r, t !! fm_orig m = Some r ∧
       workflow_status (current c') !! fm_fork m = Some (forked_row now app q part (fm_orig m) r)) ∧
  (∀ id, id ∉ fm_fork <$> all → workflow_status (current c') !! id = workflow_status (current c) !! id).
Proof.
  revert c. induction all as [|m all IH]; intros c.
  { intros [= <-]. split_and!; [done| |constructor|by intros ? ?%elem_of_nil|done].
    exists (workflow_status (current c)). by destruct c as [? []]. }
  cbn [for_each]. intros Hrun. apply bind_inv_Ok in Hrun as (c1 & [] & Hm & Hrun).
  destruct (t !! fm_orig m) as [r|] eqn:Hr; [|done].
  apply execute_res_Ok in Hm as (d1 & (Hfree & _ & ->)%insert_workflow_row_Ok & ->).
  destruct (IH _ Hrun) as (Hcom & (ws & Hws) & Hnd & Hin & Hout). simpl in *.
  assert (fm_fork m ∉ fm_fork <$> all) as Hnew.
  { intros (m' & Hmm & Hm')%list_elem_of_fmap. destruct (Hin m' Hm') as [Hnone _].
    by rewrite <- Hmm, lookup_insert_eq in Hnone. }
  split_and!; [done|by exists ws; rewrite Hws|by constructor| |].
  - intros m' [->|Hm']%elem_of_cons.
    + split; [done|]. exists r. split; [done|]. by rewrite (Hout _ Hnew), lookup_insert_eq.
    + destruct (Hin m' Hm') as [Hnone Hrow]. split; [|done].
      rewrite lookup_insert_ne in Hnone; [done|]. intros He. apply Hnew. rewrite He. by apply list_elem_of_fmap_2.
  - intros id. rewrite not_elem_of_cons. intros [Hne Hid]. by rewrite (Hout id Hid), lookup_insert_ne.
Qed.

Lemma for_each_check_originals (t : gmap string workflow_status_row) originals (c c' : conn) :
  for_each originals (λ wid, match t !! wid with
                             | None => raise (PyException ("Workflow " +:+ wid +:+ " not found"))
                             | Some _ => mret tt
                             end : txn unit) c = (c', Ok tt) →
  c' = c ∧ ∀ w, w ∈ originals → is_Some (t !! w).
Proof.
  revert c. induction originals as [|w l IH]; intros c; [intros [= <-]; split; [done|by intros ? ?%elem_of_nil]|].
  cbn [for_each]. intros Hrun. apply bind_inv_Ok in Hrun as (c2 & [] & Hw & Hrun).
  destruct (t !! w) as [r|] eqn:Hr; [|done]. injection Hw as <-. destruct (IH _ Hrun) as [-> Hl].
  split; [done|]. intros w' [->|Hw']%elem_of_cons; eauto.
Qed.

Lemma insert_all_or_Ok `{Countable K} {R} (l : list (K * R)) t t' :
  insert_all_or l t = Ok t' → sql_insert_all l t = Some t'.
Proof. unfold insert_all_or. destruct (sql_insert_all l t); [|done]. by intros [= ->]. Qed.

(** The statement that inserts the forks' rows. *)
Notation insert_forks now app q part t all :=
  (for_each all (λ m, match (t : gmap string workflow_status_row) !! fm_orig m with
                      | None => raise (KeyError (fm_orig m))
                      | Some status =>
                          execute_res (insert_workflow_row (fm_fork m) (forked_row now app q part (fm_orig m) status))
                      end)).

(** A fork that succeeded, statement by statement. *)
Lemma fork_workflow_parts now originals forks steps app q part repl d d' out :
  fork_workflow now originals forks steps app q part repl d = (d', Ok out) → originals ≠ [] →
  let all := zip3 originals forks steps in
  let mapping := filter (λ m, (1 < fm_start_step m)%Z) all in
  ∃ c2 t4 t5 t6 t7,
    (∀ w, w ∈ originals → is_Some (workflow_status d !! w)) ∧
    insert_forks now app q part (workflow_status d) all (Conn d d) = (c2, Ok tt) ∧
    let d3 := (current c2) <| workflow_status :=
      sql_update (λ id _, bool_decide (id ∈ originals)) (λ r, r <| ws_was_forked_from := true |>)
        (workflow_status (current c2)) |> in
    sql_insert_all (copied_operations repl mapping (operation_outputs d3)) (operation_outputs d3) = Some t4 ∧
    sql_insert_all (copied_history mapping (workflow_events_history d3)) (workflow_events_history d3) = Some t5 ∧
    sql_insert_all (latest_events mapping t5) (workflow_events d3) = Some t6 ∧
    sql_insert_all (copied_streams mapping (streams d3)) (streams d3) = Some t7 ∧
    d' = d3 <| operation_outputs := t4 |> <| workflow_events_history := t5 |> <| workflow_events := t6 |>
            <| streams := t7 |>.
Proof.
  intros Hrun Hne all mapping. unfold fork_workflow in Hrun.
  assert (∀ {A} (x y : A), match originals with [] => x | _ => y end = y) as Hmatch by (by destruct originals).
  rewrite Hmatch in Hrun. clear Hmatch. destruct (_ || _); [done|].
  apply engine_begin_Ok in Hrun as (c & Hrun & ->).
  apply bind_inv_Ok in Hrun as (c0 & t & Hq & Hrun). injection Hq as <- <-.
  apply bind_inv_Ok in Hrun as (c1 & [] & Hall & Hrun).
  apply for_each_check_originals in Hall as [-> Horig].
  apply bind_inv_Ok in Hrun as (c2 & [] & Hins & Hrun). fold all mapping in Hins, Hrun.
  apply bind_inv_Ok in Hrun as (c3 & n & Hup & Hrun). injection Hup as <- _.
  apply bind_inv_Ok in Hrun as (c4 & [] & Hop & Hrun).
  apply execute_res_Ok in Hop as (d4 & Hop & ->). unfold copy_checkpoints in Hop.
  destruct (insert_all_or _ _) as [t4|] eqn:H4 in Hop; [|done]. injection Hop as <-.
  apply bind_inv_Ok in Hrun as (c5 & [] & Hop & Hrun).
  apply execute_res_Ok in Hop as (d5 & Hop & ->). unfold copy_events_history in Hop.
  destruct (insert_all_or _ _) as [t5|] eqn:H5 in Hop; [|done]. injection Hop as <-.
  apply bind_inv_Ok in Hrun as (c6 & [] & Hop & Hrun).
  apply execute_res_Ok in Hop as (d6 & Hop & ->). unfold copy_latest_events in Hop.
  destruct (insert_all_or _ _) as [t6|] eqn:H6 in Hop; [|done]. injection Hop as <-.
  apply bind_inv_Ok in Hrun as (c7 & [] & Hop & Hrun).
  apply execute_res_Ok in Hop as (d7 & Hop & ->). unfold copy_streams in Hop.
  destruct (insert_all_or _ _) as [t7|] eqn:H7 in Hop; [|done]. injection Hop as <-.
  injection Hrun as <- _. apply insert_all_or_Ok in H4, H5, H6, H7. exists c2, t4, t5, t6, t7.
  split_and!; done.
Qed.

(** What a fork that succeeded leaves in each table. *)
Lemma fork_workflow_Ok now originals forks steps app q part repl d d' out :
  fork_workflow now originals forks steps app q part repl d = (d', Ok out) → originals ≠ [] →
  let all := zip3 originals forks steps in
  let mapping := filter (λ m, (1 < fm_start_step m)%Z) all in
  NoDup (fm_fork <$> all) ∧
  (∀ m, m ∈ all → workflow_status d !! fm_fork m = None ∧
     ∃ r, workflow_status d !! fm_orig m = Some r ∧
       workflow_status d' !! fm_fork m = Some (forked_row now app q part (fm_orig m) r)) ∧
  (∀ id, id ∉ fm_fork <$> all → workflow_status d' !! id =
     (λ r, if bool_decide (id ∈ originals) then r <| ws_was_forked_from := true |> else r) <$> workflow_status d !! id) ∧
  sql_insert_all (copied_operations repl mapping (operation_outputs d)) (operation_outputs d) = Some (operation_outputs d') ∧
  sql_insert_all (copied_history mapping (workflow_events_history d)) (workflow_events_history d)
    = Some (workflow_events_history d') ∧
  sql_insert_all (latest_events mapping (workflow_events_history d')) (workflow_events d) = Some (workflow_events d') ∧
  sql_insert_all (copied_streams mapping (streams d)) (streams d) = Some (streams d') ∧
  notifications d' = notifications d.
Proof.
  intros Hrun Hne all mapping.
  destruct (fork_workflow_parts _ _ _ _ _ _ _ _ _ _ _ Hrun Hne) as (c2 & t4 & t5 & t6 & t7 & Horig & Hins & H4 & H5 & H6 & H7 & ->).
  apply for_each_insert_forks in Hins as (_ & (ws & Hws) & Hnd & Hin & Hout). cbn [current] in *.
  rewrite Hws in *. cbn in H4, H5, H6, H7. split_and!; try done.
  - intros m Hm. destruct (Hin m Hm) as (Hnone & r & Hr & Hrow). split; [done|]. exists r. split; [done|].
    simpl. rewrite lookup_sql_update. simpl in Hrow. rewrite Hrow. simpl.
    rewrite bool_decide_eq_false_2; [done|]. intros [r' Hr']%Horig. congruence.
  - intros id Hid. simpl. rewrite lookup_sql_update. specialize (Hout id Hid). simpl in Hout. by rewrite Hout.
Qed.

Lemma elem_of_zip3 originals forks steps m :
  m ∈ zip3 originals forks steps → fm_orig m ∈ originals ∧ fm_fork m ∈ forks.
Proof.
  revert forks steps. induction originals as [|o originals IH]; intros [|f forks] [|s steps];
    try by intros ?%elem_of_nil.
  intros [->|Hm]%elem_of_cons; [split; left|]. destruct (IH _ _ Hm). split; by right.
Qed.

Lemma NoDup_forks_filter all :
  NoDup (fm_fork <$> all) → NoDup (fm_fork <$> filter (λ m, (1 < fm_start_step m)%Z) all).
Proof. intros Hnd. eapply sublist_NoDup; [exact Hnd|]. apply fmap_sublist, sublist_filter. Qed.

(** The rows of a table of the history after a fork. *)
Lemma forked_copy `{Countable K} {R} (wf : K → string) (fid : K → R → Z) (rekey : string → K → K)
    (change : R → R) all (t t' : gmap K R) (ws : gmap string workflow_status_row) m k :
  (∀ f k, wf (rekey f k) = f) → (∀ k, rekey (wf k) k = k) → (∀ f g k, rekey f (rekey g k) = rekey f k) →
  sql_insert_all (copied wf fid rekey change (filter (λ m, (1 < fm_start_step m)%Z) all) t) t = Some t' →
  NoDup (fm_fork <$> all) → (∀ m, m ∈ all → ws !! fm_fork m = None) →
  (∀ k r, t !! k = Some r → is_Some (ws !! wf k)) → m ∈ all → wf k = fm_fork m →
  t' !! k = r ← t !! rekey (fm_orig m) k;
            if bool_decide (1 < fm_start_step m ∧ fid (rekey (fm_orig m) k) r < fm_start_step m)%Z
            then Some (change r) else None.
Proof.
  intros Hwf Hself Htwice Hins Hnd Hfresh Hfk Hm Hk.
  assert (∀ m k r, m ∈ all → t !! k = Some r → wf k ≠ fm_fork m) as Hne.
  { intros m0 k0 r0 Hm0 Hr0 Hw0. apply Hfk in Hr0 as [w Hw]. rewrite Hw0, Hfresh in Hw; done. }
  destruct (copied_lookup wf fid rekey change _ t t' Hwf Hself Htwice Hins (NoDup_forks_filter _ Hnd)) as [Hin Hout].
  { intros m0 k0 r0 [_ Hm0]%list_elem_of_filter. by apply Hne. }
  destruct (decide (1 < fm_start_step m)%Z) as [Hlt|Hge].
  - rewrite (Hin m k); [|by apply list_elem_of_filter|done].
    destruct (t !! rekey (fm_orig m) k) as [r|]; simpl; [|done].
    by rewrite (bool_decide_ext (1 < _ ∧ _)%Z (fid (rekey (fm_orig m) k) r < fm_start_step m)%Z) by tauto.
  - rewrite Hout.
    + destruct (t !! k) as [r|] eqn:Hr; [by destruct (Hne m k r Hm Hr)|].
      destruct (t !! rekey (fm_orig m) k) as [r|]; simpl; [|done]. by rewrite bool_decide_eq_false_2 by tauto.
    + rewrite Hk. intros (m' & Hmm & [Hlt Hm']%list_elem_of_filter)%list_elem_of_fmap.
      by rewrite (NoDup_fmap_inj _ _ _ _ Hnd Hm Hm' Hmm) in Hge.
Qed.

(** *** The latest event of a partition *)

Lemma first_of_partition_spec {A P} `{EqDecision P} (part : A → P) seen (l : list A) x :
  x ∈ first_of_partition part seen l →
  part x ∉ seen ∧ ∃ l1 l2, l = l1 ++ x :: l2 ∧ ∀ y, y ∈ l1 → part y ≠ part x.
Proof.
  revert seen. induction l as [|z l IH]; intros seen; simpl; [by intros ?%elem_of_nil|].
  case_bool_decide as Hz.
  - intros Hx. destruct (IH seen Hx) as (Hs & l1 & l2 & -> & Hl1). split; [done|].
    exists (z :: l1), l2. split; [done|]. intros y [->|Hy]%elem_of_cons; [intros He; by rewrite He in Hz|by apply Hl1].
  - intros [->|Hx]%elem_of_cons; [split; [done|]; exists [], l; split; [done|by intros ? ?%elem_of_nil]|].
    destruct (IH _ Hx) as (Hs & l1 & l2 & -> & Hl1). rewrite not_elem_of_cons in Hs. split; [tauto|].
    exists (z :: l1), l2. split; [done|]. intros y [->|Hy]%elem_of_cons; [intros He; by destruct Hs|by apply Hl1].
Qed.

Lemma first_of_partition_complete {A P} `{EqDecision P} (part : A → P) seen (l : list A) x :
  x ∈ l → part x ∉ seen → ∃ y, y ∈ first_of_partition part seen l ∧ part y = part x.
Proof.
  revert seen. induction l as [|z l IH]; intros seen; simpl; [by intros ?%elem_of_nil|].
  intros [->|Hx]%elem_of_cons Hs.
  - rewrite bool_decide_eq_false_2 by done. exists z. split; [left|done].
  - case_bool_decide as Hz; [by apply IH|]. destruct (decide (part z = part x)) as [He|Hne].
    + exists z. split; [left|done].
    + destruct (IH (part z :: seen) Hx) as (y & Hy & Hp); [rewrite not_elem_of_cons; auto|].
      exists y. split; [by right|done].
Qed.

Lemma elem_of_joined_events mapping t e :
  e ∈ joined_events mapping t ↔
  ∃ m r, m ∈ mapping ∧ t !! (fm_orig m, je_key e, je_function_id e) = Some r ∧
    (je_function_id e < fm_start_step m)%Z ∧ je_orig e = fm_orig m ∧ je_fork e = fm_fork m ∧
    je_row e = {| we_value := weh_value r; we_serialization := weh_serialization r |}.
Proof.
  unfold joined_events. rewrite list_elem_of_bind. split.
  - intros (m & Hin & Hm). apply list_elem_of_fmap in Hin as ([[[o k] f] r] & -> & [Hk Hp]%elem_of_sql_select).
    apply andb_true_iff in Hp as [Ho%bool_decide_eq_true Hf%bool_decide_eq_true]. simpl in *. subst o. eauto 10.
  - intros (m & r & Hm & Hk & Hf & Ho & Hfk & Hr). exists m. split; [|done].
    apply list_elem_of_fmap. exists ((fm_orig m, je_key e, je_function_id e), r). split.
    + destruct e; simpl in *. by subst.
    + apply elem_of_sql_select. split; [done|]. simpl. by rewrite !bool_decide_eq_true_2.
Qed.

(** The row that numbers first is of a last function of its partition. *)
Lemma elem_of_latest_events mapping t e :
  e ∈ first_of_partition (λ e, (je_orig e, je_key e)) []
        (sql_order_by (λ e1 e2, bool_decide (je_function_id e2 ≤ je_function_id e1)%Z) (joined_events mapping t)) →
  e ∈ joined_events mapping t ∧
  ∀ e', e' ∈ joined_events mapping t → je_orig e' = je_orig e → je_key e' = je_key e →
        (je_function_id e' ≤ je_function_id e)%Z.
Proof.
  set (le := λ e1 e2, bool_decide (je_function_id e2 ≤ je_function_id e1)%Z).
  intros (_ & l1 & l2 & Hl & Hl1)%first_of_partition_spec.
  assert (e ∈ joined_events mapping t) as He.
  { apply (elem_of_sql_order_by le). rewrite Hl. apply elem_of_app. right. left. }
  split; [done|]. intros e' He' Ho Hk. apply (elem_of_sql_order_by le) in He'. rewrite Hl in He'.
  apply elem_of_app in He' as [He'|[->|He']%elem_of_cons]; [|lia|].
  - exfalso. apply (Hl1 _ He'). by rewrite Ho, Hk.
  - assert (StronglySorted (λ x y, Is_true (le x y)) (l1 ++ e :: l2)) as Hs.
    { rewrite <- Hl. apply sql_order_by_sorted; unfold le.
      - intros x y. rewrite !bool_decide_eq_true. lia.
      - intros x y z. rewrite !bool_decide_eq_true. lia. }
    apply StronglySorted_app in Hs as (_ & _ & Hs). inversion Hs as [|? ? _ Hall]; subst.
    rewrite Forall_forall in Hall. specialize (Hall e' He'). unfold le in Hall.
    by apply Is_true_true, bool_decide_eq_true in Hall.
Qed.

Lemma NoDup_first_of_partition {A P} `{EqDecision P} (part : A → P) seen (l : list A) :
  NoDup (part <$> first_of_partition part seen l).
Proof.
  revert seen. induction l as [|z l IH]; intros seen; simpl; [constructor|].
  case_bool_decide; [done|]. rewrite fmap_cons, NoDup_cons. split; [|done].
  intros (x & Hx & Hin)%list_elem_of_fmap. apply first_of_partition_spec in Hin as [Hs _].
  apply Hs. rewrite <- Hx. left.
Qed.

(** The events of a fork come from the numbering of the copied history. *)
Lemma fork_event_row now originals forks steps app q part repl d d' out m key e :
  fk_valid d → originals ≠ [] →
  fork_workflow now originals forks steps app q part repl d = (d', Ok out) →
  m ∈ zip3 originals forks steps →
  workflow_events d' !! (fm_fork m, key) = Some e ↔
  ∃ j, j ∈ first_of_partition (λ e, (je_orig e, je_key e)) []
         (sql_order_by (λ e1 e2, bool_decide (je_function_id e2 ≤ je_function_id e1)%Z)
            (joined_events (filter (λ m, (1 < fm_start_step m)%Z) (zip3 originals forks steps))
               (workflow_events_history d'))) ∧
       je_fork j = fm_fork m ∧ je_key j = key ∧ je_row j = e.
Proof.
  intros [_ _ F3 _ _] Hne Hrun Hm. apply fork_workflow_Ok in Hrun as (_ & Hin & _ & _ & _ & Hev & _ & _); [|done].
  apply sql_insert_all_Some in Hev as (Hnd & Hrow & Hout & _). split.
  - intros He. destruct (decide ((fm_fork m, key) ∈ (latest_events
        (filter (λ m, (1 < fm_start_step m)%Z) (zip3 originals forks steps)) (workflow_events_history d')).*1)) as [Hk|Hk].
    + apply list_elem_of_fmap in Hk as ([k r] & Hk & Hkr). simpl in Hk. subst k.
      destruct (Hrow _ _ Hkr) as [_ Hr]. rewrite He in Hr. simplify_eq.
      apply list_elem_of_fmap in Hkr as (j & [= -> -> ->] & Hj). by exists j.
    + rewrite (Hout _ Hk) in He. apply F3 in He as [w Hw]. destruct (Hin m Hm) as [Hnone _]. simpl in Hw. congruence.
  - intros (j & Hj & Hf & Hk & <-). apply Hrow. apply list_elem_of_fmap. exists j. by rewrite Hf, Hk.
Qed.

(** The walk that [send] makes to reach the forks of its destinations ends, and finds
    for each destination exactly the workflows forked from it, directly or not, the
    destination itself excepted; cycles do not keep it running. *)
Lemma find_fork_descendants_spec d ids :
  ∃ m, find_fork_descendants d ids = Some m ∧
    ∀ root, root ∈ ids → ∃ l, m !! root = Some l ∧
      ∀ y, y ∈ l ↔ y ≠ root ∧ tc (fork_of d) root y.
Proof.
  destruct (fork_edges_spec d ids) as (edges & He & Hedges).
  assert (∃ ls, mapM (descendants_of edges) ids = Some ls ∧
            Forall2 (λ root l, descendants_of edges root = Some l) ids ls) as (ls & Hls & Hall).
  { destruct (mapM_is_Some_2 (descendants_of edges) ids) as [ls Hls].
    - apply Forall_forall. intros root _. destruct (descendants_of_spec edges root) as (l & Hl & _). by exists l.
    - exists ls. split; [done|]. by apply mapM_Some. }
  exists (list_to_map (zip ids ls)). unfold find_fork_descendants. rewrite He. simpl. rewrite Hls.
  split; [done|]. intros root Hroot. destruct (descendants_of_spec edges root) as (l & Hl & Hspec).
  exists l. split.
  - apply list_elem_of_lookup_1 in Hroot as [i Hi]. apply elem_of_list_to_map_1'.
    + intros y Hy. apply elem_of_lookup_zip_with in Hy as (j & x1 & x2 & [= <- <-] & Hx1 & Hx2).
      destruct (Forall2_lookup_l _ _ _ _ _ Hall Hx1) as (l' & Hl' & Hd). congruence.
    + destruct (Forall2_lookup_l _ _ _ _ _ Hall Hi) as (l' & Hl' & Hd).
      apply list_elem_of_lookup_2 with i. rewrite lookup_zip_with, Hi. simpl. rewrite Hl'. simpl. congruence.
  - intros y. rewrite Hspec. split; (intros [Hne Hy]; split; [done|]).
    + clear -Hy Hedges. induction Hy as [x y Hxy|x y z Hxy _ IH]; [constructor|eapply tc_l; [|done]]; by apply Hedges.
    + assert (∀ x, rtc (fork_of d) root x → tc (fork_of d) x y → tc (λ x y, (x, y) ∈ edges) x y) as Htc.
      { intros x Hx Hxy. induction Hxy as [x y Hxy|x z y Hxz _ IH].
        - constructor. apply Hedges. eauto.
        - eapply tc_l; [apply Hedges; eauto|]. apply IH; [done..|]. by eapply rtc_r. }
      by apply Htc.
Qed.

(** ** Properties *)

(** C27: a fork starts from exactly the history of its original before the start step: the
    new workflow is enqueued under the original's function and inputs, its checkpoints,
    event history and stream entries are those of the original's functions before that
    step (none when it starts at step 1), with the children replaced as asked, and the
    original's own are untouched. *)
Theorem fork_workflow_copies now originals forks steps app q part repl d d' out m :
  fk_valid d → originals ≠ [] →
  fork_workflow now originals forks steps app q part repl d = (d', Ok out) →
  m ∈ zip3 originals forks steps →
  let before (fid : Z) := bool_decide (1 < fm_start_step m ∧ fid < fm_start_step m)%Z in
  (∃ r, workflow_status d !! fm_orig m = Some r ∧
     workflow_status d' !! fm_fork m = Some (forked_row now app q part (fm_orig m) r)) ∧
  (∀ fid, operation_outputs d' !! (fm_fork m, fid) =
     r ← operation_outputs d !! (fm_orig m, fid);
     if before fid then Some (r <| oo_child_workflow_id := replace_child repl (oo_child_workflow_id r) |>) else None) ∧
  (∀ key fid, workflow_events_history d' !! (fm_fork m, key, fid) =
     r ← workflow_events_history d !! (fm_orig m, key, fid); if before fid then Some r else None) ∧
  (∀ key off, streams d' !! (fm_fork m, key, off) =
     r ← streams d !! (fm_orig m, key, off); if before (st_function_id r) then Some r else None) ∧
  (∀ fid, operation_outputs d' !! (fm_orig m, fid) = operation_outputs d !! (fm_orig m, fid)).
Proof.
  intros [F1 F2 F3 F4 F5] Hne Hrun Hm before.
  apply fork_workflow_Ok in Hrun as (Hnd & Hin & Hout & Hoo & Hweh & _ & Hst & _); [|done].
  assert (∀ m, m ∈ zip3 originals forks steps → workflow_status d !! fm_fork m = None) as Hfresh
    by (intros m' Hm'; by apply Hin).
  split_and!.
  - destruct (Hin m Hm) as (_ & r & Hr & Hrow). eauto.
  - intros fid. eapply (forked_copy (λ k, k.1) (λ k _, k.2) (λ f k, (f, k.2)) _ _ _ _
      (workflow_status d) m (fm_fork m, fid)); [done|by intros []|done|exact Hoo|done..].
  - intros key fid. eapply (forked_copy (λ k, k.1.1) (λ k _, k.2) (λ f k, (f, k.1.2, k.2)) id _ _ _
      (workflow_status d) m (fm_fork m, key, fid)); [done|by intros [[]]|done|exact Hweh|done..].
  - intros key off. eapply (forked_copy (λ k, k.1.1) (λ _ r, st_function_id r) (λ f k, (f, k.1.2, k.2)) id _ _ _
      (workflow_status d) m (fm_fork m, key, off)); [done|by intros [[]]|done|exact Hst|done..].
  - intros fid. destruct (Hin m Hm) as (_ & r & Hr & _).
    apply sql_insert_all_Some in Hoo as (_ & _ & Hkeep & _). apply Hkeep.
    intros ([k' r'] & He & Hc)%list_elem_of_fmap. simpl in He. subst k'.
    apply elem_of_copied in Hc as (m' & k & r0 & [_ Hm']%list_elem_of_filter & _ & _ & _ & He & _).
    injection He as He _. by rewrite He, Hfresh in Hr.
Qed.

(** The events of a fork: provided no original is forked twice in the batch, each key
    has the value its original had set last before the start step, and a key that was not
    set by then has none. *)
Lemma fork_workflow_latest_events now originals forks steps app q part repl d d' out m key :
  fk_valid d → originals ≠ [] → NoDup (fm_orig <$> zip3 originals forks steps) →
  fork_workflow now originals forks steps app q part repl d = (d', Ok out) →
  m ∈ zip3 originals forks steps →
  let before (fid : Z) := (1 < fm_start_step m ∧ fid < fm_start_step m)%Z in
  match workflow_events d' !! (fm_fork m, key) with
  | Some e => ∃ fid r, workflow_events_history d !! (fm_orig m, key, fid) = Some r ∧ before fid ∧
      e = {| we_value := weh_value r; we_serialization := weh_serialization r |} ∧
      ∀ fid' r', workflow_events_history d !! (fm_orig m, key, fid') = Some r' → before fid' → (fid' ≤ fid)%Z
  | None => ∀ fid r, workflow_events_history d !! (fm_orig m, key, fid) = Some r → ¬ before fid
  end.
Proof.
  intros Hfk Hne Hndo Hrun Hm before.
  pose proof (λ e, fork_event_row now originals forks steps app q part repl d d' out m key e Hfk Hne Hrun Hm) as Hrow.
  apply fork_workflow_Ok in Hrun as (Hnd & Hin & _ & _ & Hweh & _); [|done].
  assert (∀ o k f, is_Some (workflow_status d !! o) →
            workflow_events_history d' !! (o, k, f) = workflow_events_history d !! (o, k, f)) as Hsame.
  { intros o k f [w Hw]. apply sql_insert_all_Some in Hweh as (_ & _ & Hkeep & _). apply Hkeep.
    intros ([k' r'] & He & Hc)%list_elem_of_fmap. simpl in He. subst k'.
    apply elem_of_copied in Hc as (m' & k0 & r0 & [_ Hm']%list_elem_of_filter & _ & _ & _ & He & _).
    injection He as He _ _. destruct (Hin m' Hm') as [Hnone _]. congruence. }
  set (mapping := filter (λ m, (1 < fm_start_step m)%Z) (zip3 originals forks steps)) in *.
  assert (∀ fid r, workflow_events_history d !! (fm_orig m, key, fid) = Some r → before fid →
     JoinedEvent (fm_orig m) (fm_fork m) key fid {| we_value := weh_value r; we_serialization := weh_serialization r |}
       ∈ joined_events mapping (workflow_events_history d')) as Hjoin.
  { intros fid r Hr [Hlt Hf]. apply elem_of_joined_events. exists m, r. simpl. destruct (Hin m Hm) as (_ & w & Hw & _).
    split_and!; try done; [by apply list_elem_of_filter|]. by rewrite Hsame by eauto. }
  assert (∀ j, j ∈ joined_events mapping (workflow_events_history d') →
            je_fork j = fm_fork m ∨ je_orig j = fm_orig m → je_key j = key →
            ∃ r, workflow_events_history d !! (fm_orig m, key, je_function_id j) = Some r ∧ before (je_function_id j) ∧
              je_fork j = fm_fork m ∧ je_orig j = fm_orig m ∧
              je_row j = {| we_value := weh_value r; we_serialization := weh_serialization r |}) as Hback.
  { intros j (m' & r & [Hlt Hm']%list_elem_of_filter & Hr & Hf & Ho & Hfk' & Hrw)%elem_of_joined_events Hj Hk.
    assert (m' = m) as ->.
    { destruct Hj as [Hj|Hj]; [apply (NoDup_fmap_inj _ _ _ _ Hnd Hm' Hm)|apply (NoDup_fmap_inj _ _ _ _ Hndo Hm' Hm)];
        congruence. }
    destruct (Hin m Hm) as (_ & w & Hw & _). rewrite Hsame, Hk in Hr by eauto. exists r. done. }
  destruct (workflow_events d' !! (fm_fork m, key)) as [e|] eqn:He.
  - destruct (proj1 (Hrow e) eq_refl) as (j & Hj & Hf & Hk & <-). apply elem_of_latest_events in Hj as [Hj Hmax].
    destruct (Hback j Hj (or_introl Hf) Hk) as (r & Hr & Hb & _ & Ho & ->). exists (je_function_id j), r.
    split_and!; try done. intros fid' r' Hr' Hb'. apply (Hmax _ (Hjoin fid' r' Hr' Hb')); simpl; congruence.
  - intros fid r Hr Hb. pose proof (Hjoin fid r Hr Hb) as Hj.
    apply (elem_of_sql_order_by (λ e1 e2, bool_decide (je_function_id e2 ≤ je_function_id e1)%Z)) in Hj.
    destruct (first_of_partition_complete (λ e, (je_orig e, je_key e)) [] _ _ Hj) as (y & Hy & Hp);
      [by apply not_elem_of_nil|]. simpl in Hp. injection Hp as Ho Hk.
    destruct (elem_of_latest_events _ _ _ Hy) as [Hyj _].
    destruct (Hback y Hyj (or_intror Ho) Hk) as (r' & _ & _ & Hf & _ & _).
    assert (None = Some (je_row y)) as Hs by (apply Hrow; eauto). done.
Qed.

(** But the numbering that picks the last value of an event is by the original, not by
    the fork: when an original is forked twice in one batch, at most one of the two forks
    gets each of its events, and the other starts without it. *)
Lemma fork_twice_loses_events now originals forks steps app q part repl d d' out m1 m2 key :
  fk_valid d → originals ≠ [] →
  fork_workflow now originals forks steps app q part repl d = (d', Ok out) →
  m1 ∈ zip3 originals forks steps → m2 ∈ zip3 originals forks steps →
  fm_orig m1 = fm_orig m2 → fm_fork m1 ≠ fm_fork m2 →
  workflow_events d' !! (fm_fork m1, key) = None ∨ workflow_events d' !! (fm_fork m2, key) = None.
Proof.
  intros Hfk Hne Hrun Hm1 Hm2 Ho Hf.
  destruct (workflow_events d' !! (fm_fork m1, key)) as [e1|] eqn:He1; [|by left].
  destruct (workflow_events d' !! (fm_fork m2, key)) as [e2|] eqn:He2; [|by right]. exfalso.
  pose proof (fork_event_row _ _ _ _ _ _ _ _ _ _ _ m1 key e1 Hfk Hne Hrun Hm1) as [H1 _].
  pose proof (fork_event_row _ _ _ _ _ _ _ _ _ _ _ m2 key e2 Hfk Hne Hrun Hm2) as [H2 _].
  destruct (H1 He1) as (j1 & Hj1 & Hf1 & Hk1 & _). destruct (H2 He2) as (j2 & Hj2 & Hf2 & Hk2 & _).
  apply fork_workflow_Ok in Hrun as (Hnd & _); [|done].
  assert (∀ j m, j ∈ joined_events (filter (λ m, (1 < fm_start_step m)%Z) (zip3 originals forks steps))
            (workflow_events_history d') → m ∈ zip3 originals forks steps → je_fork j = fm_fork m →
          je_orig j = fm_orig m) as Horig.
  { intros j m (m' & r & [_ Hm']%list_elem_of_filter & _ & _ & Hjo & Hjf & _)%elem_of_joined_events Hm Hjm.
    rewrite Hjo. f_equal. apply (NoDup_fmap_inj _ _ _ _ Hnd Hm' Hm). congruence. }
  destruct (elem_of_latest_events _ _ _ Hj1) as [Hi1 _]. destruct (elem_of_latest_events _ _ _ Hj2) as [Hi2 _].
  assert (j1 = j2) as ->; [|congruence].
  eapply (NoDup_fmap_inj _ _ _ _ (NoDup_first_of_partition _ _ _) Hj1 Hj2).
  by rewrite (Horig j1 m1 Hi1 Hm1 Hf1), (Horig j2 m2 Hi2 Hm2 Hf2), Ho, Hk1, Hk2.
Qed.

(** ** Witnesses *)

Lemma sample_forkable_fk : fk_valid sample_forkable.
Proof.
  split; intros k r; simpl; try (by rewrite lookup_empty); intros [<- _]%lookup_singleton_Some; eexists; reflexivity.
Qed.

Lemma fork_workflow_copies_witness :
  let r := fork_workflow 9 ["w"] ["f"] [2%Z] None None None [] sample_forkable in
  r.2 = Ok ["f"] ∧ operation_outputs r.1 !! ("f", 1%Z) = Some (child_row "w-1" "child").
Proof.
  intros r. assert (r.2 = Ok ["f"]) as Hr by reflexivity. split; [exact Hr|].
  destruct (fork_workflow_copies 9 ["w"] ["f"] [2%Z] None None None [] sample_forkable r.1 ["f"]
    (ForkMapping "w" "f" 2) sample_forkable_fk ltac:(discriminate) (snd_Ok_pair r _ Hr) ltac:(left)) as (_ & H & _).
  exact (H 1%Z).
Defined.

Lemma fork_workflow_latest_events_witness :
  let r := fork_workflow 9 ["w"] ["f"] [2%Z] None None None [] sample_forkable in
  r.2 = Ok ["f"] ∧ match workflow_events r.1 !! ("f", "k") with Some e => we_value e = "v" | None => False end.
Proof.
  intros r. assert (r.2 = Ok ["f"]) as Hr by reflexivity. split; [exact Hr|].
  pose proof (fork_workflow_latest_events 9 ["w"] ["f"] [2%Z] None None None [] sample_forkable r.1 ["f"]
    (ForkMapping "w" "f" 2) "k" sample_forkable_fk ltac:(discriminate)
    ltac:(by apply NoDup_singleton) (snd_Ok_pair r _ Hr) ltac:(left)) as H. cbv zeta in H.
  cbn [fm_fork fm_orig fm_start_step] in H. revert H. generalize (workflow_events r.1 !! ("f", "k")). clear.
  intros [e|] H.
  - destruct H as (fid & w & Hw & _ & -> & _). simpl in Hw. apply lookup_singleton_Some in Hw as [_ <-]. reflexivity.
  - apply (H 1%Z {| weh_value := "v"; weh_serialization := None |}); [reflexivity|]. simpl. lia.
Defined.

Lemma fork_twice_loses_events_witness :
  let r := fork_workflow 9 ["w"; "w"] ["f"; "g"] [2%Z; 2%Z] None None None [] sample_forkable in
  r.2 = Ok ["f"; "g"] ∧ (workflow_events r.1 !! ("f", "k") = None ∨ workflow_events r.1 !! ("g", "k") = None).
Proof.
  intros r. assert (r.2 = Ok ["f"; "g"]) as Hr by reflexivity. split; [exact Hr|].
  refine (fork_twice_loses_events 9 ["w"; "w"] ["f"; "g"] [2%Z; 2%Z] None None None [] sample_forkable r.1 ["f"; "g"]
    (ForkMapping "w" "f" 2) (ForkMapping "w" "g" 2) "k" sample_forkable_fk _ (snd_Ok_pair r _ Hr) _ _ eq_refl _);
    [discriminate|left|right; left|discriminate].
Defined.
