(* ===== verification/Messages.v ===== *)
(** * Messages: [send] and [recv] of [dbos/_sys_db.py]

    [send_bulk_txn] inserts the messages, [recv_setup], the wait and [recv_consume] receive
    one. Generated message IDs are arguments ([uuids i] is the [i]th [generate_uuid] of the
    call), as are the times of the process's clock; [created] is the database's. *)
From S2P Require Import Prelude Errors Schema Retry Serialization Workflows Context Steps Events Forks.

Definition dbos_null_topic : string := "__null__topic__".

(** [class SendMessage] *)
Record SendMessage := {
  sm_destination_id : string;
  sm_message : pyval;
  sm_topic : option string;
  sm_idempotency_key : option string;
}.

(** [f"{idempotency_key}::{dest}"] *)
Definition message_key (key dest : string) : string := key +:+ "::" +:+ dest.

(** A row to insert: its [message_uuid] and its other columns. *)
Definition message_row (created : Z) (dest serval serialization : string) (m : SendMessage) : notifications_row := {|
  no_destination_uuid := dest;
  no_topic := Some (default dbos_null_topic (sm_topic m));
  no_message := serval;
  no_created_at_epoch_ms := created;
  no_serialization := Some serialization;
  no_consumed := false;
|}.

(** [INSERT INTO notifications ... ON CONFLICT (message_uuid) DO NOTHING], a row of it. *)
Definition insert_notification_nothing (kr : string * notifications_row) (d : db) : res pyexn (db * unit) :=
  match notifications d !! kr.1 with
  | Some _ => Ok (d, tt)
  | None =>
      if workflow_exists d (no_destination_uuid kr.2)
      then Ok (d <| notifications := <[kr.1 := kr.2]> (notifications d) |>, tt)
      else Err ForeignKeyViolation
  end.

(** The statement: it inserts all its rows or fails. *)
Fixpoint insert_notifications (rows : list (string * notifications_row)) (d : db) : res pyexn (db * unit) :=
  match rows with
  | [] => Ok (d, tt)
  | kr :: rows' =>
      match insert_notification_nothing kr d with
      | Ok (d', _) => insert_notifications rows' d'
      | Err e => Err e
      end
  end.

(** The keys given, the empty ones left out, as [if m.idempotency_key] leaves them out. *)
Definition provided_keys (messages : list SendMessage) : list string :=
  omap (λ m, match sm_idempotency_key m with
             | Some k => if bool_decide (k = "") then None else Some k
             | None => None
             end) messages.

Section send.
Context (executor_id : option string) `{Codecs} (serializer : Serializer).

(** [prepared]: each message with its serialized value and the serialization's name. *)
Definition prepare (serialization_type : option WorkflowSerializationFormat) (messages : list SendMessage) :
    res pyexn (list (SendMessage * (string * string))) :=
  res_map (λ m, match serialize_value (sm_message m) serialization_type serializer with
                | Ok r => Ok (m, r)
                | Err e => Err e
                end) messages.

(** The destination, and with [send_to_forks] its forks, sorted. *)
Definition message_destinations (forks : option (gmap string (list string))) (dest : string) : list string :=
  dest :: match forks with
          | Some f => sql_order_by String.leb (remove_dups (default [] (f !! dest)))
          | None => []
          end.

(** The [message_uuid] of the [n]th row. *)
Definition message_uuid (uuids : nat → string) (n : nat) (m : SendMessage) (dest : string) : string :=
  match sm_idempotency_key m with
  | None => uuids n
  | Some key => message_key key dest
  end.

Definition message_rows (created : Z) (uuids : nat → string) (forks : option (gmap string (list string)))
    (prepared : list (SendMessage * (string * string))) : list (string * notifications_row) :=
  imap (λ n p, let '(m, serval, serialization, dest) := p in
               (message_uuid uuids n m dest, message_row created dest serval serialization m))
    (prepared ≫= λ p, (λ dest, (p.1, p.2.1, p.2.2, dest)) <$> message_destinations forks (sm_destination_id p.1)).

Definition duplicate_keys_error (keys : list string) : pyexn :=
  DBOSException ("send_bulk received duplicate idempotency keys: " +:+
    String.concat ", " (sql_order_by String.leb
      (remove_dups (filter (λ k, 1 < length (filter (λ k', k' = k) keys)) keys)))).

(** [_send_bulk_txn]; [workflow] is the pair of [workflow_id] and [function_id]. *)
Definition send_bulk_txn (created : Z) (uuids : nat → string) (start_time completed_ms : Z)
    (messages : list SendMessage) (serialization_type : option WorkflowSerializationFormat)
    (workflow : option (string * Z)) (function_name : string) (send_to_forks : bool) : txn unit :=
  if negb (bool_decide (NoDup (provided_keys messages))) then raise (duplicate_keys_error (provided_keys messages))
  else
    prepared ← lift_res (prepare serialization_type messages);
    recorded_output ←
      match workflow with
      | Some (wid, fid) => check_operation_execution_txn wid fid function_name
      | None => mret None
      end;
    match recorded_output with
    | Some _ => mret tt
    | None =>
        forks ← query (λ d, if send_to_forks then find_fork_descendants d (sm_destination_id ∘ fst <$> prepared) else None);
        _ ← try_except
              (execute_res (insert_notifications (message_rows created uuids forks prepared)))
              (λ e, match e with
                    | ForeignKeyViolation => Some (raise (DBOSNonExistentWorkflowError "`send` destination"
                        (String.concat ", " (sql_order_by String.leb (remove_dups (sm_destination_id <$> messages))))))
                    | _ => None
                    end);
        match workflow with
        | Some (wid, fid) =>
            record_operation_result_txn executor_id {|
              or_workflow_uuid := wid; or_function_id := fid; or_function_name := function_name;
              or_output := None; or_error := None; or_serialization := None;
              or_started_at_epoch_ms := start_time |} completed_ms
        | None => mret tt
        end
    end.

Definition send_bulk (created : Z) (uuids : nat → string) (start_time completed_ms : Z)
    (messages : list SendMessage) (serialization_type : option WorkflowSerializationFormat)
    (workflow : option (string * Z)) (function_name : string) (send_to_forks : bool) : dbM unit :=
  engine_begin (send_bulk_txn created uuids start_time completed_ms messages serialization_type workflow
                  function_name send_to_forks).

Definition send_bulk_with_connection (created : Z) (uuids : nat → string) (start_time completed_ms : Z)
    (messages : list SendMessage) (serialization_type : option WorkflowSerializationFormat)
    (function_name : string) (send_to_forks : bool) : txn unit :=
  send_bulk_txn created uuids start_time completed_ms messages serialization_type None function_name send_to_forks.

(** ** [recv] *)

(** An unconsumed message of the destination and topic. *)
Definition deliverable (workflow_uuid topic : string) (r : notifications_row) : bool :=
  bool_decide (no_destination_uuid r = workflow_uuid) && sql_eq (no_topic r) topic && negb (no_consumed r).

(** [SELECT message_uuid ... ORDER BY created_at_epoch_ms ASC LIMIT 1] *)
Definition oldest_message (workflow_uuid topic : string) (d : db) : option (string * notifications_row) :=
  head (sql_order_by (λ a b, bool_decide (no_created_at_epoch_ms a.2 ≤ no_created_at_epoch_ms b.2)%Z)
          (sql_select (λ _, deliverable workflow_uuid topic) (notifications d))).

(** [UPDATE notifications SET consumed WHERE message_uuid = (...) RETURNING message] *)
Definition consume_oldest (workflow_uuid topic : string) : txn (option notifications_row) := λ c,
  let d := current c in
  match oldest_message workflow_uuid topic d with
  | Some (id, r) =>
      (Conn (committed c) (d <| notifications := <[id := r <| no_consumed := true |>]> (notifications d) |>), Ok (Some r))
  | None => (c, Ok None)
  end.

Definition recv_consume (completed_ms : Z) (workflow_uuid : string) (function_id : Z) (topic : option string)
    (start_time : Z) : dbM pyval :=
  let topic := default dbos_null_topic topic in
  engine_begin (
    recorded ← query (λ d, operation_outputs d !! (workflow_uuid, function_id));
    match recorded with
    | Some r => lift_res (deserialize_value (oo_output r) (oo_serialization r) serializer)
    | None =>
        row ← consume_oldest workflow_uuid topic;
        '(message, serialization) ←
          match row with
          | Some r => v ← lift_res (deserialize_value (Some (no_message r)) (no_serialization r) serializer);
                      mret (v, no_serialization r)
          | None => mret (PNone, None)
          end;
        '(sermsg, serialization) ← lift_res (serialize_value_as message serialization serializer);
        _ ← record_operation_result_txn executor_id {|
              or_workflow_uuid := workflow_uuid; or_function_id := function_id; or_function_name := "DBOS.recv";
              or_output := Some sermsg; or_error := None; or_serialization := Some serialization;
              or_started_at_epoch_ms := start_time |} completed_ms;
        mret message
    end).

Definition recv_check (workflow_uuid : string) (topic : option string) (event : nat) : SM proc pyexn unit := λ p,
  if notification_pending (pr_db p) workflow_uuid (default dbos_null_topic topic) then event_set event p
  else (p, Ok tt).

(** The two results of a setup phase. *)
Inductive EventSetupResult :=
| SetupDone (v : pyval)
| SetupWait (event : nat) (actual_timeout : Z) (payload : string) (start_time : Z).

Definition listener_payload (uuid key : string) : string := uuid +:+ "::" +:+ key.

(** [try: m except: cleanup; raise] *)
Definition cleanup_on_error {S A} (m : SM S pyexn A) (cleanup : S → S) : SM S pyexn A := λ s,
  match m s with
  | (s', Ok a) => (s', Ok a)
  | (s', Err e) => (cleanup s', Err e)
  end.

Definition pop_notification (payload : string) (p : proc) : proc :=
  p <| pr_notifications_map := dict_pop payload (pr_notifications_map p) |>.

(** [self.notifications_map.set(...)] *)
Definition set_notification (payload : string) (event : nat) (components : string * string) :
    SM proc pyexn (bool * nat) := λ p,
  let '(m, r) := dict_set payload event components (pr_notifications_map p) in
  (p <| pr_notifications_map := m |>, Ok r).

Definition recv_setup (start_time time_ms sleep_start sleep_completed time_ms' : Z) (workflow_uuid : string)
    (function_id timeout_function_id : Z) (topic : option string) (timeout_ms : Z) :
    SM proc pyexn EventSetupResult :=
  let topic := default dbos_null_topic topic in
  recorded_output ← on_db (check_operation_execution workflow_uuid function_id "DBOS.recv");
  match recorded_output with
  | Some recorded =>
      match rr_output recorded with
      | Some output =>
          v ← lift_res (deserialize_value (Some output) (rr_serialization recorded) serializer);
          mret (SetupDone v)
      | None => raise (PyException "No output recorded in the last recv")
      end
  | None =>
      let payload := listener_payload workflow_uuid topic in
      event ← new_event;
      '(success, _) ← set_notification payload event (workflow_uuid, topic);
      if negb success then
        _ ← modify (pop_notification payload);
        raise (DBOSWorkflowConflictIDError workflow_uuid)
      else
        cleanup_on_error
          (_ ← recv_check workflow_uuid (Some topic) event;
           actual_timeout ← on_db (record_sleep executor_id serializer sleep_start time_ms sleep_completed time_ms'
                                     workflow_uuid timeout_function_id timeout_ms);
           mret (SetupWait event actual_timeout payload start_time))
          (pop_notification payload)
  end.

(** [recv], the time its wait starts and what the others do meanwhile given; the [finally]
    pops the registration on every way out. [None] when the wait outlives the fuel. *)
Definition recv (fuel : nat) (env : nat → proc → proc) (interval : Z)
    (start_time time_ms sleep_start sleep_completed time_ms' wait_start completed_ms : Z)
    (workflow_uuid : string) (function_id timeout_function_id : Z) (topic : option string) (timeout_ms : Z)
    (p : proc) : option (proc * res pyexn pyval) :=
  match recv_setup start_time time_ms sleep_start sleep_completed time_ms' workflow_uuid function_id
          timeout_function_id topic timeout_ms p with
  | (p', Err e) => Some (p', Err e)
  | (p', Ok (SetupDone v)) => Some (p', Ok v)
  | (p', Ok (SetupWait event actual_timeout payload start_time)) =>
      p'' ← wait_loop fuel env (recv_check workflow_uuid topic event) interval event 0 wait_start
              (wait_start + actual_timeout) p';
      let '(q, r) := on_db (recv_consume completed_ms workflow_uuid function_id topic start_time) p'' in
      Some (pop_notification payload q, r)
  end.

(** [class NotificationInfo] *)
Record NotificationInfo := {
  ni_topic : option string; ni_message : pyval; ni_created_at_epoch_ms : Z; ni_consumed : bool }.

Definition get_all_notifications (d : db) (workflow_id : string) : res pyexn (list NotificationInfo) :=
  res_map (λ r,
    match deserialize_value (Some (no_message r)) (no_serialization r) serializer with
    | Ok v => Ok {| ni_topic := if bool_decide (no_topic r = Some dbos_null_topic) then None else no_topic r;
                    ni_message := v; ni_created_at_epoch_ms := no_created_at_epoch_ms r;
                    ni_consumed := no_consumed r |}
    | Err e => Err e
    end)
    (sql_order_by (λ a b, bool_decide (no_created_at_epoch_ms a ≤ no_created_at_epoch_ms b)%Z)
       (sql_select (λ _ r, bool_decide (no_destination_uuid r = workflow_id)) (notifications d)).*2).

End send.

(** The registrations under [key] are the same. *)
Definition same_waiters (key : string) : relation proc := λ p p',
  pr_notifications_map p' !! key = pr_notifications_map p !! key.

(** ** Sample data *)

Definition sample_message (key : option string) (dest v : string) : SendMessage := {|
  sm_destination_id := dest; sm_message := PStr v; sm_topic := None; sm_idempotency_key := key |}.
Definition sample_pair : db := sample_db [("w", sample_row "w" PENDING); ("v", sample_row "v" PENDING)].
Definition sample_sent (key : option string) : dbM unit :=
  @send_bulk None sample_codecs sample_serializer 1 (λ _, "u") 2 3 [sample_message key "w" "hi"] None None "DBOS.send" false.

Definition sample_proc (d : db) : proc := Proc d ∅ ∅ ∅ ∅ 0.

(** ** Lemmas *)

Lemma on_db_eq {A} (m : dbM A) p : on_db m p = (p <| pr_db := (m (pr_db p)).1 |>, (m (pr_db p)).2).
Proof. unfold on_db, zoom. by destruct (m (pr_db p)). Qed.

Lemma oldest_message_spec wid topic d :
  match oldest_message wid topic d with
  | Some (id, r) =>
      notifications d !! id = Some r ∧ deliverable wid topic r = true ∧
      ∀ id' r', notifications d !! id' = Some r' → deliverable wid topic r' = true →
                (no_created_at_epoch_ms r ≤ no_created_at_epoch_ms r')%Z
  | None => ∀ id' r', notifications d !! id' = Some r' → deliverable wid topic r' = false
  end.
Proof.
  unfold oldest_message.
  set (le := λ a b : string * notifications_row, bool_decide (no_created_at_epoch_ms a.2 ≤ no_created_at_epoch_ms b.2)%Z).
  set (sel := sql_select (λ _, deliverable wid topic) (notifications d)).
  destruct (sql_order_by le sel) as [|[id r] l] eqn:Hl; cbn [head].
  - assert (sel = []) as Hnil.
    { apply Permutation_nil_r. rewrite <- Hl. symmetry. apply sql_order_by_Permutation. }
    intros id' r' Hr'. by apply (proj1 (sql_select_nil _ _) Hnil id').
  - assert ((id, r) ∈ sel) as [Hr Hd]%elem_of_sql_select by (apply (elem_of_sql_order_by le); rewrite Hl; left).
    split; [done|]. split; [done|]. intros id' r' Hr' Hd'.
    assert ((id', r') ∈ (id, r) :: l) as Hin.
    { rewrite <- Hl. apply elem_of_sql_order_by. by apply elem_of_sql_select. }
    apply elem_of_cons in Hin as [[= -> ->]|Hin]; [lia|].
    assert (StronglySorted (λ x y, Is_true (le x y)) ((id, r) :: l)) as Hs.
    { rewrite <- Hl. apply sql_order_by_sorted; unfold le.
      - intros x y. rewrite !bool_decide_eq_true. lia.
      - intros x y z. rewrite !bool_decide_eq_true. lia. }
    inversion Hs as [|? ? _ Hall]; subst. rewrite Forall_forall in Hall. specialize (Hall _ Hin).
    by apply Is_true_true, bool_decide_eq_true in Hall.
Qed.

(** A value that was read back survives being written and read again. *)
Lemma reread `{Codecs, !CodecLaws} s t n0 v x n :
  honest_name s → round_trips s →
  deserialize_value (Some t) n0 s = Ok v → serialize_value_as v n0 s = Ok (x, n) →
  deserialize_value (Some x) (Some n) s = Ok v.
Proof.
  intros Hh Hrt Hd Hs. rewrite (serialize_then_deserialize s v n0 x n Hh Hrt Hs).
  unfold canonical. case_bool_decide as Hn; [|done].
  unfold deserialize_value in Hd. unfold serialize_value_as in Hs.
  destruct (select_serializer n0 s) as [s'|] eqn:Hsel; [|done]. unfold named in Hs.
  destruct (ser_serialize s' v) eqn:Hv; simplify_eq.
  destruct (select_serializer_name s n0 s' Hh Hsel) as [_ Hs'].
  assert (s' = DBOSPortableJSON) as -> by (destruct Hs' as [->|[->| ->]]; [done|done|by apply (proj1 Hh)]).
  simpl in Hd. destruct (json_loads t) as [j|]; [|done]. injection Hd as <-. by rewrite portableify_json_to_py.
Qed.

Lemma dict_pop_set key e c d :
  (∀ ec, d !! key = Some ec → (0 < ec_count ec)%Z) → dict_pop key (dict_set key e c d).1 = d.
Proof.
  intros Hpos. unfold dict_set, dict_pop. destruct (d !! key) as [ec|] eqn:Hd; simpl; rewrite lookup_insert_eq; simpl.
  - specialize (Hpos ec eq_refl). rewrite bool_decide_eq_false_2 by lia. rewrite insert_insert_eq.
    replace (ec_count ec + 1 - 1)%Z with (ec_count ec) by lia. apply insert_id. by destruct ec.
  - by rewrite delete_insert_id.
Qed.

(** Sending touches the messages and nothing else, and a row that is there already is
    skipped. *)
Lemma insert_notifications_Ok rows d d' :
  insert_notifications rows d = Ok (d', tt) →
  (∃ t, d' = d <| notifications := t |>) ∧
  (∀ k r, notifications d !! k = Some r → notifications d' !! k = Some r) ∧
  (∀ k r, (k, r) ∈ rows → is_Some (notifications d' !! k)) ∧
  (NoDup rows.*1 → ∀ k r, (k, r) ∈ rows → notifications d !! k = None → notifications d' !! k = Some r).
Proof.
  revert d. induction rows as [|[k0 r0] rows IH]; intros d; cbn [insert_notifications].
  { intros [= <-]. split_and!; try done; [|by intros ?? ?%elem_of_nil|by intros _ ?? ?%elem_of_nil].
    exists (notifications d). by destruct d. }
  destruct (insert_notification_nothing (k0, r0) d) as [[d1 []]|] eqn:Hi; [|done]. intros Hrun.
  destruct (IH _ Hrun) as ((t & Ht) & Hkeep & Hin & Hnew). clear IH Hrun.
  unfold insert_notification_nothing in Hi. simpl in Hi.
  assert ((∃ t1, d1 = d <| notifications := t1 |>) ∧
    (∀ k r, notifications d !! k = Some r → notifications d1 !! k = Some r) ∧
    is_Some (notifications d1 !! k0) ∧
    (notifications d !! k0 = None → notifications d1 !! k0 = Some r0) ∧
    (∀ k, k ≠ k0 → notifications d1 !! k = notifications d !! k)) as ((t1 & ->) & Hk1 & H0 & H0n & Hne).
  { destruct (notifications d !! k0) as [r|] eqn:Hk0.
    - injection Hi as <-. split_and!; try done; eauto. exists (notifications d). by destruct d.
    - destruct (workflow_exists _ _); [|done]. injection Hi as <-. simpl. rewrite lookup_insert_eq.
      split_and!; eauto.
      + intros k r Hk. rewrite lookup_insert_ne; [done|congruence].
      + intros k Hk. by rewrite lookup_insert_ne. }
  split_and!; try done.
  - exists t. rewrite Ht. done.
  - intros k r Hk. by apply Hkeep, Hk1.
  - intros k r [[= -> ->]|Hk]%elem_of_cons; [|by eapply Hin]. destruct H0 as [r' Hr']. eauto.
  - rewrite fmap_cons, NoDup_cons. simpl. intros [Hnot Hnd] k r [[= -> ->]|Hk]%elem_of_cons Hnone.
    + by apply Hkeep, H0n.
    + apply Hnew; [done..|]. rewrite Hne; [done|]. intros ->. apply Hnot. apply list_elem_of_fmap. by exists (k0, r).
Qed.

Lemma insert_notifications_present rows d :
  (∀ k r, (k, r) ∈ rows → is_Some (notifications d !! k)) → insert_notifications rows d = Ok (d, tt).
Proof.
  induction rows as [|[k0 r0] rows IH]; intros Hin; [done|]. cbn [insert_notifications].
  destruct (Hin k0 r0 ltac:(left)) as [r Hr]. unfold insert_notification_nothing. simpl. rewrite Hr.
  apply IH. intros k r' Hk. apply (Hin k r'). by right.
Qed.

(** ** Lemmas: [send_bulk] *)

Section send_lemmas.
Context (executor_id : option string) `{Codecs} (serializer : Serializer).

Lemma prepare_messages ty msgs prepared : prepare serializer ty msgs = Ok prepared → prepared.*1 = msgs.
Proof.
  unfold prepare. revert prepared. induction msgs as [|m msgs IH]; intros prepared; simpl; [by intros [= <-]|].
  destruct (serialize_value _ _ _); [|done]. destruct (res_map _ msgs); [|done]. intros [= <-]. simpl.
  f_equal. by apply IH.
Qed.

Lemma elem_of_message_rows created uuids forks prepared k row :
  (k, row) ∈ message_rows created uuids forks prepared →
  ∃ n m serval ser dest, (m, (serval, ser)) ∈ prepared ∧ dest ∈ message_destinations forks (sm_destination_id m) ∧
    k = message_uuid uuids n m dest ∧ row = message_row created dest serval ser m.
Proof.
  intros (n & [[[m serval] ser] dest] & [= -> ->] & Hl%list_elem_of_lookup_2)%elem_of_lookup_imap.
  apply list_elem_of_bind in Hl as ([m' [sv sr]] & (d' & [= -> -> -> ->] & Hd)%list_elem_of_fmap & Hp).
  by exists n, m', sv, sr, d'.
Qed.

Lemma message_rows_elem created uuids forks prepared m serval ser dest :
  (m, (serval, ser)) ∈ prepared → dest ∈ message_destinations forks (sm_destination_id m) →
  ∃ n, (message_uuid uuids n m dest, message_row created dest serval ser m) ∈ message_rows created uuids forks prepared.
Proof.
  intros Hp Hd.
  assert ((m, serval, ser, dest) ∈ prepared ≫= λ p, (λ dest, (p.1, p.2.1, p.2.2, dest)) <$>
            message_destinations forks (sm_destination_id p.1)) as [n Hn]%list_elem_of_lookup_1.
  { apply list_elem_of_bind. exists (m, (serval, ser)). split; [|done]. by apply list_elem_of_fmap; exists dest. }
  exists n. apply elem_of_lookup_imap. by exists n, (m, serval, ser, dest).
Qed.

Lemma elem_of_message_destinations d ids dest x :
  dest ∈ ids →
  x ∈ message_destinations (find_fork_descendants d ids) dest ↔ x = dest ∨ (x ≠ dest ∧ tc (fork_of d) dest x).
Proof.
  intros Hin. destruct (find_fork_descendants_spec d ids) as (f & -> & Hf).
  destruct (Hf dest Hin) as (l & Hl & Hspec). unfold message_destinations. rewrite Hl. simpl.
  by rewrite elem_of_cons, elem_of_sql_order_by, elem_of_remove_dups, Hspec.
Qed.

(** A successful transaction, taken apart: where the step was not recorded, the messages
    are inserted, and within a workflow the step is recorded. *)
Lemma send_bulk_Ok created uuids st ct msgs ty wf fn (tf : bool) d d' :
  send_bulk executor_id serializer created uuids st ct msgs ty wf fn tf d = (d', Ok tt) →
  match wf with Some (wid, fid) => check_result d wid fid fn = Ok None | None => True end →
  NoDup (provided_keys msgs) ∧ ∃ prepared, prepare serializer ty msgs = Ok prepared ∧
    let forks := if tf then find_fork_descendants d (sm_destination_id ∘ fst <$> prepared) else None in
    ∃ d1, insert_notifications (message_rows created uuids forks prepared) d = Ok (d1, tt) ∧
      match wf with
      | Some (wid, fid) =>
          ∃ c', record_operation_result_txn executor_id {|
            or_workflow_uuid := wid; or_function_id := fid; or_function_name := fn;
            or_output := None; or_error := None; or_serialization := None;
            or_started_at_epoch_ms := st |} ct (Conn d d1) = (c', Ok tt) ∧ d' = current c'
      | None => d' = d1
      end.
Proof.
  intros (c' & Hrun & ->)%engine_begin_Ok Hc. unfold send_bulk_txn in Hrun.
  destruct (bool_decide (NoDup (provided_keys msgs))) eqn:Hnd; [|done].
  apply bool_decide_eq_true in Hnd. split; [done|]. simpl in Hrun.
  apply bind_inv_Ok in Hrun as (c0 & prepared & Hp & Hrun). injection Hp as <- Hp. exists prepared. split; [done|].
  apply bind_inv_Ok in Hrun as (c0 & o & Ho & Hrun).
  assert (c0 = Conn d d ∧ o = None) as [-> ->].
  { destruct wf as [[wid fid]|]; [|by injection Ho as <- <-].
    rewrite check_operation_execution_txn_eq in Ho. simpl in Ho. rewrite Hc in Ho. by injection Ho as <- <-. }
  apply bind_inv_Ok in Hrun as (c0 & forks & Hf & Hrun). injection Hf as <- <-. cbn [current] in *.
  apply bind_inv_Ok in Hrun as (c1 & [] & Hi & Hrun).
  unfold try_except, execute_res in Hi. simpl in Hi.
  destruct (insert_notifications _ _) as [[d1 []]|e]; [|by destruct e]. injection Hi as <-. exists d1. split; [done|].
  destruct wf as [[wid fid]|]; [eauto|]. by injection Hrun as <-.
Qed.

(** A transaction all of whose rows are there already changes nothing. *)
Lemma send_bulk_present created uuids st ct msgs ty fn (tf : bool) d prepared :
  NoDup (provided_keys msgs) → prepare serializer ty msgs = Ok prepared →
  (∀ (k : string) (r : notifications_row), (k, r) ∈ message_rows created uuids
      (if tf then find_fork_descendants d (sm_destination_id ∘ fst <$> prepared) else None) prepared →
    is_Some (notifications d !! k)) →
  send_bulk executor_id serializer created uuids st ct msgs ty None fn tf d = (d, Ok tt).
Proof.
  intros Hnd Hp Hrows. unfold send_bulk, engine_begin, send_bulk_txn.
  rewrite bool_decide_eq_true_2 by done. simpl. rewrite Hp.
  unfold mbind, SM_bind, lift_res, query, mret, SM_ret, try_except, execute_res.
  cbn [current]. by rewrite (insert_notifications_present _ _ Hrows).
Qed.

End send_lemmas.

(** After a successful send of a workflow, its step is in the history. *)
Lemma send_bulk_recorded `{Codecs} executor_id serializer created uuids st ct msgs ty wid fid fn (tf : bool) d d' :
  check_result d wid fid fn = Ok None →
  send_bulk executor_id serializer created uuids st ct msgs ty (Some (wid, fid)) fn tf d = (d', Ok tt) →
  ∃ r, check_result d' wid fid fn = Ok (Some r).
Proof.
  intros Hc Hrun.
  destruct (send_bulk_Ok _ _ _ _ _ _ _ _ _ _ _ _ _ Hrun Hc) as (_ & prepared & _ & d1 & Hi & c' & Hrec & ->).
  apply insert_notifications_Ok in Hi as ((t & Ht) & _).
  unfold check_result in Hc. destruct (workflow_status d !! wid) as [rw|] eqn:Hr; [|done].
  case_bool_decide as Hcan; [done|]. destruct (operation_outputs d !! (wid, fid)) eqn:Hfree; [by case_bool_decide|].
  rewrite (record_operation_result_txn_eq executor_id _ ct (Conn d d1) rw) in Hrec; [|by rewrite Ht|by left].
  cbn [or_workflow_uuid or_function_id current] in Hrec. rewrite Ht in Hrec.
  replace (operation_outputs (d <| notifications := t |>)) with (operation_outputs d) in Hrec by done.
  rewrite Hfree in Hrec. cbv zeta in Hrec. injection Hrec as <-. cbn [current].
  set (d2 := _ <| operation_outputs := _ |>).
  eexists. eapply (check_result_kept wid fid fn d2 d2); [|simpl; apply lookup_insert_eq|done]. split; [done|]. simpl.
  pose proof (reset_db_status executor_id wid (d <| notifications := t |>) wid) as Hst. simpl in Hst. rewrite Hr in Hst.
  apply fmap_Some in Hst as (r' & Hr' & Hst). exists r'. split; [done|congruence].
Qed.

Lemma send_bulk_replayed `{Codecs} executor_id serializer created uuids st ct msgs ty wid fid fn (tf : bool) d r prepared :
  NoDup (provided_keys msgs) → prepare serializer ty msgs = Ok prepared →
  check_result d wid fid fn = Ok (Some r) →
  send_bulk executor_id serializer created uuids st ct msgs ty (Some (wid, fid)) fn tf d = (d, Ok tt).
Proof.
  intros Hnd Hp Hc. unfold send_bulk, engine_begin, send_bulk_txn. rewrite bool_decide_eq_true_2 by done. simpl.
  rewrite Hp. unfold mbind, SM_bind, lift_res. rewrite check_operation_execution_txn_eq. cbn [current]. by rewrite Hc.
Qed.

#[export] Instance same_waiters_preorder key : PreOrder (same_waiters key).
Proof. split; unfold same_waiters; [done|]. intros p1 p2 p3 ??. congruence. Qed.

Lemma same_waiters_on_db {A} key (m : dbM A) : moves (same_waiters key) (on_db m).
Proof. intros p. by rewrite on_db_eq. Qed.

Lemma same_waiters_recv_check key wid topic event : moves (same_waiters key) (recv_check wid topic event).
Proof. intros p. unfold recv_check. by destruct (notification_pending _ _ _). Qed.

Lemma same_waiters_wait_loop key fuel env check interval event k now deadline p p' :
  (∀ k q, same_waiters key q (env k q)) → moves (same_waiters key) check →
  wait_loop fuel env check interval event k now deadline p = Some p' → same_waiters key p p'.
Proof.
  intros Henv Hc. revert k now p. induction fuel as [|fuel IH]; intros k now p; simpl;
    (destruct (event_is_set event p); [by intros [= <-]|]); case_bool_decide; try done; try by intros [= <-].
  intros Hw. apply IH in Hw. etrans; [apply Henv|]. etrans; [|exact Hw].
  destruct (event_is_set event (env k p)); [done|apply Hc].
Qed.

(** Registering and leaving again. *)
Lemma pop_after_set key payload event comps p :
  (∀ ec, pr_notifications_map p !! payload = Some ec → (0 < ec_count ec)%Z) →
  ∀ p', same_waiters key (set_notification payload event comps p).1 p' → key = payload →
    pr_notifications_map (pop_notification payload p') !! key = pr_notifications_map p !! key.
Proof.
  intros Hpos p' Hs ->. unfold same_waiters, set_notification in Hs. unfold pop_notification.
  pose proof (dict_pop_set payload event comps (pr_notifications_map p) Hpos) as Hpop.
  destruct (dict_set payload event comps (pr_notifications_map p)) as [m r]. cbn in *.
  transitivity (dict_pop payload m !! payload); [|by rewrite Hpop].
  unfold dict_pop. rewrite Hs. destruct (m !! payload) eqn:Hm; [|by rewrite Hs].
  case_bool_decide; by rewrite ?lookup_delete_eq, ?lookup_insert_eq.
Qed.

(** What the setup of [recv] leaves: its registration where the caller is to wait, and
    the waiters as they were otherwise. *)
Lemma recv_setup_waiters `{Codecs} e serializer t0 t1 t2 t3 t4 wid fid tfid topic timeout p p' r :
  let payload := listener_payload wid (default dbos_null_topic topic) in
  (∀ ec, pr_notifications_map p !! payload = Some ec → (0 < ec_count ec)%Z) →
  recv_setup e serializer t0 t1 t2 t3 t4 wid fid tfid topic timeout p = (p', r) →
  match r with
  | Ok (SetupWait event _ pl _) =>
      pl = payload ∧ same_waiters payload (set_notification payload event (wid, default dbos_null_topic topic) p).1 p'
  | _ => same_waiters payload p p'
  end.
Proof.
  intros payload Hpos Hrun. unfold recv_setup, mbind, SM_bind in Hrun. cbv zeta in Hrun. fold payload in Hrun.
  rewrite on_db_eq in Hrun. destruct (check_operation_execution _ _ _ _).2 as [[o|]|ex]; [| |by injection Hrun as <- <-].
  { destruct (rr_output o); unfold lift_res in Hrun; [destruct (deserialize_value _ _ _)|]; by injection Hrun as <- <-. }
  unfold new_event in Hrun. cbv iota in Hrun. set (ev := pr_next _) in Hrun. set (p1 := _ <| pr_next := _ |>) in Hrun.
  assert (∀ ec, pr_notifications_map p1 !! payload = Some ec → (0 < ec_count ec)%Z) as Hpos1 by exact Hpos.
  pose proof (pop_after_set payload payload ev (wid, default dbos_null_topic topic) p1 Hpos1) as Hpop.
  assert (∀ comps, (set_notification payload ev comps p1).1 =
            p1 <| pr_notifications_map := (dict_set payload ev comps (pr_notifications_map p1)).1 |>) as Hset.
  { intros comps. unfold set_notification. by destruct (dict_set payload ev comps (pr_notifications_map p1)). }
  assert (same_waiters payload (set_notification payload ev (wid, default dbos_null_topic topic) p).1
            (set_notification payload ev (wid, default dbos_null_topic topic) p1).1) as Hsame.
  { unfold same_waiters, set_notification. change (pr_notifications_map p1) with (pr_notifications_map p).
    by destruct (dict_set _ _ _ _). }
  destruct (set_notification payload ev (wid, default dbos_null_topic topic) p1) as [p2 [[[] q]|ex]] eqn:Hs;
    cbn [negb fst] in *; [| |by unfold set_notification in Hs; destruct (dict_set _ _ _ _)].
  - destruct (cleanup_on_error _ _ p2) as [p3 r3] eqn:Hc. injection Hrun as <- <-.
    unfold cleanup_on_error in Hc. pose proof (same_waiters_recv_check payload wid (Some (default dbos_null_topic topic)) ev p2) as Hck.
    destruct (recv_check _ _ _ p2) as [p4 [[]|ex]]; cbn [fst] in Hck; [|injection Hc as <- <-; by apply Hpop].
    rewrite on_db_eq in Hc. destruct (record_sleep _ _ _ _ _ _ _ _ _ _).2 as [left_ms|ex].
    + unfold mret, SM_ret in Hc. injection Hc as <- <-. split; [done|]. by etrans; [exact Hsame|].
    + injection Hc as <- <-. by apply Hpop.
  - unfold modify, raise in Hrun. injection Hrun as <- <-. by apply Hpop.
Qed.

(** ** Properties *)

Section message_properties.
Context `{Codecs, !CodecLaws} (serializer : Serializer).
Hypothesis honest : honest_name serializer.
Hypothesis reads_back : round_trips serializer.

(** C14: a message is received once, oldest first: whatever connections are lost before or
    after a commit, and however often the receive is therefore repeated, it ends with the
    value of one message, the oldest one that waits for this workflow and topic; that
    message alone is consumed, and the value is checkpointed in the same transaction. *)
Theorem recv_consumes_once e ends wid fid topic start d rw id r v x n fs :
  workflow_status d !! wid = Some rw → operation_outputs d !! (wid, fid) = None →
  oldest_message wid (default dbos_null_topic topic) d = Some (id, r) →
  deserialize_value (Some (no_message r)) (no_serialization r) serializer = Ok v →
  serialize_value_as v (no_serialization r) serializer = Ok (x, n) →
  (∀ id' r', notifications d !! id' = Some r' → deliverable wid (default dbos_null_topic topic) r' = true →
     (no_created_at_epoch_ms r ≤ no_created_at_epoch_ms r')%Z) ∧
  ∃ w slept i,
    db_retry (S (length fs)) (faulty (λ i, recv_consume e serializer (ends i) wid fid topic start)) (d, fs, 0) =
      Some (w, Ok v, slept) ∧
    let row := recorded_row {| or_workflow_uuid := wid; or_function_id := fid; or_function_name := "DBOS.recv";
                 or_output := Some x; or_error := None; or_serialization := Some n;
                 or_started_at_epoch_ms := start |} (ends i) in
    w.1.1 = (reset_db e wid (d <| notifications := <[id := r <| no_consumed := true |>]> (notifications d) |>))
              <| operation_outputs := <[(wid, fid) := row]> (operation_outputs d) |>.
Proof.
  intros Hr Hfree Hold Hv Hx.
  pose proof (oldest_message_spec wid (default dbos_null_topic topic) d) as Hspec. rewrite Hold in Hspec.
  split; [by destruct Hspec as (_ & _ & Hmin)|].
  set (d1 := d <| notifications := <[id := r <| no_consumed := true |>]> (notifications d) |>).
  set (row i := recorded_row {| or_workflow_uuid := wid; or_function_id := fid; or_function_name := "DBOS.recv";
                 or_output := Some x; or_error := None; or_serialization := Some n;
                 or_started_at_epoch_ms := start |} (ends i)).
  set (D i := (reset_db e wid d1) <| operation_outputs := <[(wid, fid) := row i]> (operation_outputs d) |>).
  assert (retry_safe (λ i, recv_consume e serializer (ends i) wid fid topic start) d v (λ d', ∃ i, d' = D i)) as Hsafe.
  { split.
    - intros i. exists (D i). split; [|eauto]. unfold recv_consume, engine_begin, query, mbind, SM_bind.
      cbn [current]. rewrite Hfree. unfold consume_oldest. cbn [current committed]. rewrite Hold. fold d1.
      unfold lift_res, mret, SM_ret. rewrite Hv. rewrite Hx.
      rewrite (record_operation_result_txn_eq e _ _ _ rw); [|exact Hr|by left].
      cbn [current committed or_workflow_uuid or_function_id]. unfold d1 at 1. cbn. rewrite Hfree.
      unfold D. by rewrite reset_db_outputs.
    - intros i d2 (j & ->). exists (D j). split; [|eauto]. unfold recv_consume, engine_begin, query, mbind, SM_bind.
      cbn [current]. unfold D at 1. cbn [operation_outputs set_field]. cbn. rewrite lookup_insert_eq.
      unfold lift_res. cbn [row recorded_row oo_output oo_serialization or_output or_serialization].
      by rewrite (reread serializer _ _ _ _ _ honest reads_back Hv Hx). }
  destruct (db_retry_safe _ _ _ _ fs Hsafe) as (w & slept & Hw & i & Hi). by exists w, slept, i.
Qed.

(** A send of a workflow happens exactly once: whatever connections are lost before or
    after a commit, the retried send ends, and the database is the one that a single one
    of its attempts leaves: all its messages and its checkpoint, nothing twice. *)
Lemma send_bulk_exactly_once e created uuids starts ends msgs ty wid fid fn (tf : bool) d fs :
  let attempt i := send_bulk e serializer (created i) (uuids i) (starts i) (ends i) msgs ty (Some (wid, fid)) fn tf in
  check_result d wid fid fn = Ok None →
  (∀ i, (attempt i d).2 = Ok tt) →
  ∃ w slept i, db_retry (S (length fs)) (faulty attempt) (d, fs, 0) = Some (w, Ok tt, slept) ∧
    w.1.1 = (attempt i d).1.
Proof.
  intros attempt Hc Hok.
  assert (∀ i, attempt i d = ((attempt i d).1, Ok tt)) as Hrun.
  { intros i. specialize (Hok i). destruct (attempt i d). simpl in *. by subst. }
  assert (retry_safe attempt d tt (λ d', ∃ i, d' = (attempt i d).1)) as Hsafe.
  { split; [by intros i; exists (attempt i d).1; split; [apply Hrun|exists i]|].
    intros i d1 (j & ->). exists (attempt j d).1. split; [|by exists j].
    destruct (send_bulk_recorded _ _ _ _ _ _ _ _ _ _ _ _ _ _ Hc (Hrun j)) as (r & Hr).
    destruct (send_bulk_Ok _ _ _ _ _ _ _ _ _ _ _ _ _ (Hrun j) Hc) as (Hnd & prepared & Hp & _).
    exact (send_bulk_replayed e serializer (created i) (uuids i) (starts i) (ends i) msgs ty wid fid fn tf _ r prepared
             Hnd Hp Hr). }
  destruct (db_retry_safe _ _ _ _ fs Hsafe) as (w & slept & Hw & i & Hi). by exists w, slept, i.
Qed.

(** A send with idempotency keys outside a workflow happens once: repeated at any later
    time, as long as the rows it wrote are there (consumed or not) and no workflow was
    forked since when it sends to forks, it is accepted and changes nothing. *)
Lemma send_bulk_keyed_once e e' created created' uuids uuids' st st' ct ct' msgs ty fn fn' (tf : bool) d d' d'' :
  Forall (λ m, is_Some (sm_idempotency_key m)) msgs →
  send_bulk e serializer created uuids st ct msgs ty None fn tf d = (d', Ok tt) →
  (∀ k, is_Some (notifications d' !! k) → is_Some (notifications d'' !! k)) →
  workflow_status d'' = workflow_status d' →
  send_bulk e' serializer created' uuids' st' ct' msgs ty None fn' tf d'' = (d'', Ok tt).
Proof.
  intros Hkeys Hrun Hkept Hws.
  destruct (send_bulk_Ok _ _ _ _ _ _ _ _ _ _ _ _ _ Hrun I) as (Hnd & prepared & Hp & d1 & Hi & ->).
  apply insert_notifications_Ok in Hi as ((t & Ht) & _ & Hin & _).
  eapply send_bulk_present; [done..|]. intros k r Hk.
  assert (find_fork_descendants d'' = find_fork_descendants d) as Hforks.
  { rewrite Ht in Hws. unfold find_fork_descendants, fork_edges, fork_rows, children_fuel.
    by replace (workflow_status d'') with (workflow_status d). }
  rewrite Hforks in Hk. apply elem_of_message_rows in Hk as (n & m & sv & sr & dest & Hm & Hd & -> & _).
  apply Hkept. destruct (message_rows_elem created uuids _ _ _ _ _ _ Hm Hd) as [n' Hrow].
  assert (is_Some (sm_idempotency_key m)) as [key Hkey].
  { rewrite Forall_forall in Hkeys. apply Hkeys. rewrite <- (prepare_messages _ _ _ _ Hp).
    by apply list_elem_of_fmap; exists (m, (sv, sr)). }
  specialize (Hin _ _ Hrow). unfold message_uuid in Hin |- *. by rewrite Hkey in Hin |- *.
Qed.

(** C26: a send reaches its destinations: when the IDs of its rows are new and distinct,
    every message of it waits, unconsumed, under its topic for its destination and, when
    the send goes to forks, for every workflow forked from the destination, directly or
    not; and the send changes nothing but the messages. *)
Theorem send_bulk_delivers e created uuids st ct msgs ty fn (tf : bool) d d' prepared :
  send_bulk e serializer created uuids st ct msgs ty None fn tf d = (d', Ok tt) →
  prepare serializer ty msgs = Ok prepared →
  let forks := if tf then find_fork_descendants d (sm_destination_id ∘ fst <$> prepared) else None in
  let rows := message_rows created uuids forks prepared in
  NoDup rows.*1 → (∀ k, k ∈ rows.*1 → notifications d !! k = None) →
  d' = d <| notifications := notifications d' |> ∧
  ∀ m sv sr dest, (m, (sv, sr)) ∈ prepared →
    dest = sm_destination_id m ∨ (tf = true ∧ dest ≠ sm_destination_id m ∧ tc (fork_of d) (sm_destination_id m) dest) →
    ∃ id row, notifications d !! id = None ∧ notifications d' !! id = Some row ∧ no_message row = sv ∧
      deliverable dest (default dbos_null_topic (sm_topic m)) row = true.
Proof.
  intros Hrun Hp forks rows Hnd Hfresh.
  destruct (send_bulk_Ok _ _ _ _ _ _ _ _ _ _ _ _ _ Hrun I) as (_ & prepared' & Hp' & d1 & Hi & ->).
  rewrite Hp in Hp'. injection Hp' as <-. fold forks in Hi. fold rows in Hi.
  apply insert_notifications_Ok in Hi as ((t & Ht) & _ & _ & Hnew).
  split; [by rewrite Ht|]. intros m sv sr dest Hm Hdest.
  assert (dest ∈ message_destinations forks (sm_destination_id m)) as Hd.
  { unfold forks. destruct tf.
    - apply elem_of_message_destinations; [apply list_elem_of_fmap; by exists (m, (sv, sr))|]. tauto.
    - destruct Hdest as [->|(? & _)]; [left|done]. }
  destruct (message_rows_elem created uuids forks _ _ _ _ _ Hm Hd) as [n Hrow].
  assert (notifications d !! message_uuid uuids n m dest = None) as Hnone.
  { apply Hfresh. apply list_elem_of_fmap. by eexists (_, _). }
  eexists _, _. split; [exact Hnone|]. split; [by apply (Hnew Hnd _ _ Hrow)|]. split; [done|].
  unfold deliverable, sql_eq. simpl. by rewrite !bool_decide_eq_true_2.
Qed.

(** The ID of a keyed message, the key and the destination joined by [::], does not
    tell every two messages apart: after a send with the key [k::a] to [b], a send with
    the key [k] to [a::b] is accepted, and its message is never stored. *)
Lemma colliding_send_dropped e e' created created' uuids uuids' st st' ct ct' ty fn fn' k a b v1 v2 topic1 topic2 d d1 x :
  let m1 := {| sm_destination_id := b; sm_message := v1; sm_topic := topic1;
               sm_idempotency_key := Some (k +:+ "::" +:+ a) |} in
  let m2 := {| sm_destination_id := a +:+ "::" +:+ b; sm_message := v2; sm_topic := topic2;
               sm_idempotency_key := Some k |} in
  send_bulk e serializer created uuids st ct [m1] ty None fn false d = (d1, Ok tt) →
  serialize_value v2 ty serializer = Ok x →
  send_bulk e' serializer created' uuids' st' ct' [m2] ty None fn' false d1 = (d1, Ok tt).
Proof.
  intros m1 m2 Hrun Hx.
  destruct (send_bulk_Ok _ _ _ _ _ _ _ _ _ _ _ _ _ Hrun I) as (_ & prepared & Hp & d2 & Hi & ->).
  apply insert_notifications_Ok in Hi as (_ & _ & Hin & _).
  assert (prepare serializer ty [m2] = Ok [(m2, x)]) as Hp2 by (unfold prepare; simpl; by rewrite Hx).
  eapply send_bulk_present; [|exact Hp2|].
  { unfold provided_keys. simpl. case_bool_decide; [constructor|apply NoDup_singleton]. }
  intros id r Hid. apply elem_of_message_rows in Hid as (n & m & sv & sr & dest & Hm & Hd & -> & _).
  apply list_elem_of_singleton in Hm as [= -> _]. apply list_elem_of_singleton in Hd as ->.
  pose proof (prepare_messages _ _ _ _ Hp) as Hm1. destruct prepared as [|[m [sv1 sr1]] []]; simplify_eq/=.
  destruct (Hin _ _ ltac:(left)) as [r1 Hr1]. exists r1. rewrite <- Hr1. f_equal.
  unfold message_uuid, message_key. simpl. by rewrite !string_app_assoc.
Qed.

(** [recv] leaves no registration behind: on every way out, its own errors, a conflict
    with another waiter, a replay, or the end of its wait, the waiters of its payload are
    those that were there before, if the other threads left them alone meanwhile. *)
Lemma recv_releases e fuel env interval t0 t1 t2 t3 t4 t5 t6 wid fid tfid topic timeout p p' r :
  let payload := listener_payload wid (default dbos_null_topic topic) in
  (∀ k q, same_waiters payload q (env k q)) →
  (∀ ec, pr_notifications_map p !! payload = Some ec → (0 < ec_count ec)%Z) →
  recv e serializer fuel env interval t0 t1 t2 t3 t4 t5 t6 wid fid tfid topic timeout p = Some (p', r) →
  same_waiters payload p p'.
Proof.
  intros payload Henv Hpos Hrun. unfold recv in Hrun.
  destruct (recv_setup _ _ _ _ _ _ _ _ _ _ _ _ p) as [p1 r1] eqn:Hsetup.
  apply (recv_setup_waiters _ _ _ _ _ _ _ _ _ _ _ _ _ _ _ Hpos) in Hsetup. cbv zeta in Hsetup. fold payload in Hsetup.
  destruct r1 as [[v|event left_ms pl start]|ex]; [by injection Hrun as <- _| |by injection Hrun as <- _].
  destruct Hsetup as [-> Hs].
  destruct (wait_loop _ _ _ _ _ _ _ _ p1) as [p2|] eqn:Hw; [|done]. simpl in Hrun.
  apply (same_waiters_wait_loop payload) in Hw; [|done|apply same_waiters_recv_check].
  rewrite on_db_eq in Hrun. injection Hrun as <- _.
  apply (pop_after_set payload payload event (wid, default dbos_null_topic topic) p Hpos); [|done].
  etrans; [exact Hs|]. etrans; [exact Hw|]. done.
Qed.

End message_properties.

(** ** Witnesses *)

Lemma recv_consumes_once_witness :
  ∃ w slept, db_retry 2 (faulty (λ _, @recv_consume None sample_codecs sample_serializer 9 "w" 4 None 5))
    ((sample_sent None sample_pair).1, [LostAfter], 0) = Some (w, Ok (PStr "hi"), slept).
Proof.
  destruct (@recv_consumes_once sample_codecs sample_laws sample_serializer sample_honest sample_reads_back
    None (λ _, 9%Z) "w" 4 None 5 (sample_sent None sample_pair).1 (sample_row "w" PENDING) "u"
    (message_row 1 "w" (sample_pickle (inl "hi")) "sample" (sample_message None "w" "hi"))
    (PStr "hi") (sample_pickle (inl "hi")) "sample" [LostAfter]) as (_ & w & slept & _ & Hw & _); try reflexivity.
  exists w, slept. exact Hw.
Defined.

Lemma send_bulk_exactly_once_witness :
  let attempt := λ i : nat, @send_bulk None sample_codecs sample_serializer 1 (λ _, "u") 2 3
    [sample_message None "v" "hi"] None (Some ("w", 4%Z)) "DBOS.send" false in
  ∃ w slept i, db_retry 3 (faulty attempt) (sample_pair, [LostAfter; LostBefore], 0) = Some (w, Ok tt, slept) ∧
    w.1.1 = (attempt i sample_pair).1.
Proof.
  intros attempt.
  refine (@send_bulk_exactly_once sample_codecs sample_serializer None (λ _, 1%Z) (λ _ _, "u") (λ _, 2%Z) (λ _, 3%Z)
    [sample_message None "v" "hi"] None "w" 4 "DBOS.send" false sample_pair [LostAfter; LostBefore] _ _);
    [reflexivity|intros i; reflexivity].
Defined.

Lemma send_bulk_keyed_once_witness :
  let d' := (sample_sent (Some "k") sample_pair).1 in
  @send_bulk None sample_codecs sample_serializer 11 (λ _, "u2") 12 13 [sample_message (Some "k") "w" "hi"] None None
    "DBOS.send" false d' = (d', Ok tt).
Proof.
  intros d'.
  refine (@send_bulk_keyed_once sample_codecs sample_serializer None None 1 11 (λ _, "u") (λ _, "u2") 2 12 3 13
    [sample_message (Some "k") "w" "hi"] None "DBOS.send" "DBOS.send" false sample_pair d' d' _ _ (λ _ h, h) eq_refl).
  - constructor; [eexists; reflexivity|constructor].
  - reflexivity.
Defined.

Lemma send_bulk_delivers_witness :
  ∃ id row, notifications sample_pair !! id = None ∧ notifications (sample_sent None sample_pair).1 !! id = Some row ∧
    no_message row = sample_pickle (inl "hi") ∧ deliverable "w" dbos_null_topic row = true.
Proof.
  refine (proj2 (@send_bulk_delivers sample_codecs sample_serializer None 1 (λ _, "u") 2 3
    [sample_message None "w" "hi"] None "DBOS.send" false sample_pair (sample_sent None sample_pair).1
    [(sample_message None "w" "hi", (sample_pickle (inl "hi"), "sample"))] eq_refl eq_refl _ _)
    (sample_message None "w" "hi") _ "sample" "w" ltac:(left) (or_introl eq_refl)).
  - apply NoDup_singleton.
  - intros k _. apply lookup_empty.
Defined.

Lemma colliding_send_dropped_witness :
  let m1 := {| sm_destination_id := "b"; sm_message := PStr "one"; sm_topic := None; sm_idempotency_key := Some "k::a" |} in
  let m2 := {| sm_destination_id := "a::b"; sm_message := PStr "two"; sm_topic := None; sm_idempotency_key := Some "k" |} in
  let send m := @send_bulk None sample_codecs sample_serializer 1 (λ _, "u") 2 3 [m] None None "DBOS.send" false in
  let d := sample_db [("b", sample_row "b" PENDING); ("a::b", sample_row "a::b" PENDING)] in
  send m2 (send m1 d).1 = ((send m1 d).1, Ok tt).
Proof.
  intros m1 m2 send d.
  refine (@colliding_send_dropped sample_codecs sample_serializer None None 1 1 (λ _, "u") (λ _, "u") 2 2 3 3 None
    "DBOS.send" "DBOS.send" "k" "a" "b" (PStr "one") (PStr "two") None None d (send m1 d).1 _ _ _); reflexivity.
Defined.

Lemma recv_releases_witness :
  ∃ p' r, @recv None sample_codecs sample_serializer 3 (λ _ q, q) 60000 1 2 3 4 5 6 7 "w" 4 5 None 100
            (sample_proc sample_pair) = Some (p', r) ∧
    pr_notifications_map p' !! "w::__null__topic__" = None.
Proof.
  destruct (@recv None sample_codecs sample_serializer 3 (λ _ q, q) 60000 1 2 3 4 5 6 7 "w" 4 5 None 100
            (sample_proc sample_pair)) as [[p' r]|] eqn:Hrun; [|vm_compute in Hrun; discriminate Hrun].
  exists p', r. split; [reflexivity|].
  refine (@recv_releases sample_codecs sample_serializer None 3 (λ _ q, q) 60000 1 2 3 4 5 6 7 "w" 4 5 None 100
    (sample_proc sample_pair) p' r (λ _ _, eq_refl) _ Hrun).
  intros ec Hec. discriminate Hec.
Defined.
