(* ===== verification/Queues.v ===== *)
(** * Queues: [dbos/_queue.py] and the queue operations of [dbos/_sys_db.py]

    [start_queued_workflows] is one transaction of a worker: it counts what runs, selects
    the first waiting workflows and marks them as started. [locked] are the rows that the
    open transactions of other workers hold, which [FOR UPDATE] skips, or, under a global
    concurrency limit, refuses to wait for. Times in seconds are kept in milliseconds. *)
From S2P Require Import Prelude Errors Schema Retry Serialization Workflows Context.

(** [class QueueRateLimit] *)
Record QueueRateLimit := { rl_limit : Z; rl_period_ms : Z }.

(** [class Queue], with whether it is bound to a client's database. *)
Record Queue := MkQueue {
  q_name : string;
  q_concurrency : option Z;
  q_worker_concurrency : option Z;
  q_limiter : option QueueRateLimit;
  q_priority_enabled : bool;
  q_partition_queue : bool;
  q_polling_interval_ms : Z;
  q_database_backed : bool;
  q_client_bound : bool;
}.

#[export] Instance Queue_eta : RecordEta Queue := λ q,
  MkQueue (q_name q) (q_concurrency q) (q_worker_concurrency q) (q_limiter q) (q_priority_enabled q)
    (q_partition_queue q) (q_polling_interval_ms q) (q_database_backed q) (q_client_bound q).

(** ** Configuration *)

Definition exceeds (a b : option Z) : bool :=
  match a, b with Some x, Some y => bool_decide (y < x)%Z | _, _ => false end.

(** [_validate_queue]; the limiter as the dictionary of its two entries. *)
Definition validate_queue (concurrency worker_concurrency : option Z) (polling_interval_ms : Z)
    (limiter : option (option Z * option Z)) : res pyexn unit :=
  if exceeds worker_concurrency concurrency then
    Err (ValueError "concurrency must be greater than or equal to worker_concurrency")
  else if bool_decide (polling_interval_ms ≤ 0)%Z then Err (ValueError "polling_interval_sec must be positive")
  else match limiter with
       | Some (None, _) | Some (_, None) => Err (ValueError "limiter must specify both 'limit' and 'period'")
       | _ => Ok tt
       end.

(** [queue_from_db_row]: the constructor validates the row's values. *)
Definition queue_from_db_row (name : string) (m : queues_row) (client_bound : bool) : res pyexn Queue :=
  let limiter := match qu_rate_limit_max m with
                 | Some n => Some (Some n, qu_rate_limit_period_ms m)
                 | None => None
                 end in
  match validate_queue (qu_concurrency m) (qu_worker_concurrency m) (qu_polling_interval_ms m) limiter with
  | Err e => Err e
  | Ok _ =>
      Ok {| q_name := name; q_concurrency := qu_concurrency m; q_worker_concurrency := qu_worker_concurrency m;
            q_limiter := match limiter with
                         | Some (Some n, Some p) => Some {| rl_limit := n; rl_period_ms := p |}
                         | _ => None
                         end;
            q_priority_enabled := qu_priority_enabled m; q_partition_queue := qu_partition_queue m;
            q_polling_interval_ms := qu_polling_interval_ms m; q_database_backed := true;
            q_client_bound := client_bound |}
  end.

(** [Queue.__init__] of an in-memory queue, with the registry it enters. *)
Definition Queue_init (q : Queue) (registry : gmap string Queue) : res pyexn (gmap string Queue * Queue) :=
  match validate_queue (q_concurrency q) (q_worker_concurrency q) (q_polling_interval_ms q)
          ((λ l, (Some (rl_limit l), Some (rl_period_ms l))) <$> q_limiter q) with
  | Err e => Err e
  | Ok _ =>
      if q_database_backed q then Ok (registry, q)
      else if bool_decide (is_Some (registry !! q_name q)) && bool_decide (q_name q ≠ INTERNAL_QUEUE_NAME)
           then Err (PyException ("Queue " +:+ q_name q +:+ " has already been declared"))
           else Ok (<[q_name q := q]> registry, q)
  end.

Definition get_queue (d : db) (name : string) (client_bound : bool) : res pyexn (option Queue) :=
  match queues d !! name with
  | None => Ok None
  | Some m => match queue_from_db_row name m client_bound with Ok q => Ok (Some q) | Err e => Err e end
  end.

Definition list_queues (d : db) (client_bound : bool) : res pyexn (list Queue) :=
  res_map (λ nm, queue_from_db_row nm.1 nm.2 client_bound) (map_to_list (queues d)).

Definition delete_queue (name : string) : dbM unit :=
  engine_begin (execute (λ d, d <| queues := sql_delete (λ n _, bool_decide (n = name)) (queues d) |>)).

(** An entry of the dictionary of a partial update. *)
Inductive queue_field :=
| FConcurrency (v : option Z)
| FWorkerConcurrency (v : option Z)
| FRateLimitMax (v : option Z)
| FRateLimitPeriod (v : option Z)
| FPriorityEnabled (v : bool)
| FPartitionQueue (v : bool)
| FPollingInterval (v : Z).

Definition set_queue_field (m : queues_row) (f : queue_field) : queues_row :=
  match f with
  | FConcurrency v => m <| qu_concurrency := v |>
  | FWorkerConcurrency v => m <| qu_worker_concurrency := v |>
  | FRateLimitMax v => m <| qu_rate_limit_max := v |>
  | FRateLimitPeriod v => m <| qu_rate_limit_period_ms := v |>
  | FPriorityEnabled v => m <| qu_priority_enabled := v |>
  | FPartitionQueue v => m <| qu_partition_queue := v |>
  | FPollingInterval v => m <| qu_polling_interval_ms := v |>
  end.

Definition update_queue (time_ms : Z) (name : string) (fields : list queue_field) : dbM unit :=
  match fields with
  | [] => mret tt
  | _ => engine_begin (execute (λ d,
           d <| queues := sql_update (λ n _, bool_decide (n = name))
                  (λ m, (foldl set_queue_field m fields) <| qu_updated_at := time_ms |>) (queues d) |>))
  end.

(** [now] is the default of [created_at]; the values are those of [row]. *)
Definition upsert_queue (time_ms now : Z) (name : string) (row : queues_row) (update_existing : bool) : dbM bool :=
  let values := row <| qu_created_at := now |> <| qu_updated_at := time_ms |> in
  engine_begin (
    existed ← query (λ d, bool_decide (is_Some (queues d !! name)));
    _ ← execute (λ d, d <| queues :=
          if update_existing
          then sql_upsert name values (λ m, values <| qu_created_at := qu_created_at m |>) (queues d)
          else sql_insert_nothing name values (queues d) |>);
    mret (negb existed)).

Definition truthy (o : option string) : bool :=
  match o with Some s => bool_decide (s ≠ "") | None => false end.

(** [_validate_enqueue] *)
Definition validate_enqueue (q : Queue) (ctx : option DBOSContext) : res pyexn unit :=
  let key := ctx ≫= cx_queue_partition_key in
  if q_client_bound q then
    Err (DBOSException ("Cannot enqueue on queue " +:+ q_name q +:+ " from a client-bound Queue " +:+
                        "object. Use DBOSClient.enqueue instead."))
  else if truthy key && truthy (ctx ≫= cx_deduplication_id) then
    Err (PyException "Deduplication is not supported for partitioned queues")
  else if q_database_backed q then Ok tt
  else if bool_decide (is_Some (ctx ≫= cx_priority)) && negb (q_priority_enabled q) then
    Err (PyException ("Priority is not enabled for queue " +:+ q_name q +:+
                      ". Setting priority will not have any effect."))
  else if q_partition_queue q && bool_decide (key = None) then
    Err (PyException ("A workflow cannot be enqueued on partitioned queue " +:+ q_name q +:+ " without a partition key"))
  else if truthy key && negb (q_partition_queue q) then
    Err (PyException ("You can only use a partition key on a partition-enabled queue. Key " +:+ default "" key +:+
                      " was used with non-partitioned queue " +:+ q_name q))
  else Ok tt.

(** ** Dispatch *)

Definition get_queue_partitions (d : db) (queue_name : string) : list string :=
  remove_dups (omap (λ kr, ws_queue_partition_key kr.2)
    (sql_select (λ _ r, sql_eq (ws_queue_name r) queue_name && bool_decide (ws_status r = ENQUEUED))
       (workflow_status d))).

Definition due (time_ms : Z) (r : workflow_status_row) : bool :=
  bool_decide (ws_status r = DELAYED) &&
  sql_cmp (λ u t, bool_decide (u ≤ t)%Z) (ws_delay_until_epoch_ms r) time_ms.

Definition transitioned_row (r : workflow_status_row) : workflow_status_row :=
  r <| ws_status := ENQUEUED |>
    <| ws_deduplication_id := if ws_is_debounced r then None else ws_deduplication_id r |>.

Definition transition_delayed_workflows (time_ms : Z) : dbM unit :=
  engine_begin (_ ← update_workflow_rows (λ _, due time_ms) transitioned_row; mret tt).

Definition sys_maxsize : Z := 9223372036854775807.

Section start_queued_workflows.
Context (now start_time_ms : Z) (queue : Queue) (executor_id app_version : string)
  (queue_partition_key : option string) (local_running_count : Z).

Definition in_partition (r : workflow_status_row) : bool :=
  match queue_partition_key with Some k => sql_eq (ws_queue_partition_key r) k | None => true end.

(** The workflows the limiter counts: started by it in its period. *)
Definition recently_started (l : QueueRateLimit) (r : workflow_status_row) : bool :=
  sql_eq (ws_queue_name r) (q_name queue) && ws_rate_limited r &&
  bool_decide (ws_status r ∉ [ENQUEUED; DELAYED]) &&
  sql_cmp (λ s t, bool_decide (t < s)%Z) (ws_started_at_epoch_ms r) (start_time_ms - rl_period_ms l)%Z &&
  in_partition r.

Definition num_recent_queries (l : QueueRateLimit) (d : db) : Z :=
  sql_count (λ _, recently_started l) (workflow_status d).

Definition running (r : workflow_status_row) : bool :=
  sql_eq (ws_queue_name r) (q_name queue) && bool_decide (ws_status r = PENDING) && in_partition r.

Definition global_pending_workflows (d : db) : Z := sql_count (λ _, running) (workflow_status d).

Definition max_tasks (d : db) : Z :=
  let m := match q_worker_concurrency queue with
           | Some w => Z.max 0 (w - local_running_count)
           | None => sys_maxsize
           end in
  match q_concurrency queue with
  | Some c => Z.min m (Z.max 0 (c - global_pending_workflows d))
  | None => m
  end.

(** [SELECT version_name ORDER BY version_timestamp DESC LIMIT 1] *)
Definition latest_version (d : db) : option string :=
  av_version_name <$> head (sql_order_by (λ a b, bool_decide (av_version_timestamp b ≤ av_version_timestamp a)%Z)
                              (map_to_list (application_versions d)).*2).

Definition version_predicate (d : db) (r : workflow_status_row) : bool :=
  sql_eq (ws_application_version r) app_version ||
  (match latest_version d with None => true | Some v => bool_decide (v = app_version) end &&
   bool_decide (ws_application_version r = None)).

Definition dequeuable (d : db) (r : workflow_status_row) : bool :=
  sql_eq (ws_queue_name r) (q_name queue) && bool_decide (ws_status r = ENQUEUED) &&
  version_predicate d r && in_partition r.

(** [ORDER BY priority ASC, created_at ASC] *)
Definition queue_order (a b : workflow_status_row) : bool :=
  bool_decide (ws_priority a < ws_priority b)%Z ||
  (bool_decide (ws_priority a = ws_priority b) && bool_decide (ws_created_at a ≤ ws_created_at b)%Z).

Definition lock_not_available : pyexn :=
  DBAPIError false (Some {| oe_sqlstate := Some "55P03"; oe_text := "could not obtain lock on row";
                            oe_connection_timeout := false |}) "could not obtain lock on row".

(** [dequeued_ids]: the rows the query locks. *)
Definition dequeued_ids (locked : gset string) (d : db) : res pyexn (list string) :=
  let skip_locked := bool_decide (q_concurrency queue = None) in
  let rows := sql_order_by (λ a b, queue_order a.2 b.2)
                (sql_select (λ id r, dequeuable d r && negb (skip_locked && bool_decide (id ∈ locked)))
                   (workflow_status d)) in
  let rows := if bool_decide (max_tasks d ≠ sys_maxsize) then take (Z.to_nat (max_tasks d)) rows else rows in
  if negb skip_locked && existsb (λ id, bool_decide (id ∈ locked)) rows.*1 then Err lock_not_available
  else Ok rows.*1.

Definition started_row (r : workflow_status_row) : workflow_status_row :=
  r <| ws_status := PENDING |> <| ws_application_version := Some app_version |>
    <| ws_executor_id := Some executor_id |> <| ws_started_at_epoch_ms := Some start_time_ms |>
    <| ws_rate_limited := bool_decide (q_limiter queue ≠ None) |>
    <| ws_workflow_deadline_epoch_ms :=
         match ws_workflow_timeout_ms r, ws_workflow_deadline_epoch_ms r with
         | Some t, None => Some (now + t)%Z
         | _, deadline => deadline
         end |>.

(** [for id in dequeued_ids: ...] *)
Fixpoint start_each (num_recent : Z) (dequeued ret_ids : list string) : txn (list string) :=
  match dequeued with
  | [] => mret ret_ids
  | id :: rest =>
      if match q_limiter queue with
         | Some l => bool_decide (rl_limit l ≤ Z.of_nat (length ret_ids) + num_recent)%Z
         | None => false
         end
      then mret ret_ids
      else
        rowcount ← update_workflow_rows (λ i r, bool_decide (i = id) && bool_decide (ws_status r = ENQUEUED)) started_row;
        start_each num_recent rest (if bool_decide (0 < rowcount)%Z then ret_ids ++ [id] else ret_ids)
  end.

Definition start_queued_workflows (locked : gset string) : dbM (list string) :=
  engine_begin (
    num_recent ← query (λ d, match q_limiter queue with Some l => num_recent_queries l d | None => 0%Z end);
    if match q_limiter queue with Some l => bool_decide (rl_limit l ≤ num_recent)%Z | None => false end
    then mret []
    else
      dequeued ← (λ c, (c, dequeued_ids locked (current c)));
      start_each num_recent dequeued []).

End start_queued_workflows.

(** ** A workflow's turn

    The waiting workflows that a dispatch takes before one, and what it takes for that to be
    dispatched: no one else holds it, and those before it leave room for it under each of the
    queue's limits; under a global limit no waiting row may be held, for the dispatch would not
    wait for it. *)
Section turn.
Context (start_time_ms : Z) (queue : Queue) (app_version : string) (queue_partition_key : option string)
  (local_running_count : Z).

Definition ahead (d : db) (id : string) (r : workflow_status_row) : list (string * workflow_status_row) :=
  sql_select (λ id' r', bool_decide (id' ≠ id) && dequeuable queue app_version queue_partition_key d r' && queue_order r' r)
    (workflow_status d).

Definition has_turn (locked : gset string) (d : db) (id : string) (r : workflow_status_row) : Prop :=
  let before := Z.of_nat (length (ahead d id r)) in
  let room := max_tasks queue queue_partition_key local_running_count d in
  id ∉ locked ∧
  (q_concurrency queue ≠ None → ∀ id' r', workflow_status d !! id' = Some r' →
     dequeuable queue app_version queue_partition_key d r' = true → id' ∉ locked) ∧
  (room = sys_maxsize ∨ before < room)%Z ∧
  (∀ l, q_limiter queue = Some l →
     num_recent_queries start_time_ms queue queue_partition_key l d + before < rl_limit l)%Z.
End turn.

Definition clear_queue_assignment (workflow_id : string) : dbM unit :=
  engine_begin (
    _ ← update_workflow_rows (λ id r, bool_decide (id = workflow_id) && bool_decide (ws_queue_name r ≠ None) &&
                                      bool_decide (ws_status r = PENDING))
          (λ r, r <| ws_status := ENQUEUED |> <| ws_started_at_epoch_ms := None |>);
    mret tt).

(** The rows a [Queue] can be built from. *)
Definition row_valid (m : queues_row) : Prop :=
  exceeds (qu_worker_concurrency m) (qu_concurrency m) = false ∧ (0 < qu_polling_interval_ms m)%Z ∧
  (qu_rate_limit_max m ≠ None → qu_rate_limit_period_ms m ≠ None).

Definition queues_valid (d : db) : Prop := ∀ name m, queues d !! name = Some m → row_valid m.

(** ** Sample data *)

Definition sample_limited : Queue := {|
  q_name := "q"; q_concurrency := None; q_worker_concurrency := Some 2%Z;
  q_limiter := Some {| rl_limit := 2; rl_period_ms := 1000 |}; q_priority_enabled := false;
  q_partition_queue := false; q_polling_interval_ms := 1000; q_database_backed := false; q_client_bound := false |}.

Definition sample_waiting (id : string) (priority : Z) : string * workflow_status_row :=
  (id, (sample_row id ENQUEUED) <| ws_queue_name := Some "q" |> <| ws_priority := priority |>).

Definition sample_queued : db :=
  sample_db [sample_waiting "a" 1; sample_waiting "b" 2; sample_waiting "c" 3; sample_waiting "d" 4].

Definition sample_queues_row : queues_row :=
  QueuesRow (Some 4%Z) (Some 2%Z) None None false false 1000 10 10.

(** ** Lemmas *)

Lemma queue_order_spec a b :
  queue_order a b = true ↔
  (ws_priority a < ws_priority b ∨ (ws_priority a = ws_priority b ∧ ws_created_at a ≤ ws_created_at b))%Z.
Proof. unfold queue_order. by rewrite orb_true_iff, andb_true_iff, !bool_decide_eq_true. Qed.

Section dequeue_lemmas.
Context (now start_time_ms : Z) (queue : Queue) (executor_id app_version : string)
  (queue_partition_key : option string) (local_running_count : Z).
Notation dequeuable := (dequeuable queue app_version queue_partition_key).
Notation dequeued_ids := (dequeued_ids queue app_version queue_partition_key local_running_count).
Notation max_tasks := (max_tasks queue queue_partition_key local_running_count).
Notation num_recent_queries := (num_recent_queries start_time_ms queue queue_partition_key).
Notation ahead := (ahead queue app_version queue_partition_key).
Notation has_turn := (has_turn start_time_ms queue app_version queue_partition_key local_running_count).
Notation started_row := (started_row now start_time_ms queue executor_id app_version).
Notation start_each := (start_each now start_time_ms queue executor_id app_version).
Notation start_queued_workflows := (start_queued_workflows now start_time_ms queue executor_id app_version
  queue_partition_key local_running_count).

(** The workflows that are started, of those selected: what the limiter leaves. *)
Definition within_limit (num_recent : Z) (dequeued : list string) : list string :=
  match q_limiter queue with
  | Some l => take (Z.to_nat (rl_limit l - num_recent)) dequeued
  | None => dequeued
  end.

Definition started_db (ids : list string) (d : db) : db :=
  d <| workflow_status := sql_update (λ id _, bool_decide (id ∈ ids)) started_row (workflow_status d) |>.

Lemma started_db_nil d : started_db [] d = d.
Proof. unfold started_db. rewrite sql_update_ids_nil. by destruct d. Qed.

Lemma elem_of_within_limit n l id : id ∈ within_limit n l → id ∈ l.
Proof.
  unfold within_limit. destruct (q_limiter queue); [|done].
  intros Hin. by apply elem_of_take in Hin as (? & ?%list_elem_of_lookup_2 & _).
Qed.

Lemma start_each_eq num_recent dequeued ret c :
  NoDup dequeued →
  (∀ id, id ∈ dequeued → ∃ r, workflow_status (current c) !! id = Some r ∧ ws_status r = ENQUEUED) →
  let ids := within_limit (num_recent + Z.of_nat (length ret)) dequeued in
  start_each num_recent dequeued ret c = (Conn (committed c) (started_db ids (current c)), Ok (ret ++ ids)).
Proof.
  intros Hnd. revert ret c. induction Hnd as [|id rest Hid Hnd IH]; intros ret c Hrows; cbv zeta.
  { assert (within_limit (num_recent + Z.of_nat (length ret)) [] = []) as ->
      by (unfold within_limit; destruct (q_limiter queue); [by rewrite take_nil|done]).
    rewrite started_db_nil, app_nil_r. by destruct c. }
  cbn [start_each].
  destruct (match q_limiter queue with Some l => _ | None => _ end) eqn:Hlim.
  { assert (within_limit (num_recent + Z.of_nat (length ret)) (id :: rest) = []) as ->.
    { unfold within_limit. destruct (q_limiter queue) as [l|]; [|done]. apply bool_decide_eq_true in Hlim.
      by replace (Z.to_nat _) with 0 by lia. }
    rewrite started_db_nil, app_nil_r. by destruct c. }
  destruct (Hrows id ltac:(left)) as (r & Hr & Hs).
  unfold mbind, SM_bind, update_workflow_rows. rewrite sql_count_key, Hr, Hs, sql_update_key, Hr, Hs.
  change (bool_decide (ENQUEUED = ENQUEUED)) with true. change (bool_decide (0 < Z.b2z true)%Z) with true. cbv iota.
  rewrite IH.
  - cbn [current committed workflow_status]. rewrite length_app, <- app_assoc. cbn [length].
    assert (within_limit (num_recent + Z.of_nat (length ret)) (id :: rest) =
            id :: within_limit (num_recent + Z.of_nat (length ret + 1)) rest) as ->.
    { unfold within_limit. destruct (q_limiter queue) as [l|]; [|done]. apply bool_decide_eq_false in Hlim.
      by replace (Z.to_nat (rl_limit l - (num_recent + Z.of_nat (length ret))))
        with (S (Z.to_nat (rl_limit l - (num_recent + Z.of_nat (length ret + 1))))) by lia. }
    set (ids := within_limit _ rest).
    assert (id ∉ ids) as Hids by (by intros Hin%elem_of_within_limit).
    unfold started_db. simpl. rewrite (sql_update_ids_cons _ _ id ids r Hr Hids).
    assert (sql_update (λ id _, bool_decide (id ∈ ids)) started_row (<[id:=started_row r]> (workflow_status (current c))) =
            <[id:=started_row r]> (sql_update (λ id _, bool_decide (id ∈ ids)) started_row (workflow_status (current c)))) as ->;
      [|done].
    apply map_eq. intros i. destruct (decide (id = i)) as [<-|Hne].
    + rewrite lookup_insert_eq, lookup_sql_update, lookup_insert_eq. simpl. by rewrite bool_decide_eq_false_2.
    + by rewrite lookup_insert_ne, !lookup_sql_update, lookup_insert_ne.
  - intros i Hi. destruct (Hrows i ltac:(by right)) as (ri & Hri & Hsi). exists ri. split; [|done]. simpl.
    rewrite lookup_insert_ne; [done|congruence].
Qed.

(** What the query selects: distinct waiting rows that no one else holds, no more than
    [max_tasks], and before all the others it could have selected. *)
Lemma dequeued_ids_spec locked d l :
  dequeued_ids locked d = Ok l →
  NoDup l ∧
  (∀ id, id ∈ l → ∃ r, workflow_status d !! id = Some r ∧ dequeuable d r = true ∧ id ∉ locked) ∧
  (max_tasks d ≠ sys_maxsize → Z.of_nat (length l) ≤ Z.max 0 (max_tasks d))%Z ∧
  (∀ n id r id' r', workflow_status d !! id = Some r → dequeuable d r = true → id ∉ locked → id ∉ take n l →
     id' ∈ take n l → workflow_status d !! id' = Some r' → queue_order r' r = true) ∧
  (max_tasks d = sys_maxsize →
     ∀ id r, workflow_status d !! id = Some r → dequeuable d r = true → id ∉ locked → id ∈ l).
Proof.
  unfold Queues.dequeued_ids. set (skip := bool_decide (q_concurrency queue = None)).
  set (sel := sql_select _ _). set (rows := sql_order_by _ sel).
  set (m := if bool_decide (max_tasks d ≠ sys_maxsize) then Z.to_nat (max_tasks d) else length rows).
  assert ((if bool_decide (max_tasks d ≠ sys_maxsize) then take (Z.to_nat (max_tasks d)) rows else rows) = take m rows) as ->.
  { unfold m. by case_bool_decide; rewrite ?firstn_all. }
  destruct (negb skip && existsb _ _) eqn:Hlock; [done|]. intros [= <-].
  assert (∀ id r, (id, r) ∈ rows ↔ workflow_status d !! id = Some r ∧ dequeuable d r = true ∧ (skip = true → id ∉ locked)) as Hrows.
  { intros id r. unfold rows. rewrite elem_of_sql_order_by. unfold sel. rewrite elem_of_sql_select, andb_true_iff, negb_true_iff.
    destruct skip; simpl; [rewrite bool_decide_eq_false|]; naive_solver. }
  assert (NoDup rows.*1) as Hnd.
  { unfold rows. rewrite sql_order_by_Permutation. apply NoDup_sql_select_keys. }
  assert (StronglySorted (λ a b, Is_true (queue_order a.2 b.2)) rows) as Hsorted.
  { unfold rows. apply (sql_order_by_sorted (λ a b : string * workflow_status_row, queue_order a.2 b.2)).
    - intros [? x] [? y]. rewrite !queue_order_spec. simpl. lia.
    - intros [? x] [? y] [? z]. rewrite !queue_order_spec. simpl. lia. }
  assert (∀ x, x ∈ (take m rows).*1 → x ∉ locked) as Hfree.
  { intros x Hx. destruct skip eqn:Hskip.
    - apply list_elem_of_fmap in Hx as ([id r] & -> & Hin).
      apply elem_of_take in Hin as (i & Hin%list_elem_of_lookup_2 & _). by apply Hrows in Hin as (_ & _ & ?); auto.
    - simpl in Hlock. intros Hl. rewrite <- not_true_iff_false, existsb_exists in Hlock. apply Hlock.
      exists x. split; [by apply list_elem_of_In|]. by apply bool_decide_eq_true. }
  split_and!.
  - rewrite fmap_take. eapply sublist_NoDup; [exact Hnd|]. apply sublist_take.
  - intros id Hid. pose proof (Hfree id Hid). apply list_elem_of_fmap in Hid as ([id' r] & -> & Hin).
    apply elem_of_take in Hin as (i & Hin%list_elem_of_lookup_2 & _). apply Hrows in Hin as (? & ? & _). eauto.
  - intros Hm. rewrite length_fmap, length_take. unfold m. rewrite bool_decide_eq_true_2 by done. lia.
  - intros n id r id' r' Hr Hd Hl Hnot Hin Hr'.
    rewrite <- fmap_take, take_take in Hnot, Hin. set (k := n `min` m) in *.
    apply list_elem_of_fmap in Hin as ([i' q'] & -> & Hin). simpl in *.
    assert (workflow_status d !! i' = Some q') as Hq'.
    { apply elem_of_take in Hin as (i & Hin%list_elem_of_lookup_2 & _). by apply Hrows in Hin as (? & _). }
    simplify_eq. assert ((id, r) ∈ rows) as Hir by (apply Hrows; auto).
    rewrite <- (take_drop k rows) in Hir, Hsorted. apply elem_of_app in Hir as [Hir|Hir].
    { destruct Hnot. apply list_elem_of_fmap. by exists (id, r). }
    apply Is_true_true. exact (StronglySorted_app_1_elem_of _ _ _ _ _ Hsorted Hin Hir).
  - intros Hm id r Hr Hd Hl. unfold m. rewrite bool_decide_eq_false_2 by (intros H; by apply H).
    rewrite firstn_all. apply list_elem_of_fmap. exists (id, r). split; [done|]. by apply Hrows.
Qed.

(** A dispatch that succeeds: it starts the selected workflows the limiter allows. *)
Lemma elem_of_subseteq_take {A} n (l : list A) x : x ∈ take n l → x ∈ l.
Proof. intros (i & Hi%list_elem_of_lookup_2 & _)%elem_of_take. done. Qed.

(** A waiting workflow that no one holds is left out only when the query has all it may take. *)
Lemma dequeued_full locked d l id r :
  dequeued_ids locked d = Ok l → workflow_status d !! id = Some r → dequeuable d r = true → id ∉ locked → id ∉ l →
  max_tasks d ≠ sys_maxsize ∧ Z.of_nat (length l) = Z.max 0 (max_tasks d).
Proof.
  unfold Queues.dequeued_ids. set (skip := bool_decide (q_concurrency queue = None)).
  set (sel := sql_select _ _). set (rows := sql_order_by _ sel). intros Hl Hr Hd Hlock Hnot.
  assert ((id, r) ∈ rows) as Hin.
  { unfold rows. rewrite elem_of_sql_order_by. unfold sel. rewrite elem_of_sql_select, Hd. split; [done|].
    rewrite (bool_decide_eq_false_2 (id ∈ locked)) by done. by rewrite andb_false_r. }
  assert (id ∈ rows.*1) as Hin1 by (apply list_elem_of_fmap; by exists (id, r)).
  case_bool_decide as Hm; destruct (negb skip && _); try done; injection Hl as <-; [|done].
  split; [done|]. rewrite length_fmap, length_take. destruct (decide (length rows ≤ Z.to_nat (max_tasks d))) as [Hle|?]; [|lia].
  rewrite take_ge in Hnot by done. done.
Qed.

(** Each of the first ones that are taken is ahead of one that is not. *)
Lemma taken_ahead locked d l n id r :
  dequeued_ids locked d = Ok l → workflow_status d !! id = Some r → dequeuable d r = true → id ∉ locked → id ∉ take n l →
  length (take n l) ≤ length (ahead d id r).
Proof.
  intros Hl Hr Hd Hlock Hnot. destruct (dequeued_ids_spec _ _ _ Hl) as (Hnd & Hrows & _ & Hord & _).
  rewrite <- (length_fmap fst (ahead d id r)). apply submseteq_length, NoDup_submseteq; [by eapply sublist_NoDup, sublist_take|].
  intros i Hi. destruct (Hrows i) as (r' & Hr' & Hd' & _); [by eapply elem_of_subseteq_take|].
  apply list_elem_of_fmap. exists (i, r'). split; [done|]. apply elem_of_sql_select. split; [done|].
  rewrite Hd', (Hord n id r i r') by done. rewrite bool_decide_eq_true_2; [done|]. by intros ->.
Qed.

(** The workflow whose turn it is, is dispatched. *)
Lemma has_turn_dispatch locked d id r :
  workflow_status d !! id = Some r → dequeuable d r = true → has_turn locked d id r →
  ∃ ids, start_queued_workflows locked d = (started_db ids d, Ok ids) ∧ NoDup ids ∧ id ∈ ids.
Proof.
  intros Hr Hd (Hlock & Hothers & Hroom & Hlimit).
  assert (∃ dq, dequeued_ids locked d = Ok dq) as [dq Hdq].
  { unfold Queues.dequeued_ids. destruct (negb _ && existsb _ _) eqn:Hx; [|eauto]. exfalso.
    apply andb_true_iff in Hx as [Hc Hx]. apply negb_true_iff, bool_decide_eq_false in Hc.
    apply existsb_exists in Hx as (i & Hi & Hil). apply bool_decide_eq_true in Hil. apply list_elem_of_In in Hi.
    apply list_elem_of_fmap in Hi as ([i' r'] & -> & Hi).
    assert ((i', r') ∈ sql_order_by (λ a b, queue_order a.2 b.2) (sql_select (λ id r, dequeuable d r &&
      negb (bool_decide (q_concurrency queue = None) && bool_decide (id ∈ locked))) (workflow_status d))) as Hrow.
    { case_bool_decide; [|done]. by eapply elem_of_subseteq_take. }
    rewrite elem_of_sql_order_by, elem_of_sql_select, andb_true_iff in Hrow. destruct Hrow as (Hr' & Hd' & _).
    by apply (Hothers Hc i' r'). }
  destruct (dequeued_ids_spec _ _ _ Hdq) as (Hnd & Hrows & _).
  assert (id ∈ dq) as Hin.
  { destruct (decide (id ∈ dq)) as [|Hn]; [done|]. exfalso. destruct (dequeued_full _ _ _ _ _ Hdq Hr Hd Hlock Hn) as [Hm Hlen].
    pose proof (taken_ahead _ _ _ (length dq) _ _ Hdq Hr Hd Hlock) as Hle. rewrite firstn_all in Hle. specialize (Hle Hn).
    destruct Hroom; [done|]. lia. }
  set (nr := match q_limiter queue with Some l => num_recent_queries l d | None => 0%Z end).
  exists (within_limit nr dq). split_and!.
  - unfold Queues.start_queued_workflows, engine_begin, query, mbind, SM_bind. cbn [current].
    assert (match q_limiter queue with Some l => bool_decide (rl_limit l ≤ nr)%Z | None => false end = false) as Hlim.
    { unfold nr. destruct (q_limiter queue) as [l|]; [|done]. specialize (Hlimit l eq_refl). apply bool_decide_eq_false. lia. }
    fold nr. rewrite Hlim. cbn [current]. rewrite Hdq.
    rewrite start_each_eq; [|done|].
    + cbn [length]. by rewrite Z.add_0_r.
    + intros i Hi. destruct (Hrows i Hi) as (r' & Hr' & Hq & _). exists r'. split; [done|].
      unfold Queues.dequeuable in Hq. rewrite !andb_true_iff, bool_decide_eq_true in Hq. tauto.
  - unfold within_limit. destruct (q_limiter queue); [by eapply sublist_NoDup, sublist_take|done].
  - unfold within_limit, nr. destruct (q_limiter queue) as [l|]; [|done]. specialize (Hlimit l eq_refl).
    destruct (decide (id ∈ take (Z.to_nat (rl_limit l - num_recent_queries l d)) dq)) as [|Hn]; [done|]. exfalso.
    pose proof (taken_ahead _ _ _ _ _ _ Hdq Hr Hd Hlock Hn) as Hle. rewrite length_take in Hle.
    assert (length dq ≤ Z.to_nat (rl_limit l - num_recent_queries l d) → False) as Hshort.
    { intros Hs. by rewrite take_ge in Hn. }
    lia.
Qed.

(** The order sees the priority and the age of a row alone. *)
Lemma has_turn_same locked d id r r' :
  ws_priority r' = ws_priority r → ws_created_at r' = ws_created_at r → has_turn locked d id r → has_turn locked d id r'.
Proof. intros Hp Hc. unfold Queues.has_turn, Queues.ahead, queue_order. by rewrite Hp, Hc. Qed.

(** On a queue without limits it is always a workflow's turn. *)
Lemma unlimited_turn locked d id r :
  q_concurrency queue = None → q_worker_concurrency queue = None → q_limiter queue = None → id ∉ locked →
  has_turn locked d id r.
Proof.
  intros Hc Hw Hl Hlock. split_and!; [done|by rewrite Hc| |by rewrite Hl].
  left. unfold Queues.max_tasks. by rewrite Hw, Hc.
Qed.

Lemma start_queued_workflows_Ok locked d d' ids :
  start_queued_workflows locked d = (d', Ok ids) →
  d' = started_db ids d ∧
  ((∃ l, q_limiter queue = Some l ∧ (rl_limit l ≤ num_recent_queries l d)%Z ∧ ids = []) ∨
   ∃ dequeued, dequeued_ids locked d = Ok dequeued ∧
     ids = within_limit (match q_limiter queue with Some l => num_recent_queries l d | None => 0 end) dequeued).
Proof.
  intros (c & Hrun & ->)%engine_begin_Ok. unfold query, mbind, SM_bind in Hrun. cbn [current] in Hrun.
  destruct (match q_limiter queue with Some l => bool_decide (rl_limit l ≤ _)%Z | None => false end) eqn:Hlim.
  { injection Hrun as <- <-. rewrite started_db_nil. split; [done|]. left.
    destruct (q_limiter queue) as [l|] eqn:Hq; rewrite ?Hq in Hlim; [|discriminate Hlim].
    apply bool_decide_eq_true in Hlim. eauto. }
  cbn [current] in Hrun.
  destruct (dequeued_ids locked d) as [dequeued|e] eqn:Hd; [|done].
  destruct (dequeued_ids_spec _ _ _ Hd) as (Hnd & Hrows & _).
  rewrite start_each_eq in Hrun; [|done|].
  - simpl in Hrun. rewrite Z.add_0_r in Hrun. injection Hrun as <- <-. split; [done|]. right. eauto.
  - intros id Hid. destruct (Hrows id Hid) as (r & Hr & Hq & _). exists r. split; [done|].
    unfold Queues.dequeuable in Hq. rewrite !andb_true_iff, bool_decide_eq_true in Hq. tauto.
Qed.

(** A dispatch that raises changes nothing. *)
Lemma start_queued_workflows_Err locked d d' e : start_queued_workflows locked d = (d', Err e) → d' = d.
Proof.
  unfold Queues.start_queued_workflows, engine_begin, query, mbind, SM_bind. cbn [current committed].
  destruct (match q_limiter queue with Some l => bool_decide (rl_limit l ≤ _)%Z | None => false end); [done|].
  cbn [current]. destruct (dequeued_ids locked d) as [dequeued|e'] eqn:Hd; [|by intros [= <- _]].
  destruct (dequeued_ids_spec _ _ _ Hd) as (Hnd & Hrows & _). cbn [current]. rewrite start_each_eq; [done|done|].
  intros id Hid. destruct (Hrows id Hid) as (r & Hr & Hq & _). exists r. split; [done|].
  unfold Queues.dequeuable in Hq. rewrite !andb_true_iff, bool_decide_eq_true in Hq. tauto.
Qed.

(** The started rows, their facts together. *)
Lemma started_rows locked d d' ids :
  start_queued_workflows locked d = (d', Ok ids) →
  NoDup ids ∧ (∀ id, id ∈ ids → ∃ r, workflow_status d !! id = Some r ∧ dequeuable d r = true ∧ id ∉ locked).
Proof.
  intros (_ & [(l & _ & _ & ->)|(dq & Hdq & ->)])%start_queued_workflows_Ok.
  { split; [constructor|by intros id ?%elem_of_nil]. }
  destruct (dequeued_ids_spec _ _ _ Hdq) as (Hnd & Hrows & _). split.
  - unfold within_limit. destruct (q_limiter queue); [|done]. eapply sublist_NoDup; [exact Hnd|]. apply sublist_take.
  - intros id Hid%elem_of_within_limit. by apply Hrows.
Qed.

(** What is started counts as running, and as started in the limiter's period. *)
Definition waiting (d : db) (id : string) : Prop :=
  ∃ r, workflow_status d !! id = Some r ∧ sql_eq (ws_queue_name r) (q_name queue) = true ∧
       ws_status r = ENQUEUED ∧ in_partition queue_partition_key r = true.

Lemma dequeuable_waiting d id r :
  workflow_status d !! id = Some r → dequeuable d r = true → waiting d id.
Proof.
  intros Hr Hq. exists r. unfold Queues.dequeuable in Hq. rewrite !andb_true_iff, bool_decide_eq_true in Hq. tauto.
Qed.

Lemma pending_of_started ids d :
  NoDup ids → (∀ id, id ∈ ids → waiting d id) →
  global_pending_workflows queue queue_partition_key (started_db ids d) =
  (global_pending_workflows queue queue_partition_key d + Z.of_nat (length ids))%Z.
Proof.
  intros Hnd Hrows. apply sql_count_update_ids; [done|]. intros id Hid.
  destruct (Hrows id Hid) as (r & Hr & Hq & Hs & Hp). exists r. split; [done|]. unfold running. rewrite Hs.
  split; [by rewrite bool_decide_eq_false_2, andb_false_r|]. unfold in_partition in *. simpl. by rewrite Hq, Hp.
Qed.

Lemma recent_of_started l ids d :
  NoDup ids → (∀ id, id ∈ ids → waiting d id) → q_limiter queue = Some l → (0 < rl_period_ms l)%Z →
  num_recent_queries l (started_db ids d) = (num_recent_queries l d + Z.of_nat (length ids))%Z.
Proof.
  intros Hnd Hrows Hl Hper. apply sql_count_update_ids; [done|]. intros id Hid.
  destruct (Hrows id Hid) as (r & Hr & Hq & Hs & Hp). exists r. split; [done|]. unfold recently_started. rewrite Hs. split.
  - rewrite (bool_decide_eq_false_2 (ENQUEUED ∉ _)) by (intros H; apply H; left). by rewrite !andb_false_r.
  - unfold in_partition in *. simpl. rewrite Hq, Hp, Hl. simpl. rewrite bool_decide_eq_true_2 by lia. done.
Qed.

End dequeue_lemmas.

Lemma queue_from_db_row_valid name m b :
  row_valid m ↔ ∃ q, queue_from_db_row name m b = Ok q.
Proof.
  unfold queue_from_db_row, validate_queue, row_valid.
  destruct (exceeds _ _); [split; [naive_solver|by intros (? & [=])]|].
  destruct (bool_decide (qu_polling_interval_ms m ≤ 0)%Z) eqn:Hp.
  { apply bool_decide_eq_true in Hp. split; [lia|by intros (? & [=])]. }
  apply bool_decide_eq_false in Hp.
  destruct (qu_rate_limit_max m), (qu_rate_limit_period_ms m); (split; [|intros (? & ?)]);
    try (split_and!; [done|lia|done]); try by eauto.
  intros (_ & _ & H). by destruct H.
Qed.

(** The row a cache is read from. *)
Lemma queue_from_db_row_fields name m b q :
  queue_from_db_row name m b = Ok q →
  q_concurrency q = qu_concurrency m ∧ q_worker_concurrency q = qu_worker_concurrency m ∧
  ((λ l, (Some (rl_limit l), Some (rl_period_ms l))) <$> q_limiter q) =
    ((λ n, (Some n, qu_rate_limit_period_ms m)) <$> qu_rate_limit_max m) ∧
  q_priority_enabled q = qu_priority_enabled m ∧ q_partition_queue q = qu_partition_queue m ∧
  q_polling_interval_ms q = qu_polling_interval_ms m.
Proof.
  unfold queue_from_db_row. destruct (validate_queue _ _ _ _) eqn:Hv; [|done]. intros [= <-]. simpl.
  split_and!; try done. unfold validate_queue in Hv. destruct (exceeds _ _); [done|]. destruct (bool_decide _); [done|].
  destruct (qu_rate_limit_max m), (qu_rate_limit_period_ms m); try done.
Qed.

(** ** Properties *)

(** C13: a dispatch respects the limits of its queue: whatever it starts, the workflows
    that run on the queue (or on the partition) are as many more, and never beyond
    [concurrency] unless they were before; the worker is given no more than
    [worker_concurrency] leaves it; and the workflows started in the limiter's period stay
    within its limit. *)
Theorem dequeue_respects_limits now start q executor app_version key local locked d d' ids :
  start_queued_workflows now start q executor app_version key local locked d = (d', Ok ids) →
  (0 ≤ local)%Z →
  global_pending_workflows q key d' = (global_pending_workflows q key d + Z.of_nat (length ids))%Z ∧
  (∀ c, q_concurrency q = Some c → (c < sys_maxsize)%Z →
     global_pending_workflows q key d' ≤ Z.max (global_pending_workflows q key d) c)%Z ∧
  (∀ w, q_worker_concurrency q = Some w → (w < sys_maxsize)%Z → Z.of_nat (length ids) ≤ Z.max 0 (w - local))%Z ∧
  (∀ l, q_limiter q = Some l → (0 < rl_period_ms l)%Z →
     num_recent_queries start q key l d' ≤ Z.max (num_recent_queries start q key l d) (rl_limit l))%Z.
Proof.
  intros Hrun Hlocal. destruct (started_rows _ _ _ _ _ _ _ _ _ _ _ Hrun) as [Hnd Hrows].
  destruct (start_queued_workflows_Ok _ _ _ _ _ _ _ _ _ _ _ Hrun) as [-> Hids].
  assert (∀ id, id ∈ ids → waiting q key d id) as Hwait.
  { intros id Hid. destruct (Hrows id Hid) as (r & Hr & Hq & _). by eapply dequeuable_waiting. }
  assert (global_pending_workflows q key (started_db now start q executor app_version ids d) =
          global_pending_workflows q key d + Z.of_nat (length ids))%Z as Hpending by (by apply pending_of_started).
  assert (0 ≤ global_pending_workflows q key d)%Z as Hpos by apply sql_count_nonneg.
  assert (max_tasks q key local d ≠ sys_maxsize → Z.of_nat (length ids) ≤ Z.max 0 (max_tasks q key local d))%Z as Hmax.
  { intros Hm. destruct Hids as [(l & _ & _ & ->)|(dq & Hdq & ->)]; [simpl; lia|].
    destruct (dequeued_ids_spec _ _ _ _ _ _ _ Hdq) as (_ & _ & Hlen & _). specialize (Hlen Hm).
    unfold within_limit. destruct (q_limiter q); [rewrite length_take; lia|lia]. }
  unfold max_tasks in Hmax. split_and!; [done| | |].
  - intros c Hc Hcm. rewrite Hc in Hmax. revert Hmax. unfold sys_maxsize in *. destruct (q_worker_concurrency q); lia.
  - intros w Hw Hwm. rewrite Hw in Hmax. revert Hmax. unfold sys_maxsize in *. destruct (q_concurrency q); lia.
  - intros l Hl Hp.
    rewrite (recent_of_started now start q executor app_version key l ids d Hnd Hwait Hl Hp).
    destruct Hids as [(l' & _ & _ & ->)|(dq & Hdq & ->)]; [simpl; lia|].
    unfold within_limit. rewrite Hl, length_take. lia.
Qed.

(** C16: a dispatch starts the right workflows: each was waiting on the queue (and in the
    partition), for this version of the application or for any, and held by no one else;
    it is now this executor's, with its deadline set; no other row, and nothing else, is
    changed. Those left waiting come no earlier, by priority and then by age, than any
    that was started; and without limits none is left. *)
Theorem dequeue_starts_first now start q executor app_version key local locked d d' ids :
  start_queued_workflows now start q executor app_version key local locked d = (d', Ok ids) →
  d' = d <| workflow_status := workflow_status d' |> ∧ NoDup ids ∧
  (∀ id, id ∈ ids → ∃ r, workflow_status d !! id = Some r ∧ dequeuable q app_version key d r = true ∧ id ∉ locked ∧
     workflow_status d' !! id = Some (started_row now start q executor app_version r)) ∧
  (∀ id, id ∉ ids → workflow_status d' !! id = workflow_status d !! id) ∧
  (∀ id r, workflow_status d !! id = Some r → dequeuable q app_version key d r = true → id ∉ locked → id ∉ ids →
     ∀ id' r', id' ∈ ids → workflow_status d !! id' = Some r' → queue_order r' r = true) ∧
  (q_concurrency q = None → q_worker_concurrency q = None → q_limiter q = None →
     ∀ id r, workflow_status d !! id = Some r → dequeuable q app_version key d r = true → id ∉ locked → id ∈ ids).
Proof.
  intros Hrun. destruct (started_rows _ _ _ _ _ _ _ _ _ _ _ Hrun) as [Hnd Hrows].
  destruct (start_queued_workflows_Ok _ _ _ _ _ _ _ _ _ _ _ Hrun) as [-> Hids]. split_and!; [done|done| | | |].
  - intros id Hid. destruct (Hrows id Hid) as (r & Hr & Hq & Hl). exists r. split_and!; try done.
    simpl. rewrite lookup_sql_update, Hr. simpl. by rewrite bool_decide_eq_true_2.
  - intros id Hid. simpl. rewrite lookup_sql_update. destruct (workflow_status d !! id); simpl; [|done].
    by rewrite bool_decide_eq_false_2.
  - intros id r Hr Hq Hl Hnot id' r' Hid' Hr'. destruct Hids as [(l & _ & _ & ->)|(dq & Hdq & Hids)]; [by apply elem_of_nil in Hid'|].
    destruct (dequeued_ids_spec _ _ _ _ _ _ _ Hdq) as (_ & _ & _ & Hord & _).
    assert (∃ n, ids = take n dq) as (n & ->).
    { subst ids. unfold within_limit. destruct (q_limiter q); [eauto|]. exists (length dq). by rewrite firstn_all. }
    by eapply Hord.
  - intros Hc Hw Hlim id r Hr Hq Hl. destruct Hids as [(l & ? & _)|(dq & Hdq & ->)]; [congruence|].
    destruct (dequeued_ids_spec _ _ _ _ _ _ _ Hdq) as (_ & _ & _ & _ & Hall).
    unfold within_limit. rewrite Hlim. eapply Hall; [|done..]. unfold max_tasks. by rewrite Hw, Hc.
Qed.

(** Two workers that dispatch the same queue at the same time, each from the state
    before the other's commit, start every workflow once: the second takes none of the
    rows the first holds. But each has counted without the other, so the limiter's limit
    is one of a batch: the two batches together start as many as both found room for. *)
Lemma concurrent_dispatch now start q ex1 ex2 app_version key local1 local2 d d1 ids1 d2 ids2 l :
  start_queued_workflows now start q ex1 app_version key local1 ∅ d = (d1, Ok ids1) →
  start_queued_workflows now start q ex2 app_version key local2 (list_to_set ids1) d = (d2, Ok ids2) →
  q_limiter q = Some l → (0 < rl_period_ms l)%Z →
  let merged := started_db now start q ex2 app_version ids2 d1 in
  NoDup (ids1 ++ ids2) ∧
  (∀ id, id ∈ ids1 → workflow_status merged !! id = workflow_status d1 !! id) ∧
  (∀ id, id ∈ ids2 → workflow_status merged !! id = workflow_status d2 !! id) ∧
  num_recent_queries start q key l merged =
    (num_recent_queries start q key l d + Z.of_nat (length ids1) + Z.of_nat (length ids2))%Z.
Proof.
  intros Hrun1 Hrun2 Hl Hp merged.
  destruct (started_rows _ _ _ _ _ _ _ _ _ _ _ Hrun1) as [Hnd1 Hrows1].
  destruct (started_rows _ _ _ _ _ _ _ _ _ _ _ Hrun2) as [Hnd2 Hrows2].
  destruct (start_queued_workflows_Ok _ _ _ _ _ _ _ _ _ _ _ Hrun1) as [-> _].
  destruct (start_queued_workflows_Ok _ _ _ _ _ _ _ _ _ _ _ Hrun2) as [-> _].
  assert (∀ id, id ∈ ids2 → id ∉ ids1) as Hdis.
  { intros id Hid. destruct (Hrows2 id Hid) as (r & _ & _ & Hn). by rewrite elem_of_list_to_set in Hn. }
  assert (∀ id, id ∈ ids2 → workflow_status (started_db now start q ex1 app_version ids1 d) !! id = workflow_status d !! id) as Hsame.
  { intros id Hid. simpl. rewrite lookup_sql_update. destruct (workflow_status d !! id); simpl; [|done].
    by rewrite bool_decide_eq_false_2 by auto. }
  split_and!.
  - apply NoDup_app. split_and!; [done| |done]. intros id H1 H2. by eapply Hdis.
  - intros id Hid. unfold merged. simpl. rewrite !lookup_sql_update. destruct (workflow_status d !! id); simpl; [|done].
    by rewrite (bool_decide_eq_false_2 (id ∈ ids2)) by (intros H; by eapply Hdis).
  - intros id Hid. specialize (Hsame id Hid). unfold merged. simpl in *.
    by rewrite (lookup_sql_update _ _ (sql_update _ _ _)), Hsame, lookup_sql_update.
  - unfold merged. rewrite (recent_of_started now start q ex2 app_version key l ids2), (recent_of_started now start q ex1 app_version key l ids1); try done.
    + intros id Hid. destruct (Hrows1 id Hid) as (r & Hr & Hq & _). by eapply dequeuable_waiting.
    + intros id Hid. destruct (Hrows2 id Hid) as (r & Hr & Hq & _).
      destruct (dequeuable_waiting _ _ _ _ _ _ Hr Hq) as (r' & Hr' & ?). exists r'. by rewrite Hsame.
Qed.

(** ** Witnesses *)

Lemma dequeue_respects_limits_witness :
  let d' := (start_queued_workflows 9 500 sample_limited "e1" "v1" None 0 ∅ sample_queued).1 in
  (num_recent_queries 500 sample_limited None {| rl_limit := 2; rl_period_ms := 1000 |} d' ≤ 2)%Z.
Proof.
  intros d'.
  assert ((start_queued_workflows 9 500 sample_limited "e1" "v1" None 0 ∅ sample_queued).2 = Ok ["a"; "b"]) as Hr by (vm_compute; reflexivity).
  destruct (dequeue_respects_limits 9 500 sample_limited "e1" "v1" None 0 ∅ sample_queued d' ["a"; "b"]
    (snd_Ok_pair _ _ Hr) ltac:(lia)) as (_ & _ & _ & H).
  exact (H _ eq_refl eq_refl).
Defined.

Lemma dequeue_starts_first_witness :
  let d' := (start_queued_workflows 9 500 sample_limited "e1" "v1" None 0 ∅ sample_queued).1 in
  workflow_status d' !! "c" = workflow_status sample_queued !! "c".
Proof.
  intros d'.
  assert ((start_queued_workflows 9 500 sample_limited "e1" "v1" None 0 ∅ sample_queued).2 = Ok ["a"; "b"]) as Hr by (vm_compute; reflexivity).
  destruct (dequeue_starts_first 9 500 sample_limited "e1" "v1" None 0 ∅ sample_queued d' ["a"; "b"]
    (snd_Ok_pair _ _ Hr)) as (_ & _ & _ & H & _).
  apply H. rewrite !elem_of_cons, elem_of_nil. intros [?|[?|[]]]; discriminate.
Defined.

Lemma concurrent_dispatch_witness :
  let d1 := (start_queued_workflows 9 500 sample_limited "e1" "v1" None 0 ∅ sample_queued).1 in
  num_recent_queries 500 sample_limited None {| rl_limit := 2; rl_period_ms := 1000 |}
    (started_db 9 500 sample_limited "e2" "v1" ["c"; "d"] d1) = 4%Z.
Proof.
  intros d1.
  assert ((start_queued_workflows 9 500 sample_limited "e1" "v1" None 0 ∅ sample_queued).2 = Ok ["a"; "b"]) as Hr1 by (vm_compute; reflexivity).
  assert ((start_queued_workflows 9 500 sample_limited "e2" "v1" None 0 (list_to_set ["a"; "b"]) sample_queued).2 = Ok ["c"; "d"]) as Hr2 by (vm_compute; reflexivity).
  destruct (concurrent_dispatch 9 500 sample_limited "e1" "e2" "v1" None 0 0 sample_queued d1 ["a"; "b"]
    (start_queued_workflows 9 500 sample_limited "e2" "v1" None 0 (list_to_set ["a"; "b"]) sample_queued).1
    ["c"; "d"] {| rl_limit := 2; rl_period_ms := 1000 |}
    (snd_Ok_pair _ _ Hr1) (snd_Ok_pair _ _ Hr2) eq_refl eq_refl) as (_ & _ & _ & H).
  rewrite H. reflexivity.
Defined.
