(* ===== verification/Process.v ===== *)
(** * Processes that may crash, and [dbos/_outcome.py]

    A [process] is a call as the world sees it: the actions it makes on the world one
    after the other, each of them atomic (a transaction, a request to another system, a
    wait), up to its return. [run_for n] runs the first [n] actions, after which the machine
    is lost; [finish] runs to the end. [Immediate] are the compositions of an outcome that
    [dbos/_outcome.py] offers; an asynchronous outcome composes the same way. *)
From Stdlib Require Import QArith Qminmax.
From S2P Require Import Prelude Errors Serialization Context.
Open Scope nat_scope.

(** [Waits] is a call that is still waiting when its bound on polls is used up. *)
Inductive process (W A : Type) : Type :=
| Returns (r : res pyexn A)
| Act (f : W → W * process W A)
| Waits.
Arguments Returns {W A} r.
Arguments Act {W A} f.
Arguments Waits {W A}.

(** Whatever the call returns or raises, [k] goes on with it: the body of an [except] or a
    [finally], and the composition of outcomes. *)
Fixpoint and_then {W A B} (p : process W A) (k : res pyexn A → process W B) : process W B :=
  match p with
  | Returns r => k r
  | Act f => Act (λ w, let '(w', p') := f w in (w', and_then p' k))
  | Waits => Waits
  end.

#[export] Instance process_ret {W} : MRet (process W) := λ A a, Returns (Ok a).
#[export] Instance process_bind {W} : MBind (process W) := λ A B k p,
  and_then p (λ r, match r with Ok a => k a | Err e => Returns (Err e) end).

(** One atomic action. *)
Definition act {W A} (m : SM W pyexn A) : process W A :=
  Act (λ w, let '(w', r) := m w in (w', Returns r)).

(** The process on a part of a larger world. *)
Fixpoint within {W V A} (get : W → V) (put : V → W → W) (p : process V A) : process W A :=
  match p with
  | Returns r => Returns r
  | Act f => Act (λ w, let '(v, p') := f (get w) in (put v w, within get put p'))
  | Waits => Waits
  end.

(** At most [n] actions: the world they leave, and, when the call returned, its result and
    the actions that were left. *)
Fixpoint run_for {W A} (n : nat) (p : process W A) (w : W) {struct p} : W * option (nat * res pyexn A) :=
  match p with
  | Returns r => (w, Some (n, r))
  | Act f =>
      match n with
      | O => (w, None)
      | S n' => let '(w', p') := f w in run_for n' p' w'
      end
  | Waits => (w, None)
  end.

(** The whole call; [None] when it waits for ever. *)
Fixpoint finish {W A} (p : process W A) (w : W) : W * option (res pyexn A) :=
  match p with
  | Returns r => (w, Some r)
  | Act f => let '(w', p') := f w in finish p' w'
  | Waits => (w, None)
  end.

(** ** [Immediate] *)

Section outcome.
Context {W : Type}.
(** What happens in the world while the process sleeps, by the seconds it sleeps. *)
Context (sleep : Q → W → W).

(** [intercept]: the interceptor's result, or the function's when there is [NoResult]. *)
Definition intercept {A} (func : process W A) (interceptor : process W (option A)) : process W A :=
  intercepted ← interceptor;
  match intercepted with
  | Some a => mret a
  | None => func
  end.

(** [EnterDBOSStepRetry(current_attempt, max_attempts).__enter__] *)
Definition enter_step_retry (current_attempt max_attempts : Z) (ctx : DBOSContext) : DBOSContext :=
  match cx_step_status ctx with
  | Some s => ctx <| cx_step_status := Some {| step_id := step_id s; current_attempt := Some current_attempt;
                                               max_attempts := Some max_attempts |} |>
  | None => ctx
  end.

(** [Immediate._retry], [left] attempts before its end; the function runs in the context
    [ctx]. *)
Fixpoint retry_from (left : nat) (attempts i : Z) (errors : list pyexn) (ctx : DBOSContext)
    (func : DBOSContext → process W pyval) (on_exception : Z → Q)
    (exceeded_retries : Z → list pyexn → pyexn) (should_retry : option (pyexn → bool)) : process W pyval :=
  match left with
  | O => Returns (Err (exceeded_retries attempts errors))
  | S left' =>
      and_then (func (enter_step_retry i attempts ctx)) (λ r,
        match r with
        | Ok v => Returns (Ok v)
        | Err exp =>
            if negb (is_Exception exp) then Returns (Err exp)
            else if match should_retry with Some p => negb (p exp) | None => false end then Returns (Err exp)
            else if bool_decide (i = attempts - 1)%Z
            then Returns (Err (exceeded_retries attempts (errors ++ [exp])))
            else
              _ ← act (modify (sleep (on_exception i)));
              retry_from left' attempts (i + 1) (errors ++ [exp]) ctx func on_exception exceeded_retries should_retry
        end)
  end.

Definition retry (attempts : Z) := retry_from (Z.to_nat attempts) attempts 0 [].

End outcome.

(** [P] holds of every world a crash of the call can leave. *)
Definition crash_states {W A} (p : process W A) (w : W) (P : W → Prop) : Prop :=
  ∀ n w', run_for n p w = (w', None) → P w'.

(** [P] holds all along: of every world the call goes through, and of the last. *)
Definition always {W A} (p : process W A) (w : W) (P : W → Prop) : Prop := ∀ n, P (run_for n p w).1.

(** [p] in [w] comes to [q] in [w'] with no world in between: they end alike, and so do
    their crashes. *)
Definition leads_to {W A} (p : process W A) (w : W) (q : process W A) (w' : W) : Prop :=
  finish p w = finish q w' ∧ ∀ P : W → Prop, P w → P w' → crash_states q w' P → crash_states p w P.

(** [p] ends, in whatever world it starts, with a value in [P] if it returns one, and all
    along it moves the world by [Q]. *)
Definition ends_in {W A} (Q : relation W) (P : A → Prop) (p : process W A) : Prop :=
  ∀ w, (∃ w' r, finish p w = (w', Some r) ∧ Q w w' ∧ ∀ a, r = Ok a → P a) ∧ crash_states p w (Q w).

Definition ends {W A} (Q : relation W) : process W A → Prop := ends_in Q (λ _, True).

(** A run of the process to its end, with what others do, by [R], after each of its actions. *)
Inductive among {W A} (R : relation W) : process W A → W → res pyexn A → W → Prop :=
| among_returns r s : among R (Returns r) s r s
| among_act f s s1 r s2 : R (f s).1 s1 → among R (f s).2 s1 r s2 → among R (Act f) s r s2.

(** ** Lemmas *)

Lemma process_nested_ind {W A} (P : process W A → Prop) :
  (∀ r, P (Returns r)) → (∀ f, (∀ w, P (f w).2) → P (Act f)) → P Waits → ∀ p, P p.
Proof.
  intros Hr Ha Hw. fix IH 1. intros [r|f|]; [apply Hr| |apply Hw]. apply Ha. intros w. apply IH.
Qed.

Section run_lemmas.
Context {W : Type}.

Lemma bind_returns {A B} (a : A) (k : A → process W B) : Returns (Ok a) ≫= k = k a.
Proof. done. Qed.

Lemma bind_mret {A B} (a : A) (k : A → process W B) : mret a ≫= k = k a.
Proof. done. Qed.

Lemma run_for_and_then {A B} n (p : process W A) (k : res pyexn A → process W B) w :
  run_for n (and_then p k) w =
  match run_for n p w with
  | (w', Some (m, r)) => run_for m (k r) w'
  | (w', None) => (w', None)
  end.
Proof.
  revert n w. induction p as [r|f IH|] using process_nested_ind; intros n w; simpl; try done.
  destruct n as [|n]; [done|]. specialize (IH w). destruct (f w) as [w' p']. apply IH.
Qed.

Lemma finish_and_then {A B} (p : process W A) (k : res pyexn A → process W B) w :
  finish (and_then p k) w =
  match finish p w with
  | (w', Some r) => finish (k r) w'
  | (w', None) => (w', None)
  end.
Proof.
  revert w. induction p as [r|f IH|] using process_nested_ind; intros w; simpl; try done.
  specialize (IH w). destruct (f w) as [w' p']. apply IH.
Qed.

(** A call that finishes is a run with enough actions. *)
Lemma run_for_finish {A} (p : process W A) w w' n m r :
  run_for n p w = (w', Some (m, r)) → finish p w = (w', Some r).
Proof.
  revert n w. induction p as [r'|f IH|] using process_nested_ind; intros n w; simpl; [by intros [= -> _ ->]| |done].
  destruct n as [|n]; [done|]. specialize (IH w). destruct (f w) as [w1 p']. apply IH.
Qed.

Lemma finish_run_for {A} (p : process W A) w w' r :
  finish p w = (w', Some r) → ∃ n, run_for n p w = (w', Some (0, r)).
Proof.
  revert w. induction p as [r'|f IH|] using process_nested_ind; intros w; simpl; [intros [= -> ->]; by exists 0| |done].
  specialize (IH w). destruct (f w) as [w1 p'] eqn:Hf. intros H. destruct (IH w1 H) as [n Hn].
  exists (S n). exact Hn.
Qed.

Lemma run_for_more {A} (p : process W A) w w' n m r j :
  run_for n p w = (w', Some (m, r)) → run_for (n + j) p w = (w', Some (m + j, r)).
Proof.
  revert n w. induction p as [r'|f IH|] using process_nested_ind; intros n w; simpl; [by intros [= -> -> ->]| |done].
  destruct n as [|n]; [done|]. specialize (IH w). simpl. destruct (f w) as [w1 p']. apply IH.
Qed.

Lemma run_for_act {A} n (m : SM W pyexn A) w :
  run_for n (act m) w = match n with O => (w, None) | S n' => ((m w).1, Some (n', (m w).2)) end.
Proof. destruct n; [done|]. simpl. by destruct (m w). Qed.

Lemma finish_act {A} (m : SM W pyexn A) w : finish (act m) w = ((m w).1, Some (m w).2).
Proof. simpl. by destruct (m w). Qed.

Lemma crash_returns {A} (r : res pyexn A) (w : W) P : crash_states (Returns r) w P.
Proof. by intros n w'. Qed.

Lemma crash_act {A} (m : SM W pyexn A) w (P : W → Prop) : P w → crash_states (act m) w P.
Proof. intros HP n w'. rewrite run_for_act. destruct n; [by intros [= <-]|done]. Qed.

Lemma crash_and_then {A B} (p : process W A) (k : res pyexn A → process W B) w P :
  crash_states p w P → (∀ w1 r, finish p w = (w1, Some r) → crash_states (k r) w1 P) →
  crash_states (and_then p k) w P.
Proof.
  intros Hp Hk n w'. rewrite run_for_and_then. destruct (run_for n p w) as [w1 [[m r]|]] eqn:Hr.
  - apply (Hk w1 r). by eapply run_for_finish.
  - intros [= <-]. by eapply Hp.
Qed.

Lemma always_returns {A} (r : res pyexn A) (w : W) (P : W → Prop) : P w → always (Returns r) w P.
Proof. by intros HP n. Qed.

Lemma always_act {A} (m : SM W pyexn A) w (P : W → Prop) : P w → P (m w).1 → always (act m) w P.
Proof. intros HP Hm n. rewrite run_for_act. by destruct n. Qed.

Lemma always_finish {A} (p : process W A) w w' r P : always p w P → finish p w = (w', Some r) → P w'.
Proof. intros HP Hf. apply finish_run_for in Hf as [n Hn]. specialize (HP n). by rewrite Hn in HP. Qed.

(** All along is until the end and at the end. *)
Lemma always_crash_states {A} (p : process W A) w P :
  crash_states p w P → (∀ w' r, finish p w = (w', Some r) → P w') → always p w P.
Proof.
  intros Hc Hf n. destruct (run_for n p w) as [w' [[m r]|]] eqn:Hr; [by eapply Hf, run_for_finish|by apply (Hc n)].
Qed.

Lemma always_weaken {A} (p : process W A) w (P P' : W → Prop) : (∀ w', P w' → P' w') → always p w P → always p w P'.
Proof. intros HP Hp n. apply HP, Hp. Qed.

Lemma always_and_then {A B} (p : process W A) (k : res pyexn A → process W B) w P :
  always p w P → (∀ w1 r, finish p w = (w1, Some r) → P w1 → always (k r) w1 P) → always (and_then p k) w P.
Proof.
  intros Hp Hk n. rewrite run_for_and_then. pose proof (Hp n) as Hn. destruct (run_for n p w) as [w1 [[m r]|]] eqn:Hr; [|done].
  by apply (Hk w1 r); [eapply run_for_finish|].
Qed.

Lemma ends_returns {A} Q `{!Reflexive Q} (P : A → Prop) (r : res pyexn A) :
  (∀ a, r = Ok a → P a) → ends_in Q P (Returns (W:=W) r).
Proof. intros HP w. split; [by exists w, r|apply crash_returns]. Qed.

Lemma ends_raises {A} Q `{!Reflexive Q} (P : A → Prop) (e : pyexn) : ends_in Q P (Returns (W:=W) (Err e)).
Proof. by apply ends_returns. Qed.

Lemma ends_mret {A} Q `{!Reflexive Q} (P : A → Prop) (a : A) : P a → ends_in Q P (mret (M:=process W) a).
Proof. intros HP. apply ends_returns; [done|]. by intros a' [= <-]. Qed.

Lemma ends_act {A} Q `{!Reflexive Q} (P : A → Prop) (m : SM W pyexn A) :
  moves Q m → (∀ w a, (m w).2 = Ok a → P a) → ends_in Q P (act m).
Proof.
  intros Hm HP w. split; [|by apply crash_act]. exists (m w).1, (m w).2.
  split_and!; [apply finish_act|apply Hm|apply HP].
Qed.

Lemma ends_and_then {A B} Q `{!Transitive Q} (P : A → Prop) (P' : B → Prop) (p : process W A) (k : res pyexn A → process W B) :
  ends_in Q P p → (∀ r, (∀ a, r = Ok a → P a) → ends_in Q P' (k r)) → ends_in Q P' (and_then p k).
Proof.
  intros Hp Hk w. destruct (Hp w) as [(w1 & r1 & Hf & Hq & HP) Hc]. destruct (Hk r1 HP w1) as [(w2 & r2 & Hf2 & Hq2 & HP2) Hc2].
  split.
  - exists w2, r2. split_and!; [by rewrite finish_and_then, Hf|by etrans|done].
  - apply crash_and_then; [done|]. intros w3 r3 Hf3. rewrite Hf in Hf3. injection Hf3 as <- <-.
    intros n w4 Hn. etrans; [exact Hq|by apply (Hc2 n)].
Qed.

Lemma ends_bind {A B} Q `{!PreOrder Q} (P : A → Prop) (P' : B → Prop) (p : process W A) (k : A → process W B) :
  ends_in Q P p → (∀ a, P a → ends_in Q P' (k a)) → ends_in Q P' (p ≫= k).
Proof.
  intros Hp Hk. eapply ends_and_then; [apply _|exact Hp|]. intros [a|e] HP; [by apply Hk, HP|apply ends_raises, _].
Qed.

(** Where the values are of no interest. *)
Lemma ends_any {A} Q `{!Reflexive Q} (r : res pyexn A) : ends Q (Returns (W:=W) r).
Proof. by apply ends_returns. Qed.

Lemma ends_then {A B} Q `{!Transitive Q} (P : B → Prop) (p : process W A) (k : res pyexn A → process W B) :
  ends Q p → (∀ r, ends_in Q P (k r)) → ends_in Q P (and_then p k).
Proof. intros Hp Hk. eapply ends_and_then; [done|exact Hp|]. intros r _. apply Hk. Qed.

Lemma ends_next {A B} Q `{!PreOrder Q} (P : B → Prop) (p : process W A) (k : A → process W B) :
  ends Q p → (∀ a, ends_in Q P (k a)) → ends_in Q P (p ≫= k).
Proof. intros Hp Hk. eapply ends_bind; [done|exact Hp|]. intros a _. apply Hk. Qed.

Lemma always_ends {A} Q (P : A → Prop) (p : process W A) w : ends_in Q P p → always p w (Q w).
Proof.
  intros Hp. destruct (Hp w) as [(w1 & r1 & Hf1 & Hq & _) Hc]. apply always_crash_states; [done|].
  intros w' r Hf. rewrite Hf1 in Hf. by injection Hf as <- _.
Qed.

Lemma ends_weaken {A} (Q Q' : relation W) (P P' : A → Prop) (p : process W A) :
  (∀ w w', Q w w' → Q' w w') → (∀ a, P a → P' a) → ends_in Q P p → ends_in Q' P' p.
Proof.
  intros HQ HP Hp w. destruct (Hp w) as [(w' & r & Hf & Hq & Hr) Hc]. split; [exists w', r; eauto 6|].
  intros n w1 Hn. by apply HQ, (Hc n).
Qed.

Lemma leads_refl {A} (p : process W A) w : leads_to p w p w.
Proof. by split. Qed.

Lemma leads_trans_l {A} (p q t : process W A) w w' :
  leads_to p w q w → leads_to q w t w' → leads_to p w t w'.
Proof. intros [Hf Hp] [Hf' Hq]. split; [congruence|]. intros P Hw Hw' Ht. apply Hp; auto. Qed.

Lemma leads_trans_r {A} (p q t : process W A) w w' :
  leads_to p w q w' → leads_to q w' t w' → leads_to p w t w'.
Proof. intros [Hf Hp] [Hf' Hq]. split; [congruence|]. intros P Hw Hw' Ht. apply Hp; auto. Qed.

Lemma leads_act {A B} (m : SM W pyexn A) (k : res pyexn A → process W B) w w' r :
  m w = (w', r) → leads_to (and_then (act m) k) w (k r) w'.
Proof.
  intros Hm. split; [by rewrite finish_and_then, finish_act, Hm|].
  intros P Hw Hw' Hk. apply crash_and_then; [by apply crash_act|].
  intros w1 r1. rewrite finish_act, Hm. by intros [= <- <-].
Qed.

Lemma leads_bind {A B} (p q : process W A) (k : res pyexn A → process W B) w w' :
  leads_to p w q w' → leads_to (and_then p k) w (and_then q k) w'.
Proof.
  intros [Hf Hp]. split; [by rewrite !finish_and_then, Hf|]. intros P Hw Hw' Hq. apply crash_and_then.
  - apply Hp; [done..|]. intros n w1 Hr. apply (Hq n). by rewrite run_for_and_then, Hr.
  - intros w1 r Hr n w2 Hn. rewrite Hf in Hr. apply finish_run_for in Hr as [m Hm].
    apply (Hq (m + n) w2). rewrite run_for_and_then.
    rewrite (run_for_more _ _ _ _ _ _ n Hm). done.
Qed.

End run_lemmas.

Section within_lemmas.
Context {W V : Type} (get : W → V) (put : V → W → W).
Hypothesis get_put : ∀ v w, get (put v w) = v.
Hypothesis put_put : ∀ v v' w, put v (put v' w) = put v w.
Hypothesis put_get : ∀ w, put (get w) w = w.

Lemma run_for_within {A} n (p : process V A) w :
  run_for n (within get put p) w = (put (run_for n p (get w)).1 w, (run_for n p (get w)).2).
Proof.
  revert n w. induction p as [r|f IH|] using process_nested_ind; intros n w; simpl; try by rewrite put_get.
  destruct n as [|n]; simpl; [by rewrite put_get|].
  specialize (IH (get w)). destruct (f (get w)) as [v p']. rewrite IH, get_put, put_put. done.
Qed.

Lemma finish_within {A} (p : process V A) w :
  finish (within get put p) w = (put (finish p (get w)).1 w, (finish p (get w)).2).
Proof.
  revert w. induction p as [r|f IH|] using process_nested_ind; intros w; simpl; try by rewrite put_get.
  specialize (IH (get w)). destruct (f (get w)) as [v p']. rewrite IH, get_put, put_put. done.
Qed.

End within_lemmas.

(** *** Among others *)

Section among_lemmas.
Context {W : Type} (R : relation W).

Lemma among_and_then {A B} (p : process W A) (k : res pyexn A → process W B) s r s' :
  among R (and_then p k) s r s' → ∃ r1 s1, among R p s r1 s1 ∧ among R (k r1) s1 r s'.
Proof.
  revert s. induction p as [r0|f IH|] using process_nested_ind; intros s Ha; simpl in Ha.
  - exists r0, s. split; [constructor|done].
  - inversion Ha as [|? ? s1 ? ? HR Hs]; subst. destruct (f s) as [s0 p] eqn:Hf. cbn [fst snd] in *.
    specialize (IH s). rewrite Hf in IH. destruct (IH s1 Hs) as (r1 & s2 & H1 & H2). exists r1, s2. split; [|done].
    eapply among_act; rewrite Hf; done.
  - inversion Ha.
Qed.

Lemma among_bind {A B} (p : process W A) (k : A → process W B) s r s' :
  among R (p ≫= k) s r s' →
  (∃ a s1, among R p s (Ok a) s1 ∧ among R (k a) s1 r s') ∨ (∃ e, among R p s (Err e) s' ∧ r = Err e).
Proof.
  intros (r1 & s1 & H1 & H2)%among_and_then. destruct r1 as [a|e]; [left; eauto|].
  right. exists e. inversion H2; subst. done.
Qed.

Lemma among_done {A} (r0 : res pyexn A) s r s' : among R (Returns r0) s r s' → r = r0 ∧ s' = s.
Proof. inversion 1; subst; done. Qed.

Lemma among_one {A} (m : SM W pyexn A) s r s' : among R (act m) s r s' → r = (m s).2 ∧ R (m s).1 s'.
Proof.
  unfold act. inversion 1 as [|? ? s1 ? ? HR Hs]; subst. destruct (m s) as [s0 r0]. cbn [fst snd] in *.
  by apply among_done in Hs as [-> ->].
Qed.

End among_lemmas.
