(* ===== verification/QueueSettings.v ===== *)
(** * The settings of a stored queue: the properties of [Queue] in [dbos/_queue.py]

    A [Queue] that is stored in the database has a cache of its settings. A getter reads them
    anew; a setter of one of the two concurrency bounds reads them, checks the one against the
    other and writes: a transaction each, between which other processes may set others. *)
From S2P Require Import Prelude Errors Schema Retry Serialization Workflows Context Queues Process.

(** A [Queue] object beside the database; each action on them is atomic. *)
Definition settingM : Type → Type := process (Queue * db).

Definition on_queue_db {A} (m : dbM A) : SM (Queue * db) pyexn A := zoom snd (λ d s, (s.1, d)) m.

Definition require_database_backed : SM (Queue * db) pyexn unit := λ s,
  if q_database_backed s.1 then (s, Ok tt)
  else (s, Err (DBOSException ("Cannot configure queue " +:+ q_name s.1 +:+ ": dynamic configuration is " +:+
                               "only supported for queues registered via DBOS.register_queue."))).

(** [_refresh_fields] *)
Definition refresh_fields (q latest : Queue) : Queue :=
  q <| q_concurrency := q_concurrency latest |> <| q_worker_concurrency := q_worker_concurrency latest |>
    <| q_limiter := q_limiter latest |> <| q_priority_enabled := q_priority_enabled latest |>
    <| q_partition_queue := q_partition_queue latest |> <| q_polling_interval_ms := q_polling_interval_ms latest |>.

(** [_read_from_db] *)
Definition read_from_db : SM (Queue * db) pyexn Queue := λ s,
  match get_queue s.2 (q_name s.1) (q_client_bound s.1) with
  | Ok (Some latest) => (s, Ok latest)
  | Ok None => (s, Err (DBOSException ("Queue " +:+ q_name s.1 +:+ " not found in the database")))
  | Err e => (s, Err e)
  end.

Definition refresh : settingM unit :=
  latest ← act read_from_db;
  act (modify (λ s, (refresh_fields s.1 latest, s.2))).

(** A property getter. *)
Definition queue_get {A} (field : Queue → A) : settingM A :=
  backed ← act (gets (λ s, q_database_backed s.1));
  _ ← (if backed : bool then refresh else mret tt);
  act (gets (λ s, field s.1)).

(** [_write_to_db], and the field of the cache. *)
Definition write_queue (time_ms : Z) (fields : list queue_field) (cache : Queue → Queue) : settingM unit :=
  _ ← act (λ s, on_queue_db (update_queue time_ms (q_name s.1) fields) s);
  act (modify (λ s, (cache s.1, s.2))).

Definition set_concurrency (time_ms : Z) (value : option Z) : settingM unit :=
  _ ← act require_database_backed;
  _ ← refresh;
  w ← act (gets (λ s, q_worker_concurrency s.1));
  if exceeds w value
  then Returns (Err (ValueError "worker_concurrency must be less than or equal to concurrency"))
  else write_queue time_ms [FConcurrency value] (λ q, q <| q_concurrency := value |>).

Definition set_worker_concurrency (time_ms : Z) (value : option Z) : settingM unit :=
  _ ← act require_database_backed;
  _ ← refresh;
  c ← act (gets (λ s, q_concurrency s.1));
  if exceeds value c
  then Returns (Err (ValueError "worker_concurrency must be less than or equal to concurrency"))
  else write_queue time_ms [FWorkerConcurrency value] (λ q, q <| q_worker_concurrency := value |>).

Definition set_limiter (time_ms : Z) (value : option (option Z * option Z)) : settingM unit :=
  _ ← act require_database_backed;
  match value with
  | Some (Some n, Some p) =>
      write_queue time_ms [FRateLimitMax (Some n); FRateLimitPeriod (Some p)]
        (λ q, q <| q_limiter := Some {| rl_limit := n; rl_period_ms := p |} |>)
  | Some _ => Returns (Err (ValueError "limiter must specify both 'limit' and 'period'"))
  | None => write_queue time_ms [FRateLimitMax None; FRateLimitPeriod None] (λ q, q <| q_limiter := None |>)
  end.

Definition set_priority_enabled (time_ms : Z) (value : bool) : settingM unit :=
  _ ← act require_database_backed;
  write_queue time_ms [FPriorityEnabled value] (λ q, q <| q_priority_enabled := value |>).

Definition set_partition_queue (time_ms : Z) (value : bool) : settingM unit :=
  _ ← act require_database_backed;
  write_queue time_ms [FPartitionQueue value] (λ q, q <| q_partition_queue := value |>).

Definition set_polling_interval (time_ms value : Z) : settingM unit :=
  _ ← act require_database_backed;
  if bool_decide (value ≤ 0)%Z then Returns (Err (ValueError "polling_interval_sec must be positive"))
  else write_queue time_ms [FPollingInterval value] (λ q, q <| q_polling_interval_ms := value |>).

(** The setters, as one type. *)
Inductive queue_setter :=
| SetConcurrency (v : option Z)
| SetWorkerConcurrency (v : option Z)
| SetLimiter (v : option (option Z * option Z))
| SetPriorityEnabled (v : bool)
| SetPartitionQueue (v : bool)
| SetPollingInterval (v : Z).

Definition run_setter (time_ms : Z) (s : queue_setter) : settingM unit :=
  match s with
  | SetConcurrency v => set_concurrency time_ms v
  | SetWorkerConcurrency v => set_worker_concurrency time_ms v
  | SetLimiter v => set_limiter time_ms v
  | SetPriorityEnabled v => set_priority_enabled time_ms v
  | SetPartitionQueue v => set_partition_queue time_ms v
  | SetPollingInterval v => set_polling_interval time_ms v
  end.

(** What a queue read after the setter has. *)
Definition shows (s : queue_setter) (q : Queue) : Prop :=
  match s with
  | SetConcurrency v => q_concurrency q = v
  | SetWorkerConcurrency v => q_worker_concurrency q = v
  | SetLimiter v => ((λ l, (Some (rl_limit l), Some (rl_period_ms l))) <$> q_limiter q) = v
  | SetPriorityEnabled v => q_priority_enabled q = v
  | SetPartitionQueue v => q_partition_queue q = v
  | SetPollingInterval v => q_polling_interval_ms q = v
  end.

(** The entries of the dictionary a setter writes. *)
Definition setter_fields (s : queue_setter) : list queue_field :=
  match s with
  | SetConcurrency v => [FConcurrency v]
  | SetWorkerConcurrency v => [FWorkerConcurrency v]
  | SetLimiter v => [FRateLimitMax (v ≫= fst); FRateLimitPeriod (v ≫= snd)]
  | SetPriorityEnabled v => [FPriorityEnabled v]
  | SetPartitionQueue v => [FPartitionQueue v]
  | SetPollingInterval v => [FPollingInterval v]
  end.

(** The values a setter accepts for a queue whose row was [m] when it was read. *)
Definition accepts (s : queue_setter) (m : queues_row) : Prop :=
  match s with
  | SetConcurrency v => exceeds (qu_worker_concurrency m) v = false
  | SetWorkerConcurrency v => exceeds v (qu_concurrency m) = false
  | SetLimiter (Some (None, _)) | SetLimiter (Some (_, None)) => False
  | SetPollingInterval v => (0 < v)%Z
  | _ => True
  end.

(** The setting of another name that the check of a setter relies on. *)
Definition same_bound (s : queue_setter) (m m' : queues_row) : Prop :=
  match s with
  | SetConcurrency _ => qu_worker_concurrency m' = qu_worker_concurrency m
  | SetWorkerConcurrency _ => qu_concurrency m' = qu_concurrency m
  | _ => True
  end.

(** What others may do during a setter on the queue [name]: anything that leaves every row
    readable, this one in its place, and the bound the setter checks against what it is. *)
Definition spares (s : queue_setter) (name : string) (d d' : db) : Prop :=
  (queues_valid d → queues_valid d') ∧
  ∀ m, queues d !! name = Some m → ∃ m', queues d' !! name = Some m' ∧ same_bound s m m'.

(** Others work on the database; the [Queue] object is the caller's own. *)
Definition beside (R : relation db) : relation (Queue * db) := λ s s', s'.1 = s.1 ∧ R s.2 s'.2.

(** ** Lemmas *)

#[export] Instance spares_preorder s name : PreOrder (spares s name).
Proof.
  split; [intros d; split; [done|]; intros m Hm; exists m; split; [done|]; by destruct s|].
  intros d1 d2 d3 [Hv1 H1] [Hv2 H2]. split; [auto|]. intros m1 (m2 & Hm2 & Hb1)%H1. destruct (H2 _ Hm2) as (m3 & Hm3 & Hb2).
  exists m3. split; [done|]. destruct s; simpl in *; congruence.
Qed.

Lemma accepts_bound s m m' : same_bound s m m' → accepts s m → accepts s m'.
Proof. destruct s; simpl; congruence. Qed.

Definition set_fields (t : Z) (s : queue_setter) (m : queues_row) : queues_row :=
  (foldl set_queue_field m (setter_fields s)) <| qu_updated_at := t |>.

Lemma set_fields_valid t s m : row_valid m → accepts s m → row_valid (set_fields t s m).
Proof. intros (? & ? & ?). destruct s as [v|v|[[[n|] [p|]]|]|v|v|v]; simpl; done. Qed.

Lemma set_fields_shows t s m name b q :
  accepts s m → queue_from_db_row name (set_fields t s m) b = Ok q → shows s q.
Proof.
  intros Ha (H1 & H2 & H3 & H4 & H5 & H6)%queue_from_db_row_fields.
  destruct s as [v|v|[[[n|] [p|]]|]|v|v|v]; simpl in *; done.
Qed.

Lemma update_queue_eq t name s d :
  update_queue t name (setter_fields s) d =
  (d <| queues := sql_update (λ n _, bool_decide (n = name)) (set_fields t s) (queues d) |>, Ok tt).
Proof. by destruct s. Qed.

(** The transaction of a setter whose value the row accepts. *)
Lemma set_valid t s name d m :
  queues_valid d → queues d !! name = Some m → accepts s m →
  let d' := (update_queue t name (setter_fields s) d).1 in
  queues_valid d' ∧ ∀ b, ∃ latest, get_queue d' name b = Ok (Some latest) ∧ shows s latest.
Proof.
  intros Hv Hm Ha d'. subst d'. rewrite update_queue_eq. cbn [fst].
  assert (row_valid (set_fields t s m)) as Hvm by (apply set_fields_valid; [by eapply Hv|done]).
  split.
  - intros n m1. simpl. rewrite lookup_sql_update, fmap_Some. intros (m0 & Hm0 & ->).
    case_bool_decide; [|by eapply Hv]. subst. by rewrite Hm in Hm0; injection Hm0 as <-.
  - intros b. destruct (proj1 (queue_from_db_row_valid name (set_fields t s m) b) Hvm) as [latest Hl].
    exists latest. unfold get_queue. simpl. rewrite lookup_sql_update, Hm. simpl. rewrite bool_decide_eq_true_2 by done.
    rewrite Hl. split; [done|]. by eapply set_fields_shows.
Qed.

Lemma read_from_db_reads s : (read_from_db s).1 = s.
Proof. unfold read_from_db. by destruct (get_queue _ _ _) as [[]|]. Qed.

Section among_others.
Context (R : relation db) `{!PreOrder R}.

Lemma among_beside {A B} (m : SM (Queue * db) pyexn A) (k : A → settingM B) q d r q' d' :
  (∀ s, (m s).1 = s) → among (beside R) (act m ≫= k) (q, d) r (q', d') →
  (∃ e, (m (q, d)).2 = Err e ∧ r = Err e ∧ R d d') ∨
  ∃ a d1, (m (q, d)).2 = Ok a ∧ R d d1 ∧ among (beside R) (k a) (q, d1) r (q', d').
Proof.
  intros Hm [(a & [q1 d1] & [Ha [Hq Hd]]%among_one & Hk)|(e & [He [Hq Hd]]%among_one & ->)]%among_bind;
    rewrite Hm in Hq, Hd; cbn [fst snd] in *; subst.
  - right. by exists a, d1.
  - left. by exists e.
Qed.

(** A setter is refused, or others come to a row that accepts its value and it writes that. *)
Definition sets (t : Z) (s : queue_setter) (name : string) (d : db) (r : res pyexn unit) (d' : db) : Prop :=
  (∃ e, r = Err e ∧ R d d') ∨
  (r = Ok tt ∧ ∃ d1 m, R d d1 ∧ queues d1 !! name = Some m ∧ accepts s m ∧
     R (update_queue t name (setter_fields s) d1).1 d').

Lemma sets_later t s name d0 d r d' : R d0 d → sets t s name d r d' → sets t s name d0 r d'.
Proof.
  intros Hd [(e & -> & ?)|(-> & d1 & m & ? & ?)]; [left; exists e; split; [done|by etrans]|].
  right. split; [done|]. exists d1, m. split; [by etrans|done].
Qed.

Lemma sets_write t s cache q d r q' d' m :
  queues d !! q_name q = Some m → accepts s m →
  among (beside R) (write_queue t (setter_fields s) cache) (q, d) r (q', d') → sets t s (q_name q) d r d'.
Proof.
  intros Hm Ha. unfold write_queue.
  intros [([] & [q1 d1] & [_ [Hq Hd]]%among_one & Hk)|(e & [He _]%among_one & _)]%among_bind.
  - apply among_one in Hk as [-> [_ Hd']]. right. split; [done|]. exists d, m. split_and!; try done.
    etrans; [|exact Hd']. revert Hd. unfold on_queue_db, zoom. by rewrite !update_queue_eq.
  - revert He. unfold on_queue_db, zoom. by rewrite update_queue_eq.
Qed.

Lemma sets_refused t s name d e d' : R d d' → sets t s name d (Err e) d'.
Proof. intros ?. left. by exists e. Qed.

(** The read of a setter, and its check of the bound it has read, [get] of the object and
    [bound] of the row. *)
Lemma sets_checked {A} t s cache q d r q' d' (get : Queue → A) (bad : A → bool) e :
  (∀ d d', R d d' → spares s (q_name q) d d') →
  (∀ m latest, queue_from_db_row (q_name q) m (q_client_bound q) = Ok latest →
     bad (get (refresh_fields q latest)) = false → accepts s m) →
  among (beside R) (_ ← refresh; x ← act (gets (λ s, get s.1));
    if bad x then Returns (Err e) else write_queue t (setter_fields s) cache) (q, d) r (q', d') →
  sets t s (q_name q) d r d'.
Proof.
  intros Hspares Hcheck [([] & [q1 d1] & Hread & Hk)|(e1 & Hread & ->)]%among_bind.
  2:{ apply among_beside in Hread as [(e2 & _ & _ & Hd)|(latest & d1 & _ & Hd & Hc)]; [by apply sets_refused| |apply read_from_db_reads].
      by apply among_one in Hc as [? _]. }
  apply among_beside in Hread as [(e2 & _ & ? & _)|(latest & d2 & Hl & Hd & Hc)]; [done| |apply read_from_db_reads].
  apply among_one in Hc as [_ [Hq1 Hd1]]. cbn in Hq1, Hd1. subst q1.
  unfold read_from_db, get_queue in Hl. cbn [fst snd] in Hl. destruct (queues d !! q_name q) as [m|] eqn:Hm; [|done].
  destruct (queue_from_db_row _ m _) as [latest'|] eqn:Hrow; [|done]. injection Hl as ->.
  apply among_beside in Hk as [(e2 & ? & _)|(x & d3 & Hx & Hd3 & Hk)]; [done| |done]. injection Hx as <-.
  assert (R d d3) as Hd03 by (by etrans; [exact Hd|]; etrans). apply (sets_later _ _ _ _ d3); [done|].
  destruct (bad _) eqn:Hbad; [apply among_done in Hk as [-> Heq]; injection Heq as _ <-; by apply sets_refused|].
  destruct (Hspares _ _ Hd03) as [_ Hs]. destruct (Hs _ Hm) as (m' & Hm' & Hb).
  eapply (sets_write t s cache (refresh_fields q latest)); [exact Hm'| |exact Hk].
  eapply accepts_bound; [exact Hb|]. by eapply Hcheck.
Qed.

Lemma run_setter_sets t s q d r q' d' :
  (∀ d d', R d d' → spares s (q_name q) d d') → is_Some (queues d !! q_name q) →
  among (beside R) (run_setter t s) (q, d) r (q', d') → sets t s (q_name q) d r d'.
Proof.
  intros Hspares [m0 Hm0] Hrun.
  assert (∀ k : settingM unit, among (beside R) (_ ← act require_database_backed; k) (q, d) r (q', d') →
    (∃ e, r = Err e ∧ R d d') ∨ ∃ d1 m, R d d1 ∧ queues d1 !! q_name q = Some m ∧ among (beside R) k (q, d1) r (q', d')) as Hreq.
  { intros k [(e & _ & ? & ?)|(_ & d1 & _ & Hd & Hk)]%among_beside; [by left; eauto| |].
    - destruct (Hspares _ _ Hd) as [_ Hs]. destruct (Hs _ Hm0) as (m & Hm & _). right. by exists d1, m.
    - unfold require_database_backed. intros [q1 d1]. by destruct (q_database_backed _). }
  destruct s as [v|v|v|v|v|v]; apply Hreq in Hrun as [?|(d1 & m & Hd & Hm & Hk)]; try (by left); apply (sets_later _ _ _ _ d1); try done.
  - eapply (sets_checked t (SetConcurrency v) _ _ _ _ _ _ q_worker_concurrency (λ w, exceeds w v)); [done| |exact Hk].
    intros m1 latest (_ & Hw & _)%queue_from_db_row_fields Hx. simpl in *. by rewrite <- Hw.
  - eapply (sets_checked t (SetWorkerConcurrency v) _ _ _ _ _ _ q_concurrency (λ c, exceeds v c)); [done| |exact Hk].
    intros m1 latest (Hw & _)%queue_from_db_row_fields Hx. simpl in *. by rewrite <- Hw.
  - destruct v as [[[n|] [p|]]|]; try (apply among_done in Hk as [-> [= _ <-]]; by apply sets_refused).
    + by eapply (sets_write t (SetLimiter (Some (Some n, Some p)))).
    + by eapply (sets_write t (SetLimiter None)).
  - by eapply (sets_write t (SetPriorityEnabled v)).
  - by eapply (sets_write t (SetPartitionQueue v)).
  - case_bool_decide; [apply among_done in Hk as [-> [= _ <-]]; by apply sets_refused|].
    eapply (sets_write t (SetPollingInterval v)); [exact Hm| |exact Hk]. simpl. lia.
Qed.
End among_others.

(** What the others of a setter may be: setters of anything but the bound it checks, whose
    own checks hold when they write. *)
Lemma set_spares t s' name' s name d :
  name' ≠ name ∨ (∀ m, same_bound s m (set_fields t s' m)) →
  (∀ m, queues d !! name' = Some m → accepts s' m) →
  spares s name d (update_queue t name' (setter_fields s') d).1.
Proof.
  intros Hother Hacc. rewrite update_queue_eq. cbn [fst]. split.
  - intros Hv n m1. simpl. rewrite lookup_sql_update, fmap_Some. intros (m0 & Hm0 & ->).
    case_bool_decide; [|by eapply Hv]. subst. apply set_fields_valid; [by eapply Hv|by apply Hacc].
  - intros m Hm. simpl. rewrite lookup_sql_update, Hm. eexists. split; [reflexivity|].
    case_bool_decide; [|by destruct s]. destruct Hother as [Hn|Hb]; [done|apply Hb].
Qed.

(** Two setters of the two bounds of one queue, each with a value that is right by what it has
    read: the one reads, the other runs from its start to its end, and the first writes. *)
Definition unbounded_db : db := empty_db <| queues := {["q" := QueuesRow None None None None false false 1000 10 10]} |>.

Definition stored_queue : Queue := sample_limited <| q_database_backed := true |>.

Definition other_sets (value : option Z) : relation db := λ d d',
  d' = d ∨ ∃ q', finish (set_worker_concurrency 6 value) (stored_queue, d) = ((q', d'), Some (Ok tt)).

(** Both return, and the queue can be read no more, nor listed with the others, nor can
    either bound be set again. *)
Lemma bounds_race : ∃ q' d',
  among (beside (other_sets (Some 2%Z))) (set_concurrency 5 (Some 1%Z)) (stored_queue, unbounded_db) (Ok tt) (q', d') ∧
  let refusal := ValueError "concurrency must be greater than or equal to worker_concurrency" in
  (∀ b, get_queue d' "q" b = Err refusal ∧ list_queues d' b = Err refusal) ∧
  ∀ t v, finish (set_concurrency t v) (stored_queue, d') = ((stored_queue, d'), Some (Err refusal)) ∧
    finish (set_worker_concurrency t v) (stored_queue, d') = ((stored_queue, d'), Some (Err refusal)).
Proof.
  do 2 eexists. split.
  - unfold set_concurrency, refresh, write_queue.
    do 2 (eapply (among_act _ _ _ (_, _)); [split; [reflexivity|by left]|]).
    eapply (among_act _ _ _ (_, _)); [split; [cbn; reflexivity|right; eexists; vm_compute; reflexivity]|].
    repeat first [eapply among_returns | eapply (among_act _ _ _ (_, _)); [split; [reflexivity|by left]|]].
  - split; [intros []; split; vm_compute; reflexivity|]. intros t v. split; vm_compute; reflexivity.
Qed.

(** ** The property *)

(** C34: a setter of a stored queue keeps every stored queue readable, and sets what it says, also
    while others set it. When every row of [queues] makes a [Queue], and all that others do during
    the setter leaves that so, the queue stored, and, for a setter of one of the two concurrency
    bounds, the other bound as it is, then every row makes a [Queue] when it has ended; if it
    raised, it changed nothing; if it returned, it wrote in one transaction its own entries and
    no others, after which any process that reads the queue finds what was set. (When others set
    the other bound between the reading and the writing, [bounds_race].) *)
Theorem queue_setters_keep_valid (R : relation db) `{!PreOrder R} t s q d r q' d' :
  (∀ d1 d2, R d1 d2 → spares s (q_name q) d1 d2) → queues_valid d → is_Some (queues d !! q_name q) →
  among (beside R) (run_setter t s) (q, d) r (q', d') →
  queues_valid d' ∧
  match r with
  | Err _ => R d d'
  | Ok _ => ∃ d1, R d d1 ∧ let d2 := (update_queue t (q_name q) (setter_fields s) d1).1 in R d2 d' ∧
      ∀ b, ∃ latest, get_queue d2 (q_name q) b = Ok (Some latest) ∧ shows s latest
  end.
Proof.
  intros Hspares Hv Hq Hrun.
  assert (∀ d1 d2, R d1 d2 → queues_valid d1 → queues_valid d2) as Hkeeps by (intros ?? H; by apply Hspares).
  destruct (run_setter_sets R _ _ _ _ _ _ _ Hspares Hq Hrun) as [(e & -> & Hd)|(-> & d1 & m & Hd1 & Hm & Ha & Hd')]; [by eauto|].
  destruct (set_valid t s (q_name q) d1 m) as [Hv2 Hread]; [by eauto..|]. split; [by eauto|]. by exists d1.
Qed.

(** ** The property at a concrete input: the limiter is set while the concurrency is. *)

Definition limiter_set : relation db := λ d d', d' = d ∨
  d' = (update_queue 6 "q" (setter_fields (SetLimiter (Some (Some 5%Z, Some 1000%Z)))) d).1.

Lemma queue_setters_keep_valid_witness : ∃ q' d',
  among (beside (rtc limiter_set)) (run_setter 5 (SetConcurrency (Some 3%Z))) (stored_queue, unbounded_db) (Ok tt) (q', d') ∧
  queues_valid d' ∧ (∃ m, queues d' !! "q" = Some m ∧ qu_concurrency m = Some 3%Z ∧ qu_rate_limit_max m = Some 5%Z).
Proof.
  eassert (among (beside (rtc limiter_set)) (run_setter 5 (SetConcurrency (Some 3%Z))) (stored_queue, unbounded_db) (Ok tt) (_, _)) as Hrun.
  { unfold run_setter, set_concurrency, refresh, write_queue.
    do 3 (eapply (among_act _ _ _ (_, _)); [split; [reflexivity|apply rtc_once; by left]|]).
    eapply (among_act _ _ _ (_, _)); [split; [cbn; reflexivity|apply rtc_once; right; reflexivity]|].
    repeat first [eapply among_returns | eapply (among_act _ _ _ (_, _)); [split; [reflexivity|apply rtc_once; by left]|]]. }
  do 2 eexists. split; [exact Hrun|]. split; [|by eexists].
  refine (proj1 (queue_setters_keep_valid (rtc limiter_set) 5 (SetConcurrency (Some 3%Z)) stored_queue unbounded_db _ _ _ _ _ _ Hrun)).
  - intros d1 d2. induction 1 as [d1|d1 d2 d3 [->| ->] _ IH]; [done..|]. etrans; [|exact IH].
    apply (set_spares 6 (SetLimiter (Some (Some 5%Z, Some 1000%Z)))); [by right|done].
  - intros name m. simpl. intros [<- <-]%lookup_singleton_Some. split_and!; [reflexivity|reflexivity|]. intros Hne. by destruct Hne.
  - by eexists.
Defined.
