(* ===== verification/Execution.v ===== *)
(** * Execution of workflows and steps: [dbos/_core.py], [dbos/_roles.py]

    A [machine] is a process of the application beside the database and the rest of the
    world [W], which steps act on; [Host] is what the process asks of the world: the two
    clocks and the passing of time. A workflow function is user code: all that is known of
    it is the operations it calls, in order, each with what it does with every answer, so it
    is a tree, [workflow], and [run_workflow] is its run in a context. Everything around it
    is the code's: steps with their checkpoints and retries ([invoke_step]), the outcome
    ([persist]), the submission ([init_workflow], [start_workflow]) and the execution of a
    recorded workflow ([execute_workflow_by_id]). Logging, tracing, the type hints of
    arguments and the background task that cancels a workflow at its deadline are left out. *)
From Stdlib Require Import QArith Qminmax Ascii String.
From S2P Require Import Prelude Errors Schema Retry Serialization Workflows Context Steps Queues Process.
Open Scope string_scope.
Open Scope nat_scope.

(** What a process sees of the world: [time.time()] and the database's clock, in
    milliseconds, and the world after a sleep of some seconds. *)
Class Host (W : Type) := {
  time_ms : W → Z;
  now_ms : W → Z;
  sleep : Q → W → W;
}.

(** [class StepOptions], without the options of asynchronous steps. *)
Record StepOptions := {
  so_retries_allowed : bool;
  so_interval_seconds : Q;
  so_max_attempts : Z;
  so_backoff_rate : Q;
  so_should_retry : option (pyexn → bool);
}.

(** [DEFAULT_STEP_OPTIONS] *)
Definition DEFAULT_STEP_OPTIONS : StepOptions := {|
  so_retries_allowed := false; so_interval_seconds := 1; so_max_attempts := 3; so_backoff_rate := 2;
  so_should_retry := None;
|}.

(** [on_exception], what it returns: the seconds to wait before the next attempt. *)
Definition on_exception (opts : StepOptions) (attempt : Z) : Q :=
  Qmin (so_interval_seconds opts * Qpower (so_backoff_rate opts) attempt) 3600.

(** [check_required_roles], the roles of the function and of its class given. *)
Definition check_required_roles (name : string) (class_roles func_roles : option (list string))
    (ctx : option DBOSContext) : res pyexn (option string) :=
  match (match func_roles with Some r => Some r | None => class_roles end) with
  | None | Some [] => Ok None
  | Some required_roles =>
      match ctx ≫= cx_authenticated_roles with
      | None => Err (DBOSNotAuthorizedError ("Function " +:+ name +:+
                  " requires a role, but was called in a context without authentication information"))
      | Some roles =>
          match filter (λ r, r ∈ roles) required_roles with
          | r :: _ => Ok (Some r)
          | [] => Err (DBOSNotAuthorizedError ("Function " +:+ name +:+
                     " has required roles, but user is not authenticated for any of them"))
          end
      end
  end.

(** [DBOSAssumeRole.__enter__] *)
Definition assume_role (rr : option string) (ctx : DBOSContext) : DBOSContext :=
  match rr with Some r => ctx <| cx_assumed_role := Some r |> | None => ctx end.

(** [EnterDBOSWorkflow.__enter__] *)
Definition enter_workflow (ctx : DBOSContext) : res pyexn DBOSContext :=
  if is_within_workflow ctx then Err (AssertionError "")
  else Ok (Context.start_workflow "" None
             (ctx <| cx_is_within_set_workflow_id_block := false |> <| cx_workflow_timeout_ms := None |>
                  <| cx_deduplication_id := None |> <| cx_priority := None |>)).

(** [_get_timeout_deadline]: the timeout and the deadline. *)
Definition get_timeout_deadline (now : Z) (ctx : option DBOSContext) (queue : option string) :
    option Z * option Z :=
  match ctx with
  | None => (None, None)
  | Some ctx =>
      match cx_workflow_timeout_ms ctx with
      | Some t => if bool_decide (t = 0)%Z then (None, cx_workflow_deadline_epoch_ms ctx)
                  else if truthy queue then (Some t, None) else (Some t, Some (now + t)%Z)
      | None => (None, cx_workflow_deadline_epoch_ms ctx)
      end
  end.

(** [class EnqueueOptionsInternal] *)
Record EnqueueOptionsInternal := {
  eo_deduplication_id : option string;
  eo_priority : option Z;
  eo_app_version : option string;
  eo_queue_partition_key : option string;
  eo_delay_until_epoch_ms : option Z;
  eo_debounce_deadline_epoch_ms : option Z;
  eo_is_debounced : bool;
}.

Definition enqueue_options_of (ctx : option DBOSContext) : EnqueueOptionsInternal := {|
  eo_deduplication_id := ctx ≫= cx_deduplication_id;
  eo_priority := ctx ≫= cx_priority;
  eo_app_version := ctx ≫= cx_app_version;
  eo_queue_partition_key := ctx ≫= cx_queue_partition_key;
  eo_delay_until_epoch_ms := ctx ≫= cx_delay_until_epoch_ms;
  eo_debounce_deadline_epoch_ms := ctx ≫= cx_debounce_deadline_epoch_ms;
  eo_is_debounced := match ctx with Some c => cx_is_debounced c | None => false end;
|}.

(** A string that Python finds true. *)
Definition nonempty (o : option string) : option string :=
  match o with Some s => if bool_decide (s = "") then None else Some s | None => None end.

(** Between two databases, the rows of [wid] are as they were. *)
Definition undisturbed (wid : string) (d d' : db) : Prop :=
  workflow_status d' !! wid = workflow_status d !! wid ∧
  ∀ fid, operation_outputs d' !! (wid, fid) = operation_outputs d !! (wid, fid).

Section execution.
Context {W : Type}.

Record machine := Machine {
  m_db : db;
  m_world : W;
  m_active : gmap string (option (string * option string));
}.

#[export] Instance machine_eta : RecordEta machine := λ s, Machine (m_db s) (m_world s) (m_active s).

(** The process dies: what it had in memory is lost. *)
Definition crash (s : machine) : machine := s <| m_active := ∅ |>.

(** ** [ActiveWorkflowById] *)

Definition acquire (key : string) (queue_name queue_partition_key : option string) : SM machine pyexn bool := λ s,
  match m_active s !! key with
  | Some _ => (s, Ok false)
  | None => (s <| m_active := <[key := (λ q, (q, queue_partition_key)) <$> queue_name]> (m_active s) |>, Ok true)
  end.

(** [del self._m[key]] *)
Definition release (key : string) : SM machine pyexn unit := λ s,
  match m_active s !! key with
  | Some _ => (s <| m_active := delete key (m_active s) |>, Ok tt)
  | None => (s, Err (KeyError key))
  end.

Definition active_list (s : machine) : list string := (map_to_list (m_active s)).*1.

Definition count_for_queue (queue_name : string) (queue_partition_key : option string) (s : machine) : Z :=
  sql_count (λ _ bucket, bool_decide (bucket = Some (queue_name, queue_partition_key))) (m_active s).

(** ** Workflow functions *)

(** A call of a DBOS operation in a workflow: the context it leaves, and the call. *)
Definition operation : Type := DBOSContext → DBOSContext * process machine pyval.

Inductive workflow : Type :=
| WReturn (r : res pyexn pyval)
| WCall (op : operation) (k : res pyexn pyval → workflow).

Fixpoint run_workflow (ctx : DBOSContext) (wf : workflow) : process machine pyval :=
  match wf with
  | WReturn r => Returns r
  | WCall op k => let '(ctx', p) := op ctx in and_then p (λ r, run_workflow ctx' (k r))
  end.

Context `{Host W, Codecs} (serializer : Serializer) (executor_id : string).

(** A statement on the database, made at the time of the world it is made in. *)
Definition database {A} (m : W → dbM A) : process machine A :=
  act (λ s, let '(d, r) := m (m_world s) (m_db s) in (s <| m_db := d |>, r)).
(** User code that acts on the world. *)
Definition outside {A} (p : process W A) : process machine A :=
  within m_world (λ w s, s <| m_world := w |>) p.
Definition returns {A} (r : res pyexn A) : process machine A := Returns r.

(** ** Steps *)

Definition check_existing_result (ctx : DBOSContext) (step_name : string) : dbM (option pyval) :=
  recorded_output ← check_operation_execution (cx_workflow_id ctx) (cx_function_id ctx) step_name;
  match recorded_output with
  | None => mret None
  | Some recorded =>
      match rr_error recorded, rr_output recorded with
      | Some error, _ =>
          e ← lift_res (deserialize_exception error (rr_serialization recorded) serializer);
          raise e
      | None, Some output =>
          v ← lift_res (deserialize_value (Some output) (rr_serialization recorded) serializer);
          mret (Some v)
      | None, None => raise (PyException "Output and error are both None")
      end
  end.

(** [step_output] with what it recorded. *)
Definition step_result (ctx : DBOSContext) (step_name : string) (step_start_time : Z)
    (output error serialization : option string) : OperationResultInternal := {|
  or_workflow_uuid := cx_workflow_id ctx; or_function_id := cx_function_id ctx;
  or_function_name := step_name; or_output := output; or_error := error;
  or_serialization := serialization; or_started_at_epoch_ms := step_start_time;
|}.

Definition record_result (result : OperationResultInternal) : process machine unit :=
  database (λ w, record_operation_result (Some executor_id) (time_ms w) result).

(** [record_step_result], of what the step ended with. *)
Definition record_step_result (ctx : DBOSContext) (step_name : string) (step_start_time : Z)
    (r : res pyexn pyval) : process machine pyval :=
  match r with
  | Err (DBOSWorkflowCancelledError _ as e) => Returns (Err e)
  | Err error =>
      if is_Exception error then
        '(serialized_e, serialization) ← returns (serialize_exception error None serializer);
        _ ← record_result (step_result ctx step_name step_start_time None (Some serialized_e) (Some serialization));
        Returns (Err error)
      else Returns (Err error)
  | Ok output =>
      '(serialized_r, serialization) ← returns (serialize_value output None serializer);
      _ ← record_result (step_result ctx step_name step_start_time (Some serialized_r) None (Some serialization));
      mret output
  end.

(** The function of a step with its retries. *)
Definition step_outcome (opts : StepOptions) (step_name : string) (ctx : DBOSContext)
    (func : DBOSContext → process W pyval) : process W pyval :=
  if so_retries_allowed opts
  then retry sleep (so_max_attempts opts) ctx func (on_exception opts)
         (DBOSMaxStepRetriesExceeded step_name) (so_should_retry opts)
  else func ctx.

(** [invoke_step], from the context [cur_ctx] of its workflow; [Outcome.retry] asserts that
    there are attempts, [EnterDBOSStepCtx] that a workflow calls. *)
Definition invoke_step (cur_ctx step_ctx : DBOSContext) (func : DBOSContext → process W pyval)
    (step_name : string) (opts : StepOptions) : process machine pyval :=
  step_start_time ← act (gets (λ s, time_ms (m_world s)));
  if so_retries_allowed opts && negb (bool_decide (0 < so_max_attempts opts)%Z)
  then Returns (Err (AssertionError ""))
  else if negb (is_workflow cur_ctx) then Returns (Err (AssertionError ""))
  else
    let ctx := start_step (cx_function_id step_ctx) step_ctx in
    intercept
      (and_then (outside (step_outcome opts step_name ctx func)) (record_step_result ctx step_name step_start_time))
      (database (λ _, check_existing_result ctx step_name)).

(** A function decorated as a step, called in a context. *)
Definition step (step_name : string) (class_roles func_roles : option (list string)) (opts : StepOptions)
    (func : DBOSContext → process W pyval) : operation := λ ctx,
  if is_workflow ctx then
    match check_required_roles step_name class_roles func_roles (Some ctx) with
    | Err e => (ctx, Returns (Err e))
    | Ok rr =>
        let '(ctx', step_ctx) := snapshot_step_ctx false (assume_role rr ctx) in
        (ctx' <| cx_assumed_role := cx_assumed_role ctx |>, invoke_step ctx' step_ctx func step_name opts)
    end
  else (ctx, outside (func ctx)).

(** ** Workflows *)

(** [await_workflow_result], polling; [Waits] when the polls are used up. *)
Fixpoint await_result (polls : nat) (workflow_id : string) : process machine pyval :=
  match polls with
  | O => Waits
  | S polls' =>
      result ← database (λ _ d, (d, check_workflow_result serializer d workflow_id));
      match result with
      | Some v => mret v
      | None => _ ← act (modify (λ s, s <| m_world := sleep 1 (m_world s) |>)); await_result polls' workflow_id
      end
  end.

(** [_serialize_exception_for_persistence] *)
Definition serialize_exception_for_persistence (error : pyexn) (serialization : option string) : res pyexn string :=
  match serialize_exception error serialization serializer with
  | Ok (x, _) => Ok x
  | Err e =>
      if is_Exception e then
        match serialize_exception (PyException (class_name error +:+ ": " +:+ py_str error)) serialization serializer with
        | Ok (x, _) => Ok x
        | Err e => Err e
        end
      else Err e
  end.

Definition set_outcome (workflow_id : string) (status : WorkflowStatusString) (output error : option string) :
    process machine unit :=
  database (λ w, update_workflow_outcome (now_ms w) workflow_id status output error).

(** The row finalized as [ERROR], and the error raised. *)
Definition finalize_error {A} (status : WorkflowStatusInternal) (error : pyexn) : process machine A :=
  error_str ← returns (serialize_exception_for_persistence error (wi_serialization status));
  _ ← set_outcome (wi_workflow_uuid status) ERROR None (Some error_str);
  Returns (Err error).

(** [_get_wf_invoke_func] *)
Definition persist (polls : nat) (status : WorkflowStatusInternal) (func : process machine pyval) :
    process machine pyval :=
  let wid := wi_workflow_uuid status in
  if negb (not_complete (wi_status status)) then await_result polls wid
  else
    and_then
      (output ← func;
       '(serval, _) ← returns (serialize_value_as output (wi_serialization status) serializer);
       _ ← set_outcome wid SUCCESS (Some serval) None;
       mret output)
      (λ r, match r with
            | Ok output => Returns (Ok output)
            | Err (DBOSWorkflowConflictIDError _) => await_result polls wid
            | Err (DBOSWorkflowCancelledError _) => Returns (Err (DBOSAwaitedWorkflowCancelledError wid))
            | Err error => if is_Exception error then finalize_error status error else Returns (Err error)
            end).

(** A registered workflow function: its names, its [DBOSFuncInfo], and the function. *)
Record workflow_info := {
  wf_name : string;
  wf_class_name : option string;
  wf_config_name : option string;
  wf_static : bool;
  wf_class_roles : option (list string);
  wf_required_roles : option (list string);
  wf_max_recovery_attempts : option Z;
  wf_serialization_type : option WorkflowSerializationFormat;
  wf_validate_args : option (WorkflowInputs → res pyexn WorkflowInputs);
  wf_coerce_to_hints : WorkflowInputs → WorkflowInputs;
  wf_func : WorkflowInputs → workflow;
}.

(** [_check_required_roles_or_finalize_error] *)
Definition check_required_roles_or_finalize_error (status : WorkflowStatusInternal) (info : workflow_info)
    (ctx : DBOSContext) : process machine (option string) :=
  match check_required_roles (wf_name info) (wf_class_roles info) (wf_required_roles info) (Some ctx) with
  | Ok rr => mret rr
  | Err (DBOSNotAuthorizedError _ as role_error) => finalize_error status role_error
  | Err e => Returns (Err e)
  end.

(** [_execute_workflow_wthread] *)
Definition execute_workflow_wthread (polls : nat) (status : WorkflowStatusInternal) (info : workflow_info)
    (ctx : DBOSContext) (inputs : WorkflowInputs) : process machine pyval :=
  let wid := wi_workflow_uuid status in
  ctx ← returns (enter_workflow ctx);
  rr ← check_required_roles_or_finalize_error status info ctx;
  owned ← act (acquire wid (wi_queue_name status) (wi_queue_partition_key status));
  and_then (if owned : bool then persist polls status (run_workflow (assume_role rr ctx) (wf_func info inputs))
            else await_result polls wid)
    (λ r, if owned then _ ← act (release wid); Returns r else Returns r).

(** [json.dumps(ctx.authenticated_roles) if ctx.authenticated_roles else None] *)
Definition dump_roles (roles : option (list string)) : option string :=
  match roles with
  | None | Some [] => None
  | Some l => Some (json_dumps (JArr (JStr <$> l)))
  end.

Definition load_roles (text : option string) : res pyexn (option (list string)) :=
  match text with
  | None => Ok None
  | Some t =>
      if bool_decide (t = "") then Ok None else
      match json_loads t with
      | Ok (JArr l) => Ok (Some (omap (λ j, match j with JStr s => Some s | _ => None end) l))
      | Ok _ => Err (TypeError "roles must be a list")
      | Err e => Err e
      end
  end.

(** The inputs without their receiver. *)
Definition drop_receiver (class_name : option string) (inputs : WorkflowInputs) : WorkflowInputs :=
  if truthy class_name then {| args := tail (args inputs); kwargs := kwargs inputs |} else inputs.

(** The status [_init_workflow] submits. *)
Definition new_status (app_version : string) (ctx : DBOSContext) (wfid : string) (info : workflow_info)
    (queue : option string) (workflow_timeout_ms workflow_deadline_epoch_ms : option Z)
    (enqueue_options : option EnqueueOptionsInternal) (serargs serialization : string)
    (attributes : option string) : WorkflowStatusInternal := {|
  wi_workflow_uuid := wfid;
  wi_status := match queue with
               | None => PENDING
               | Some _ => match enqueue_options ≫= eo_delay_until_epoch_ms with Some _ => DELAYED | None => ENQUEUED end
               end;
  wi_name := Some (wf_name info);
  wi_class_name := wf_class_name info;
  wi_config_name := wf_config_name info;
  wi_authenticated_user := cx_authenticated_user ctx;
  wi_assumed_role := cx_assumed_role ctx;
  wi_authenticated_roles := dump_roles (cx_authenticated_roles ctx);
  wi_output := None;
  wi_error := None;
  wi_created_at := None;
  wi_updated_at := None;
  wi_queue_name := queue;
  wi_executor_id := Some (cx_executor_id ctx);
  wi_app_version := Some (default app_version (enqueue_options ≫= eo_app_version));
  wi_app_id := Some (cx_app_id ctx);
  wi_recovery_attempts := None;
  wi_workflow_timeout_ms := workflow_timeout_ms;
  wi_workflow_deadline_epoch_ms := workflow_deadline_epoch_ms;
  wi_deduplication_id := enqueue_options ≫= eo_deduplication_id;
  wi_priority := default 0%Z (enqueue_options ≫= eo_priority);
  wi_inputs := Some serargs;
  wi_queue_partition_key := enqueue_options ≫= eo_queue_partition_key;
  wi_forked_from := None;
  wi_parent_workflow_id := if has_parent ctx then Some (cx_parent_workflow_id ctx) else None;
  wi_started_at_epoch_ms := None;
  wi_serialization := Some serialization;
  wi_owner_xid := None;
  wi_delay_until_epoch_ms := enqueue_options ≫= eo_delay_until_epoch_ms;
  wi_attributes := attributes;
  wi_schedule_name := None;
  wi_debounce_deadline_epoch_ms := enqueue_options ≫= eo_debounce_deadline_epoch_ms;
  wi_is_debounced := match enqueue_options with Some o => eo_is_debounced o | None => false end;
|}.

(** The format of the inputs: the function's, or the context's by default. *)
Definition input_format (serialization_type : option WorkflowSerializationFormat) (ctx : DBOSContext) :
    WorkflowSerializationFormat :=
  match serialization_type with None | Some DEFAULT => cx_serialization_type ctx | Some t => t end.

(** [_init_workflow]: the context it leaves, the status with what the database answered,
    and whether to execute. *)
Definition init_workflow (app_version owner_xid : string) (ctx : DBOSContext) (info : workflow_info)
    (inputs : WorkflowInputs) (queue : option string) (workflow_timeout_ms workflow_deadline_epoch_ms : option Z)
    (max_recovery_attempts : option Z) (enqueue_options : option EnqueueOptionsInternal)
    (is_recovery_request is_dequeued_request : bool) (serialization_type : option WorkflowSerializationFormat)
    (child_workflow_id : string) : process machine (DBOSContext * WorkflowStatusInternal * bool) :=
  let wfid := if negb (bool_decide (child_workflow_id = "")) then child_workflow_id
              else if negb (bool_decide (cx_workflow_id ctx = "")) then cx_workflow_id ctx
              else cx_id_assigned_for_next_workflow ctx in
  if bool_decide (wfid = "") then
    Returns (Err (DBOSException ("Attempted to initialize a workflow with an empty workflow ID. " +:+
      "The workflow context was likely cleared concurrently (e.g. by shutdown) while the workflow was being recorded.")))
  else
    '(serargs, serialization) ←
      returns (serialize_args (drop_receiver (wf_class_name info) inputs) (Some (input_format serialization_type ctx)) serializer);
    attributes ← returns (match cx_workflow_attributes ctx with
                          | None => Ok None
                          | Some a => match py_json_dumps a with Ok t => Ok (Some t) | Err e => Err e end
                          end);
    let status := new_status app_version ctx wfid info queue workflow_timeout_ms workflow_deadline_epoch_ms
                    enqueue_options serargs serialization attributes in
    let ctx := ctx <| cx_workflow_attributes := None |> in
    out ← and_then
      (database (λ w, Workflows.init_workflow (now_ms w) status max_recovery_attempts (Some owner_xid)
                        is_recovery_request is_dequeued_request))
      (λ r, match r with
            | Err (DBOSQueueDeduplicatedError _ _ _ as e) =>
                '(sererr, serialization) ← returns (serialize_exception e (wi_serialization status) serializer);
                _ ← (if has_parent ctx then
                       database (λ w, record_operation_result (Some executor_id) (time_ms w) {|
                         or_workflow_uuid := cx_parent_workflow_id ctx; or_function_id := cx_parent_workflow_fid ctx;
                         or_function_name := wf_name info; or_output := None; or_error := Some sererr;
                         or_serialization := Some serialization; or_started_at_epoch_ms := time_ms w |})
                     else mret tt);
                Returns (Err e)
            | _ => Returns r
            end);
    mret (ctx <| cx_workflow_deadline_epoch_ms := ir_deadline out |>,
          status <| wi_workflow_deadline_epoch_ms := ir_deadline out |> <| wi_status := ir_status out |>
                 <| wi_serialization := ir_serialization out |>,
          ir_should_execute out).

(** A handle: the workflow's ID, and its execution when the process has one under way. *)
Record workflow_handle := { wh_workflow_id : string; wh_future : option (process machine pyval) }.
Definition polling_handle (workflow_id : string) : workflow_handle :=
  {| wh_workflow_id := workflow_id; wh_future := None |}.

(** [start_workflow]: the caller's context as it is left, and the start. *)
Definition start_workflow (polls : nat) (app_id app_version uuid owner_xid : string) (info : workflow_info)
    (inputs : WorkflowInputs) (queue_name : option string) (execute_workflow is_recovery is_dequeued : bool)
    (local_ctx : option DBOSContext) : res pyexn (option DBOSContext * process machine workflow_handle) :=
  let enqueue_options := enqueue_options_of local_ctx in
  match create_start_workflow_child executor_id app_id uuid local_ctx with
  | Err e => Err e
  | Ok (local_ctx', new_wf_ctx) =>
      let wfid := cx_id_assigned_for_next_workflow new_wf_ctx in
      Ok (local_ctx',
        deadline ← act (gets (λ s, snd (get_timeout_deadline (time_ms (m_world s)) local_ctx queue_name)));
        recorded ← (if has_parent new_wf_ctx then
                      database (λ _, check_operation_execution (cx_parent_workflow_id new_wf_ctx)
                                       (cx_parent_workflow_fid new_wf_ctx) (wf_name info))
                    else mret None);
        match nonempty (recorded ≫= rr_error), nonempty (recorded ≫= rr_child_workflow_id) with
        | Some error, _ =>
            e ← returns (deserialize_exception error (recorded ≫= rr_serialization) serializer);
            Returns (Err e)
        | None, Some child => mret (polling_handle child)
        | None, None =>
            '(ctx, status, should_execute) ←
              init_workflow app_version owner_xid new_wf_ctx info inputs queue_name
                (local_ctx ≫= cx_workflow_timeout_ms) deadline (wf_max_recovery_attempts info)
                (Some enqueue_options) is_recovery is_dequeued
                (Some (default DEFAULT (wf_serialization_type info))) wfid;
            let ctx := ctx <| cx_serialization_type :=
              if bool_decide (wi_serialization status = Some (ser_name DBOSPortableJSON)) then PORTABLE
              else default DEFAULT (wf_serialization_type info) |> in
            _ ← (if has_parent ctx then
                   database (λ _, record_child_workflow (cx_parent_workflow_id ctx) wfid
                                    (cx_parent_workflow_fid ctx) (wf_name info))
                 else mret tt);
            if negb execute_workflow || negb should_execute || negb (not_complete (wi_status status))
            then mret (polling_handle wfid)
            else mret {| wh_workflow_id := wfid;
                         wh_future := Some (execute_workflow_wthread polls status info ctx inputs) |}
        end)
  end.

(** ** Execution of a recorded workflow *)

(** What the process has registered: workflow functions, class instances and classes, by
    name; a receiver is a value. *)
Record registry := {
  workflow_info_map : string → option workflow_info;
  instance_info_map : string → option pyval;
  class_info_map : string → option pyval;
}.

Definition is_blank (s : string) : bool :=
  forallb (λ c, bool_decide (c ∈ [" "; "009"; "010"; "011"; "012"; "013"]%char)) (list_ascii_of_string s).

(** [DBOSContextSetAuth], [SetWorkflowID] and [SetEnqueueOptions] around the call. *)
Definition recovery_ctx (app_id : string) (user : option string) (roles : option (list string))
    (workflow_id : string) (queue_partition_key : option string) (local_ctx : option DBOSContext) : DBOSContext :=
  (default (new_context executor_id app_id) local_ctx)
    <| cx_authenticated_user := user |> <| cx_authenticated_roles := roles |>
    <| cx_id_assigned_for_next_workflow := workflow_id |> <| cx_is_within_set_workflow_id_block := true |>
    <| cx_deduplication_id := None |> <| cx_priority := None |> <| cx_app_version := None |>
    <| cx_queue_partition_key := queue_partition_key |> <| cx_delay_until_epoch_ms := None |>.

(** The receiver a method needs in front of its arguments. *)
Definition add_receiver (reg : registry) (workflow_id : string) (status : WorkflowStatusInternal)
    (info : workflow_info) (inputs : WorkflowInputs) : res pyexn WorkflowInputs :=
  let with_receiver o := {| args := o :: args inputs; kwargs := kwargs inputs |} in
  match wi_config_name status, wi_class_name status with
  | Some config_name, class_name =>
      let iname := py_opt class_name +:+ "/" +:+ config_name in
      match instance_info_map reg iname with
      | Some o => Ok (with_receiver o)
      | None => Err (DBOSWorkflowFunctionNotFoundError workflow_id
                       ("configured class instance '" +:+ iname +:+ "' is not registered"))
      end
  | None, Some class_name =>
      match class_info_map reg class_name with
      | Some o => Ok (if wf_static info then inputs else with_receiver o)
      | None => Err (DBOSWorkflowFunctionNotFoundError workflow_id ("class '" +:+ class_name +:+ "' is not registered"))
      end
  | None, None => Ok inputs
  end.

(** [r], its failure recorded as the outcome of the workflow. *)
Definition or_finalize {A} (status : WorkflowStatusInternal) (r : res pyexn A) : process machine A :=
  match r with
  | Ok a => mret a
  | Err e => if is_Exception e then finalize_error status e else Returns (Err e)
  end.

Definition execute_workflow_by_id (polls : nat) (app_id app_version uuid owner_xid : string) (reg : registry)
    (workflow_id : string) (is_recovery is_dequeue : bool) (local_ctx : option DBOSContext) :
    process machine workflow_handle :=
  found ← database (λ _ d, (d, Ok (get_workflow_status d workflow_id)));
  match found with
  | None => Returns (Err (DBOSRecoveryError workflow_id "Workflow status not found"))
  | Some status =>
      if is_blank workflow_id then
        finalize_error status (DBOSRecoveryError workflow_id "Cannot recover a workflow with an empty or whitespace-only ID")
      else
        inputs ← or_finalize status
          (match wi_inputs status with
           | Some x => deserialize_args x (wi_serialization status) serializer
           | None => Err (TypeError "the JSON object must be str, bytes or bytearray, not NoneType")
           end);
        match workflow_info_map reg (py_opt (wi_name status)) with
        | None => Returns (Err (DBOSWorkflowFunctionNotFoundError workflow_id
                    (py_opt (wi_name status) +:+ " is not a registered workflow function")))
        | Some info =>
            let portable := bool_decide (wi_serialization status = Some (ser_name DBOSPortableJSON)) ||
              (bool_decide (wi_serialization status = None) && bool_decide (ser_name serializer = ser_name DBOSPortableJSON)) in
            inputs ← match wf_validate_args info with
                     | None => mret (if portable then wf_coerce_to_hints info inputs else inputs)
                     | Some validate => or_finalize status (validate inputs)
                     end;
            roles ← returns (load_roles (wi_authenticated_roles status));
            inputs ← returns (add_receiver reg workflow_id status info inputs);
            let ctx := recovery_ctx app_id (wi_authenticated_user status) roles workflow_id
                         (wi_queue_partition_key status) local_ctx in
            match start_workflow polls app_id app_version uuid owner_xid info inputs (wi_queue_name status)
                    true is_recovery is_dequeue (Some ctx) with
            | Ok (_, p) => p
            | Err e => Returns (Err e)
            end
        end
  end.

(** ** Recovery: [dbos/_recovery.py] *)

(** [get_pending_workflows]: IDs and queues. *)
Definition get_pending_workflows (d : db) (executor app_version : string) : list (string * option string) :=
  (λ kr, (kr.1, ws_queue_name kr.2)) <$>
    sql_select (λ _ r, bool_decide (ws_status r = PENDING) && sql_eq (ws_executor_id r) executor &&
                       sql_eq (ws_application_version r) app_version) (workflow_status d).

(** [_recover_workflow] *)
Definition recover_workflow (polls : nat) (app_id app_version uuid owner_xid : string) (reg : registry)
    (workflow : string * option string) (local_ctx : option DBOSContext) : process machine workflow_handle :=
  let '(workflow_id, queue_name) := workflow in
  if truthy queue_name then
    _ ← database (λ _, clear_queue_assignment workflow_id);
    mret (polling_handle workflow_id)
  else execute_workflow_by_id polls app_id app_version uuid owner_xid reg workflow_id true false local_ctx.

(** [recover_pending_workflows], for one executor: the handles of those that could be
    recovered; an [Exception] of one does not keep the others from it. *)
Fixpoint recover_each (polls : nat) (app_id app_version : string) (uuids xids : string → string) (reg : registry)
    (pending : list (string * option string)) (local_ctx : option DBOSContext) :
    process machine (list workflow_handle) :=
  match pending with
  | [] => mret []
  | workflow :: pending' =>
      and_then (recover_workflow polls app_id app_version (uuids workflow.1) (xids workflow.1) reg workflow local_ctx)
        (λ r, match r with
              | Ok handle => handles ← recover_each polls app_id app_version uuids xids reg pending' local_ctx;
                             mret (handle :: handles)
              | Err e => if is_Exception e
                         then recover_each polls app_id app_version uuids xids reg pending' local_ctx
                         else Returns (Err e)
              end)
  end.

Definition recover_pending_workflows (polls : nat) (app_id app_version : string) (uuids xids : string → string)
    (reg : registry) (executor : string) (local_ctx : option DBOSContext) : process machine (list workflow_handle) :=
  pending ← database (λ _ d, (d, Ok (get_pending_workflows d executor app_version)));
  recover_each polls app_id app_version uuids xids reg pending local_ctx.

(** [startup_recovery_thread], one pass over the pending workflows: those that stay
    pending, because their function is not registered yet. *)
Fixpoint startup_recovery_pass (polls : nat) (app_id app_version : string) (uuids xids : string → string) (reg : registry)
    (pending : list (string * option string)) : process machine (list (string * option string)) :=
  match pending with
  | [] => mret []
  | workflow :: pending' =>
      and_then (recover_workflow polls app_id app_version (uuids workflow.1) (xids workflow.1) reg workflow None)
        (λ r, match r with
              | Err (DBOSWorkflowFunctionNotFoundError _ _) =>
                  _ ← act (modify (λ s, s <| m_world := sleep 1 (m_world s) |>));
                  left ← startup_recovery_pass polls app_id app_version uuids xids reg pending';
                  mret (workflow :: left)
              | Err e => if is_Exception e
                         then startup_recovery_pass polls app_id app_version uuids xids reg pending'
                         else Returns (Err e)
              | Ok _ => startup_recovery_pass polls app_id app_version uuids xids reg pending'
              end)
  end.

(** The passes until nothing is pending, or the process stops after [passes] of them. *)
Fixpoint startup_recovery_thread (passes polls : nat) (app_id app_version : string) (uuids xids : nat → string → string)
    (reg : registry) (pending : list (string * option string)) : process machine unit :=
  match passes, pending with
  | O, _ | _, [] => mret tt
  | S passes', _ =>
      left ← startup_recovery_pass polls app_id app_version (uuids passes) (xids passes) reg pending;
      startup_recovery_thread passes' polls app_id app_version uuids xids reg left
  end.

End execution.

(** ** The attempts of a step *)

Section attempts.
Context {W : Type} `{Host W}.
Context (opts : StepOptions) (ctx : DBOSContext) (func : DBOSContext → process W pyval).

(** The error is one the step is tried again for. *)
Definition tried_again (e : pyexn) : bool :=
  is_Exception e && match so_should_retry opts with Some p => p e | None => true end.

(** The [n]th attempt. *)
Definition attempt (n : nat) : process W pyval := func (enter_step_retry (Z.of_nat n) (so_max_attempts opts) ctx).

(** The world after the failures [es] of the attempts from [w], and the sleep after each. *)
Inductive failed_attempts (w : W) : list pyexn → W → Prop :=
| failed_nil : failed_attempts w [] w
| failed_again es w1 w2 e : failed_attempts w es w1 → finish (attempt (length es)) w1 = (w2, Some (Err e)) →
    tried_again e = true →
    failed_attempts w (es ++ [e])%list (sleep (on_exception opts (Z.of_nat (length es))) w2).

(** What the step comes to when the attempt after the failures [es] ends with [r]. *)
Definition attempts_end (name : string) (es : list pyexn) (r : res pyexn pyval) : res pyexn pyval :=
  match r with
  | Ok v => Ok v
  | Err e => if tried_again e then Err (DBOSMaxStepRetriesExceeded name (so_max_attempts opts) (es ++ [e])%list) else Err e
  end.

(** The attempt that ends the step is the last one, or one that is not tried again. *)
Definition last_attempt (es : list pyexn) (r : res pyexn pyval) : Prop :=
  match r with Err e => tried_again e = true → Z.of_nat (S (length es)) = so_max_attempts opts | Ok _ => True end.

(** A clock that a flaky function advances: it fails before the time 3. *)
Definition flaky_host : Host Z := {| time_ms := id; now_ms := id; sleep := λ q w, (w + Qnum q / Z.pos (Qden q))%Z |}.

Definition flaky : process Z pyval :=
  act (λ w, (w, if bool_decide (w < 3)%Z then Err (ValueError "early") else Ok (PStr "done"))).

Definition flaky_options : StepOptions := {|
  so_retries_allowed := true; so_interval_seconds := 1; so_max_attempts := 3; so_backoff_rate := 2; so_should_retry := None;
|}.

Lemma retry_from_spec name left es w w1 :
  (0 < left)%nat → so_max_attempts opts = Z.of_nat (length es + left) → failed_attempts w es w1 →
  (∀ n v, ∃ v' r, finish (attempt n) v = (v', Some r)) →
  ∃ es' w2 w' r, failed_attempts w es' w2 ∧ (length es' < length es + left)%nat ∧
    finish (attempt (length es')) w2 = (w', Some r) ∧ last_attempt es' r ∧
    finish (retry_from sleep left (so_max_attempts opts) (Z.of_nat (length es)) es ctx func (on_exception opts)
              (DBOSMaxStepRetriesExceeded name) (so_should_retry opts)) w1 = (w', Some (attempts_end name es' r)).
Proof.
  intros Hl Hmax Hfailed Hends. revert es w1 Hl Hmax Hfailed.
  induction left as [|left IH]; intros es w1 Hl Hmax Hfailed; [lia|].
  destruct (Hends (length es) w1) as (w2 & r & Hf). pose proof Hf as Hf'. unfold attempt in Hf'.
  cbn [retry_from]. setoid_rewrite finish_and_then. rewrite Hf'.
  destruct r as [v|e]; [exists es, w1, w2, (Ok v); split_and!; [done|lia|done..]|].
  destruct (tried_again e) eqn:Ht.
  2: { exists es, w1, w2, (Err e). unfold last_attempt, attempts_end. rewrite Ht.
       split_and!; [done|lia|done|done|]. unfold tried_again in Ht. destruct (is_Exception e); [|done].
       simpl in Ht. destruct (so_should_retry opts); [|done]. by rewrite Ht. }
  assert (is_Exception e = true ∧ match so_should_retry opts with Some p => negb (p e) | None => false end = false) as [-> ->].
  { unfold tried_again in Ht. apply andb_true_iff in Ht as [-> Hp]. split; [done|]. destruct (so_should_retry opts); [|done].
    by rewrite Hp. }
  cbn [negb]. destruct left as [|left].
  - rewrite bool_decide_eq_true_2 by lia. exists es, w1, w2, (Err e). unfold last_attempt, attempts_end. rewrite Ht.
    split_and!; [done|lia|done|intros _; lia|done].
  - rewrite bool_decide_eq_false_2 by lia.
    destruct (IH (es ++ [e])%list (sleep (on_exception opts (Z.of_nat (length es))) w2)) as (es' & w3 & w' & r & H1 & H2 & H3 & H4 & H5).
    + lia.
    + rewrite length_app. simpl. lia.
    + by econstructor.
    + rewrite length_app in H2. simpl in H2. exists es', w3, w', r. split_and!; [done|lia|done..|].
      rewrite <- H5, length_app. simpl. by replace (Z.of_nat (length es) + 1)%Z with (Z.of_nat (length es + 1)) by lia.
Qed.

End attempts.

(** ** Properties *)

(** A step that may be retried, with attempts that end one way or the other, ends. The
    attempts before its last one all failed with errors it is to be tried again for, and it
    slept after each for its backoff; it ends with the result of its last attempt, which is
    the first that returns or that fails otherwise, unless that was the last one allowed and
    failed as well: then it raises [DBOSMaxStepRetriesExceeded] with the errors of all its
    attempts. No sleep is longer than an hour. *)
Lemma step_attempts {W : Type} `{Host W} opts name ctx (func : DBOSContext → process W pyval) w :
  so_retries_allowed opts = true → (0 < so_max_attempts opts)%Z →
  (∀ n v, ∃ v' r, finish (attempt opts ctx func n) v = (v', Some r)) →
  (∀ n, on_exception opts n <= 3600)%Q ∧
  ∃ es w1 w' r, failed_attempts opts ctx func w es w1 ∧ (Z.of_nat (length es) < so_max_attempts opts)%Z ∧
    finish (attempt opts ctx func (length es)) w1 = (w', Some r) ∧ last_attempt opts es r ∧
    finish (step_outcome opts name ctx func) w = (w', Some (attempts_end opts name es r)).
Proof.
  intros Hr Hmax Hends. split; [intros n; apply Q.le_min_r|].
  destruct (retry_from_spec opts ctx func name (Z.to_nat (so_max_attempts opts)) [] w w) as (es & w1 & w' & r & H1 & H2 & H3 & H4 & H5);
    [lia|simpl; lia|constructor|done|].
  exists es, w1, w', r. split_and!; [done|simpl in H2; lia|done..|]. unfold step_outcome. by rewrite Hr.
Qed.

Lemma step_attempts_witness :
  ∃ w' r es, finish (@step_outcome Z flaky_host flaky_options "s" (new_context "e" "a") (λ _, flaky)) 0%Z =
    (w', Some (attempts_end flaky_options "s" es r)) ∧ (length es < 3)%nat ∧ r = Ok (PStr "done").
Proof.
  destruct (@step_attempts Z flaky_host flaky_options "s" (new_context "e" "a") (λ _, flaky) 0%Z eq_refl ltac:(reflexivity)
    ltac:(intros n v; unfold attempt; cbn; eauto)) as (_ & es & w1 & w' & r & _ & Hlt & Hf & _ & Hs).
  exists w', r, es. split; [exact Hs|]. split; [simpl in Hlt; lia|].
  vm_compute in Hs. unfold attempts_end in Hs. destruct r as [v|e]; [congruence|].
  exfalso. destruct (match e with DBOSWorkflowCancelledError _ | DBOSWorkflowConflictIDError _ | CancelledError => false | _ => true end); discriminate Hs.
Defined.
