(* ===== verification/Durability.v ===== *)
(** * Durable operations, and a workflow function between its checkpoints

    [Durable] is what an operation promises to the workflow that calls it: a checkpoint is
    answered without acting, and without one the operation acts on the world and leaves
    the checkpoint of its result, or is lost with the machine before it does. Steps keep the
    promise ([step_durable]). [spec] is a workflow without checkpoints, that lives in the
    world alone: it makes its calls one after the other, and a crash loses at most a part of
    the call under way, which is then made anew. A run of a workflow function replays what
    is recorded ([run_recorded]) and then makes the calls of [spec] ([run_progress]). *)
From Stdlib Require Import QArith.
From S2P Require Import Prelude Errors Schema Retry Serialization Workflows Context Steps Queues Process Execution.
Open Scope nat_scope.

Section durable.
Context {W : Type} `{Host W, Codecs} (serializer : Serializer) (executor_id : string).
Notation machine := (@machine W).
Notation operation := (@operation W).
Notation workflow := (@workflow W).

(** What the checkpoint of a step answers. *)
Definition answer_of (row : operation_outputs_row) : res pyexn pyval :=
  match oo_error row, oo_output row with
  | Some error, _ =>
      match deserialize_exception error (oo_serialization row) serializer with Ok e => Err e | Err e => Err e end
  | None, Some output => deserialize_value (Some output) (oo_serialization row) serializer
  | None, None => Err (PyException "Output and error are both None")
  end.

(** A result that can be checkpointed: a value or an [Exception] that serializes. *)
Definition recordable (r : res pyexn pyval) : Prop :=
  match r with
  | Ok v => is_ok (serialize_value v None serializer) = true
  | Err e => is_Exception e = true ∧ is_ok (serialize_exception e None serializer) = true
  end.

(** [wid] runs: its row is there and not cancelled. *)
Definition active (wid : string) (d : db) : Prop :=
  ∃ r, workflow_status d !! wid = Some r ∧ ws_status r ≠ CANCELLED.

(** The row, which may have become this executor's. *)
Definition same_but_executor (r r' : workflow_status_row) : Prop :=
  r' = r ∨ r' = r <| ws_executor_id := Some executor_id |>.

(** [d'] is [d] with the checkpoint [row] at [k]. *)
Definition checkpointed (k : string * Z) (row : operation_outputs_row) (d d' : db) : Prop :=
  operation_outputs d' = <[k := row]> (operation_outputs d) ∧
  ∀ r, workflow_status d !! k.1 = Some r →
    ∃ r', workflow_status d' !! k.1 = Some r' ∧ same_but_executor r r'.

(** The checkpoint an operation called in [ctx] uses: the counter it leaves. *)
Definition next_key (op : operation) (ctx : DBOSContext) : string * Z :=
  (cx_workflow_id ctx, cx_function_id (op ctx).1).

(** The interface of an operation that acts on the world by [attempt], under the function
    name [name]. *)
Class Durable (op : operation) (attempt : DBOSContext → process W pyval) (name : string) : Prop := {
  durable_advances ctx : is_workflow ctx = true →
    is_workflow (op ctx).1 = true ∧ cx_workflow_id (op ctx).1 = cx_workflow_id ctx ∧
    (cx_function_id ctx < cx_function_id (op ctx).1)%Z;
  durable_replays ctx s row :
    is_workflow ctx = true → active (cx_workflow_id ctx) (m_db s) →
    operation_outputs (m_db s) !! next_key op ctx = Some row → oo_function_name row = name →
    finish (op ctx).2 s = (s, Some (answer_of row)) ∧ ∀ n, (run_for n (op ctx).2 s).1 = s;
  durable_records ctx s :
    is_workflow ctx = true → active (cx_workflow_id ctx) (m_db s) →
    operation_outputs (m_db s) !! next_key op ctx = None →
    (∃ s' r row, finish (op ctx).2 s = (s', Some r) ∧ m_active s' = m_active s ∧
       finish (attempt ctx) (m_world s) = (m_world s', Some r) ∧
       checkpointed (next_key op ctx) row (m_db s) (m_db s') ∧
       oo_function_name row = name ∧ answer_of row = r) ∧
    ∀ n s', run_for n (op ctx).2 s = (s', None) →
      m_db s' = m_db s ∧ m_active s' = m_active s ∧
      ∃ m, m_world s' = (run_for m (attempt ctx) (m_world s)).1;
}.

(** A workflow function all of whose calls are durable, and whose results can be stored
    under the workflow's serialization. *)
Definition storable (serialization : option string) (r : res pyexn pyval) : Prop :=
  match r with
  | Ok v => is_ok (serialize_value_as v serialization serializer) = true
  | Err e => is_Exception e = true ∧ is_ok (serialize_exception e serialization serializer) = true
  end.

Inductive durable_workflow (serialization : option string) : workflow → Prop :=
| durable_return r : storable serialization r → durable_workflow serialization (WReturn r)
| durable_call op attempt name k : Durable op attempt name →
    (∀ r, durable_workflow serialization (k r)) → durable_workflow serialization (WCall op k).

(** ** The workflow in the world alone *)

(** What others may do to the world while the machine is down. *)
Context (others : W → W → Prop).

Definition config : Type := DBOSContext * workflow * W.

Inductive call_step : config → config → Prop :=
| CallStep op attempt name ctx k w w' a : Durable op attempt name →
    finish (attempt ctx) w = (w', Some a) →
    call_step (ctx, WCall op k, w) ((op ctx).1, k a, w').

Inductive crash_step : config → config → Prop :=
| CrashIdle ctx wf w w' : others w w' → crash_step (ctx, wf, w) (ctx, wf, w')
| CrashCall op attempt name ctx k w w' m : Durable op attempt name →
    others (run_for m (attempt ctx) w).1 w' →
    crash_step (ctx, WCall op k, w) (ctx, WCall op k, w').

(** An execution with a number of crashes. *)
Inductive spec : nat → config → config → Prop :=
| spec_refl c : spec 0 c c
| spec_call n c1 c2 c3 : call_step c1 c2 → spec n c2 c3 → spec n c1 c3
| spec_crash n c1 c2 c3 : crash_step c1 c2 → spec n c2 c3 → spec (S n) c1 c3.

(** The context a step called in [ctx] runs in. *)
Definition step_context (ctx : DBOSContext) : DBOSContext :=
  let step_ctx := (snapshot_step_ctx false ctx).2 in start_step (cx_function_id step_ctx) step_ctx.

(** How a step acts on the world. *)
Definition step_attempt (name : string) (opts : StepOptions) (func : DBOSContext → process W pyval)
    (ctx : DBOSContext) : process W pyval :=
  step_outcome opts name (step_context ctx) func.

(** ** Where an execution stands *)

(** The function called in [ctx] has come to [wf'] in [ctx'] by its checkpoints. *)
Inductive recorded (d : db) : DBOSContext → workflow → DBOSContext → workflow → Prop :=
| recorded_nil ctx wf : recorded d ctx wf ctx wf
| recorded_cons op attempt name ctx k row ctx' wf' : Durable op attempt name →
    operation_outputs d !! next_key op ctx = Some row → oo_function_name row = name →
    recorded d (op ctx).1 (k (answer_of row)) ctx' wf' → recorded d ctx (WCall op k) ctx' wf'.

(** No step after [ctx] has a checkpoint. *)
Definition frontier (ctx : DBOSContext) (d : db) : Prop :=
  ∀ fid, (cx_function_id ctx < fid)%Z → operation_outputs d !! (cx_workflow_id ctx, fid) = None.

(** The world while the call under way acts on it. *)
Definition under_way (ctx : DBOSContext) (wf : workflow) (w w' : W) : Prop :=
  w' = w ∨ ∃ op attempt name k m, wf = WCall op k ∧ Durable op attempt name ∧
    w' = (run_for m (attempt ctx) w).1.

(** Between two databases of an execution: checkpoints are kept, and the row but for its
    executor. *)
Definition goes_on (wid : string) (d d' : db) : Prop :=
  (∀ fid row, operation_outputs d !! (wid, fid) = Some row → operation_outputs d' !! (wid, fid) = Some row) ∧
  ∀ r, workflow_status d !! wid = Some r → ∃ r', workflow_status d' !! wid = Some r' ∧ same_but_executor r r'.

(** What the execution of a function comes to from where it has no checkpoints: after some
    calls it is at [wf'], and back there by the checkpoints it leaves. *)
Record progress (ser : option string) (ctx : DBOSContext) (wf : workflow) (s s' : machine)
    (ctx' : DBOSContext) (wf' : workflow) (w' : W) : Prop := {
  pr_recorded : recorded (m_db s') ctx wf ctx' wf';
  pr_calls : rtc call_step (ctx, wf, m_world s) (ctx', wf', w');
  pr_frontier : frontier ctx' (m_db s');
  pr_durable : durable_workflow ser wf';
  pr_goes_on : goes_on (cx_workflow_id ctx) (m_db s) (m_db s');
  pr_active : m_active s' = m_active s;
  pr_under_way : under_way ctx' wf' w' (m_world s');
}.

End durable.

(** ** Steps are durable *)

Section step_durable.
Context {W : Type} `{Host W, Codecs, !CodecLaws} (serializer : Serializer) (executor_id : string).
Hypothesis honest : honest_name serializer.
Hypothesis reads_back : round_trips serializer.
Hypothesis not_portable : ser_name serializer ≠ ser_name DBOSPortableJSON.
Notation checkpointed := (checkpointed executor_id).

Lemma canonical_native v : canonical (ser_name serializer) v = Ok v.
Proof. unfold canonical. by rewrite bool_decide_eq_false_2. Qed.

Lemma check_existing_result_eq ctx name d :
  check_existing_result serializer ctx name d =
  (d, match check_result d (cx_workflow_id ctx) (cx_function_id ctx) name with
      | Err e => Err e
      | Ok None => Ok None
      | Ok (Some recorded) =>
          match rr_error recorded, rr_output recorded with
          | Some error, _ => match deserialize_exception error (rr_serialization recorded) serializer with
                             | Ok e => Err e | Err e => Err e end
          | None, Some output => match deserialize_value (Some output) (rr_serialization recorded) serializer with
                                 | Ok v => Ok (Some v) | Err e => Err e end
          | None, None => Err (PyException "Output and error are both None")
          end
      end).
Proof.
  unfold check_existing_result, mbind, SM_bind. rewrite check_operation_execution_eq.
  destruct (check_result _ _ _ _) as [[r|]|e]; [|done|done].
  destruct (rr_error r) as [x|]; [unfold lift_res; by destruct (deserialize_exception x _ _)|].
  destruct (rr_output r) as [x|]; [|done]. unfold lift_res. by destruct (deserialize_value _ _ _).
Qed.

Lemma check_existing_result_recorded ctx name s row :
  active (cx_workflow_id ctx) (m_db (W:=W) s) →
  operation_outputs (m_db s) !! (cx_workflow_id ctx, cx_function_id ctx) = Some row → oo_function_name row = name →
  check_existing_result serializer ctx name (m_db s) =
  (m_db s, match answer_of serializer row with Ok v => Ok (Some v) | Err e => Err e end).
Proof.
  intros (r & Hr & Hs) Ho Hn. rewrite check_existing_result_eq.
  rewrite (check_result_kept _ _ name (m_db s) (m_db s) row); [|split; [done|by exists r]|done|done].
  unfold answer_of. cbn [rr_error rr_output rr_serialization].
  destruct (oo_error row); [by destruct (deserialize_exception _ _ _)|]. by destruct (oo_output row).
Qed.

Lemma check_existing_result_free ctx name (d : db) :
  active (cx_workflow_id ctx) d →
  operation_outputs d !! (cx_workflow_id ctx, cx_function_id ctx) = None →
  check_existing_result serializer ctx name d = (d, Ok None).
Proof.
  intros (r & Hr & Hs) Ho. rewrite check_existing_result_eq. unfold check_result.
  by rewrite Hr, bool_decide_eq_false_2, Ho.
Qed.

Lemma record_operation_result_checkpoints t result d :
  let k := (or_workflow_uuid result, or_function_id result) in
  active k.1 d → or_error result = None ∨ or_output result = None → operation_outputs d !! k = None →
  ∃ d', record_operation_result (Some executor_id) t result d = (d', Ok tt) ∧
    checkpointed k (recorded_row result t) d d'.
Proof.
  intros k (r & Hr & _) Hor Hfree. rewrite (record_operation_result_eq _ _ t d r Hr Hor). cbv zeta. fold k.
  rewrite Hfree. eexists. split; [done|]. split; simpl; [by rewrite reset_db_outputs|].
  intros r0 Hr0. simpl in Hr. assert (r0 = r) as -> by congruence. unfold reset_db. rewrite Hr.
  destruct (_ && _); simpl; [rewrite lookup_insert_eq|rewrite Hr]; eexists; (split; [done|]); [by right|by left].
Qed.

(** [record_step_result] on a result that can be recorded. *)
Lemma record_step_result_recordable ctx name t0 r (s : machine) :
  recordable serializer r → active (cx_workflow_id ctx) (m_db s) →
  let k := (cx_workflow_id ctx, cx_function_id ctx) in
  operation_outputs (m_db s) !! k = None →
  ∃ f s' row, record_step_result serializer executor_id ctx name t0 r = Act f ∧
    f s = (s', Returns r) ∧ m_world s' = m_world s ∧ m_active s' = m_active s ∧
    checkpointed k row (m_db s) (m_db s') ∧ oo_function_name row = name ∧ answer_of serializer row = r.
Proof.
  intros Hrec Hact k Hfree.
  assert (∀ o e n, e = None ∨ o = None → ∃ d', let result := step_result ctx name t0 o e (Some n) in
    record_operation_result (Some executor_id) (time_ms (m_world s)) result (m_db s) = (d', Ok tt) ∧
    checkpointed k (recorded_row result (time_ms (m_world s))) (m_db s) d') as Hw.
  { intros o e n Hor.
    destruct (record_operation_result_checkpoints (time_ms (m_world s)) (step_result ctx name t0 o e (Some n)) (m_db s))
      as (d' & Hd & Hc); [done..|]. by exists d'. }
  destruct r as [v|e]; simpl in Hrec.
  - destruct (serialize_value v None serializer) as [[x n]|] eqn:Hs; [|done].
    destruct (Hw (Some x) None n (or_introl eq_refl)) as (d' & Hd & Hc).
    unfold record_step_result. rewrite Hs. cbn. eexists _, (s <| m_db := d' |>), _. split; [done|].
    cbn. rewrite Hd. do 3 (split; [done|]). split; [exact Hc|]. split; [done|].
    unfold answer_of. cbn [step_result recorded_row oo_error oo_output oo_serialization or_output or_error or_serialization].
    assert (n = ser_name serializer) as -> by (by eapply serialize_value_as_name).
    rewrite (serialize_then_deserialize serializer v _ x _ honest reads_back Hs). apply canonical_native.
  - destruct Hrec as [He Hrec].
    destruct (serialize_exception e None serializer) as [[x n]|] eqn:Hs; [|done].
    destruct (Hw None (Some x) n (or_intror eq_refl)) as (d' & Hd & Hc).
    assert (n = ser_name serializer) as Hn by (by apply serialize_exception_name in Hs).
    assert (record_step_result serializer executor_id ctx name t0 (Err e) =
      (_ ← record_result executor_id (step_result ctx name t0 None (Some x) (Some n)); Returns (Err e))) as ->.
    { destruct e; try done; unfold record_step_result; cbn [is_Exception]; by rewrite Hs. }
    eexists _, (s <| m_db := d' |>), _. split; [done|].
    cbn. rewrite Hd. do 3 (split; [done|]). split; [exact Hc|]. split; [done|].
    unfold answer_of. cbn [step_result recorded_row oo_error oo_output oo_serialization or_output or_error or_serialization].
    assert (deserialize_exception x (Some n) serializer = Ok e) as ->; [|done].
    apply (native_exception_back _ _ None); [done..|congruence].
Qed.

(** The call of a step in a workflow. *)
Lemma step_call name opts func ctx :
  is_workflow ctx = true →
  step serializer executor_id name None None opts func ctx =
  (ctx <| cx_function_id := (cx_function_id ctx + 1)%Z |>,
   invoke_step serializer executor_id (ctx <| cx_function_id := (cx_function_id ctx + 1)%Z |>)
     (snapshot_step_ctx false ctx).2 func name opts).
Proof. intros Hw. unfold step. rewrite Hw. by destruct ctx. Qed.

Lemma invoke_step_eq cur_ctx step_ctx func name opts :
  is_workflow cur_ctx = true → (so_retries_allowed opts = true → (0 < so_max_attempts opts)%Z) →
  let ctx := start_step (cx_function_id step_ctx) step_ctx in
  invoke_step serializer executor_id cur_ctx step_ctx func name opts =
  Act (λ s, (s, intercept
    (and_then (outside (step_outcome opts name ctx func))
       (record_step_result serializer executor_id ctx name (time_ms (m_world s))))
    (database (λ _, check_existing_result serializer ctx name)))).
Proof.
  intros Hw Hopts ctx. unfold invoke_step. rewrite Hw. cbn [negb].
  assert (so_retries_allowed opts && negb (bool_decide (0 < so_max_attempts opts)%Z) = false) as ->; [|done].
  destruct (so_retries_allowed opts); [|done]. by rewrite bool_decide_eq_true_2 by auto.
Qed.

Lemma machine_same_db (s : machine (W:=W)) : s <| m_db := m_db s |> = s.
Proof. by destruct s. Qed.

(** A step is durable when its retries are set up, its function returns, and what it
    returns or raises in the end can be recorded. *)
Lemma step_durable name opts func :
  (so_retries_allowed opts = true → (0 < so_max_attempts opts)%Z) →
  (∀ ctx w, ∃ w' r, finish (step_attempt name opts func ctx) w = (w', Some r) ∧ recordable serializer r) →
  Durable serializer executor_id (step serializer executor_id name None None opts func) (step_attempt name opts func) name.
Proof.
  intros Hopts Hends. split.
  - intros ctx Hw. rewrite (step_call _ _ _ _ Hw). simpl. by split_and!; [destruct ctx|destruct ctx|lia].
  - intros ctx s row Hw Hact. unfold next_key. rewrite (step_call _ _ _ _ Hw). cbn [fst snd]. intros Ho Hn.
    rewrite invoke_step_eq by (done || by destruct ctx). set (sctx := start_step _ _).
    pose proof (check_existing_result_recorded sctx name s row Hact Ho Hn) as Hc.
    split.
    + cbn [finish]. unfold intercept, mbind, process_bind. rewrite finish_and_then. unfold database.
      rewrite finish_act, Hc, machine_same_db. cbn [fst snd]. by destruct (answer_of serializer row).
    + intros [|n]; [done|]. cbn [run_for]. unfold intercept, mbind, process_bind. rewrite run_for_and_then. unfold database.
      rewrite run_for_act. destruct n as [|n]; [done|]. rewrite Hc, machine_same_db. cbn [fst snd].
      by destruct (answer_of serializer row).
  - intros ctx s Hw Hact. unfold next_key. rewrite (step_call _ _ _ _ Hw). cbn [fst snd]. intros Ho.
    rewrite invoke_step_eq by (done || by destruct ctx). change (start_step _ _) with (step_context ctx).
    set (sctx := step_context ctx).
    pose proof (check_existing_result_free sctx name (m_db s) Hact Ho) as Hc.
    destruct (Hends ctx (m_world s)) as (w' & r & Hfin & Hrec). unfold step_attempt in *. fold sctx in Hfin.
    set (s1 := s <| m_world := w' |>).
    destruct (record_step_result_recordable sctx name (time_ms (m_world s)) r s1 Hrec Hact Ho)
      as (f & s' & row & Hf & Hs' & Hw' & Ha' & Hck & Hn & Hans).
    split.
    + exists s', r, row. split; [|split_and!; [done|by rewrite Hw'|exact Hck|done|done]].
      cbn [finish]. unfold intercept, mbind, process_bind. rewrite finish_and_then. unfold database.
      rewrite finish_act, Hc, machine_same_db. cbn [fst snd]. rewrite finish_and_then. unfold outside.
      rewrite finish_within by (done || by intros []). rewrite Hfin. cbn [fst snd]. fold s1. rewrite Hf. simpl.
      by rewrite Hs'.
    + intros [|n] s2; [intros [= <-]; split_and!; try done; by exists 0; destruct (step_outcome _ _ _ _)|].
      cbn [run_for]. unfold intercept, mbind, process_bind. rewrite run_for_and_then. unfold database.
      rewrite run_for_act. destruct n as [|n]; [intros [= <-]; split_and!; try done; by exists 0; destruct (step_outcome _ _ _ _)|].
      rewrite Hc, machine_same_db. cbn [fst snd]. rewrite run_for_and_then. unfold outside.
      rewrite run_for_within by (done || by intros []).
      destruct (run_for n (step_outcome opts name sctx func) (m_world s)) as [w2 [[m r2]|]] eqn:Hrun; cbn [fst snd].
      * rewrite (run_for_finish _ _ _ _ _ _ Hrun) in Hfin. injection Hfin as -> ->. fold s1. rewrite Hf. simpl.
        destruct m as [|m]; [|by rewrite Hs']. intros [= <-]. split_and!; try done. exists n. unfold step_attempt. fold sctx. by rewrite Hrun.
      * intros [= <-]. split_and!; try done. exists n. unfold step_attempt. fold sctx. by rewrite Hrun.
Qed.

End step_durable.

(** ** A workflow function is replayed, then goes on *)

Section refinement.
Context {W : Type} `{Host W, Codecs, !CodecLaws} (serializer : Serializer) (executor_id : string).
Notation Durable := (Durable serializer executor_id).
Notation call_step := (call_step serializer executor_id).
Notation recorded := (recorded (W:=W) serializer executor_id).
Notation progress := (progress (W:=W) serializer executor_id).
Notation same_but_executor := (same_but_executor executor_id).
Notation checkpointed := (checkpointed executor_id).
Notation goes_on := (goes_on executor_id).
Notation durable_workflow := (durable_workflow serializer executor_id).

#[export] Instance goes_on_preorder wid : PreOrder (goes_on wid).
Proof.
  split.
  - intros d. split; [done|]. intros r Hr. exists r. split; [done|]. by left.
  - intros d1 d2 d3 [Ho1 Hr1] [Ho2 Hr2]. split; [eauto|]. intros r Hr.
    destruct (Hr1 r Hr) as (r' & Hr' & Hs'). destruct (Hr2 r' Hr') as (r'' & Hr'' & Hs'').
    exists r''. split; [done|]. destruct Hs' as [->| ->], Hs'' as [->| ->]; [by left|by right..].
Qed.

Lemma same_but_executor_status r r' : same_but_executor r r' → ws_status r' = ws_status r.
Proof. by intros [->| ->]. Qed.

Lemma active_goes_on wid d d' : goes_on wid d d' → active wid d → active wid d'.
Proof.
  intros [_ Hr] (r & Hl & Hs). destruct (Hr r Hl) as (r' & Hl' & Hs'). exists r'. split; [done|].
  by rewrite (same_but_executor_status r r').
Qed.

Lemma checkpointed_goes_on wid fid row d d' :
  checkpointed (wid, fid) row d d' → operation_outputs d !! (wid, fid) = None → goes_on wid d d'.
Proof.
  intros [Ho Hr] Hfree. split; [|done]. intros fid' row' Hrow. rewrite Ho.
  rewrite lookup_insert_ne; [done|]. intros [= ->]. congruence.
Qed.

Lemma recorded_workflow d ctx wf ctx' wf' :
  recorded d ctx wf ctx' wf' → is_workflow ctx = true →
  is_workflow ctx' = true ∧ cx_workflow_id ctx' = cx_workflow_id ctx ∧
  (cx_function_id ctx ≤ cx_function_id ctx')%Z.
Proof.
  induction 1 as [|op attempt name ctx k row ctx' wf' HD Ho Hn _ IH]; intros Hw; [done|].
  destruct (durable_advances _ _ ctx Hw) as (Hw1 & Hid & Hlt).
  destruct (IH Hw1) as (? & ? & ?). split_and!; [done|congruence|lia].
Qed.

Lemma recorded_mono d d' ctx wf ctx' wf' :
  (∀ fid row, operation_outputs d !! (cx_workflow_id ctx, fid) = Some row →
     operation_outputs d' !! (cx_workflow_id ctx, fid) = Some row) →
  is_workflow ctx = true → recorded d ctx wf ctx' wf' → recorded d' ctx wf ctx' wf'.
Proof.
  intros Hd Hw Hrec. revert Hd Hw. induction Hrec as [|op attempt name ctx k row ctx' wf' HD Ho Hn _ IH];
    intros Hd Hw; [constructor|].
  destruct (durable_advances _ _ ctx Hw) as (Hw1 & Hid & _).
  econstructor; [done|by apply Hd|done|]. apply IH; [|done]. by rewrite Hid.
Qed.

Lemma recorded_durable d ctx wf ctx' wf' ser :
  recorded d ctx wf ctx' wf' → durable_workflow ser wf → durable_workflow ser wf'.
Proof. induction 1 as [|op attempt name ctx k row ctx' wf' HD Ho Hn _ IH]; [done|]. inversion 1; subst. auto. Qed.

Lemma recorded_trans d ctx wf ctx1 wf1 ctx2 wf2 :
  recorded d ctx wf ctx1 wf1 → recorded d ctx1 wf1 ctx2 wf2 → recorded d ctx wf ctx2 wf2.
Proof. induction 1; [done|]. intros. econstructor; eauto. Qed.

(** The recorded part is answered without acting. *)
Lemma run_recorded ctx wf ctx' wf' (s : machine) :
  recorded (m_db s) ctx wf ctx' wf' → is_workflow ctx = true → active (cx_workflow_id ctx) (m_db s) →
  finish (run_workflow ctx wf) s = finish (run_workflow ctx' wf') s ∧
  ∀ n, run_for n (run_workflow ctx wf) s = (s, None) ∨
       ∃ m, run_for n (run_workflow ctx wf) s = run_for m (run_workflow ctx' wf') s.
Proof.
  intros Hrec. induction Hrec as [|op attempt name ctx k row ctx' wf' HD Ho Hn _ IH]; intros Hw Hact; [eauto|].
  destruct (durable_advances _ _ ctx Hw) as (Hw1 & Hid & _).
  destruct (durable_replays _ _ ctx s row Hw Hact Ho Hn) as [Hf Hrun].
  destruct (IH Hw1 ltac:(by rewrite Hid)) as [IHf IHn].
  cbn [run_workflow]. destruct (op ctx) as [c1 p] eqn:Hop. cbn [fst snd] in *. split.
  - by rewrite finish_and_then, Hf.
  - intros n. rewrite run_for_and_then. specialize (Hrun n).
    destruct (run_for n p s) as [s1 [[m r]|]] eqn:Hr; cbn [fst] in Hrun; subst s1; [|by left].
    rewrite (run_for_finish _ _ _ _ _ _ Hr) in Hf. injection Hf as ->. apply IHn.
Qed.

Lemma progress_refl ser ctx wf s s' :
  durable_workflow ser wf → frontier ctx (m_db s) →
  m_db s' = m_db s → m_active s' = m_active s → under_way serializer executor_id ctx wf (m_world s) (m_world s') →
  progress ser ctx wf s s' ctx wf (m_world s).
Proof. intros Hd Hf Hdb Ha Hu. split; try done; rewrite ?Hdb; [constructor|done..]. Qed.

Lemma progress_call ser op attempt name ctx k s s1 s' r row ctx' wf' w' :
  Durable op attempt name → is_workflow ctx = true → frontier ctx (m_db s) →
  finish (attempt ctx) (m_world s) = (m_world s1, Some r) → m_active s1 = m_active s →
  checkpointed (next_key op ctx) row (m_db s) (m_db s1) → oo_function_name row = name → answer_of serializer row = r →
  progress ser (op ctx).1 (k r) s1 s' ctx' wf' w' → progress ser ctx (WCall op k) s s' ctx' wf' w'.
Proof.
  intros HD Hw Hfr Hatt Ha Hck Hn Hans [Hrec Hcalls Hfr' Hdur Hgo Hact Huw].
  destruct (durable_advances _ _ ctx Hw) as (Hw1 & Hid & Hlt). rewrite Hid in Hgo.
  assert (operation_outputs (m_db s) !! next_key op ctx = None) as Hfree by (by apply Hfr).
  split; [|..]; try done.
  - econstructor; [done| |exact Hn|by rewrite Hans]. apply (proj1 Hgo). destruct Hck as [-> _]. apply lookup_insert_eq.
  - econstructor; [|exact Hcalls]. by econstructor.
  - etrans; [by eapply checkpointed_goes_on|done].
  - congruence.
Qed.

Lemma frontier_checkpointed (op : operation (W:=W)) attempt name ctx row d d' :
  Durable op attempt name → is_workflow ctx = true → checkpointed (next_key op ctx) row d d' →
  frontier ctx d → frontier (op ctx).1 d'.
Proof.
  intros HD Hw [Ho _] Hfr fid Hlt. destruct (durable_advances _ _ ctx Hw) as (_ & Hid & Hlt').
  rewrite Hid, Ho, lookup_insert_ne; [apply Hfr; lia|]. unfold next_key. intros [= ?]. lia.
Qed.

(** The execution of a function from where it has no checkpoints, to its end and to a crash. *)
Lemma run_progress ser ctx wf (s : machine) :
  durable_workflow ser wf → is_workflow ctx = true → active (cx_workflow_id ctx) (m_db s) →
  frontier ctx (m_db s) →
  (∃ s' r ctx', finish (run_workflow ctx wf) s = (s', Some r) ∧
     progress ser ctx wf s s' ctx' (WReturn r) (m_world s')) ∧
  ∀ n s', run_for n (run_workflow ctx wf) s = (s', None) →
    ∃ ctx' wf' w', progress ser ctx wf s s' ctx' wf' w'.
Proof.
  intros Hdur. revert ctx s. induction Hdur as [r Hst|op attempt name k HD Hk IH]; intros ctx s Hw Hact Hfr.
  { split; [|done]. exists s, r, ctx. split; [done|]. apply progress_refl; try done; [by constructor|by left]. }
  destruct (durable_records _ _ ctx s Hw Hact (Hfr _ (proj2 (proj2 (durable_advances _ _ ctx Hw)))))
    as [(s1 & r & row & Hf & Ha & Hatt & Hck & Hn & Hans) Hcrash].
  destruct (durable_advances _ _ ctx Hw) as (Hw1 & Hid & Hlt).
  assert (goes_on (cx_workflow_id ctx) (m_db s) (m_db s1)) as Hgo
    by (eapply checkpointed_goes_on; [exact Hck|apply Hfr, Hlt]).
  destruct (IH r (op ctx).1 s1 Hw1) as [(s' & r' & ctx' & Hf' & Hp) Hcrash'].
  { rewrite Hid. by eapply active_goes_on. }
  { by eapply frontier_checkpointed. }
  assert (∀ s' ctx' wf' w', progress ser (op ctx).1 (k r) s1 s' ctx' wf' w' →
            progress ser ctx (WCall op k) s s' ctx' wf' w') as Hstep by (intros; by eapply progress_call).
  cbn [run_workflow]. destruct (op ctx) as [c1 p] eqn:Hop. cbn [fst snd] in *. split.
  - exists s', r', ctx'. split; [|by apply Hstep]. by rewrite finish_and_then, Hf.
  - intros n s2. rewrite run_for_and_then. destruct (run_for n p s) as [s3 [[m r3]|]] eqn:Hr.
    + pose proof (run_for_finish _ _ _ _ _ _ Hr) as Hf3. rewrite Hf in Hf3. injection Hf3 as -> ->.
      intros Hrun. destruct (Hcrash' m s2 Hrun) as (ctx2 & wf2 & w2 & Hp2). eauto.
    + intros [= <-]. destruct (Hcrash n s3 Hr) as (Hdb & Hac & m & Hm).
      exists ctx, (WCall op k), (m_world s). apply progress_refl; try done; [by econstructor|].
      right. by exists op, attempt, name, k, m.
Qed.

End refinement.
