(* ===== verification/Recovery.v ===== *)
(** * Crashes and recoveries: [execute_workflow_by_id], again and again

    One execution of a recorded workflow, from the read of its row over its submission and
    its thread to its outcome ([execution_pending], [wthread_settles], [execution_settled]),
    then the invariant that holds between two executions ([between]), and that a workflow
    with crashes and recoveries is no more than [Durability.spec]
    ([crash_recovery_refines]). *)
From Stdlib Require Import QArith.
From S2P Require Import Prelude Errors Schema Retry Serialization Workflows Context Steps Queues Process Execution Durability.
Open Scope nat_scope.

Section crashes.
Context {W : Type} `{Host W, Codecs} (serializer : Serializer) (executor_id : string).
Notation machine := (@machine W).
Notation workflow := (@workflow W).
Notation workflow_info := (@workflow_info W).
Notation workflow_handle := (@workflow_handle W).
Notation registry := (@registry W).

Definition found (r : res pyexn pyval) : res pyexn (option pyval) :=
  match r with Ok v => Ok (Some v) | Err e => Err e end.

(** What of a row the execution of its workflow depends on. *)
Definition run_identity (r : workflow_status_row) :=
  (ws_name r, ws_class_name r, ws_config_name r, ws_inputs r, ws_serialization r, ws_authenticated_user r,
   ws_authenticated_roles r, ws_workflow_deadline_epoch_ms r).

(** The outcome [r] of the workflow is in the database, in a row like [row0]. *)
Definition settled (row0 : workflow_status_row) (wid : string) (d : db) (r : res pyexn pyval) : Prop :=
  check_workflow_result serializer d wid = found r ∧
  ∃ row, workflow_status d !! wid = Some row ∧ run_identity row = run_identity row0 ∧ not_complete (ws_status row) = false.

Context (others : W → W → Prop).
Context (polls : nat) (app_id app_version : string) (uuids xids : nat → string) (reg : registry ).
Context (wid : string) (is_recovery is_dequeue : bool).

(** The [k]th execution of the workflow [wid], by a thread without a context, and the wait
    for its result. *)
Definition run_handle (h : workflow_handle ) : process machine pyval :=
  match wh_future h with Some p => p | None => await_result serializer polls (wh_workflow_id h) end.

Definition execution (k : nat) : process machine pyval :=
  handle ← execute_workflow_by_id serializer executor_id polls app_id app_version (uuids k) (xids k) reg wid
             is_recovery is_dequeue None;
  run_handle handle.

(** [k] executions in a row, each of which is lost with its machine after some number of
    actions; what others do before the next one leaves the rows of [wid] alone. *)
Inductive crashes : nat → machine → machine → Prop :=
| crashes_0 s : crashes 0 s s
| crashes_S k n s s1 d w : crashes k s s1 →
    undisturbed wid (m_db (run_for n (execution k) s1).1) d →
    others (m_world (run_for n (execution k) s1).1) w →
    crashes (S k) s (crash ((run_for n (execution k) s1).1 <| m_db := d |> <| m_world := w |>)).

(** The context the function of the workflow runs in. *)
Definition execution_ctx (row : workflow_status_row) (info : workflow_info ) (roles : option (list string)) :
    DBOSContext :=
  (new_context executor_id app_id)
    <| cx_workflow_id := wid |> <| cx_function_id := 0%Z |> <| cx_parent_workflow_fid := (-1)%Z |>
    <| cx_authenticated_user := ws_authenticated_user row |> <| cx_authenticated_roles := roles |>
    <| cx_serialization_type := if bool_decide (ws_serialization row = Some (ser_name DBOSPortableJSON)) then PORTABLE
                                else default DEFAULT (wf_serialization_type info) |>
    <| cx_workflow_deadline_epoch_ms := ws_workflow_deadline_epoch_ms row |>.

(** The row [row] of [wid] can be executed: a plain function is registered under its name,
    its inputs are read, and it is open to everybody. *)
Record executable (row : workflow_status_row) (info : workflow_info ) (inputs : WorkflowInputs)
    (roles : option (list string)) : Prop := {
  ex_id : is_blank wid = false;
  ex_name : ws_name row = Some (wf_name info) ∧ workflow_info_map reg (wf_name info) = Some info;
  ex_class : ws_class_name row = None ∧ wf_class_name info = None;
  ex_config : ws_config_name row = None ∧ wf_config_name info = None;
  ex_inputs : ∃ x, ws_inputs row = Some x ∧ deserialize_args x (ws_serialization row) serializer = Ok inputs;
  ex_serialization : ∃ n, ws_serialization row = Some n ∧ n ≠ ser_name DBOSPortableJSON;
  ex_validate : wf_validate_args info = None;
  ex_roles : load_roles (ws_authenticated_roles row) = Ok roles;
  ex_open : wf_class_roles info = None ∧ wf_required_roles info = None;
  ex_again : is_ok (serialize_args inputs (Some (default DEFAULT (wf_serialization_type info))) serializer) = true;
}.

(** The recoveries the row still has. *)
Definition attempts_left (row : workflow_status_row) (info : workflow_info ) (k : nat) : Prop :=
  match ws_recovery_attempts row with
  | None => False
  | Some a => match wf_max_recovery_attempts info with None => True | Some m => (a + Z.of_nat k ≤ m + 1)%Z end
  end.

(** ** The submission of an execution *)

(** The context of the new workflow in [start_workflow]. *)
Definition submitted_ctx (user : option string) (roles : option (list string)) : DBOSContext :=
  (new_context executor_id app_id) <| cx_id_assigned_for_next_workflow := wid |>
    <| cx_is_within_set_workflow_id_block := true |> <| cx_authenticated_user := user |>
    <| cx_authenticated_roles := roles |>.

(** The submission that an execution of the workflow makes anew. *)
Definition submission (row : workflow_status_row) (info : workflow_info) (roles : option (list string))
    (serargs serialization : string) : WorkflowStatusInternal :=
  new_status app_version (submitted_ctx (ws_authenticated_user row) roles) wid info (ws_queue_name row) None None
    (Some (enqueue_options_of (Some (recovery_ctx executor_id app_id (ws_authenticated_user row) roles wid
             (ws_queue_partition_key row) None)))) serargs serialization None.

(** The row after another submission of its workflow. *)
Definition submitted_again (row row1 : workflow_status_row) : Prop :=
  ∃ now status, wi_executor_id status = Some executor_id ∧ row1 = existing_row now status true row.

(** What an execution makes of the answer to its submission. *)
Definition after_submission (row : workflow_status_row) (info : workflow_info) (inputs : WorkflowInputs)
    (roles : option (list string)) (serargs serialization : string) (out : init_result) :
    process machine workflow_handle :=
  let status := (submission row info roles serargs serialization) <| wi_workflow_deadline_epoch_ms := ir_deadline out |>
                  <| wi_status := ir_status out |> <| wi_serialization := ir_serialization out |> in
  let ctx := (submitted_ctx (ws_authenticated_user row) roles) <| cx_workflow_attributes := None |>
               <| cx_workflow_deadline_epoch_ms := ir_deadline out |>
               <| cx_serialization_type := if bool_decide (ir_serialization out = Some (ser_name DBOSPortableJSON))
                    then PORTABLE else default DEFAULT (wf_serialization_type info) |> in
  if negb (ir_should_execute out) || negb (not_complete (ir_status out)) then mret (polling_handle wid)
  else mret {| wh_workflow_id := wid; wh_future := Some (execute_workflow_wthread serializer polls status info ctx inputs) |}.

(** ** The invariant of the crashes *)

Section invariant.
(** What a row is like while its workflow is under way: it is pending, at least. *)
Context (here : workflow_status_row → Prop).
Context (row0 : workflow_status_row) (info : workflow_info) (inputs : WorkflowInputs) (roles : option (list string)).
Context (w0 : W).
Notation ctx0 := (execution_ctx row0 info roles).
Notation wf0 := (wf_func info inputs).

(** The rows of the workflow after [k] executions, of which the last may be under way, at a
    point of the function: it is under way there, or it has ended with its outcome. *)
Definition stands (k : nat) (d : db) (ctx : DBOSContext) (wf : workflow) : Prop :=
  ∃ row, workflow_status d !! wid = Some row ∧ run_identity row = run_identity row0 ∧
    ((here row ∧ (∀ j, attempts_left row0 info (k + j) → attempts_left row info j) ∧
      recorded serializer executor_id d ctx0 wf0 ctx wf ∧ frontier ctx d) ∨
     ∃ r, wf = WReturn r ∧ settled row0 wid d r).

Definition between (k : nat) (s : machine) : Prop :=
  m_active s !! wid = None ∧ ∃ ctx wf, stands k (m_db s) ctx wf ∧ spec serializer executor_id others k (ctx0, wf0, w0) (ctx, wf, m_world s).

Definition within_run (k : nat) (s : machine) : Prop :=
  ∃ ctx wf w, stands (S k) (m_db s) ctx wf ∧ spec serializer executor_id others k (ctx0, wf0, w0) (ctx, wf, w) ∧
    under_way serializer executor_id ctx wf w (m_world s).

Definition ended (k : nat) (s : machine) (r : res pyexn pyval) : Prop :=
  settled row0 wid (m_db s) r ∧ ∃ ctx, spec serializer executor_id others k (ctx0, wf0, w0) (ctx, WReturn r, m_world s) ∧ 
    stands (S k) (m_db s) ctx (WReturn r).

End invariant.

End crashes.

(** ** A sample: a workflow that sends two letters *)

Record mailbox := Mailbox { mb_clock : Z; mb_sent : list string }.

#[export] Instance mailbox_host : Host mailbox := {|
  time_ms := mb_clock; now_ms := mb_clock; sleep := λ _ w, w;
|}.

(** Pickles texts, errors and an empty list of arguments. *)
Definition letter_serializer : Serializer := {|
  ser_name := "sample";
  ser_serialize v :=
    match v with
    | PDict [(PStr "args", PTuple []); (PStr "kwargs", PDict [])] => Ok "args"
    | _ => @pickle_dumps sample_codecs v
    end;
  ser_deserialize t :=
    if bool_decide (t = "args") then Ok (native_args_val {| args := []; kwargs := [] |})
    else @pickle_loads sample_codecs t;
|}.

Definition post (letter : string) (ctx : DBOSContext) : process mailbox pyval :=
  act (λ w, (Mailbox (mb_clock w + 1) (mb_sent w ++ [letter]), Ok (PStr letter))).

Definition send_letter (letter : string) : operation (W:=mailbox) :=
  @step mailbox mailbox_host sample_codecs letter_serializer "exec" "post" None None DEFAULT_STEP_OPTIONS (post letter).

Definition letters : workflow_info (W:=mailbox) := {|
  wf_name := "wf"; wf_class_name := None; wf_config_name := None; wf_static := false;
  wf_class_roles := None; wf_required_roles := None; wf_max_recovery_attempts := Some 5%Z;
  wf_serialization_type := None; wf_validate_args := None; wf_coerce_to_hints := id;
  wf_func _ := WCall (send_letter "a") (λ _, WCall (send_letter "b") (λ _, WReturn (Ok (PStr "done"))));
|}.

Definition letters_registry : registry (W:=mailbox) := {|
  workflow_info_map n := if bool_decide (n = "wf") then Some letters else None;
  instance_info_map _ := None; class_info_map _ := None;
|}.

Definition letters_row : workflow_status_row := (sample_row "w" PENDING) <| ws_inputs := Some "args" |>.

Definition letters_machine : machine (W:=mailbox) := Machine (sample_db [("w", letters_row)]) (Mailbox 0 []) ∅.

(** The [k]th recovery of the workflow. *)
Definition letters_execution : nat → process (machine (W:=mailbox)) pyval :=
  @execution mailbox mailbox_host sample_codecs letter_serializer "exec" 3 "app" "v1" (λ _, "u") (λ _, "x") letters_registry "w" true false.

(** ** The outcome is recorded *)

Section refinement.
Context {W : Type} `{Host W, Codecs, !CodecLaws} (serializer : Serializer) (executor_id : string).
Hypothesis honest : honest_name serializer.
Hypothesis reads_back : round_trips serializer.
Notation settled := (settled serializer).

Lemma finish_database {A} (m : W → dbM A) (s : machine) :
  finish (database m) s = (s <| m_db := (m (m_world s) (m_db s)).1 |>, Some (m (m_world s) (m_db s)).2).
Proof. unfold database. rewrite finish_act. by destruct (m (m_world s) (m_db s)). Qed.

(** [set_outcome] on a row that is not cancelled. *)
Lemma set_outcome_finish wid st o e (s : machine) r :
  workflow_status (m_db s) !! wid = Some r → ws_status r ≠ CANCELLED →
  finish (set_outcome wid st o e) s =
  (s <| m_db := (m_db s) <| workflow_status :=
      <[wid := outcome_row (now_ms (m_world s)) st o e r]> (workflow_status (m_db s)) |> |>, Some (Ok tt)).
Proof.
  intros Hr Hs. unfold set_outcome. rewrite finish_database, update_workflow_outcome_eq, Hr.
  by rewrite bool_decide_eq_false_2.
Qed.

Lemma settled_success wid n v x n' now row d :
  n ≠ ser_name DBOSPortableJSON → ws_serialization row = Some n →
  serialize_value_as v (Some n) serializer = Ok (x, n') →
  settled row wid (d <| workflow_status := <[wid := outcome_row now SUCCESS (Some x) None row]> (workflow_status d) |>) (Ok v).
Proof.
  intros Hn Hser Hv. split; [|eexists; split; [apply lookup_insert_eq|done]].
  erewrite check_workflow_result_success; [|apply lookup_insert_eq|done]. simpl. rewrite Hser.
  pose proof (serialize_value_as_name _ _ _ _ _ Hv) as ->.
  pose proof (serialize_then_deserialize serializer v (Some n) x n honest reads_back Hv) as Hd.
  unfold canonical in Hd. rewrite bool_decide_eq_false_2 in Hd by done.
  unfold deserialize_value in Hd. by rewrite Hd.
Qed.

Lemma settled_error wid n e x n' now row d :
  n ≠ ser_name DBOSPortableJSON → ws_serialization row = Some n →
  serialize_exception e (Some n) serializer = Ok (x, n') →
  settled row wid (d <| workflow_status := <[wid := outcome_row now ERROR None (Some x) row]> (workflow_status d) |>) (Err e).
Proof.
  intros Hn Hser He. split; [|eexists; split; [apply lookup_insert_eq|done]].
  assert (n' = n) as -> by (by apply serialize_exception_name in He).
  unfold check_workflow_result, read_workflow_result_row. cbn [workflow_status set_field db_eta].
  simpl. rewrite lookup_insert_eq. simpl. rewrite Hser.
  by rewrite (native_exception_back _ _ _ _ _ honest reads_back He Hn).
Qed.

(** [persist] of a function that ends with a result that can be stored. *)
Lemma persist_settles polls status n func (s s1 : machine) r row :
  let wid := wi_workflow_uuid status in
  not_complete (wi_status status) = true → wi_serialization status = Some n → n ≠ ser_name DBOSPortableJSON →
  finish func s = (s1, Some r) → storable serializer (Some n) r →
  workflow_status (m_db s1) !! wid = Some row → ws_status row ≠ CANCELLED → ws_serialization row = Some n →
  (∃ d, finish (persist serializer polls status func) s = (s1 <| m_db := d |>, Some r) ∧ settled row wid d r) ∧
  ∀ P, crash_states func s P → P s1 → crash_states (persist serializer polls status func) s P.
Proof.
  intros wid Hst Hn Hport Hf Hstore Hrow Hc Hser. unfold persist. rewrite Hst, Hn. cbn [negb].
  destruct r as [v|e]; simpl in Hstore.
  - destruct (serialize_value_as v (Some n) serializer) as [[x n']|] eqn:Hv; [|done].
    split.
    + eexists. split; [|by eapply (settled_success _ _ _ x)].
      unfold mbind, process_bind. rewrite !finish_and_then, Hf. unfold returns. rewrite Hv. cbn [and_then].
      rewrite finish_and_then, (set_outcome_finish _ _ _ _ _ row Hrow Hc). done.
    + intros P Hcr HP. apply crash_and_then; unfold mbind, process_bind.
      * apply crash_and_then; [done|]. intros s2 r2 Hf2. rewrite Hf in Hf2. injection Hf2 as <- <-.
        unfold returns. rewrite Hv. cbn [and_then]. apply crash_and_then; [by apply crash_act|].
        intros s3 [[]|e] _; apply crash_returns.
      * intros s2 r2. rewrite !finish_and_then, Hf. unfold returns. rewrite Hv. cbn [and_then].
        rewrite finish_and_then, (set_outcome_finish _ _ _ _ _ row Hrow Hc). cbn. intros [= _ <-]. apply crash_returns.
  - destruct Hstore as [He Hx]. destruct (serialize_exception e (Some n) serializer) as [[x n']|] eqn:Hv; [|done].
    assert (finalize_error serializer status e =
      (_ ← set_outcome wid ERROR None (Some x); Returns (A:=pyval) (Err e))) as Hfin.
    { unfold finalize_error, serialize_exception_for_persistence. by rewrite Hn, Hv. }
    assert (∀ K1 K2 K3, match e return process machine pyval with
        | DBOSWorkflowConflictIDError _ => K1 | DBOSWorkflowCancelledError _ => K2
        | error => if is_Exception error then finalize_error serializer status error else K3 error end =
        finalize_error serializer status e) as Hmatch by (by destruct e).
    split.
    + eexists. split; [|by eapply (settled_error _ _ _ x)].
      unfold mbind at 1, process_bind at 1. rewrite !finish_and_then, Hf. cbn [finish].
      etrans; [by apply (f_equal (λ p, finish p s1)), (Hmatch _ _ (λ e, Returns (Err e)))|]. rewrite Hfin.
      unfold mbind, process_bind. rewrite finish_and_then, (set_outcome_finish _ _ _ _ _ row Hrow Hc). done.
    + intros P Hcr HP. apply crash_and_then; unfold mbind at 1, process_bind at 1.
      * apply crash_and_then; [done|]. intros s2 r2 Hf2. rewrite Hf in Hf2. injection Hf2 as <- <-. apply crash_returns.
      * intros s2 r2. rewrite finish_and_then, Hf. cbn [finish]. intros [= <- <-].
        rewrite (Hmatch _ _ (λ e, Returns (Err e))), Hfin. unfold mbind, process_bind.
        apply crash_and_then; [by apply crash_act|]. intros s3 [[]|] _; apply crash_returns.
Qed.

(** ** One execution *)

Lemma assume_no_role ctx : assume_role None ctx = ctx.
Proof. done. Qed.

(** The thread of a pending workflow whose function ends with [r]. *)
Lemma wthread_settles polls status info ctx ctx0 inputs n (s s1 : machine) r row :
  let wid := wi_workflow_uuid status in
  let s_in := s <| m_active := <[wid := (λ q, (q, wi_queue_partition_key status)) <$> wi_queue_name status]> (m_active s) |> in
  let func := run_workflow ctx0 (wf_func info inputs) in
  not_complete (wi_status status) = true → wi_serialization status = Some n → n ≠ ser_name DBOSPortableJSON →
  enter_workflow ctx = Ok ctx0 → wf_class_roles info = None → wf_required_roles info = None →
  m_active s !! wid = None → m_active s1 = m_active s_in →
  finish func s_in = (s1, Some r) → storable serializer (Some n) r →
  workflow_status (m_db s1) !! wid = Some row → ws_status row ≠ CANCELLED → ws_serialization row = Some n →
  (∃ s2, finish (execute_workflow_wthread serializer polls status info ctx inputs) s = (s2, Some r) ∧
     m_world s2 = m_world s1 ∧ settled row wid (m_db s2) r) ∧
  ∀ P : machine → Prop, P s → crash_states func s_in P → P s1 →
    (∀ d a, settled row wid d r → P (s1 <| m_db := d |> <| m_active := a |>)) →
    crash_states (execute_workflow_wthread serializer polls status info ctx inputs) s P.
Proof.
  intros wid s_in func Hst Hn Hport Hctx Hcr Hrr Hfree Ha Hf Hstore Hrow Hc Hser.
  destruct (persist_settles polls status n func s_in s1 r row Hst Hn Hport Hf Hstore Hrow Hc Hser)
    as [(d & Hp & Hset) Hcrash].
  assert (execute_workflow_wthread serializer polls status info ctx inputs =
    and_then (act (acquire wid (wi_queue_name status) (wi_queue_partition_key status))) (λ o,
      match o with
      | Ok owned =>
          and_then (if owned : bool then persist serializer polls status func else await_result serializer polls wid)
            (λ r, if owned then _ ← act (release wid); Returns r else Returns r)
      | Err e => Returns (Err e)
      end)) as ->.
  { unfold execute_workflow_wthread, returns, check_required_roles_or_finalize_error, check_required_roles.
    rewrite Hctx, Hcr, Hrr. done. }
  assert (acquire wid (wi_queue_name status) (wi_queue_partition_key status) s = (s_in, Ok true)) as Hacq
    by (unfold acquire; by rewrite Hfree).
  assert (∀ d, release wid (s1 <| m_db := d |>) =
            (s1 <| m_db := d |> <| m_active := delete wid (m_active s1) |>, Ok tt)) as Hrel.
  { intros d'. unfold release. simpl. rewrite Ha. simpl. by rewrite lookup_insert_eq. }
  split.
  - eexists. split; [|split].
    + rewrite finish_and_then, finish_act, Hacq. cbn [fst snd]. rewrite finish_and_then, Hp.
      unfold mbind, process_bind. rewrite finish_and_then, finish_act, Hrel. done.
    + done.
    + done.
  - intros P HP Hfun HP1 Hend. apply crash_and_then; [by apply crash_act|].
    intros s2 o. rewrite finish_act, Hacq. intros [= <- <-]. apply crash_and_then; [by apply Hcrash|].
    intros s3 r3. rewrite Hp. intros [= <- <-]. unfold mbind, process_bind. apply crash_and_then.
    + apply crash_act. specialize (Hend d (m_active s1) Hset). by destruct s1.
    + intros s4 [[]|] _; apply crash_returns.
Qed.

End refinement.

(** ** The crashes of a workflow *)

Section crash_recovery.
Context {W : Type} `{Host W, Codecs, !CodecLaws} (serializer : Serializer) (executor_id : string).
Context (others : W → W → Prop).
Context (polls : nat) (app_id app_version : string) (uuids xids : nat → string) (reg : registry (W:=W)).
Context (wid : string) (is_recovery is_dequeue : bool).
Hypothesis honest : honest_name serializer.
Hypothesis reads_back : round_trips serializer.
Hypothesis forced : is_recovery || is_dequeue = true.
Notation machine := (@machine W).
Notation workflow_info := (@workflow_info W).
Notation workflow_handle := (@workflow_handle W).
Notation executable := (executable serializer reg wid).
Notation execution := (execution serializer executor_id polls app_id app_version uuids xids reg wid is_recovery is_dequeue).
Notation execution_ctx := (execution_ctx executor_id app_id wid).
Notation crashes := (crashes serializer executor_id others polls app_id app_version uuids xids reg wid is_recovery is_dequeue).
Notation spec := (spec serializer executor_id others).
Notation execute_workflow_wthread := (execute_workflow_wthread serializer polls).
Notation submitted_ctx := (submitted_ctx executor_id app_id wid).
Notation submission := (submission (W:=W) executor_id app_id app_version wid).
Notation after_submission := (after_submission (W:=W) serializer executor_id polls app_id app_version wid).

Lemma executable_identity r r' info inputs roles :
  run_identity r' = run_identity r → executable r info inputs roles → executable r' info inputs roles.
Proof. unfold run_identity. intros [= E1 E2 E3 E4 E5 E6 E7 E8] []. by split; rewrite ?E1, ?E2, ?E3, ?E4, ?E5, ?E6, ?E7. Qed.

Lemma execution_ctx_identity r r' (info : workflow_info) roles :
  run_identity r' = run_identity r → execution_ctx r' info roles = execution_ctx r info roles.
Proof. unfold run_identity, execution_ctx. by intros [= _ _ _ _ -> -> _ ->]. Qed.

Lemma existing_row_run_identity now status b r : run_identity (existing_row now status b r) = run_identity r.
Proof. unfold existing_row. by destruct (is_enqueued_status (ws_status r)), (is_enqueued_status (wi_status status)). Qed.

Lemma not_blank_nonempty : is_blank wid = false → wid ≠ "".
Proof. by intros Hb ->. Qed.

Lemma submitted_ctx_eq uuid user roles key :
  wid ≠ "" → ∃ ctx',
  create_start_workflow_child executor_id app_id uuid (Some (recovery_ctx executor_id app_id user roles wid key None)) =
  Ok (Some ctx', submitted_ctx user roles).
Proof.
  intros Hne. eexists. unfold create_start_workflow_child.
  set (ctx := recovery_ctx _ _ _ _ _ _ _).
  assert (is_within_workflow ctx = false) as -> by done. cbv iota zeta.
  assert (create_child true ctx = (ctx <| cx_id_assigned_for_next_workflow := "" |>, submitted_ctx user roles)) as -> by done.
  unfold assign_workflow_id. by rewrite (bool_decide_eq_false_2 (_ = "")) by exact Hne.
Qed.

Lemma leads_read {A B} (f : db → A) (k : res pyexn A → process machine B) (s : machine) :
  leads_to (and_then (database (λ _ d, (d, Ok (f d)))) k) s (k (Ok (f (m_db s)))) s.
Proof. apply leads_act. simpl. by rewrite machine_same_db. Qed.

(** What [execute_workflow_by_id] reads of the row. *)
Lemma get_workflow_status_row d (id : string) row :
  workflow_status d !! id = Some row →
  ∃ st, get_workflow_status d id = Some st ∧ wi_inputs st = ws_inputs row ∧
    wi_serialization st = ws_serialization row ∧ wi_name st = ws_name row ∧
    wi_authenticated_roles st = ws_authenticated_roles row ∧ wi_authenticated_user st = ws_authenticated_user row ∧
    wi_queue_name st = ws_queue_name row ∧ wi_queue_partition_key st = ws_queue_partition_key row ∧
    wi_class_name st = ws_class_name row ∧ wi_config_name st = ws_config_name row.
Proof. intros Hr. unfold get_workflow_status. rewrite Hr. simpl. eexists. split; [done|]. done. Qed.

(** The submission itself. *)
Lemma init_submits xid row info inputs roles x n (s : machine) d out :
  executable row info inputs roles →
  serialize_args inputs (Some (default DEFAULT (wf_serialization_type info))) serializer = Ok (x, n) →
  Workflows.init_workflow (now_ms (m_world s)) (submission row info roles x n) (wf_max_recovery_attempts info)
     (Some xid) is_recovery is_dequeue (m_db s) = (d, Ok out) →
  leads_to
    (init_workflow serializer executor_id app_version xid (submitted_ctx (ws_authenticated_user row) roles) info inputs
       (ws_queue_name row) None None (wf_max_recovery_attempts info)
       (Some (enqueue_options_of (Some (recovery_ctx executor_id app_id (ws_authenticated_user row) roles wid
                (ws_queue_partition_key row) None))))
       is_recovery is_dequeue (Some (default DEFAULT (wf_serialization_type info))) wid) s
    (mret ((submitted_ctx (ws_authenticated_user row) roles) <| cx_workflow_attributes := None |>
             <| cx_workflow_deadline_epoch_ms := ir_deadline out |>,
           (submission row info roles x n) <| wi_workflow_deadline_epoch_ms := ir_deadline out |>
             <| wi_status := ir_status out |> <| wi_serialization := ir_serialization out |>,
           ir_should_execute out)) (s <| m_db := d |>).
Proof.
  intros [Hid _ [_ Hc'] _ _ _ _ _ _ _] Hser Hinit. unfold init_workflow.
  rewrite (bool_decide_eq_false_2 (wid = "")) by (by apply not_blank_nonempty). cbn [negb].
  rewrite (bool_decide_eq_false_2 (wid = "")) by (by apply not_blank_nonempty).
  assert (drop_receiver (wf_class_name info) inputs = inputs) as -> by (unfold drop_receiver; by rewrite Hc').
  assert (input_format (Some (default DEFAULT (wf_serialization_type info)))
            (submitted_ctx (ws_authenticated_user row) roles) = default DEFAULT (wf_serialization_type info)) as ->
    by (by destruct (wf_serialization_type info) as [[]|]).
  rewrite Hser. unfold returns. rewrite bind_returns.
  assert (cx_workflow_attributes (submitted_ctx (ws_authenticated_user row) roles) = None) as -> by done.
  rewrite bind_returns. cbv zeta. unfold mbind at 1, process_bind at 1.
  change (new_status app_version _ _ _ _ _ _ _ _ _ _) with (submission row info roles x n).
  eapply leads_trans_r; [apply leads_bind, (leads_act _ _ _ (s <| m_db := d |>) (Ok out)); simpl; by rewrite Hinit|].
  apply leads_refl.
Qed.

(** The start of the workflow of an executable row comes to what its submission answers. *)
Lemma start_submits uuid xid row info inputs roles x n (s : machine) d out :
  executable row info inputs roles →
  serialize_args inputs (Some (default DEFAULT (wf_serialization_type info))) serializer = Ok (x, n) →
  Workflows.init_workflow (now_ms (m_world s)) (submission row info roles x n) (wf_max_recovery_attempts info)
     (Some xid) is_recovery is_dequeue (m_db s) = (d, Ok out) →
  ∃ ctx' p, start_workflow serializer executor_id polls app_id app_version uuid xid info inputs (ws_queue_name row)
      true is_recovery is_dequeue (Some (recovery_ctx executor_id app_id (ws_authenticated_user row) roles wid
        (ws_queue_partition_key row) None)) = Ok (ctx', p) ∧
    leads_to p s (after_submission row info inputs roles x n out) (s <| m_db := d |>).
Proof.
  intros Hex Hser Hinit. pose proof (init_submits xid row info inputs roles x n s d out Hex Hser Hinit) as Hsub.
  destruct Hex as [Hid _ _ _ _ _ _ _ _ _].
  destruct (submitted_ctx_eq uuid (ws_authenticated_user row) roles (ws_queue_partition_key row) (not_blank_nonempty Hid))
    as [ctx' Hctx].
  unfold start_workflow. rewrite Hctx. eexists _, _. split; [done|].
  change (cx_id_assigned_for_next_workflow (submitted_ctx (ws_authenticated_user row) roles)) with wid.
  change (has_parent (submitted_ctx (ws_authenticated_user row) roles)) with false.
  unfold mbind at 1, process_bind at 1. eapply leads_trans_l; [by apply leads_act|]. cbv iota beta.
  rewrite bind_mret. cbn [mbind option_bind nonempty].
  change (cx_workflow_timeout_ms (recovery_ctx executor_id app_id (ws_authenticated_user row) roles wid
            (ws_queue_partition_key row) None)) with (@None Z).
  change (get_timeout_deadline _ _ _).2 with (@None Z).
  unfold mbind at 1, process_bind at 1. eapply leads_trans_r; [apply leads_bind, Hsub|].
  unfold mret at 1, process_ret at 1. cbn [and_then]. cbv beta iota.
  set (ctx1 := _ <| cx_workflow_deadline_epoch_ms := _ |>). set (st1 := _ <| wi_serialization := _ |>).
  assert (∀ t, has_parent (ctx1 <| cx_serialization_type := t |>) = false) as Hhp by done. rewrite Hhp, bind_mret.
  change (wi_serialization st1) with (ir_serialization out). change (wi_status st1) with (ir_status out).
  apply leads_refl.
Qed.

Lemma execute_by_id_submits uuid xid row info inputs roles (s : machine) :
  workflow_status (m_db s) !! wid = Some row → executable row info inputs roles →
  ∃ x n, ∀ d out,
  Workflows.init_workflow (now_ms (m_world s)) (submission row info roles x n) (wf_max_recovery_attempts info)
     (Some xid) is_recovery is_dequeue (m_db s) = (d, Ok out) →
  leads_to (execute_workflow_by_id serializer executor_id polls app_id app_version uuid xid reg wid is_recovery is_dequeue None) s
    (after_submission row info inputs roles x n out) (s <| m_db := d |>).
Proof.
  intros Hrow Hex.
  destruct (serialize_args inputs (Some (default DEFAULT (wf_serialization_type info))) serializer) as [[y m]|] eqn:Hser;
    [|by destruct Hex as [_ _ _ _ _ _ _ _ _ Hagain]; rewrite Hser in Hagain].
  exists y, m. intros d out Hinit.
  destruct (start_submits uuid xid row info inputs roles y m s d out Hex Hser Hinit) as (ctx' & p & Hstart & Hp).
  destruct Hex as [Hid [Hname Hreg] [Hc Hc'] [Hcf Hcf'] (x & Hx & Hd) (n & Hn & Hport) Hval Hroles _ _].
  destruct (get_workflow_status_row (m_db s) wid row Hrow) as (st & Hst & E1 & E2 & E3 & E4 & E5 & E6 & E7 & E8 & E9).
  unfold execute_workflow_by_id. unfold mbind at 1, process_bind at 1.
  eapply leads_trans_l; [apply leads_read|]. rewrite Hst, Hid, E1, E2, E3, E4, E5, E6, E7, Hx, Hd.
  unfold or_finalize. rewrite bind_mret, Hname. cbn [py_opt default from_option id].
  assert (add_receiver reg wid st info inputs = Ok inputs) as Hrecv
    by (unfold add_receiver; by rewrite E8, E9, Hc, Hcf).
  rewrite Hreg, Hval, Hn, (bool_decide_eq_false_2 (Some n = _)), (bool_decide_eq_false_2 (Some n = None)) by congruence.
  cbn [orb andb]. rewrite bind_mret. unfold returns. rewrite Hroles, bind_returns, Hrecv, bind_returns, Hstart.
  exact Hp.
Qed.

Lemma enter_submitted user roles dl ser :
  wid ≠ "" →
  enter_workflow ((submitted_ctx user roles) <| cx_workflow_attributes := None |>
    <| cx_workflow_deadline_epoch_ms := dl |> <| cx_serialization_type := ser |>) =
  Ok ((new_context executor_id app_id)
    <| cx_workflow_id := wid |> <| cx_function_id := 0%Z |> <| cx_parent_workflow_fid := (-1)%Z |>
    <| cx_authenticated_user := user |> <| cx_authenticated_roles := roles |>
    <| cx_serialization_type := ser |> <| cx_workflow_deadline_epoch_ms := dl |>).
Proof.
  intros Hne. unfold enter_workflow, Context.start_workflow, assign_workflow_id. simpl.
  by rewrite (bool_decide_eq_false_2 (wid = "")).
Qed.

Lemma submission_no_conflict row info inputs roles x n :
  executable row info inputs roles → conflict_message row (submission row info roles x n) = None.
Proof.
  intros [_ [Hname _] [Hc Hc'] [Hf Hf'] _ _ _ _ _ _]. unfold conflict_message, submission, new_status.
  cbn. rewrite Hname, Hc, Hc', Hf, Hf'. by rewrite !bool_decide_eq_false_2 by (intros Hne; by apply Hne).
Qed.

(** The execution of the pending workflow, within its budget, is handed to its thread. *)
Lemma handle_pending uuid xid row info inputs roles (s : machine) :
  workflow_status (m_db s) !! wid = Some row → executable row info inputs roles →
  ws_status row = PENDING → attempts_left row info 1 →
  ∃ status ctx row1,
    wi_workflow_uuid status = wid ∧ not_complete (wi_status status) = true ∧
    wi_serialization status = ws_serialization row ∧ enter_workflow ctx = Ok (execution_ctx row info roles) ∧
    submitted_again executor_id row row1 ∧ ws_status row1 = PENDING ∧ run_identity row1 = run_identity row ∧
    (∀ j, attempts_left row info (S j) → attempts_left row1 info j) ∧
    leads_to (execute_workflow_by_id serializer executor_id polls app_id app_version uuid xid reg wid
                is_recovery is_dequeue None) s
      (mret {| wh_workflow_id := wid; wh_future := Some (execute_workflow_wthread status info ctx inputs) |})
      (s <| m_db := (m_db s) <| workflow_status := <[wid := row1]> (workflow_status (m_db s)) |> |>).
Proof.
  intros Hrow Hex Hpend Hatt.
  destruct (execute_by_id_submits uuid xid row info inputs roles s Hrow Hex) as (x & n & Hlead).
  set (st := submission row info roles x n) in *. set (row1 := existing_row (now_ms (m_world s)) st true row).
  assert (ws_status row1 = PENDING) as Hp1 by (rewrite <- Hpend; apply existing_row_status).
  assert (run_identity row1 = run_identity row) as Hid1 by apply existing_row_run_identity.
  destruct (ws_recovery_attempts row) as [a|] eqn:Ha; [|by unfold attempts_left in Hatt; rewrite Ha in Hatt].
  assert (ws_recovery_attempts row1 = Some (a + 1)%Z) as Ha1 by (by apply existing_row_attempts).
  pose proof (submission_no_conflict row info inputs roles x n Hex) as Hconf.
  pose proof (init_workflow_existing (now_ms (m_world s)) st (wf_max_recovery_attempts info) (Some xid)
                is_recovery is_dequeue (m_db s) row Hrow Hconf) as Hinit.
  cbv zeta in Hinit. rewrite forced in Hinit. fold row1 in Hinit.
  assert (exceeds_attempts row1 (wf_max_recovery_attempts info) (Some xid) = Ok false) as Hexc.
  { unfold exceeds_attempts, attempts_left in *. rewrite Hp1, Ha1. rewrite Ha in Hatt. simpl.
    destruct (wf_max_recovery_attempts info) as [m|]; [|done]. rewrite bool_decide_eq_false_2 by lia. done. }
  rewrite Hexc in Hinit. specialize (Hlead _ _ Hinit).
  set (out := {| ir_status := ws_status row1 |}) in Hlead.
  assert (ir_should_execute out = true) as Hsx by (simpl; destruct is_recovery, is_dequeue; by rewrite ?andb_false_r).
  assert (not_complete (ir_status out) = true) as Hnc by (simpl; by rewrite Hp1).
  unfold after_submission in Hlead. rewrite Hsx, Hnc in Hlead. cbn [negb orb] in Hlead.
  eexists _, _, row1. split_and!.
  9: exact Hlead.
  all: try done; unfold run_identity in Hid1; injection Hid1 as E1 E2 E3 E4 E5 E6 E7 E8.
  - exact E5.
  - rewrite enter_submitted by (apply not_blank_nonempty, Hex). unfold execution_ctx. subst out. cbn [ir_serialization ir_deadline].
    by rewrite E5, E8.
  - by exists (now_ms (m_world s)), st.
  - intros j. unfold attempts_left. rewrite Ha, Ha1. destruct (wf_max_recovery_attempts info); [lia|done].
Qed.

Lemma execution_pending k row info inputs roles (s : machine) :
  workflow_status (m_db s) !! wid = Some row → executable row info inputs roles →
  ws_status row = PENDING → attempts_left row info 1 →
  ∃ status ctx row1,
    wi_workflow_uuid status = wid ∧ not_complete (wi_status status) = true ∧
    wi_serialization status = ws_serialization row ∧ enter_workflow ctx = Ok (execution_ctx row info roles) ∧
    submitted_again executor_id row row1 ∧ ws_status row1 = PENDING ∧ run_identity row1 = run_identity row ∧
    (∀ j, attempts_left row info (S j) → attempts_left row1 info j) ∧
    leads_to (execution k) s (execute_workflow_wthread status info ctx inputs)
      (s <| m_db := (m_db s) <| workflow_status := <[wid := row1]> (workflow_status (m_db s)) |> |>).
Proof.
  intros Hrow Hex Hpend Hatt.
  destruct (handle_pending (uuids k) (xids k) row info inputs roles s Hrow Hex Hpend Hatt)
    as (status & ctx & row1 & ? & ? & ? & ? & ? & ? & ? & ? & Hlead).
  exists status, ctx, row1. split_and!; try done.
  unfold mbind, process_bind. eapply leads_trans_r; [apply leads_bind, Hlead|]. apply leads_refl.
Qed.

Lemma await_settled row n (s : machine) r :
  settled serializer row wid (m_db s) r →
  finish (await_result serializer (S n) wid) s = (s, Some r) ∧
  ∀ P : machine → Prop, P s → crash_states (await_result serializer (S n) wid) s P.
Proof.
  intros [Hc _].
  assert (leads_to (await_result serializer (S n) wid) s (Returns r) s) as [Hf HP].
  { cbn [await_result]. unfold mbind at 1, process_bind at 1. eapply leads_trans_r; [apply leads_act|].
    - by rewrite Hc, machine_same_db.
    - destruct r; apply leads_refl. }
  split; [by rewrite Hf|]. intros P Hs. apply HP; [done..|apply crash_returns].
Qed.

(** A row that is there again under another attempt still holds the outcome. *)
Lemma settled_existing row0 now st b row r (d : db) :
  workflow_status d !! wid = Some row → settled serializer row0 wid d r →
  settled serializer row0 wid (d <| workflow_status := <[wid := existing_row now st b row]> (workflow_status d) |>) r.
Proof.
  intros Hrow [Hc (row' & Hrow' & Hid' & Hn)]. assert (row' = row) as -> by congruence.
  destruct (existing_row_status now st b row) as (Hst & Hout & Herr & _).
  assert (ws_serialization (existing_row now st b row) = ws_serialization row) as Hser
    by (pose proof (existing_row_run_identity now st b row) as Hid; unfold run_identity in Hid; congruence).
  split; [|eexists; split; [apply lookup_insert_eq|]; split; [by rewrite existing_row_run_identity|by rewrite Hst]].
  rewrite <- Hc. unfold check_workflow_result, read_workflow_result_row. rewrite Hrow.
  change (workflow_status (d <| workflow_status := _ |>)) with (<[wid := existing_row now st b row]> (workflow_status d)).
  rewrite lookup_insert_eq. simpl. by rewrite Hst, Hout, Herr, Hser.
Qed.

(** An execution of the workflow after its end. *)
Lemma execution_settled k row0 row info inputs roles (s : machine) r :
  workflow_status (m_db s) !! wid = Some row → executable row info inputs roles → 0 < polls →
  settled serializer row0 wid (m_db s) r →
  ∃ row1 d, d = (m_db s) <| workflow_status := <[wid := row1]> (workflow_status (m_db s)) |> ∧
    run_identity row1 = run_identity row ∧ settled serializer row0 wid d r ∧
    finish (execution k) s = (s <| m_db := d |>, Some r) ∧
    ∀ P : machine → Prop, P s → P (s <| m_db := d |>) → crash_states (execution k) s P.
Proof.
  intros Hrow Hex Hpolls Hset.
  destruct (execute_by_id_submits (uuids k) (xids k) row info inputs roles s Hrow Hex) as (x & n & Hlead).
  set (st := submission row info roles x n) in *. set (row1 := existing_row (now_ms (m_world s)) st true row).
  set (d := (m_db s) <| workflow_status := <[wid := row1]> (workflow_status (m_db s)) |>).
  exists row1, d. split; [done|]. split; [apply existing_row_run_identity|].
  assert (settled serializer row0 wid d r) as Hset1 by by apply settled_existing. split; [done|].
  pose proof (init_workflow_existing (now_ms (m_world s)) st (wf_max_recovery_attempts info) (Some (xids k))
                is_recovery is_dequeue (m_db s) row Hrow (submission_no_conflict row info inputs roles x n Hex)) as Hinit.
  cbv zeta in Hinit. rewrite forced in Hinit. fold row1 in Hinit.
  assert (not_complete (ws_status row1) = false) as Hnc.
  { destruct Hset as [_ (row' & Hrow' & _ & Hn)]. assert (row' = row) as -> by congruence. rewrite <- Hn.
    unfold row1. by rewrite (proj1 (existing_row_status _ _ _ _)). }
  assert (exceeds_attempts row1 (wf_max_recovery_attempts info) (Some (xids k)) = Ok false) as Hexc
    by (unfold exceeds_attempts; by rewrite Hnc).
  rewrite Hexc in Hinit. specialize (Hlead _ _ Hinit). set (out := {| ir_status := ws_status row1 |}) in Hlead.
  assert (not_complete (ir_status out) = false) as Hnc' by exact Hnc.
  unfold after_submission in Hlead. rewrite Hnc', orb_true_r in Hlead.
  assert (leads_to (execution k) s (await_result serializer polls wid) (s <| m_db := d |>)) as [Hf HP].
  { unfold mbind, process_bind. eapply leads_trans_r; [apply leads_bind, Hlead|]. apply leads_refl. }
  destruct polls as [|n']; [lia|]. destruct (await_settled row0 n' (s <| m_db := d |>) r) as [Hf' HP']; [exact Hset1|].
  split; [by rewrite Hf|]. intros P Hs Hd. apply HP; auto.
Qed.

(** ** The invariant of the crashes *)

Lemma spec_calls n c1 c2 c3 : spec n c1 c2 → rtc (call_step serializer executor_id) c2 c3 → spec n c1 c3.
Proof.
  intros Hs Hc. induction Hs as [c|n c1 c2 c3' Hstep _ IH|n c1 c2 c3' Hstep _ IH].
  - induction Hc; [constructor|]. by econstructor.
  - econstructor; eauto.
  - eapply spec_crash; eauto.
Qed.

Lemma spec_crash_last n c1 c2 c3 : spec n c1 c2 → crash_step serializer executor_id others c2 c3 → spec (S n) c1 c3.
Proof.
  intros Hs Hc. induction Hs as [c|n c1 c2 c3' Hstep _ IH|n c1 c2 c3' Hstep _ IH].
  - eapply spec_crash; [done|constructor].
  - econstructor; eauto.
  - eapply spec_crash; eauto.
Qed.

Lemma under_way_crash ctx wf w w1 w2 :
  under_way serializer executor_id ctx wf w w1 → others w1 w2 → crash_step serializer executor_id others (ctx, wf, w) (ctx, wf, w2).
Proof.
  intros [->|(op & attempt & name & k & m & -> & HD & ->)] Ho; [by constructor|]. by eapply CrashCall.
Qed.

Lemma attempts_left_mono row (info : workflow_info) i j : i ≤ j → attempts_left row info j → attempts_left row info i.
Proof.
  intros Hij. unfold attempts_left. destruct (ws_recovery_attempts row); [|done].
  destruct (wf_max_recovery_attempts info); [lia|done].
Qed.

Lemma settled_undisturbed row0 d d' r : undisturbed wid d d' → settled serializer row0 wid d r → settled serializer row0 wid d' r.
Proof.
  intros [Hr _] [Hc Hrow]. split; [|by setoid_rewrite Hr]. rewrite <- Hc. unfold check_workflow_result, read_workflow_result_row.
  by rewrite Hr.
Qed.

Section invariant.
Context (here : workflow_status_row → Prop).
Context (row0 : workflow_status_row) (info : workflow_info) (inputs : WorkflowInputs) (roles : option (list string)).
Context (w0 : W).
Hypothesis here_pending : ∀ r, here r → ws_status r = PENDING.
Hypothesis here_steps : ∀ r r', same_but_executor executor_id r r' → here r → here r'.
Hypothesis here_again : ∀ r r', submitted_again executor_id r r' → here r → here r'.
Hypothesis executable0 : executable row0 info inputs roles.
Hypothesis durable0 : durable_workflow serializer executor_id (ws_serialization row0) (wf_func info inputs).
Notation stands := (stands (W:=W) serializer executor_id app_id wid here row0 info inputs roles).
Notation between := (between (W:=W) serializer executor_id others app_id wid here row0 info inputs roles w0).
Notation within_run := (within_run (W:=W) serializer executor_id others app_id wid here row0 info inputs roles w0).
Notation ended := (ended (W:=W) serializer executor_id others app_id wid here row0 info inputs roles w0).
Notation ctx0 := (execution_ctx row0 info roles).
Notation wf0 := (wf_func info inputs).

Lemma stands_more k d ctx wf : stands k d ctx wf → stands (S k) d ctx wf.
Proof.
  intros (row & Hr & Hid & [(Hp & Ha & Hrec & Hf)|Hset]); exists row; split_and!; try done; [left|by right].
  split_and!; try done. intros j Hj. apply (attempts_left_mono row info j (S j)); [lia|]. apply Ha.
  by replace (k + S j) with (S k + j) by lia.
Qed.

Lemma execution_ctx_workflow : is_workflow ctx0 = true ∧ cx_workflow_id ctx0 = wid.
Proof.
  split; [|done]. unfold is_workflow, execution_ctx, is_step, is_transaction. simpl.
  by rewrite bool_decide_eq_false_2 by (apply not_blank_nonempty, executable0).
Qed.

Lemma ended_stands k d ctx r : settled serializer row0 wid d r → stands k d ctx (WReturn r).
Proof. intros Hset. pose proof Hset as [_ (row & Hr & Hid & _)]. exists row. split_and!; [done..|right]. by exists r. Qed.

(** Where the function has come to when the execution has made progress. *)
Lemma stands_progress k row (s s' : machine) ctx wf ctx' wf' w' :
  workflow_status (m_db s) !! wid = Some row → run_identity row = run_identity row0 → here row →
  (∀ j, attempts_left row0 info (k + j) → attempts_left row info j) →
  recorded serializer executor_id (m_db s) ctx0 wf0 ctx wf →
  progress serializer executor_id (ws_serialization row0) ctx wf s s' ctx' wf' w' →
  stands k (m_db s') ctx' wf' ∧
  ∃ row', workflow_status (m_db s') !! wid = Some row' ∧ here row' ∧ run_identity row' = run_identity row0.
Proof.
  intros Hr Hid Hp Ha Hrec [Hrec' _ Hfr _ Hgo _ _].
  destruct execution_ctx_workflow as [Hw Hwid].
  destruct (recorded_workflow serializer executor_id _ _ _ _ _ Hrec Hw) as (_ & Hwid' & _). rewrite Hwid', Hwid in Hgo.
  destruct (proj2 Hgo row Hr) as (row' & Hr' & Hsame).
  assert (run_identity row' = run_identity row) as Hid' by (by destruct Hsame as [->| ->]).
  assert (ws_recovery_attempts row' = ws_recovery_attempts row) as Hatt by (by destruct Hsame as [->| ->]).
  assert (here row') as Hp' by (by eapply here_steps).
  split; [|exists row'; split_and!; [done|done|congruence]].
  exists row'. split_and!; [done|congruence|]. left. split_and!; [done| | |done].
  - intros j Hj. specialize (Ha j Hj). unfold attempts_left in *. by rewrite Hatt.
  - eapply recorded_trans; [|exact Hrec']. eapply recorded_mono; [|done|exact Hrec]. rewrite Hwid. apply Hgo.
Qed.

Lemma between_settled k s ctx r :
  0 < polls → stands k (m_db s) ctx (WReturn r) → settled serializer row0 wid (m_db s) r →
  spec k (ctx0, wf0, w0) (ctx, WReturn r, m_world s) →
  (∃ s' r, finish (execution k) s = (s', Some r) ∧ ended k s' r) ∧ crash_states (execution k) s (within_run k).
Proof.
  intros Hpolls (row & Hr & Hid & _) Hset Hspec.
  destruct (execution_settled k row0 row info inputs roles s r Hr (executable_identity _ _ _ _ _ Hid executable0) Hpolls Hset)
    as (row1 & d & Hd & Hid1 & Hset1 & Hf & Hcrash).
  assert (stands (S k) d ctx (WReturn r)) as Hst.
  { exists row1. rewrite Hd. split_and!; [apply lookup_insert_eq|congruence|]. right. exists r. by rewrite <- Hd. }
  split.
  - eexists _, r. split; [exact Hf|]. split; [exact Hset1|]. by exists ctx.
  - apply Hcrash; exists ctx, (WReturn r), (m_world s); (split_and!; [|exact Hspec|by left]); [|exact Hst].
    exists row. split_and!; [done|done|right; by exists r].
Qed.

(** The thread of the workflow, which is pending and has come to [wf] by its checkpoints. *)
Lemma thread_pending k s row ctx wf status ctx1 n :
  m_active s !! wid = None →
  workflow_status (m_db s) !! wid = Some row → run_identity row = run_identity row0 →
  here row → (∀ j, attempts_left row0 info (S k + j) → attempts_left row info j) →
  recorded serializer executor_id (m_db s) ctx0 wf0 ctx wf → frontier ctx (m_db s) →
  spec k (ctx0, wf0, w0) (ctx, wf, m_world s) →
  wi_workflow_uuid status = wid → not_complete (wi_status status) = true → wi_serialization status = Some n →
  ws_serialization row0 = Some n → n ≠ ser_name DBOSPortableJSON → enter_workflow ctx1 = Ok ctx0 →
  (∃ s' r, finish (execute_workflow_wthread status info ctx1 inputs) s = (s', Some r) ∧ ended k s' r) ∧
  crash_states (execute_workflow_wthread status info ctx1 inputs) s (within_run k).
Proof.
  intros Hfree Hr Hid Hp Ha Hrec Hfr Hspec Hwid Hnc Hns Hn Hport Hent.
  set (s_in := s <| m_active := <[wid := (λ q, (q, wi_queue_partition_key status)) <$> wi_queue_name status]> (m_active s) |>).
  destruct execution_ctx_workflow as [Hw0 Hwid0].
  destruct (recorded_workflow serializer executor_id _ _ _ _ _ Hrec Hw0) as (Hw & Hcwid & _).
  assert (active wid (m_db s_in)) as Hact by (exists row; split; [done|by rewrite (here_pending _ Hp)]).
  destruct (run_recorded serializer executor_id ctx0 wf0 ctx wf s_in Hrec Hw0 ltac:(by rewrite Hwid0)) as [Hfrec Hnrec].
  pose proof (recorded_durable serializer executor_id _ _ _ _ _ _ Hrec durable0) as Hdur.
  destruct (run_progress serializer executor_id (ws_serialization row0) ctx wf s_in Hdur Hw ltac:(by rewrite Hcwid, Hwid0) Hfr)
    as [(s2 & r & ctx2 & Hf2 & Hprog2) Hcrash2].
  assert (∀ s' ctx' wf' w', progress serializer executor_id (ws_serialization row0) ctx wf s_in s' ctx' wf' w' →
            within_run k s' ∧ spec k (ctx0, wf0, w0) (ctx', wf', w') ∧
            ∃ row', workflow_status (m_db s') !! wid = Some row' ∧ here row' ∧
              run_identity row' = run_identity row0) as Hprog.
  { intros s' ctx' wf' w' Hpr.
    destruct (stands_progress (S k) row s_in s' ctx wf ctx' wf' w' Hr Hid Hp Ha Hrec Hpr) as [Hst Hrow'].
    assert (spec k (ctx0, wf0, w0) (ctx', wf', w')) as Hsp
      by (eapply spec_calls; [exact Hspec|exact (pr_calls _ _ _ _ _ _ _ _ _ _ Hpr)]).
    split_and!; [|done..]. exists ctx', wf', w'. split_and!; [done..|by apply Hpr]. }
  destruct (Hprog _ _ _ _ Hprog2) as (Hin2 & Hspec2 & row2 & Hr2 & Hp2 & Hid2).
  assert (storable serializer (Some n) r) as Hstore.
  { pose proof (pr_durable _ _ _ _ _ _ _ _ _ _ Hprog2) as Hd2. rewrite Hn in Hd2. by inversion Hd2. }
  assert (∀ d, settled serializer row2 wid d r → settled serializer row0 wid d r) as Hset2
    by (intros d; unfold settled; by rewrite Hid2).
  destruct (wthread_settles serializer honest reads_back polls status info ctx1 ctx0 inputs n s s2 r row2) as [Hfin Hcr];
    rewrite ?Hwid; try done; fold s_in.
  1-2: by apply executable0.
  { exact (pr_active _ _ _ _ _ _ _ _ _ _ Hprog2). }
  { by rewrite <- Hf2, <- Hfrec. }
  { by rewrite (here_pending _ Hp2). }
  { unfold run_identity in Hid2. congruence. }
  rewrite Hwid in Hfin, Hcr. fold s_in in Hcr. split.
  - destruct Hfin as (s3 & Hf3 & Hw3 & Hset). exists s3, r. split; [done|]. apply Hset2 in Hset. split; [done|].
    exists ctx2. rewrite Hw3. split; [done|by apply ended_stands].
  - apply Hcr; [| |done|].
    + exists ctx, wf, (m_world s). split_and!; [|done|by left]. exists row. split_and!; [done|done|left]. by split_and!.
    + intros j s' Hj. destruct (Hnrec j) as [Hno|[m Hm]].
      * rewrite Hno in Hj. injection Hj as <-. exists ctx, wf, (m_world s). split_and!; [|done|by left].
        exists row. split_and!; [done|done|left]. by split_and!.
      * rewrite Hm in Hj. destruct (Hcrash2 m s' Hj) as (ctx' & wf' & w' & Hpr). by eapply Hprog.
    + intros d a Hset. exists ctx2, (WReturn r), (m_world s2).
      split_and!; [by apply ended_stands, Hset2|done|by left].
Qed.

Lemma between_pending k s row ctx wf :
  m_active s !! wid = None → attempts_left row0 info (S k) →
  workflow_status (m_db s) !! wid = Some row → run_identity row = run_identity row0 →
  here row → (∀ j, attempts_left row0 info (k + j) → attempts_left row info j) →
  recorded serializer executor_id (m_db s) ctx0 wf0 ctx wf → frontier ctx (m_db s) →
  spec k (ctx0, wf0, w0) (ctx, wf, m_world s) →
  (∃ s' r, finish (execution k) s = (s', Some r) ∧ ended k s' r) ∧ crash_states (execution k) s (within_run k).
Proof.
  intros Hfree Hbudget Hr Hid Hp Ha Hrec Hfr Hspec.
  pose proof (executable_identity _ _ _ _ _ Hid executable0) as Hex.
  destruct (execution_pending k row info inputs roles s Hr Hex (here_pending _ Hp) (Ha 1 ltac:(by rewrite Nat.add_1_r)))
    as (status & ctx1 & row1 & Hwid & Hnc & Hser & Hent & Hagain & _ & Hid1 & Ha1 & Hlead).
  pose proof (here_again _ _ Hagain Hp) as Hp1. rewrite (execution_ctx_identity row0 row info roles Hid) in Hent. rewrite Hid in Hid1.
  destruct (ex_serialization _ _ _ _ _ _ _ executable0) as (n & Hn & Hport).
  assert (wi_serialization status = Some n) as Hns by (unfold run_identity in Hid; congruence).
  assert (∀ j, attempts_left row0 info (S k + j) → attempts_left row1 info j) as Ha1'.
  { intros j Hj. apply Ha1, Ha. by replace (k + S j) with (S k + j) by lia. }
  set (s1 := s <| m_db := _ |>) in Hlead.
  assert (workflow_status (m_db s1) !! wid = Some row1) as Hr1 by apply lookup_insert_eq.
  assert (recorded serializer executor_id (m_db s1) ctx0 wf0 ctx wf) as Hrec1
    by (eapply recorded_mono; [|apply execution_ctx_workflow|exact Hrec]; done).
  destruct (thread_pending k s1 row1 ctx wf status ctx1 n) as [Hfin Hcr]; try done.
  split; [by rewrite (proj1 Hlead)|]. apply (proj2 Hlead); [| |done].
  - exists ctx, wf, (m_world s). split_and!; [apply stands_more|done|by left]. exists row. split_and!; [done..|by left].
  - exists ctx, wf, (m_world s). split_and!; [|done|by left]. exists row1. split_and!; [done|done|left]. by split_and!.
Qed.

(** An execution, from where the ones before it leave the workflow. *)
Lemma between_execution k s :
  0 < polls → attempts_left row0 info (S k) → between k s →
  (∃ s' r, finish (execution k) s = (s', Some r) ∧ ended k s' r) ∧ crash_states (execution k) s (within_run k).
Proof.
  intros Hpolls Hbudget (Hfree & ctx & wf & Hst & Hspec).
  pose proof Hst as (row & Hr & Hid & [(Hp & Ha & Hrec & Hfr)|(r & -> & Hset)]).
  - by apply (between_pending k s row ctx wf).
  - by apply (between_settled k s ctx r).
Qed.

(** A crash leaves the workflow where the next execution takes over. *)
Lemma within_run_between k s d w :
  within_run k s → undisturbed wid (m_db s) d → others (m_world s) w →
  between (S k) (crash (s <| m_db := d |> <| m_world := w |>)).
Proof.
  intros (ctx & wf & w1 & Hst & Hspec & Huw) [Hdr Hdo] Hw. split; [done|]. exists ctx, wf.
  split; [|eapply spec_crash_last; [exact Hspec|by eapply under_way_crash]].
  destruct Hst as (row & Hr & Hid & [(Hp & Ha & Hrec & Hfr)|(r & -> & Hset)]); exists row;
    (split_and!; [simpl; by rewrite Hdr|done|]).
  - left. destruct execution_ctx_workflow as [Hw0 Hwid0].
    destruct (recorded_workflow serializer executor_id _ _ _ _ _ Hrec Hw0) as (_ & Hcwid & _). split_and!; try done.
    + eapply recorded_mono; [|done|exact Hrec]. intros fid row'. simpl. by rewrite Hdo.
    + intros fid Hfid. simpl. rewrite Hcwid, Hwid0, Hdo. rewrite <- Hwid0, <- Hcwid. by apply Hfr.
  - right. exists r. split; [done|]. by eapply settled_undisturbed.
Qed.

Lemma ended_within_run k s r : ended k s r → within_run k s.
Proof. intros (Hset & ctx & Hspec & Hst). exists ctx, (WReturn r), (m_world s). by split_and!; [..|left]. Qed.

Lemma crashes_between k s0 s :
  0 < polls → attempts_left row0 info k → between 0 s0 → crashes k s0 s → between k s.
Proof.
  intros Hpolls Hbudget H0' Hc. induction Hc as [|k n s s1 d w Hc IH Hd Hw]; [done|].
  destruct (between_execution k s1 Hpolls Hbudget) as [(s2 & r & Hf & Hend) Hcrash].
  { apply IH; [|done]. by apply (attempts_left_mono _ _ k (S k)); [lia|]. }
  apply within_run_between; [|done..]. destruct (run_for n (execution k) s1) as [s3 [[m r']|]] eqn:Hrun.
  - apply run_for_finish in Hrun. rewrite Hf in Hrun. injection Hrun as <- <-. by eapply ended_within_run.
  - by apply (Hcrash n).
Qed.

End invariant.

(** C1: durable execution. A pending workflow, all of whose calls are durable, is executed
    again and again, and each execution but the last is lost with its machine after any
    number of actions (a transaction, an attempt of a step, a wait), within the recovery budget
    of the workflow. Then the last execution
    returns, the result it returns is the outcome in the database, and the world is as a
    single run of the workflow function could have left it, without any database: every
    call made once, in order, with the answers of the calls before it, but that each crash
    has lost at most a part of the one call that was under way, and that call was made
    anew. *)
Theorem crash_recovery_refines row0 info inputs roles k s0 s :
  workflow_status (m_db s0) !! wid = Some row0 → ws_status row0 = PENDING →
  executable row0 info inputs roles → durable_workflow serializer executor_id (ws_serialization row0) (wf_func info inputs) →
  (∀ fid, (0 < fid)%Z → operation_outputs (m_db s0) !! (wid, fid) = None) → m_active s0 !! wid = None →
  0 < polls → attempts_left row0 info (S k) → crashes k s0 s →
  ∃ s' r ctx, finish (execution k) s = (s', Some r) ∧ check_workflow_result serializer (m_db s') wid = found r ∧
    spec k (execution_ctx row0 info roles, wf_func info inputs, m_world s0) (ctx, WReturn r, m_world s').
Proof.
  intros Hr Hp Hex Hdur Hfree Hact Hpolls Hbudget Hc. set (here := λ r, ws_status r = PENDING).
  assert (∀ r r', same_but_executor executor_id r r' → here r → here r') as Hsteps by (by intros r r' [->| ->]).
  assert (∀ r r', submitted_again executor_id r r' → here r → here r') as Hagain
    by (intros r r' (now & st & _ & ->); unfold here; by rewrite (proj1 (existing_row_status now st true r))).
  assert (between serializer executor_id others app_id wid here row0 info inputs roles (m_world s0) k s) as Hb.
  { eapply (crashes_between here); [by intros r|done..| | |exact Hc]; [by apply (attempts_left_mono _ _ k (S k)); [lia|]|].
    split; [done|]. exists (execution_ctx row0 info roles), (wf_func info inputs). split; [|constructor]. exists row0. split_and!; [done..|left]. split_and!; [done..|constructor|].
    intros fid Hfid. by apply Hfree. }
  destruct (between_execution here _ _ _ _ _ (λ r Hr, Hr) Hsteps Hagain Hex Hdur k s Hpolls Hbudget Hb) as [(s' & r & Hf & Hset & ctx & Hspec & _) _].
  exists s', r, ctx. split_and!; [done|apply Hset|done].
Qed.

End crash_recovery.

#[local] Existing Instance sample_codecs.

Lemma letters_honest : @honest_name sample_codecs letter_serializer.
Proof. split; intros H; discriminate H. Qed.

Lemma letters_read_back : round_trips letter_serializer.
Proof.
  assert (∀ v t, @pickle_dumps sample_codecs v = Ok t → ser_deserialize letter_serializer t = Ok v) as Hp.
  { intros v t Ht. pose proof (@pickle_round_trip sample_codecs sample_laws v t Ht) as Hb. cbn.
    rewrite bool_decide_eq_false_2; [done|]. intros ->. cbn in Hb. discriminate Hb. }
  intros v t. cbn [ser_serialize letter_serializer].
  repeat match goal with |- match ?x with _ => _ end = _ → _ => destruct x; try (by apply Hp); try discriminate end.
  intros [= <-]. reflexivity.
Qed.

Lemma send_letter_durable letter :
  Durable letter_serializer "exec" (send_letter letter) (step_attempt "post" DEFAULT_STEP_OPTIONS (post letter)) "post".
Proof.
  refine (@step_durable mailbox mailbox_host sample_codecs sample_laws letter_serializer "exec"
            letters_honest letters_read_back _ "post" DEFAULT_STEP_OPTIONS (post letter) _ _); try discriminate.
  intros ctx w. eexists _, _. split; reflexivity.
Qed.

Lemma letters_executable : executable letter_serializer letters_registry "w" letters_row letters {| args := []; kwargs := [] |} None.
Proof.
  split; try reflexivity; try (split; reflexivity).
  - exists "args". split; reflexivity.
  - exists "sample". split; [reflexivity|discriminate].
Qed.

(** The machine dies after both letters, before the checkpoint of the second: it is sent
    again. *)
Lemma crash_recovery_refines_witness :
  let s1 := (run_for 11 (letters_execution 0) letters_machine).1 in
  let w1 := Mailbox 100 (mb_sent (m_world s1)) in
  let s := crash (s1 <| m_db := m_db s1 |> <| m_world := w1 |>) in
  ∃ s' r ctx, finish (letters_execution 1) s = (s', Some r) ∧
    @check_workflow_result sample_codecs letter_serializer (m_db s') "w" = found r ∧
    spec letter_serializer "exec" (λ w w', mb_sent w' = mb_sent w) 1
      (execution_ctx "exec" "app" "w" letters_row letters None, wf_func letters {| args := []; kwargs := [] |}, Mailbox 0 [])
      (ctx, WReturn r, m_world s').
Proof.
  intros s1 w1 s.
  refine (@crash_recovery_refines mailbox mailbox_host sample_codecs sample_laws letter_serializer "exec"
    (λ w w', mb_sent w' = mb_sent w) 3 "app" "v1" (λ _, "u") (λ _, "x") letters_registry "w" true false
    letters_honest letters_read_back eq_refl letters_row letters {| args := []; kwargs := [] |} None 1 letters_machine s
    eq_refl eq_refl letters_executable _ (λ _ _, eq_refl) eq_refl ltac:(lia) _ _).
  - intros. by repeat (econstructor; [apply send_letter_durable|intros ?]); constructor.
  - vm_compute. discriminate.
  - apply (crashes_S _ _ _ _ _ _ _ _ _ _ _ _ 0 11 letters_machine letters_machine); [constructor|by split|reflexivity].
Defined.
