(* ===== verification/Transactions.v ===== *)
(** * Transactions: [dbos/_app_db.py], [decorate_transaction] of [dbos/_core.py]

    A transaction runs the user's function in one transaction of the application's database
    together with the record of its output ([transaction_body]), so that it takes effect
    once, and then leaves its checkpoint in the system database. The application's database
    is a part of the world ([AppHost]): data of the user's, [transaction_outputs], and the
    faults to come of its connection. The function of the user is a computation on the data. *)
From Stdlib Require Import QArith Qminmax.
From S2P Require Import Prelude Errors Schema Retry Serialization Workflows Context Steps Queues Process Execution Durability.
Open Scope nat_scope.

(** A row of [transaction_outputs]. *)
Record transaction_outputs_row := MkOutput {
  to_output : option string;
  to_error : option string;
  to_txn_id : option string;
  to_txn_snapshot : string;
  to_executor_id : option string;
  to_function_name : string;
  to_created_at : Z;
}.

Record app_db (D : Type) := AppDB { a_data : D; transaction_outputs : gmap (string * Z) transaction_outputs_row }.
Arguments AppDB {D}.
Arguments a_data {D}.
Arguments transaction_outputs {D}.

#[export] Instance app_db_eta D : RecordEta (app_db D) := λ a, AppDB (a_data a) (transaction_outputs a).

(** What may happen to a transaction: its connection is lost before or after the commit, or
    it conflicts with another. *)
Inductive app_fault := AppLost (f : fault) | SerializationFailure.

Definition serialization_failure : pyexn :=
  DBAPIError false (Some {| oe_sqlstate := Some "40001"; oe_text := "could not serialize access";
                            oe_connection_timeout := false |}) "could not serialize access".

(** [PostgresApplicationDatabase._is_serialization_error] *)
Definition is_serialization_error (e : pyexn) : bool :=
  match e with
  | DBAPIError _ (Some o) _ => match oe_sqlstate o with Some c => bool_decide (c ∈ ["40001"; "40P01"]) | None => false end
  | _ => false
  end.

(** The world with the application's database in it; the passing of time leaves it alone. *)
Class AppHost (W D : Type) `{Host W} := {
  app : W → app_db D;
  set_app : app_db D → W → W;
  faults : W → list app_fault;
  set_faults : list app_fault → W → W;
}.

Class AppHostLaws (W D : Type) `{AppHost W D} := {
  app_set_app a w : app (set_app a w) = a;
  faults_set_app a w : faults (set_app a w) = faults w;
  app_set_faults fs w : app (set_faults fs w) = app w;
  faults_set_faults fs w : faults (set_faults fs w) = fs;
  app_sleep q w : app (sleep q w) = app w;
  faults_sleep q w : faults (sleep q w) = faults w;
}.

Section transactions.
Context {W D : Type} `{AppHost W D, Codecs} (serializer : Serializer) (executor_id : string).
Notation machine := (@machine W).

(** What a transaction records: [TransactionResultInternal], as [decorate_transaction]
    fills it. *)
Record TransactionResultInternal := {
  tr_workflow_uuid : string;
  tr_function_id : Z;
  tr_output : option string;
  tr_error : option string;
  tr_serialization : option string;
  tr_executor_id : option string;
  tr_function_name : string;
}.

Definition output_row (now : Z) (o : TransactionResultInternal) (output error : option string) : transaction_outputs_row := {|
  to_output := output; to_error := error; to_txn_id := Some ""; to_txn_snapshot := "";
  to_executor_id := nonempty (tr_executor_id o); to_function_name := tr_function_name o; to_created_at := now;
|}.

(** The insert of a row, and the unique violation that it may meet. *)
Definition insert_output (now : Z) (o : TransactionResultInternal) (output error : option string) :
    SM (app_db D) pyexn unit := λ a,
  match sql_insert (tr_workflow_uuid o, tr_function_id o) (output_row now o output error) (transaction_outputs a) with
  | Some t => (a <| transaction_outputs := t |>, Ok tt)
  | None => (a, Err (DBOSWorkflowConflictIDError (tr_workflow_uuid o)))
  end.

Definition record_transaction_output (now : Z) (output : TransactionResultInternal) : SM (app_db D) pyexn unit :=
  insert_output now output (tr_output output) None.

Definition check_transaction_execution (workflow_id : string) (function_id : Z) (function_name : string) :
    SM (app_db D) pyexn (option RecordedResult) := λ a,
  (a, match transaction_outputs a !! (workflow_id, function_id) with
      | None => Ok None
      | Some r =>
          if bool_decide (function_name ≠ to_function_name r)
          then Err (DBOSUnexpectedStepError workflow_id function_id function_name (to_function_name r))
          else Ok (Some {| rr_output := to_output r; rr_error := to_error r; rr_child_workflow_id := None;
                           rr_serialization := None |})
      end).

(** A transaction in the world: all or nothing, and the faults it meets. *)
Definition app_txn {A} (m : Z → SM (app_db D) pyexn A) : SM W pyexn A := λ w,
  let run w := match m (now_ms w) (app w) with
               | (a, Ok x) => (set_app a w, Ok x)
               | (_, Err e) => (w, Err e)
               end in
  match faults w with
  | [] => run w
  | AppLost LostBefore :: fs => (set_faults fs w, Err connection_lost)
  | SerializationFailure :: fs => (set_faults fs w, Err serialization_failure)
  | AppLost LostAfter :: fs =>
      match run (set_faults fs w) with
      | (w', Ok _) => (w', Err connection_lost)
      | (w', Err e) => (w', Err e)
      end
  end.

Definition record_transaction_error (output : TransactionResultInternal) : SM W pyexn unit :=
  app_txn (λ now, insert_output now output None (tr_error output)).

(** The transaction of the function: what is recorded already, or the output of the
    function, which is recorded with its effects. *)
Definition transaction_body (o : TransactionResultInternal) (func : SM D pyexn pyval) (now : Z) :
    SM (app_db D) pyexn (RecordedResult + pyval) :=
  recorded_output ← check_transaction_execution (tr_workflow_uuid o) (tr_function_id o) (tr_function_name o);
  match recorded_output with
  | Some r => mret (inl r)
  | None =>
      output ← zoom a_data (λ d a, a <| a_data := d |>) func;
      '(serialized_r, _) ← lift_res (serialize_value output None serializer);
      _ ← record_transaction_output now {|
            tr_workflow_uuid := tr_workflow_uuid o; tr_function_id := tr_function_id o;
            tr_output := Some serialized_r; tr_error := None; tr_serialization := None; tr_executor_id := None;
            tr_function_name := tr_function_name o |};
      mret (inr output)
  end.

(** The transaction up to its commit: where nothing is written, the commit is still to
    come ([commit_nothing]). *)
Definition begin_transaction (o : TransactionResultInternal) (func : SM D pyexn pyval) :
    SM W pyexn (RecordedResult + pyval) := λ w,
  match faults w, transaction_body o func (now_ms w) (app w) with
  | AppLost LostAfter :: _, (_, Ok (inl r)) => (w, Ok (inl r))
  | _, _ => app_txn (transaction_body o func) w
  end.

Definition commit_nothing : SM W pyexn unit := app_txn (λ _, mret tt).

(** The step record of the transaction. *)
Definition transaction_step (ctx : DBOSContext) (transaction_name : string) (start : Z)
    (output error serialization : option string) : OperationResultInternal := {|
  or_workflow_uuid := cx_workflow_id ctx; or_function_id := cx_function_id ctx;
  or_function_name := transaction_name; or_output := output; or_error := error;
  or_serialization := serialization; or_started_at_epoch_ms := start;
|}.

Definition transaction_result (ctx : DBOSContext) (transaction_name : string) (error : option string) :
    TransactionResultInternal := {|
  tr_workflow_uuid := cx_workflow_id ctx; tr_function_id := cx_function_id ctx; tr_output := None;
  tr_error := error; tr_serialization := None; tr_executor_id := None; tr_function_name := transaction_name;
|}.

(** The [finally] of an attempt that failed with [txn_error]. *)
Definition record_txn_error (ctx : DBOSContext) (transaction_name : string) (start : Z) (has_recorded_error : bool)
    (txn_error : pyexn) : process machine pyval :=
  if has_recorded_error then Returns (Err txn_error)
  else
    '(serialized_e, serialization) ← returns (serialize_exception txn_error None serializer);
    _ ← outside (act (record_transaction_error (transaction_result ctx transaction_name (Some serialized_e))));
    _ ← record_result executor_id (transaction_step ctx transaction_name start None (Some serialized_e) (Some serialization));
    Returns (Err txn_error).

(** The error of an attempt is one to try again for. *)
Definition txn_retriable (e : pyexn) : bool := retriable_postgres_exception e || is_serialization_error e.

(** The result found in the application's database: the checkpoint is made up for, and the
    result answered, or an error that is not to be recorded again. *)
Definition replay_output (ctx : DBOSContext) (transaction_name : string) (start : Z) (r : RecordedResult) :
    process machine (pyval + pyexn) :=
  match nonempty (rr_error r), nonempty (rr_output r) with
  | Some error, _ =>
      e ← returns (deserialize_exception error (rr_serialization r) serializer);
      and_then (record_result executor_id (transaction_step ctx transaction_name start None (Some error) (rr_serialization r)))
        (λ r, match r with Ok _ => mret (inr e) | Err e' => mret (inr e') end)
  | None, Some output =>
      _ ← record_result executor_id (transaction_step ctx transaction_name start (Some output) None (rr_serialization r));
      v ← returns (deserialize_value (Some output) (rr_serialization r) serializer);
      _ ← outside (act commit_nothing);
      mret (inl v)
  | None, None => Returns (Err (PyException "Output and error are both None"))
  end.

(** The handlers of an attempt's error [e]: it is tried again, recorded, or raised. *)
Definition handle_failure (again : process machine pyval) (retry_wait_seconds : Q) (ctx : DBOSContext)
    (transaction_name : string) (start : Z) (has_recorded_error : bool) (e : pyexn) : process machine pyval :=
  if txn_retriable e then
    _ ← act (modify (λ s, s <| m_world := sleep retry_wait_seconds (m_world s) |>)); again
  else
    match e with
    | DBOSUnexpectedStepError _ _ _ _ => Returns (Err e)
    | _ => if is_Exception e then record_txn_error ctx transaction_name start has_recorded_error e else Returns (Err e)
    end.

(** The loop over the attempts of the transaction; [Waits] when [tries] are used up. *)
Fixpoint transaction_loop (tries : nat) (retry_wait_seconds : Q) (ctx : DBOSContext) (transaction_name : string)
    (start : Z) (func : SM D pyexn pyval) : process machine pyval :=
  match tries with
  | O => Waits
  | S tries' =>
      let failed := handle_failure
        (transaction_loop tries' (Qmin (retry_wait_seconds * (3 # 2)) 2) ctx transaction_name start func)
        retry_wait_seconds ctx transaction_name start in
      and_then (outside (act (begin_transaction (transaction_result ctx transaction_name None) func))) (λ r,
        match r with
        | Ok (inr output) =>
            '(serialized_r, serialization) ← returns (serialize_value output None serializer);
            _ ← record_result executor_id (transaction_step ctx transaction_name start (Some serialized_r) None (Some serialization));
            mret output
        | Ok (inl recorded) =>
            and_then (replay_output ctx transaction_name start recorded) (λ r,
              match r with
              | Ok (inl v) => mret v
              | Ok (inr e) => failed true e
              | Err e => failed false e
              end)
        | Err e => failed false e
        end)
  end.

(** [invoke_tx], in the context of the transaction. *)
Definition invoke_tx (tries : nat) (ctx : DBOSContext) (transaction_name : string) (func : SM D pyexn pyval) :
    process machine pyval :=
  recorded ← database (λ _, check_operation_execution (cx_workflow_id ctx) (cx_function_id ctx) transaction_name);
  match recorded with
  | Some r =>
      match nonempty (rr_error r), nonempty (rr_output r) with
      | Some error, _ =>
          e ← returns (deserialize_exception error (rr_serialization r) serializer);
          Returns (Err e)
      | None, Some output => returns (deserialize_value (Some output) (rr_child_workflow_id r) serializer)
      | None, None => Returns (Err (PyException "Output and error are both None"))
      end
  | None =>
      start ← act (gets (λ s, time_ms (m_world s)));
      transaction_loop tries (1 # 1000) ctx transaction_name start func
  end.

(** A function decorated as a transaction; outside a workflow it starts [temp_workflow],
    a workflow that calls it. *)
Definition transaction (transaction_name : string) (class_roles func_roles : option (list string)) (tries : nat)
    (func : SM D pyexn pyval) (temp_workflow : process machine pyval) : operation (W:=W) := λ ctx,
  match check_required_roles transaction_name class_roles func_roles (Some ctx) with
  | Err e => (ctx, Returns (Err e))
  | Ok rr =>
      if is_within_workflow ctx then
        if is_workflow ctx then
          let ctx' := ctx <| cx_function_id := (cx_function_id ctx + 1)%Z |> in
          (ctx', invoke_tx tries (start_transaction (cx_function_id ctx') (assume_role rr ctx')) transaction_name func)
        else (ctx, Returns (Err (AssertionError "Transactions must be called from within workflows")))
      else (ctx, temp_workflow)
  end.

(** ** What a transaction comes to

    The function at [d0], and the data it leaves: none of its effects if it fails. *)
Definition txn_outcome (func : SM D pyexn pyval) (d0 : D) : res pyexn pyval := (func d0).2.
Definition txn_data (func : SM D pyexn pyval) (d0 : D) : D := if is_ok (func d0).2 then (func d0).1 else d0.

(** The recorded texts read as the outcome, with or without the serializer's name. *)
Definition reads_as (r : res pyexn pyval) (output error : option string) : Prop :=
  match r with
  | Ok v => error = None ∧ ∃ x, output = Some x ∧ x ≠ "" ∧
      ∀ n, n = None ∨ n = Some (ser_name serializer) → deserialize_value (Some x) n serializer = Ok v
  | Err e => output = None ∧ ∃ x, error = Some x ∧ x ≠ "" ∧
      ∀ n, n = None ∨ n = Some (ser_name serializer) → deserialize_exception x n serializer = Ok e
  end.

(** An error that a transaction records, and its caller gets. *)
Definition txn_final (r : res pyexn pyval) : Prop :=
  match r with
  | Ok v => is_ok (serialize_value v None serializer) = true
  | Err (DBOSUnexpectedStepError _ _ _ _) => False
  | Err e => is_Exception e = true ∧ txn_retriable e = false ∧ is_ok (serialize_exception e None serializer) = true
  end.

(** The executions of a call, each lost with its machine after some actions; meanwhile
    others leave the workflow's rows and the application's data and records alone. *)
Inductive interrupted (wid : string) (call : process machine pyval) : machine → machine → Prop :=
| interrupted_refl s : interrupted wid call s s
| interrupted_again s n s1 d w s' : s1 = (run_for n call s).1 →
    undisturbed wid (m_db s1) d → app w = app (m_world s1) →
    interrupted wid call (crash (s1 <| m_db := d |> <| m_world := w |>)) s' → interrupted wid call s s'.

(** The states of the call of a transaction at [ctx]: [Fresh], or [Committed], with its
    record and its effects, and perhaps a checkpoint. *)
Definition tx_key (ctx : DBOSContext) : string * Z := (cx_workflow_id ctx, cx_function_id ctx).

Definition Fresh (ctx : DBOSContext) (d0 : D) (s : machine) : Prop :=
  active (cx_workflow_id ctx) (m_db s) ∧ operation_outputs (m_db s) !! tx_key ctx = None ∧
  transaction_outputs (app (m_world s)) !! tx_key ctx = None ∧ a_data (app (m_world s)) = d0.

Definition Committed (ctx : DBOSContext) (name : string) (func : SM D pyexn pyval) (d0 : D) (s : machine) : Prop :=
  active (cx_workflow_id ctx) (m_db s) ∧
  (∃ row, transaction_outputs (app (m_world s)) !! tx_key ctx = Some row ∧ to_function_name row = name ∧
     reads_as (txn_outcome func d0) (to_output row) (to_error row)) ∧
  a_data (app (m_world s)) = txn_data func d0 ∧
  ∀ row, operation_outputs (m_db s) !! tx_key ctx = Some row →
    oo_function_name row = name ∧ oo_child_workflow_id row = None ∧
    (oo_serialization row = None ∨ oo_serialization row = Some (ser_name serializer)) ∧
    reads_as (txn_outcome func d0) (oo_output row) (oo_error row) ∧ oo_completed_at_epoch_ms row ≠ None.

(** The errors of a transaction that did not commit, or was not told. *)
Definition lost (e : pyexn) : Prop := e = connection_lost ∨ e = serialization_failure.

Section progress.
Context (ctx : DBOSContext) (name : string) (func : SM D pyexn pyval) (d0 : D).

Definition txn_inv (s : machine) : Prop := Fresh ctx d0 s ∨ Committed ctx name func d0 s.

(** How an attempt may begin. *)
Definition begun (s : machine) (w : W) (r : res pyexn (RecordedResult + pyval)) : Prop :=
  (faults (m_world s) = [] → faults w = []) ∧ txn_inv (s <| m_world := w |>) ∧
  match r with
  | Ok (inr v) => txn_outcome func d0 = Ok v ∧ Committed ctx name func d0 (s <| m_world := w |>)
  | Ok (inl rr) => Committed ctx name func d0 (s <| m_world := w |>) ∧ rr_serialization rr = None ∧ reads_as (txn_outcome func d0) (rr_output rr) (rr_error rr)
  | Err e => (lost e ∧ faults (m_world s) ≠ []) ∨ (txn_outcome func d0 = Err e ∧ Fresh ctx d0 (s <| m_world := w |>))
  end.

(** What is known of the error of an attempt. *)
Definition failure_known (s : machine) (has_recorded : bool) (e : pyexn) : Prop :=
  lost e ∨ (txn_outcome func d0 = Err e ∧ Fresh ctx d0 s) ∨ (Committed ctx name func d0 s ∧ has_recorded = true) ∨ e = DBOSWorkflowConflictIDError (cx_workflow_id ctx).

(** The call has left its checkpoint. *)
Definition checkpoint_there (s : machine) : Prop := is_Some (operation_outputs (m_db s) !! tx_key ctx).

End progress.

End transactions.

(** ** A sample: an account *)

Record bank := Bank { bk_clock : Z; bk_app : app_db Z; bk_faults : list app_fault }.

#[export] Instance bank_host : Host bank := {|
  time_ms := bk_clock; now_ms := bk_clock;
  sleep := λ q w, Bank (bk_clock w + 1) (bk_app w) (bk_faults w);
|}.

#[export] Instance bank_app : AppHost bank Z := {|
  app := bk_app; set_app := λ a w, Bank (bk_clock w) a (bk_faults w);
  faults := bk_faults; set_faults := λ fs w, Bank (bk_clock w) (bk_app w) fs;
|}.

#[export] Instance bank_laws : AppHostLaws bank Z.
Proof. by split. Qed.

Definition deposit : SM Z pyexn pyval := λ balance, ((balance + 10)%Z, Ok (PStr "deposited")).

(** The context of the workflow "w" before the call, and the call. *)
Definition bank_ctx : DBOSContext := (new_context "exec" "app") <| cx_workflow_id := "w" |> <| cx_function_id := 0%Z |>.

Definition deposit_call : process (machine (W:=bank)) pyval :=
  (@transaction bank Z _ _ sample_codecs sample_serializer "exec" "deposit" None None 4 deposit Waits bank_ctx).2.

Definition bank_machine (fs : list app_fault) : machine (W:=bank) :=
  Machine (sample_db [("w", sample_row "w" PENDING)]) (Bank 5 (AppDB 100%Z ∅) fs) ∅.

(** ** Lemmas *)

Section exactly_once.
Context {W D : Type} `{AppHost W D, !AppHostLaws W D, Codecs, !CodecLaws} (serializer : Serializer) (executor_id : string).
Hypothesis honest : honest_name serializer.
Hypothesis reads_back : round_trips serializer.
Hypothesis not_portable : ser_name serializer ≠ ser_name DBOSPortableJSON.
Hypothesis nonblank : ∀ v x, ser_serialize serializer v = Ok x → x ≠ "".
Context (ctx : DBOSContext) (name : string) (func : SM D pyexn pyval) (d0 : D).
Hypothesis final : txn_final serializer (txn_outcome func d0).
Notation machine := (@machine W).
Notation wid := (cx_workflow_id ctx).
Notation key := (tx_key ctx).
Notation r0 := (txn_outcome func d0).
Notation reads_as := (reads_as serializer).
Notation Fresh := (Fresh (W:=W) ctx d0).
Notation Committed := (Committed (W:=W) serializer ctx name func d0).
Notation Inv := (txn_inv (W:=W) serializer ctx name func d0).
Notation begun := (begun (W:=W) serializer ctx name func d0).
Notation failure_known := (failure_known (W:=W) serializer ctx name func d0).
Notation checkpoint_there := (checkpoint_there (W:=W) ctx).

Lemma own_serializer n : n = None ∨ n = Some (ser_name serializer) → select_serializer n serializer = Some serializer.
Proof.
  intros [->| ->]; [done|]. simpl. rewrite (bool_decide_eq_false_2 (_ = ser_name DBOSPortableJSON)) by done.
  case_bool_decide as Hd; [by rewrite <- (proj2 honest Hd)|]. by rewrite bool_decide_eq_false_2 by (intros Hn; by apply Hn).
Qed.

Lemma own_serialize_value v x n :
  serialize_value v None serializer = Ok (x, n) → n = ser_name serializer ∧ reads_as (Ok v) (Some x) None.
Proof.
  intros Hs. pose proof (serialize_value_as_name _ _ _ _ _ Hs) as Hn. split; [done|].
  unfold serialize_value, serialize_value_as in Hs. simpl (serialization_for_type _ _) in Hs.
  rewrite own_serializer in Hs by (by right). unfold named in Hs. destruct (ser_serialize serializer v) as [t|] eqn:Ht; [|done].
  injection Hs as -> _. split; [done|]. exists x. split_and!; [done|by eapply nonblank|].
  intros m Hm. unfold deserialize_value. rewrite own_serializer by done. by apply reads_back.
Qed.

Lemma own_serialize_exception e x n :
  serialize_exception e None serializer = Ok (x, n) → n = ser_name serializer ∧ reads_as (Err e) None (Some x).
Proof.
  intros Hs. pose proof (serialize_exception_name serializer e None x n Hs) as Hn. change (n = ser_name serializer) in Hn.
  split; [done|].
  pose proof (native_exception_back serializer e None x n honest reads_back Hs ltac:(congruence)) as Hback.
  unfold serialize_exception in Hs. simpl (Some (default _ None)) in Hs.
  rewrite (bool_decide_eq_false_2 (Some _ = _)) in Hs by congruence.
  unfold serialize_value_as in Hs. rewrite own_serializer in Hs by (by right). unfold named in Hs.
  destruct (ser_serialize serializer (PExn e)) as [t|] eqn:Ht; [|done]. injection Hs as -> _.
  split; [done|]. exists x. split_and!; [done|by eapply nonblank|].
  intros m [->| ->]; [|by rewrite <- Hn]. rewrite Hn in Hback. exact Hback.
Qed.

(** *** The application's database *)

(** A transaction commits or not, and may not be told. *)
Lemma app_txn_cases {A} (m : Z → SM (app_db D) pyexn A) w :
  ∃ w1 now, app w1 = app w ∧ faults w1 = tail (faults w) ∧
  ((∃ e, lost e ∧ faults w ≠ [] ∧ app_txn m w = (w1, Err e)) ∨
   match m now (app w) with
   | (a', Ok x) => app_txn m w = (set_app a' w1, Ok x) ∨ faults w ≠ [] ∧ app_txn m w = (set_app a' w1, Err connection_lost)
   | (_, Err e) => app_txn m w = (w1, Err e)
   end).
Proof.
  unfold app_txn. destruct (faults w) as [|[[]|] fs] eqn:Hfs.
  - exists w, (now_ms w). split_and!; [done|done|]. right. destruct (m _ _) as [a' [x|e]]; [by left|done].
  - exists (set_faults fs w), 0%Z. split_and!; [apply app_set_faults|apply faults_set_faults|]. left. eexists. split_and!; [by left|done..].
  - exists (set_faults fs w), (now_ms (set_faults fs w)). split_and!; [apply app_set_faults|apply faults_set_faults|]. right. rewrite app_set_faults.
    destruct (m _ _) as [a' [x|e]]; [by right|done].
  - exists (set_faults fs w), 0%Z. split_and!; [apply app_set_faults|apply faults_set_faults|]. left. eexists. split_and!; [by right|done..].
Qed.

Notation tr := (transaction_result ctx name None).

Lemma body_committed now a row :
  transaction_outputs a !! key = Some row → to_function_name row = name →
  transaction_body serializer tr func now a =
  (a, Ok (inl {| rr_output := to_output row; rr_error := to_error row; rr_child_workflow_id := None; rr_serialization := None |})).
Proof.
  intros Hr Hn. unfold transaction_body, check_transaction_execution, mbind, SM_bind. cbn [tr_workflow_uuid tr_function_id tr_function_name transaction_result].
  unfold tx_key in Hr. rewrite Hr. by rewrite bool_decide_eq_false_2 by (intros Hne; by apply Hne).
Qed.

Lemma body_fresh now a :
  transaction_outputs a !! key = None → a_data a = d0 →
  match r0 with
  | Ok v => ∃ a' row, transaction_body serializer tr func now a = (a', Ok (inr v)) ∧
      transaction_outputs a' !! key = Some row ∧ to_function_name row = name ∧
      reads_as r0 (to_output row) (to_error row) ∧ a_data a' = txn_data func d0
  | Err e => ∃ a', transaction_body serializer tr func now a = (a', Err e)
  end.
Proof.
  intros Hr Hd. unfold transaction_body, check_transaction_execution, mbind, SM_bind. cbn [tr_workflow_uuid tr_function_id tr_function_name transaction_result].
  unfold tx_key in Hr. rewrite Hr. unfold zoom, txn_outcome, txn_data in *. rewrite Hd.
  destruct (func d0) as [d1 [v|e]]; cbn [fst snd is_ok] in *; [|by eexists].
  simpl in final. destruct (serialize_value v None serializer) as [[x n]|] eqn:Hs; [|done].
  destruct (own_serialize_value v x n Hs) as [_ Hread].
  unfold lift_res, record_transaction_output, insert_output, sql_insert. cbn.
  change (transaction_outputs (a <| a_data := d1 |>)) with (transaction_outputs a). rewrite Hr. cbn.
  eexists _, _. split; [done|]. split; [apply lookup_insert_eq|]. split; [done|]. split; [exact Hread|done].
Qed.

Lemma committed_set s w row :
  Fresh s → transaction_outputs (app w) !! key = Some row → to_function_name row = name →
  reads_as r0 (to_output row) (to_error row) → a_data (app w) = txn_data func d0 →
  Committed (s <| m_world := w |>).
Proof.
  intros (Ha & Ho & _) Hr Hn Hread Hd. split_and!; [done|by exists row|done|]. simpl. intros row' Hrow. congruence.
Qed.

Lemma inv_world s w : Inv s → app w = app (m_world s) → Inv (s <| m_world := w |>).
Proof. intros [HF|HC] Hw; [left|right]; unfold Transactions.Fresh, Transactions.Committed in *; simpl; by rewrite Hw. Qed.

Lemma begun_lost s w e :
  Inv s → app w = app (m_world s) → faults w = tail (faults (m_world s)) → lost e → faults (m_world s) ≠ [] →
  begun s w (Err e).
Proof. intros Hs Hw Hfs Hl Hne. split; [by rewrite Hfs; intros ->|]. split; [by apply inv_world|by left]. Qed.

Lemma begin_fresh s :
  Fresh s → ∃ w r, begin_transaction serializer tr func (m_world s) = (w, r) ∧ begun s w r.
Proof.
  intros HF. pose proof HF as (Ha & Ho & Hr & Hd).
  pose proof (λ now, body_fresh now (app (m_world s)) Hr Hd) as Hbody.
  assert (begin_transaction serializer tr func (m_world s) = app_txn (transaction_body serializer tr func) (m_world s)) as ->.
  { unfold begin_transaction. destruct (faults (m_world s)) as [|[[]|] fs]; try done.
    specialize (Hbody (now_ms (m_world s))). by destruct r0; [destruct Hbody as (a' & row & -> & _)|destruct Hbody as (a' & ->)]. }
  destruct (app_txn_cases (transaction_body serializer tr func) (m_world s))
    as (w1 & now & Hw1 & Hfs & [(e & Hl & Hne & ->)|Hcase]); [eexists _, _; split; [done|apply begun_lost; [by left|done..]]|].
  assert (faults (m_world s) = [] → faults w1 = []) as Hq by (rewrite Hfs; by intros ->).
  specialize (Hbody now). unfold begun. destruct r0 as [v|e] eqn:Hr0.
  - destruct Hbody as (a' & row & Hb & Hrow & Hn & Hread & Hdata). rewrite Hb in Hcase. rewrite <- Hr0 in Hread.
    assert (Committed (s <| m_world := set_app a' w1 |>)) as HC
      by (apply (committed_set s _ row); by rewrite ?app_set_app).
    destruct Hcase as [-> | [Hne ->]]; eexists _, _; (split; [done|]); rewrite faults_set_app; (split; [done|]); (split; [by right|]); [done|].
    left. split; [by left|done].
  - destruct Hbody as (a' & Hb). rewrite Hb in Hcase. rewrite Hcase. exists w1, (Err e). split; [done|]. split; [done|].
    assert (Fresh (s <| m_world := w1 |>)) by (unfold Transactions.Fresh; simpl; by rewrite Hw1).
    split; [by left|by right].
Qed.

Lemma begin_committed s :
  Committed s → ∃ w r, begin_transaction serializer tr func (m_world s) = (w, r) ∧ begun s w r.
Proof.
  intros HC. pose proof HC as (Ha & (row & Hrow & Hn & Hread) & Hd & Hck).
  pose proof (λ now, body_committed now (app (m_world s)) row Hrow Hn) as Hbody.
  assert (∀ w1, app w1 = app (m_world s) → Committed (s <| m_world := w1 |>)) as HC'
    by (intros w1 Hw1; unfold Transactions.Committed; simpl; by rewrite Hw1).
  unfold begin_transaction. rewrite Hbody. unfold app_txn.
  destruct (faults (m_world s)) as [|[[]|] fs] eqn:Hfs; rewrite ?Hbody; eexists _, _; (split; [done|]).
  - assert (Committed (s <| m_world := set_app (app (m_world s)) (m_world s) |>)) by (apply HC', app_set_app).
    split; [by rewrite faults_set_app|]. split; [by right|done].
  - apply begun_lost; rewrite ?app_set_faults, ?faults_set_faults, ?Hfs; [by right|done..|by left|done].
  - assert (Committed (s <| m_world := m_world s |>)) by (by apply HC'). split; [done|]. split; [by right|done].
  - apply begun_lost; rewrite ?app_set_faults, ?faults_set_faults, ?Hfs; [by right|done..|by right|done].
Qed.

(** *** The checkpoint *)

Lemma reset_db_same (d : db) r :
  workflow_status d !! wid = Some r →
  ∃ r', workflow_status (reset_db (Some executor_id) wid d) !! wid = Some r' ∧ same_but_executor executor_id r r'.
Proof.
  intros Hr. unfold reset_db, same_but_executor. rewrite Hr. destruct (_ && _); simpl; [rewrite lookup_insert_eq|rewrite Hr];
    eexists; (split; [done|]); [by right|by left].
Qed.

Lemma active_same (d d' : db) :
  active wid d → (∀ r, workflow_status d !! wid = Some r → ∃ r', workflow_status d' !! wid = Some r' ∧ same_but_executor executor_id r r') →
  active wid d'.
Proof.
  intros (r & Hr & Hs) Hsame. destruct (Hsame r Hr) as (r' & Hr' & Hrr). exists r'. split; [done|]. by rewrite (same_but_executor_status executor_id r r').
Qed.

(** The checkpoint of the committed transaction is recorded, or found to be there. *)
Lemma record_committed start o e n s :
  Committed s → reads_as r0 o e → n = None ∨ n = Some (ser_name serializer) →
  ∃ d r, finish (record_result executor_id (transaction_step ctx name start o e n)) s = (s <| m_db := d |>, Some r) ∧
    Committed (s <| m_db := d |>) ∧ (r = Ok tt ∨ r = Err (DBOSWorkflowConflictIDError wid)) ∧
    (operation_outputs (m_db s) !! key = None → r = Ok tt ∧ is_Some (operation_outputs d !! key)).
Proof.
  intros (Ha & Hrow & Hd & Hck) Hread Hn. unfold record_result, database. rewrite finish_act.
  set (result := transaction_step ctx name start o e n). set (t := time_ms (m_world s)).
  assert (or_error result = None ∨ or_output result = None) as Hor.
  { unfold Transactions.reads_as in Hread. destruct r0; simpl; [left|right]; apply Hread. }
  pose proof Ha as (r & Hr & _). rewrite (record_operation_result_eq (Some executor_id) result t (m_db s) r Hr Hor). cbv zeta.
  change (or_workflow_uuid result, or_function_id result) with key. change (key.1) with wid.
  set (d1 := reset_db (Some executor_id) wid (m_db s)).
  assert (active wid d1) as Ha1 by (by eapply active_same; [|apply reset_db_same]).
  assert (operation_outputs d1 = operation_outputs (m_db s)) as Ho1 by apply reset_db_outputs.
  assert (∀ d', active wid d' → operation_outputs d' = operation_outputs (m_db s) → Committed (s <| m_db := d' |>)) as Hsame.
  { intros d' Ha' Ho'. unfold Transactions.Committed. simpl. by rewrite Ho'. }
  destruct (operation_outputs (m_db s) !! key) as [row|] eqn:Ho.
  - destruct (Hck row eq_refl) as (_ & _ & _ & _ & Hc). destruct (oo_completed_at_epoch_ms row); [|done].
    case_bool_decide; eexists _, _; (split; [done|]); (split; [by apply Hsame|]); (split; [|done]); [by right|by left].
  - eexists _, _. split; [done|]. split; [|split; [by left|intros _; split; [done|simpl; rewrite lookup_insert_eq; by eexists]]].
    split; [done|]. split; [done|]. split; [done|]. simpl. intros row. rewrite lookup_insert_eq. by intros [= <-].
Qed.

(** *** The loop *)

Lemma finish_outside_act {A} (m : SM W pyexn A) (s : machine) :
  finish (outside (act m)) s = (s <| m_world := (m (m_world s)).1 |>, Some (m (m_world s)).2).
Proof. unfold outside. rewrite finish_within by (done || by intros []). by rewrite finish_act. Qed.

Lemma always_outside_act {A} (m : SM W pyexn A) (s : machine) (P : machine → Prop) :
  P s → P (s <| m_world := (m (m_world s)).1 |>) → always (outside (act m)) s P.
Proof.
  intros Hs Hm n. unfold outside. rewrite run_for_within by (done || by intros []). rewrite run_for_act.
  destruct n; [|done]. cbn [fst]. by destruct s.
Qed.

Lemma always_bind {A B} (p : process machine A) (k : A → process machine B) s (P : machine → Prop) :
  always p s P → (∀ s1 a, finish p s = (s1, Some (Ok a)) → P s1 → always (k a) s1 P) → always (p ≫= k) s P.
Proof.
  intros Hp Hk. apply always_and_then; [done|]. intros s1 [a|e] Hf HP; [by apply Hk|by apply always_returns].
Qed.

Lemma always_record result s (P : machine → Prop) :
  P s → (∀ d r, finish (record_result executor_id result) s = (s <| m_db := d |>, Some r) → P (s <| m_db := d |>)) →
  always (record_result executor_id result) s P.
Proof.
  intros Hs Hd. unfold record_result, database in *. apply always_act; [done|].
  destruct (record_operation_result _ _ _ _) as [d r] eqn:Hr. apply (Hd d r). rewrite finish_act. by rewrite Hr.
Qed.

Lemma record_keeps start o e n s :
  Committed s → reads_as r0 o e → n = None ∨ n = Some (ser_name serializer) →
  always (record_result executor_id (transaction_step ctx name start o e n)) s Committed.
Proof.
  intros HC Hread Hn. destruct (record_committed start o e n s HC Hread Hn) as (d & r & Hf & HC' & _).
  apply always_record; [done|]. intros d' r' Hf'. rewrite Hf in Hf'. by injection Hf' as <- _.
Qed.

Lemma commit_nothing_keeps s :
  Committed s → ∃ w r, commit_nothing (m_world s) = (w, r) ∧ Committed (s <| m_world := w |>) ∧
    (faults (m_world s) = [] → r = Ok tt) ∧ ∀ e, r = Err e → lost e.
Proof.
  intros HC. unfold commit_nothing.
  assert (∀ w, app w = app (m_world s) → Committed (s <| m_world := w |>)) as HC'
    by (intros w Hw; unfold Transactions.Committed; simpl; by rewrite Hw).
  destruct (app_txn_cases (λ _, mret tt) (m_world s)) as (w1 & now & Hw1 & Hfs & [(e & Hl & Hne & ->)|Hcase]).
  - eexists _, _. split; [done|]. split; [by apply HC'|]. split; [done|]. by intros ? [= <-].
  - simpl in Hcase. destruct Hcase as [-> | [Hne ->]]; eexists _, _; (split; [done|]);
      (split; [by apply HC'; rewrite app_set_app|]); [by split|]. split; [done|]. intros ? [= <-]. by left.
Qed.

Lemma final_error e :
  r0 = Err e → txn_retriable e = false ∧ is_Exception e = true ∧ is_ok (serialize_exception e None serializer) = true ∧
  ∀ P Q : process machine pyval, match e with DBOSUnexpectedStepError _ _ _ _ => P | _ => Q end = Q.
Proof. intros Hr0. rewrite Hr0 in final. simpl in final. destruct e; try done; by destruct final as (? & ? & ?). Qed.

Lemma record_error_app x s w r e :
  r0 = Err e → Fresh s → reads_as r0 None (Some x) →
  record_transaction_error (transaction_result ctx name (Some x)) (m_world s) = (w, r) →
  Inv (s <| m_world := w |>) ∧ (r = Ok tt → Committed (s <| m_world := w |>)) ∧ (faults (m_world s) = [] → r = Ok tt).
Proof.
  intros Hr0 HF Hread. unfold record_transaction_error.
  destruct (app_txn_cases (λ now, insert_output now (transaction_result ctx name (Some x)) None
    (tr_error (transaction_result ctx name (Some x)))) (m_world s)) as (w1 & now & Hw1 & _ & [(e' & _ & Hne & ->)|Hcase]).
  { intros [= <- <-]. split; [apply inv_world; [by left|done]|]. by split. }
  revert Hcase. unfold insert_output, sql_insert. pose proof HF as (Ha & Ho & Hrow & Hd).
  unfold tx_key in Hrow. cbn [tr_workflow_uuid tr_function_id transaction_result]. rewrite Hrow.
  assert (∀ a, a = (app (m_world s)) <| transaction_outputs := <[key := output_row now (transaction_result ctx name (Some x)) None (Some x)]>
            (transaction_outputs (app (m_world s))) |> → Committed (s <| m_world := set_app a w1 |>)) as HC.
  { intros a ->. eapply (committed_set s _ (output_row now (transaction_result ctx name (Some x)) None (Some x))); [done|..|done|done|].
    - rewrite app_set_app. apply lookup_insert_eq.
    - rewrite app_set_app. simpl. rewrite Hd. unfold txn_data, txn_outcome in *. by rewrite Hr0. }
  intros [-> | [Hne ->]] [= <- <-]; (split; [right; by apply HC|]); split; try done; intros _; by apply HC.
Qed.

Lemma record_error_quiet x s e :
  r0 = Err e → Fresh s → reads_as r0 None (Some x) → faults (m_world s) = [] →
  ∃ w, record_transaction_error (transaction_result ctx name (Some x)) (m_world s) = (w, Ok tt) ∧
    Committed (s <| m_world := w |>).
Proof.
  intros Hr0 HF Hread Hq. destruct (record_transaction_error _ _) as [w r] eqn:Hr.
  destruct (record_error_app x s w r e Hr0 HF Hread Hr) as (_ & HC & Hok). rewrite (Hok Hq). exists w. split; [done|]. by apply HC, Hok.
Qed.

(** The record of the error of the function, in the application's database and then as the
    checkpoint. *)
Lemma record_error_keeps start e s :
  r0 = Err e → Fresh s → always (record_txn_error serializer executor_id ctx name start false e) s Inv.
Proof.
  intros Hr0 HF. destruct (final_error e Hr0) as (_ & _ & Hser & _). unfold record_txn_error.
  destruct (serialize_exception e None serializer) as [[x n]|] eqn:Hs; [|done].
  destruct (own_serialize_exception e x n Hs) as [Hn Hread]. rewrite <- Hr0 in Hread. unfold returns. rewrite bind_returns.
  destruct (record_transaction_error (transaction_result ctx name (Some x)) (m_world s)) as [w r] eqn:Hr.
  destruct (record_error_app x s w r e Hr0 HF Hread Hr) as (Hinv & HC & _). apply always_bind.
  { apply always_outside_act; [by left|]. by rewrite Hr. }
  intros s1 [] Hf _. rewrite finish_outside_act, Hr in Hf. injection Hf as <- ->. specialize (HC eq_refl).
  apply always_bind; [eapply always_weaken; [|apply record_keeps; [exact HC|exact Hread|right; by rewrite Hn]]; by right|].
  intros s2 [] _ Hs2. by apply always_returns.
Qed.

Lemma failure_keeps again wait start has_recorded e s :
  Inv s → (∀ s', Inv s' → always again s' Inv) → failure_known s has_recorded e →
  always (handle_failure serializer executor_id again wait ctx name start has_recorded e) s Inv.
Proof.
  intros Hinv Hagain Hknown. unfold handle_failure. destruct (txn_retriable e) eqn:Hretry.
  - apply always_bind.
    + apply always_act; [done|]. simpl. apply inv_world; [done|apply app_sleep].
    + intros s1 a _ Hs1. by apply Hagain.
  - destruct Hknown as [[-> | ->]|[[Hr0 HF]|[[HC ->]| ->]]]; try done.
    + destruct (final_error e Hr0) as (_ & He & _ & Hmatch). rewrite He, Hmatch. unfold record_txn_error at 1.
      destruct has_recorded; [by apply always_returns; left|]. by apply (record_error_keeps start e s).
    + destruct e; try (by apply always_returns); destruct (is_Exception _); by apply always_returns.
    + by apply always_returns.
Qed.

Lemma nonempty_some x : x ≠ "" → nonempty (Some x) = Some x.
Proof. intros Hx. simpl. by rewrite bool_decide_eq_false_2. Qed.

Lemma record_quiet start o e n s :
  Committed s → reads_as r0 o e → n = None ∨ n = Some (ser_name serializer) → operation_outputs (m_db s) !! key = None →
  ∃ d, finish (record_result executor_id (transaction_step ctx name start o e n)) s = (s <| m_db := d |>, Some (Ok tt)) ∧
    Committed (s <| m_db := d |>) ∧ checkpoint_there (s <| m_db := d |>).
Proof.
  intros HC Hread Hn Ho. destruct (record_committed start o e n s HC Hread Hn) as (d & r & Hf & HC' & _ & Hnew).
  destruct (Hnew Ho) as [-> Hsome]. by exists d.
Qed.

Lemma replay_keeps start rr s :
  Committed s → rr_serialization rr = None → reads_as r0 (rr_output rr) (rr_error rr) →
  always (replay_output serializer executor_id ctx name start rr) s Committed ∧
  (∀ s1 e, finish (replay_output serializer executor_id ctx name start rr) s = (s1, Some (Err e)) →
    lost e ∨ e = DBOSWorkflowConflictIDError wid) ∧
  (faults (m_world s) = [] → operation_outputs (m_db s) !! key = None →
    ∃ s1, finish (replay_output serializer executor_id ctx name start rr) s =
      (s1, Some (Ok match r0 with Ok v => inl v | Err e => inr e end)) ∧ Committed s1 ∧ checkpoint_there s1).
Proof.
  intros HC Hn Hread. pose proof Hread as Hread'. unfold replay_output. rewrite Hn. destruct r0 as [v|e] eqn:Hr0 in Hread' |- *.
  - destruct Hread' as [Herr (x & Hx & Hne & Hback)]. rewrite Herr, Hx, (nonempty_some x Hne). simpl (nonempty None). cbv iota.
    rewrite Herr, Hx in Hread. unfold returns. rewrite (Hback None) by (by left). split_and!.
    + apply always_bind; [by apply record_keeps; [..|left]|]. intros s1 [] _ HC1. rewrite bind_returns.
      destruct (commit_nothing_keeps s1 HC1) as (w & r & Hw & HC2 & _). apply always_bind.
      * apply always_outside_act; [done|]. by rewrite Hw.
      * intros s2 [] _ HC3. by apply always_returns.
    + intros s1 e. unfold mbind at 1, process_bind at 1. rewrite finish_and_then.
      destruct (record_committed start (Some x) None None s HC Hread (or_introl eq_refl)) as (d & r & -> & HC1 & [-> | ->] & _);
        [|intros [= _ <-]; by right].
      rewrite bind_returns. unfold mbind, process_bind. rewrite finish_and_then, finish_outside_act.
      destruct (commit_nothing_keeps _ HC1) as (w & r & -> & _ & _ & Hlost). cbn [fst snd]. destruct r as [[]|e']; [done|].
      intros [= _ <-]. left. by apply Hlost.
    + intros Hq Ho. destruct (record_quiet start (Some x) None None s HC Hread (or_introl eq_refl) Ho) as (d & Hf & HC1 & Hck).
      unfold mbind at 1, process_bind at 1. rewrite finish_and_then, Hf, bind_returns.
      unfold mbind, process_bind. rewrite finish_and_then, finish_outside_act.
      destruct (commit_nothing_keeps _ HC1) as (w & r & -> & HC2 & Hok & _). rewrite (Hok Hq). cbn [fst snd]. eexists. split; [done|]. by split.
  - destruct Hread' as [Hout (x & Hx & Hne & Hback)]. rewrite Hx, (nonempty_some x Hne).
    rewrite Hout, Hx in Hread. unfold returns. rewrite (Hback None) by (by left). rewrite bind_returns. split_and!.
    + apply always_and_then; [by apply record_keeps; [..|left]|]. intros s1 [[]|e'] _ HC1; by apply always_returns.
    + intros s1 e'. rewrite finish_and_then. destruct (finish (record_result _ _) s) as [s2 [[[]|e2]|]]; done.
    + intros Hq Ho. destruct (record_quiet start None (Some x) None s HC Hread (or_introl eq_refl) Ho) as (d & Hf & HC1 & Hck).
      rewrite finish_and_then, Hf. by eexists.
Qed.

(** Every execution of the loop keeps to what the transaction may be. *)
Lemma loop_keeps tries wait start s :
  Inv s → always (transaction_loop serializer executor_id tries wait ctx name start func) s Inv.
Proof.
  revert wait s. induction tries as [|tries IH]; intros wait s Hinv; [by intros n; destruct n|].
  cbn [transaction_loop]. 
  assert (∃ w r, begin_transaction serializer tr func (m_world s) = (w, r) ∧ begun s w r) as (w & r & Hb & _ & Hinv1 & Hr)
    by (destruct Hinv; [by apply begin_fresh|by apply begin_committed]).
  apply always_and_then; [apply always_outside_act; [done|by rewrite Hb]|].
  intros s1 r1 Hf _. rewrite finish_outside_act, Hb in Hf. injection Hf as <- <-.
  destruct r as [[rr|v]|e].
  - destruct Hr as (HC & Hn & Hread). destruct (replay_keeps start rr _ HC Hn Hread) as (Hk & Herr & _).
    apply always_and_then; [eapply always_weaken; [|exact Hk]; by right|].
    intros s2 r2 Hf _. pose proof (always_finish _ _ _ _ _ Hk Hf) as HC2.
    destruct r2 as [[v|e]|e]; [by apply always_returns; right|..]; (apply failure_keeps; [by right|intros; by apply IH|]).
    + right. right. by left.
    + destruct (Herr s2 e Hf) as [Hl|Hc]; [by left|by do 3 right].
  - destruct Hr as (Hr0 & HC). pose proof final as Hfin. rewrite Hr0 in Hfin. simpl in Hfin.
    destruct (serialize_value v None serializer) as [[x n]|] eqn:Hs; [|done]. unfold returns. rewrite bind_returns.
    destruct (own_serialize_value v x n Hs) as [Hn Hread]. rewrite <- Hr0 in Hread.
    apply always_bind; [eapply always_weaken; [|apply record_keeps; [exact HC|exact Hread|right; by rewrite Hn]]; by right|].
    intros s2 [] _ Hs2. by apply always_returns.
  - apply failure_keeps; [done|intros; by apply IH|]. destruct Hr as [[Hl _]|Hr]; [by left|right; by left].
Qed.

Lemma invoke_keeps tries s :
  Inv s → always (invoke_tx serializer executor_id tries ctx name func) s Inv.
Proof.
  intros Hinv. unfold invoke_tx. apply always_bind.
  { apply always_act; [done|]. rewrite check_operation_execution_eq. by rewrite machine_same_db. }
  intros s1 [rr|] _ Hs1.
  - destruct (nonempty (rr_error rr)); [|destruct (nonempty (rr_output rr)); by apply always_returns].
    unfold returns. destruct (deserialize_exception _ _ _); by apply always_returns.
  - apply always_bind; [by apply always_act|]. intros s2 start _ Hs2. by apply loop_keeps.
Qed.

(** *** An execution that meets no fault *)

Lemma loop_quiet tries wait start s :
  Inv s → faults (m_world s) = [] → operation_outputs (m_db s) !! key = None →
  ∃ s', finish (transaction_loop serializer executor_id (S tries) wait ctx name start func) s = (s', Some r0) ∧
    Committed s' ∧ checkpoint_there s'.
Proof.
  intros Hinv Hq Ho. cbn [transaction_loop].
  assert (∃ w r, begin_transaction serializer tr func (m_world s) = (w, r) ∧ begun s w r) as (w & r & Hb & Hq1 & _ & Hr)
    by (destruct Hinv; [by apply begin_fresh|by apply begin_committed]).
  specialize (Hq1 Hq). rewrite finish_and_then, finish_outside_act, Hb. cbn [fst snd].
  destruct r as [[rr|v]|e].
  - destruct Hr as (HC & Hn & Hread). destruct (replay_keeps start rr _ HC Hn Hread) as (_ & _ & Hfin).
    destruct (Hfin Hq1 Ho) as (s1 & Hf & HC1 & Hck). rewrite finish_and_then, Hf. destruct r0 as [v|e] eqn:Hr0 in |- *; [by exists s1|].
    destruct (final_error e Hr0) as (Hretry & He & _ & Hmatch). unfold handle_failure. rewrite Hretry, He, Hmatch. by exists s1.
  - destruct Hr as (Hr0 & HC). pose proof final as Hfinal. rewrite Hr0 in Hfinal. simpl in Hfinal.
    destruct (serialize_value v None serializer) as [[x n]|] eqn:Hs; [|done]. unfold returns. rewrite bind_returns.
    destruct (own_serialize_value v x n Hs) as [Hn Hread]. rewrite <- Hr0 in Hread.
    destruct (record_quiet start (Some x) None (Some n) _ HC Hread ltac:(right; by rewrite Hn) Ho) as (d & Hf & HC1 & Hck).
    unfold mbind, process_bind. rewrite finish_and_then, Hf, Hr0. by eexists.
  - destruct Hr as [[_ Hne]|[Hr0 HF]]; [done|]. destruct (final_error e Hr0) as (Hretry & He & Hser & Hmatch).
    unfold handle_failure. rewrite Hretry, He, Hmatch. unfold record_txn_error.
    destruct (serialize_exception e None serializer) as [[x n]|] eqn:Hs; [|done].
    destruct (own_serialize_exception e x n Hs) as [Hn Hread]. rewrite <- Hr0 in Hread. unfold returns. rewrite bind_returns.
    unfold mbind at 1, process_bind at 1. rewrite finish_and_then, finish_outside_act.
    set (s1 := s <| m_world := w |>) in *. destruct (record_error_quiet x s1 e Hr0 HF Hread Hq1) as (w2 & Hw2 & HC2).
    rewrite Hw2. cbn [fst snd]. set (s2 := s1 <| m_world := w2 |>) in *.
    destruct (record_quiet start None (Some x) (Some n) s2 HC2 Hread ltac:(right; by rewrite Hn) Ho) as (d & Hf & HC3 & Hck).
    unfold mbind, process_bind. rewrite finish_and_then, Hf, Hr0. by eexists.
Qed.

Lemma committed_replays tries s :
  Committed s → checkpoint_there s →
  finish (invoke_tx serializer executor_id tries ctx name func) s = (s, Some r0).
Proof.
  intros HC [row Ho]. unfold invoke_tx, mbind, process_bind. rewrite finish_and_then. unfold database.
  rewrite finish_act, check_operation_execution_eq, machine_same_db. cbn [fst snd].
  pose proof HC as ((r & Hr & Hs) & _ & _ & Hck). destruct (Hck row Ho) as (Hn & Hchild & Hser & Hread & _).
  rewrite (check_result_kept _ _ name (m_db s) (m_db s) row); [|split; [done|by exists r]|done|done].
  cbn [rr_error rr_output rr_child_workflow_id rr_serialization]. rewrite Hchild. unfold Transactions.reads_as in Hread.
  destruct r0 as [v|e]; destruct Hread as [Hx1 (x & Hx2 & Hne & Hback)]; rewrite Hx1, Hx2, (nonempty_some x Hne); unfold returns.
  - simpl (nonempty None). by rewrite (Hback None) by (by left).
  - by rewrite (Hback _ Hser).
Qed.

Lemma invoke_quiet tries s :
  Inv s → faults (m_world s) = [] →
  ∃ s', finish (invoke_tx serializer executor_id (S tries) ctx name func) s = (s', Some r0) ∧
    Committed s' ∧ checkpoint_there s'.
Proof.
  intros Hinv Hq. destruct (operation_outputs (m_db s) !! key) as [row|] eqn:Ho.
  { assert (Committed s) as HC by (destruct Hinv as [(_ & Hno & _)|HC]; [congruence|done]).
    exists s. split; [apply committed_replays; [done|by exists row]|]. split; [done|by exists row]. }
  unfold invoke_tx, mbind, process_bind. rewrite finish_and_then. unfold database.
  rewrite finish_act, check_operation_execution_eq, machine_same_db. cbn [fst snd].
  assert (active wid (m_db s)) as (r & Hr & Hs) by (by destruct Hinv as [(? & _)|(? & _)]).
  assert (check_result (m_db s) wid (cx_function_id ctx) name = Ok None) as ->.
  { unfold check_result. unfold tx_key in Ho. by rewrite Hr, bool_decide_eq_false_2, Ho. }
  rewrite finish_and_then, finish_act. by apply loop_quiet.
Qed.

Lemma inv_crash s d w :
  Inv s → undisturbed wid (m_db s) d → app w = app (m_world s) → Inv (crash (s <| m_db := d |> <| m_world := w |>)).
Proof.
  intros Hinv [Hr Ho] Hw.
  destruct Hinv as [HF|HC]; [left|right]; unfold Transactions.Fresh, Transactions.Committed, active, tx_key in *; simpl;
    by rewrite Hw, Hr, Ho.
Qed.

Lemma inv_interrupted tries s s' :
  interrupted wid (invoke_tx serializer executor_id tries ctx name func) s s' → Inv s → Inv s'.
Proof.
  induction 1 as [s|s n s1 d w s' -> Hd Hw _ IH]; [done|]. intros Hinv. apply IH, inv_crash; [by apply invoke_keeps|done..].
Qed.

End exactly_once.

(** ** Properties *)

(** C3: a transaction takes effect exactly once. However often its call is lost with its
    machine, after any number of actions, and whatever faults its connections meet on the
    way (lost before or after a commit, serialization failures), an execution that meets no
    fault returns the outcome of the user's function on the data as it was, the data has
    the effects of one run of it (none, if it raised), and a further execution answers the
    same and changes nothing. *)
Theorem transaction_exactly_once {W D : Type} `{AppHost W D, !AppHostLaws W D, Codecs, !CodecLaws}
    (serializer : Serializer) (executor_id name : string) (tries : nat) (func : SM D pyexn pyval)
    (temp_workflow : process (machine (W:=W)) pyval) (ctx : DBOSContext) (s0 s : machine (W:=W)) :
  honest_name serializer → round_trips serializer → ser_name serializer ≠ ser_name DBOSPortableJSON →
  (∀ v x, ser_serialize serializer v = Ok x → x ≠ "") →
  let call := (transaction serializer executor_id name None None (S tries) func temp_workflow ctx).2 in
  let key := (cx_workflow_id ctx, (cx_function_id ctx + 1)%Z) in
  let d0 := a_data (app (m_world s0)) in
  is_workflow ctx = true → active (cx_workflow_id ctx) (m_db s0) →
  operation_outputs (m_db s0) !! key = None → transaction_outputs (app (m_world s0)) !! key = None →
  txn_final serializer (txn_outcome func d0) →
  interrupted (cx_workflow_id ctx) call s0 s → faults (m_world s) = [] →
  ∃ s', finish call s = (s', Some (txn_outcome func d0)) ∧ a_data (app (m_world s')) = txn_data func d0 ∧
    finish call s' = (s', Some (txn_outcome func d0)).
Proof.
  intros Hn Hrt Hport Hne call key d0 Hw Ha Ho Ht Hfinal Hint Hq.
  set (ctx' := start_transaction (cx_function_id ctx + 1)%Z (ctx <| cx_function_id := (cx_function_id ctx + 1)%Z |>)).
  assert (call = invoke_tx serializer executor_id (S tries) ctx' name func) as Hcall.
  { unfold call, transaction, check_required_roles. rewrite Hw. unfold is_workflow in Hw. unfold is_within_workflow.
    apply andb_true_iff in Hw as [Hw _]. apply andb_true_iff in Hw as [-> _]. done. }
  rewrite Hcall in *. assert (txn_inv serializer ctx' name func d0 s0) as Hinv by (by left).
  pose proof (inv_interrupted serializer executor_id Hn Hrt Hport Hne ctx' name func d0 Hfinal (S tries) s0 s Hint Hinv) as Hinv'.
  destruct (invoke_quiet serializer executor_id Hn Hrt Hport Hne ctx' name func d0 Hfinal tries s Hinv' Hq) as (s' & Hf & HC & Hck).
  exists s'. split_and!; [done|apply HC|]. by apply committed_replays.
Qed.

(** A replay that conflicts with itself. The call was lost between the commit of its
    transaction and its checkpoint; the replay finds the record, leaves the checkpoint, and
    loses its connection at the commit of the transaction it only read in: it is tried
    again, finds its own checkpoint, of another time, and raises the conflict of a duplicate
    execution, on which the workflow waits for a result that nobody else computes. *)
Lemma replayed_transaction_conflicts_with_itself :
  let lost := crash (run_for 3 deposit_call (bank_machine [])).1 in
  let s := lost <| m_world := set_faults [AppLost LostAfter] (m_world lost) |> in
  let r := finish deposit_call s in
  operation_outputs (m_db lost) !! ("w", 1%Z) = None ∧ a_data (app (m_world lost)) = 110%Z ∧
  r.2 = Some (Err (DBOSWorkflowConflictIDError "w")) ∧ is_Some (operation_outputs (m_db r.1) !! ("w", 1%Z)) ∧
  a_data (app (m_world r.1)) = 110%Z.
Proof.
  split; [vm_compute; reflexivity|]. split; [vm_compute; reflexivity|]. split; [vm_compute; reflexivity|].
  split; [eexists; vm_compute; reflexivity|vm_compute; reflexivity].
Qed.

Lemma sample_nonblank v x : ser_serialize sample_serializer v = Ok x → x ≠ "".
Proof.
  assert (∀ p, digits p ≠ "") as Hd by (by intros []).
  intros Hx. destruct v as [| | | |t| | | | | | | |e|]; try discriminate Hx.
  - injection Hx as <-. apply Hd.
  - destruct e; try discriminate Hx. injection Hx as <-. apply Hd.
Qed.

(** The machine dies after the commit of the deposit; the connection of the next execution
    is lost before it begins, and that machine dies too. *)
Lemma transaction_exactly_once_witness :
  let s1 := (run_for 3 deposit_call (bank_machine [])).1 in
  let s2 := crash (s1 <| m_db := m_db s1 |> <| m_world := set_faults [AppLost LostBefore] (m_world s1) |>) in
  let s3 := (run_for 5 deposit_call s2).1 in
  let s := crash (s3 <| m_db := m_db s3 |> <| m_world := m_world s3 |>) in
  ∃ s', finish deposit_call s = (s', Some (Ok (PStr "deposited"))) ∧ a_data (app (m_world s')) = 110%Z.
Proof.
  intros s1 s2 s3 s.
  destruct (@transaction_exactly_once bank Z _ _ _ sample_codecs sample_laws sample_serializer "exec" "deposit" 3 deposit Waits
    bank_ctx (bank_machine []) s sample_honest sample_reads_back ltac:(discriminate) sample_nonblank eq_refl
    ltac:(eexists; split; [reflexivity|discriminate]) eq_refl eq_refl eq_refl) as (s' & Hf & Hd & _).
  - eapply (interrupted_again _ _ _ 3 s1 (m_db s1) (set_faults [AppLost LostBefore] (m_world s1))); [reflexivity|by split|reflexivity|].
    eapply (interrupted_again _ _ _ 5 s3 (m_db s3) (m_world s3)); [reflexivity|by split|reflexivity|]. constructor.
  - vm_compute. reflexivity.
  - exists s'. split; [exact Hf|exact Hd].
Defined.
