(* ===== verification/Collection.v ===== *)
(** * Garbage collection: [dbos/_workflow_commands.py], [dbos/_sys_db.py], [dbos/_app_db.py]

    Old rows are deleted from the two databases, in batches that each commit by themselves.
    [Collectable] is what the batches need of a store: the times of its rows that may go,
    and their deletion; both databases provide it. *)
From S2P Require Import Prelude Errors Schema Retry Serialization Workflows Context Steps Queues Process Execution Durability Transactions.
Open Scope Z_scope.

(** Rows that may be deleted: the times they were created at, and the deletion of those
    whose time is in a range. *)
Class Collectable (S : Type) := {
  times : S → list Z;
  delete_times : (Z → bool) → S → S;
}.

Class CollectableLaws (S : Type) `{Collectable S} := {
  times_delete f s : times (delete_times f s) ≡ₚ filter (λ z, f z = false) (times s);
  delete_delete f g s : delete_times f (delete_times g s) = delete_times (λ z, g z || f z) s;
  delete_ext f g s : (∀ z, f z = g z) → delete_times f s = delete_times g s;
}.

Section batches.
Context {S : Type} `{Collectable S}.

(** [SELECT created_at ... WHERE created_at > watermark ORDER BY created_at LIMIT 1 OFFSET
    batch_size - 1] *)
Definition batch_end (batch_size watermark : Z) (s : S) : option Z :=
  sql_order_by Z.leb (filter (λ z, watermark < z) (times s)) !! Z.to_nat (batch_size - 1).

(** The loop of the batches; [None] when the fuel ends first. *)
Fixpoint collect_batches (fuel : nat) (batch_size watermark : Z) (s : S) : option S :=
  match fuel with
  | O => None
  | Datatypes.S fuel' =>
      match batch_end batch_size watermark s with
      | None => Some (delete_times (λ _, true) s)
      | Some step =>
          collect_batches fuel' batch_size step
            (delete_times (λ z, bool_decide (watermark < z) && bool_decide (z ≤ step)) s)
      end
  end.

(** One statement, or batches. *)
Definition collect (fuel : nat) (batch_size : option Z) (s : S) : option S :=
  match batch_size with
  | None => Some (delete_times (λ _, true) s)
  | Some b => collect_batches fuel b 0 s
  end.

End batches.

Definition batch_size_error (batch_size : option Z) : option pyexn :=
  match batch_size with
  | Some b => if bool_decide (b < 1)
              then Some (ValueError ("batch_size must be a positive integer, got " +:+ pretty.pretty b)) else None
  | None => None
  end.

(** ** The system database *)

(** [gc_filter] *)
Definition gc_filter (cutoff : Z) (r : workflow_status_row) : bool :=
  bool_decide (ws_created_at r < cutoff) && negb (bool_decide (ws_status r ∈ [PENDING; ENQUEUED; DELAYED])).

(** The workflows that may go by a cutoff. *)
Definition sys_collectable (cutoff : Z) : Collectable db := {|
  times d := (λ kr, ws_created_at kr.2) <$> sql_select (λ _ r, gc_filter cutoff r) (workflow_status d);
  delete_times f := delete_workflow_rows (λ _ r, gc_filter cutoff r && f (ws_created_at r));
|}.

(** The cutoff that keeps the [rows_threshold] newest rows, or the given one if it is later;
    a negative offset is refused. *)
Definition gc_cutoff (cutoff rows_threshold : option Z) (d : db) : res pyexn (option Z) :=
  match rows_threshold with
  | None => Ok cutoff
  | Some n =>
      if bool_decide (n - 1 < 0) then Err (DBAPIError false None "OFFSET must not be negative")
      else
        match sql_order_by (λ x y, Z.leb y x) ((λ kr, ws_created_at kr.2) <$> map_to_list (workflow_status d))
                !! Z.to_nat (n - 1) with
        | None => Ok cutoff
        | Some rows_based =>
            match cutoff with
            | None => Ok (Some rows_based)
            | Some c => Ok (Some (if bool_decide (c < rows_based) then rows_based else c))
            end
        end
  end.

(** [SystemDatabase.garbage_collect]: the cutoff, and the old workflows that remain. *)
Definition sys_garbage_collect (fuel : nat) (cutoff rows_threshold batch_size : option Z) (d : db) :
    option (db * res pyexn (option (Z * list string))) :=
  match batch_size_error batch_size with
  | Some e => Some (d, Err e)
  | None =>
      match gc_cutoff cutoff rows_threshold d with
      | Err e => Some (d, Err e)
      | Ok None => Some (d, Ok None)
      | Ok (Some c) =>
          match collect (S := db) (H := sys_collectable c) fuel batch_size d with
          | None => None
          | Some d' => Some (d', Ok (Some (c, (sql_select (λ _ r, bool_decide (ws_created_at r < c)) (workflow_status d')).*1)))
          end
      end
  end.

(** ** The application's database *)

Section app_db.
Context {D : Type}.

Definition gc_conditions (cutoff : Z) (pending_workflow_ids : list string) (k : string * Z) (r : transaction_outputs_row) : bool :=
  bool_decide (to_created_at r < cutoff) && negb (bool_decide (k.1 ∈ pending_workflow_ids)).

Definition app_collectable (cutoff : Z) (pending_workflow_ids : list string) : Collectable (app_db D) := {|
  times a := (λ kr, to_created_at kr.2) <$> sql_select (gc_conditions cutoff pending_workflow_ids) (transaction_outputs a);
  delete_times f a := a <| transaction_outputs :=
    sql_delete (λ k r, gc_conditions cutoff pending_workflow_ids k r && f (to_created_at r)) (transaction_outputs a) |>;
|}.

(** [ApplicationDatabase.garbage_collect] *)
Definition app_garbage_collect (fuel : nat) (cutoff : Z) (pending_workflow_ids : list string) (batch_size : option Z)
    (a : app_db D) : option (app_db D * res pyexn unit) :=
  match batch_size_error batch_size with
  | Some e => Some (a, Err e)
  | None =>
      match collect (S := app_db D) (H := app_collectable cutoff pending_workflow_ids) fuel batch_size a with
      | None => None
      | Some a' => Some (a', Ok tt)
      end
  end.

Definition delete_transaction_outputs (workflow_ids : list string) (a : app_db D) : app_db D :=
  a <| transaction_outputs := sql_delete (λ k _, bool_decide (k.1 ∈ workflow_ids)) (transaction_outputs a) |>.

(** [garbage_collect] of [dbos/_workflow_commands.py]; the application may have no database
    of its own. *)
Definition garbage_collect (fuel : nat) (cutoff rows_threshold batch_size : option Z) (s : db * option (app_db D)) :
    option (db * option (app_db D) * res pyexn unit) :=
  let '(d, app) := s in
  match cutoff, rows_threshold with
  | None, None => Some (s, Ok tt)
  | _, _ =>
      match sys_garbage_collect fuel cutoff rows_threshold batch_size d with
      | None => None
      | Some (d', Err e) => Some ((d', app), Err e)
      | Some (d', Ok None) => Some ((d', app), Ok tt)
      | Some (d', Ok (Some (c, pending_workflow_ids))) =>
          match app with
          | None => Some ((d', None), Ok tt)
          | Some a =>
              match app_garbage_collect fuel c pending_workflow_ids batch_size a with
              | None => None
              | Some (a', r) => Some ((d', Some a'), r)
              end
          end
      end
  end.

End app_db.

(** A workflow that is not over. *)
Definition running_status (r : workflow_status_row) : bool := bool_decide (ws_status r ∈ [PENDING; ENQUEUED; DELAYED]).

(** The workflows created after [r]. *)
Definition newer (r : workflow_status_row) (d : db) : list (string * workflow_status_row) :=
  sql_select (λ _ r', bool_decide (ws_created_at r < ws_created_at r')) (workflow_status d).

(** A workflow that neither the cutoff nor the threshold of a collection reaches. *)
Definition out_of_reach (cutoff rows_threshold : option Z) (r : workflow_status_row) (d : db) : Prop :=
  (∀ c, cutoff = Some c → c ≤ ws_created_at r) ∧ (∀ n, rows_threshold = Some n → Z.of_nat (length (newer r d)) < n).

(** A sample: three old workflows, of which one runs. *)
Definition old_rows : db :=
  sample_db [("a", (sample_row "a" SUCCESS) <| ws_created_at := 1 |>); ("b", (sample_row "b" PENDING) <| ws_created_at := 2 |>);
             ("c", (sample_row "c" ERROR) <| ws_created_at := 3 |>); ("d", (sample_row "d" SUCCESS) <| ws_created_at := 9 |>)].

Definition old_output (name : string) (time : Z) : transaction_outputs_row := {|
  to_output := Some "x"; to_error := None; to_txn_id := None; to_txn_snapshot := ""; to_executor_id := None;
  to_function_name := name; to_created_at := time;
|}.

Definition old_app : app_db Z := AppDB 0 {[("a", 1) := old_output "t" 1; ("b", 1) := old_output "t" 3]}.

(** ** Lemmas *)

Section batches_lemmas.
Context {S : Type} `{CollectableLaws S}.

Lemma batch_end_spec b w (s : S) step : batch_end b w s = Some step → step ∈ times s ∧ w < step.
Proof.
  unfold batch_end. intros Hl%list_elem_of_lookup_2. apply elem_of_sql_order_by in Hl.
  apply list_elem_of_filter in Hl as [Hw Hin]. by split.
Qed.

(** The batches come to their end, and to the single statement. *)
Lemma collect_batches_all fuel b w (s : S) :
  (length (times s) < fuel)%nat → collect_batches fuel b w s = Some (delete_times (λ _, true) s).
Proof.
  revert w s. induction fuel as [|fuel IH]; intros w s Hfuel; [lia|]. cbn [collect_batches].
  destruct (batch_end b w s) as [step|] eqn:Hstep; [|done].
  apply batch_end_spec in Hstep as [Hin Hw].
  set (f := λ z, bool_decide (w < z) && bool_decide (z ≤ step)).
  rewrite IH.
  - f_equal. rewrite delete_delete. apply delete_ext. intros z. by rewrite orb_true_r.
  - rewrite times_delete.
    assert (length (filter (λ z, f z = false) (times s)) < length (times s))%nat; [|lia].
    apply length_filter_lt with step; [done|]. unfold f. rewrite !bool_decide_eq_true_2 by lia. done.
Qed.

(** Whatever the fuel, what the batches leave is what the single statement leaves. *)
Lemma collect_batches_some fuel b w (s s' : S) :
  collect_batches fuel b w s = Some s' → s' = delete_times (λ _, true) s.
Proof.
  revert w s. induction fuel as [|fuel IH]; intros w s; [done|]. cbn [collect_batches].
  destruct (batch_end b w s) as [step|]; [|by intros [= <-]]. intros Hc. rewrite (IH _ _ Hc), delete_delete.
  apply delete_ext. intros z. by rewrite orb_true_r.
Qed.

Lemma collect_all fuel batch_size (s : S) :
  (length (times s) < fuel)%nat → collect fuel batch_size s = Some (delete_times (λ _, true) s).
Proof. intros Hf. destruct batch_size; [by apply collect_batches_all|done]. Qed.

Lemma collect_some fuel batch_size (s s' : S) : collect fuel batch_size s = Some s' → s' = delete_times (λ _, true) s.
Proof. destruct batch_size; [apply collect_batches_some|by intros [= <-]]. Qed.

End batches_lemmas.

(** *** The rows of a table that a condition selects, after a deletion of some of them *)
Section table_batches.
Context `{Countable K} {R : Type} (p : K → R → bool) (time : R → Z).

Lemma select_delete (f : Z → bool) (t : gmap K R) :
  (λ kr, time kr.2) <$> sql_select p (sql_delete (λ k r, p k r && f (time r)) t) ≡ₚ
  filter (λ z, f z = false) ((λ kr, time kr.2) <$> sql_select p t).
Proof.
  assert (∀ l : list (K * R), filter (λ z, f z = false) ((λ kr, time kr.2) <$> l) =
            (λ kr, time kr.2) <$> filter (λ kr, f (time kr.2) = false) l) as ->.
  { induction l as [|kr l IH]; [done|]. rewrite fmap_cons, !filter_cons. by repeat case_decide; rewrite ?fmap_cons, ?IH. }
  apply fmap_Permutation, NoDup_Permutation.
  - eapply NoDup_fmap_1, NoDup_sql_select_keys.
  - apply NoDup_filter. eapply NoDup_fmap_1, NoDup_sql_select_keys.
  - intros [k r]. rewrite list_elem_of_filter, !elem_of_sql_select, lookup_sql_delete, bind_Some. simpl. split.
    + intros [(r' & Hr & Hd) Hp]. destruct (p k r' && f (time r')) eqn:Hpf; [done|]. injection Hd as ->.
      rewrite Hp in Hpf. by split.
    + intros [Hf [Hr Hp]]. split; [|done]. exists r. by rewrite Hp, Hf.
Qed.

Lemma delete_select_delete (f g : Z → bool) (t : gmap K R) :
  sql_delete (λ k r, p k r && f (time r)) (sql_delete (λ k r, p k r && g (time r)) t) =
  sql_delete (λ k r, p k r && (g (time r) || f (time r))) t.
Proof.
  apply map_eq. intros k. rewrite !lookup_sql_delete. destruct (t !! k) as [r|]; simpl; [|done].
  destruct (p k r) eqn:Hp, (g (time r)); simpl; by rewrite ?Hp.
Qed.

Lemma sql_delete_ext (q q' : K → R → bool) (t : gmap K R) :
  (∀ k r, q k r = q' k r) → sql_delete q t = sql_delete q' t.
Proof. intros Hq. apply map_eq. intros k. rewrite !lookup_sql_delete. destruct (t !! k); simpl; by rewrite ?Hq. Qed.

End table_batches.

#[local] Existing Instance app_collectable.
#[local] Existing Instance sys_collectable.

Lemma app_collectable_laws {D} cutoff ids : @CollectableLaws (app_db D) (app_collectable cutoff ids).
Proof.
  split.
  - intros f a. apply (select_delete (gc_conditions cutoff ids) to_created_at).
  - intros f g a. unfold delete_times, app_collectable. destruct a as [x t]. cbn.
    exact (f_equal (AppDB x) (delete_select_delete (gc_conditions cutoff ids) to_created_at f g t)).
  - intros f g [x t] Hfg. refine (f_equal (AppDB x) (sql_delete_ext _ _ t _)). intros k r. by rewrite Hfg.
Qed.

Lemma child_delete_twice `{Countable K} {R} (q q' q2 : K → R → bool) (t : gmap K R) :
  (∀ k r, q k r || q' k r = q2 k r) → sql_delete q' (sql_delete q t) = sql_delete q2 t.
Proof.
  intros Hq. apply map_eq. intros k. rewrite !lookup_sql_delete. destruct (t !! k) as [r|]; simpl; [|done].
  rewrite <- Hq. by destruct (q k r).
Qed.

Lemma delete_workflow_rows_ext (q q' : string → workflow_status_row → bool) d :
  (∀ id r, q id r = q' id r) → delete_workflow_rows q d = delete_workflow_rows q' d.
Proof.
  intros Hq. assert (∀ id, (match workflow_status d !! id with Some r => q id r | None => false end) =
    match workflow_status d !! id with Some r => q' id r | None => false end) as Hgone
    by (intros id; destruct (workflow_status d !! id); [apply Hq|done]).
  unfold delete_workflow_rows. f_equal; apply sql_delete_ext; intros; rewrite ?Hgone; auto.
Qed.

(** Two deletions of workflows, with all that belongs to them, are one. *)
Lemma delete_workflow_rows_twice (q q' : string → workflow_status_row → bool) d :
  delete_workflow_rows q' (delete_workflow_rows q d) = delete_workflow_rows (λ id r, q id r || q' id r) d.
Proof.
  unfold delete_workflow_rows. cbn.
  assert (∀ id, (match sql_delete q (workflow_status d) !! id with Some r => q' id r | None => false end) =
            match workflow_status d !! id with Some r => negb (q id r) && q' id r | None => false end) as Hgone.
  { intros id. rewrite lookup_sql_delete. destruct (workflow_status d !! id) as [r|]; simpl; [|done]. by destruct (q id r). }
  assert (∀ id, (match workflow_status d !! id with Some r => q id r | None => false end) ||
                match sql_delete q (workflow_status d) !! id with Some r => q' id r | None => false end =
            match workflow_status d !! id with Some r => q id r || q' id r | None => false end) as Hor.
  { intros id. rewrite Hgone. destruct (workflow_status d !! id) as [r|]; [|done]. by destruct (q id r). }
  f_equal; [|apply child_delete_twice; intros; apply Hor..].
  apply map_eq. intros k. rewrite !lookup_sql_delete. destruct (workflow_status d !! k) as [r|]; simpl; [|done].
  by destruct (q k r); simpl; destruct (q' k r).
Qed.

Lemma sys_collectable_laws cutoff : @CollectableLaws db (sys_collectable cutoff).
Proof.
  split.
  - intros f d. apply (select_delete (λ _, gc_filter cutoff) ws_created_at).
  - intros f g d. unfold delete_times, sys_collectable. rewrite delete_workflow_rows_twice.
    apply delete_workflow_rows_ext. intros id r. by destruct (gc_filter cutoff r).
  - intros f g d Hfg. apply delete_workflow_rows_ext. intros id r. by rewrite Hfg.
Qed.

Lemma select_length `{Countable K} {R} (p : K → R → bool) (t : gmap K R) : (length (sql_select p t) ≤ size t)%nat.
Proof. unfold sql_select. rewrite <- length_map_to_list. apply sublist_length, sublist_filter. Qed.

Lemma batch_size_error_positive b : 1 ≤ b → batch_size_error (Some b) = None.
Proof. intros Hb. simpl. by rewrite bool_decide_eq_false_2 by lia. Qed.

(** What a collection of the system database leaves. *)
Lemma sys_garbage_collect_some fuel cutoff rows_threshold batch_size d d' c ids :
  sys_garbage_collect fuel cutoff rows_threshold batch_size d = Some (d', Ok (Some (c, ids))) →
  gc_cutoff cutoff rows_threshold d = Ok (Some c) ∧ d' = delete_workflow_rows (λ _ r, gc_filter c r) d ∧
  ∀ id, id ∈ ids ↔ ∃ r, workflow_status d' !! id = Some r ∧ ws_created_at r < c.
Proof.
  unfold sys_garbage_collect. destruct (batch_size_error batch_size); [done|].
  destruct (gc_cutoff cutoff rows_threshold d) as [[c0|]|]; [|done..].
  destruct (collect fuel batch_size d) as [d0|] eqn:Hc; [|done]. intros [= -> -> <-].
  apply (@collect_some _ _ (sys_collectable_laws c)) in Hc as ->. split; [done|]. split.
  - apply delete_workflow_rows_ext. intros id r. by rewrite andb_true_r.
  - intros id. rewrite list_elem_of_fmap. split.
    + intros ([id' r] & -> & Hin). apply elem_of_sql_select in Hin as [Hr Hlt]. exists r. by rewrite bool_decide_eq_true in Hlt.
    + intros (r & Hr & Hlt). exists (id, r). split; [done|]. apply elem_of_sql_select. split; [done|]. by apply bool_decide_eq_true_2.
Qed.

Lemma app_garbage_collect_some {D} fuel c ids batch_size (a a' : app_db D) r :
  app_garbage_collect fuel c ids batch_size a = Some (a', r) →
  r = Ok tt → a' = a <| transaction_outputs := sql_delete (gc_conditions c ids) (transaction_outputs a) |>.
Proof.
  unfold app_garbage_collect. destruct (batch_size_error batch_size); [by intros [= _ <-]|].
  destruct (collect fuel batch_size a) as [a0|] eqn:Hc; [|done]. intros [= <- <-] _.
  apply (@collect_some _ _ (app_collectable_laws c ids)) in Hc as ->. destruct a as [x t].
  refine (f_equal (AppDB x) (sql_delete_ext _ _ t _)). intros k r. by rewrite andb_true_r.
Qed.

(** The rows of a workflow that stays are all there. *)
Lemma kept_rows c d id r fid :
  workflow_status d !! id = Some r → gc_filter c r = false →
  let d' := delete_workflow_rows (λ _ r, gc_filter c r) d in
  workflow_status d' !! id = Some r ∧ operation_outputs d' !! (id, fid) = operation_outputs d !! (id, fid).
Proof.
  intros Hr Hf. simpl. rewrite !lookup_sql_delete. simpl. rewrite Hr. simpl. rewrite Hf. split; [done|].
  by destruct (operation_outputs d !! (id, fid)).
Qed.

Lemma garbage_collect_cases {D} fuel cutoff rows_threshold batch_size (d d' : db) (a a' : app_db D) :
  garbage_collect fuel cutoff rows_threshold batch_size (d, Some a) = Some (d', Some a', Ok tt) →
  (∃ c ids, sys_garbage_collect fuel cutoff rows_threshold batch_size d = Some (d', Ok (Some (c, ids))) ∧
     app_garbage_collect fuel c ids batch_size a = Some (a', Ok tt)) ∨ (d' = d ∧ a' = a ∧ ∀ c, cutoff ≠ Some c).
Proof.
  unfold garbage_collect.
  assert (∀ x, sys_garbage_collect fuel cutoff rows_threshold batch_size d = Some (x, Ok None) → x = d ∧ ∀ c, cutoff ≠ Some c) as Hnone.
  { intros x. unfold sys_garbage_collect. destruct (batch_size_error batch_size); [done|].
    destruct (gc_cutoff _ _ d) as [[c|]|] eqn:Hc; [by destruct (collect _ _ d)| |done]. intros [= <-]. split; [done|]. intros c ->.
    revert Hc. unfold gc_cutoff. destruct rows_threshold; [|done]. case_bool_decide; [done|].
    by destruct (_ !! _); [case_bool_decide|]. }
  assert (match sys_garbage_collect fuel cutoff rows_threshold batch_size d with
    | None => None
    | Some (d', Err e) => Some ((d', Some a), Err e)
    | Some (d', Ok None) => Some ((d', Some a), Ok tt)
    | Some (d', Ok (Some (c, pending_workflow_ids))) =>
        match app_garbage_collect fuel c pending_workflow_ids batch_size a with
        | None => None
        | Some (a', r) => Some ((d', Some a'), r)
        end
    end = Some (d', Some a', Ok tt) →
    (∃ c ids, sys_garbage_collect fuel cutoff rows_threshold batch_size d = Some (d', Ok (Some (c, ids))) ∧
       app_garbage_collect fuel c ids batch_size a = Some (a', Ok tt)) ∨ (d' = d ∧ a' = a ∧ ∀ c, cutoff ≠ Some c)) as Hcase.
  { destruct (sys_garbage_collect _ _ _ _ d) as [[d0 [[[c ids]|]|e]]|]; [|intros [= -> ->]; right; destruct (Hnone _ eq_refl); by split_and!|done|done].
    destruct (app_garbage_collect fuel c ids batch_size a) as [[a0 r]|] eqn:Ha; [|done]. intros [= -> -> ->]. left. by exists c, ids. }
  destruct cutoff, rows_threshold; try exact Hcase. intros [= -> ->]. by right.
Qed.

Lemma filter_all {A} (P : A → Prop) `{∀ x, Decision (P x)} l : Forall P l → filter P l = l.
Proof. induction 1 as [|x l Hx _ IH]; [done|]. by rewrite filter_cons_True, IH. Qed.

(** A row older than the [n]th newest has [n] newer rows. *)
Lemma sorted_before {A} (R : relation A) (l : list A) i c :
  StronglySorted R l → l !! i = Some c → Forall (λ x, R x c) (take i l).
Proof.
  revert i. induction l as [|x l IH]; intros i Hs Hi; [by destruct i|]. apply StronglySorted_inv in Hs as [Hs Hx].
  destruct i as [|i]; [constructor|]. simpl. constructor; [|by apply IH].
  rewrite Forall_forall in Hx. apply Hx. by eapply list_elem_of_lookup_2.
Qed.

Lemma threshold_newer n c d :
  gc_cutoff None (Some n) d = Ok (Some c) → ∀ r, ws_created_at r < c → n ≤ Z.of_nat (length (newer r d)).
Proof.
  unfold gc_cutoff. case_bool_decide; [done|].
  set (l := (λ kr, ws_created_at kr.2) <$> map_to_list (workflow_status d)).
  set (sorted := sql_order_by (λ x y, Z.leb y x) l).
  destruct (sorted !! Z.to_nat (n - 1)) as [c0|] eqn:Hc; [|done]. intros [= ->] r Hlt.
  assert (StronglySorted (λ x y, Is_true (Z.leb y x)) sorted) as Hs.
  { apply (sql_order_by_sorted (λ x y, Z.leb y x)).
    - intros x y. rewrite !Z.leb_le. lia.
    - intros x y z. rewrite !Z.leb_le. lia. }
  pose proof (sorted_before _ _ _ _ Hs Hc) as Hbefore.
  assert (length (newer r d) = length (filter (λ z, ws_created_at r < z) sorted)) as ->.
  { trans (length (filter (λ z, ws_created_at r < z) l)); [|by apply Permutation_length, filter_Permutation; symmetry; apply sql_order_by_Permutation].
    unfold newer, sql_select, l.
    generalize (map_to_list (workflow_status d)) as rows. intros rows. induction rows as [|[k x] rows IH]; [done|].
    rewrite fmap_cons, !filter_cons. simpl. case_decide as Hx1; case_decide as Hx2; rewrite Is_true_true, bool_decide_eq_true in Hx1; simpl; try done; by rewrite IH. }
  assert (take (Z.to_nat n) sorted = (take (Z.to_nat (n - 1)) sorted ++ [c])%list) as Htake.
  { replace (Z.to_nat n) with (S (Z.to_nat (n - 1))) by lia. by apply take_S_r. }
  assert (filter (λ z, ws_created_at r < z) (take (Z.to_nat n) sorted) = take (Z.to_nat n) sorted) as Hall.
  { apply filter_all. rewrite Htake. apply Forall_app. split; [|by repeat constructor].
    eapply Forall_impl; [exact Hbefore|]. intros z. rewrite Is_true_true, Z.leb_le. lia. }
  rewrite <- (take_drop (Z.to_nat n) sorted), filter_app, Hall, length_app, length_take.
  apply lookup_lt_Some in Hc. lia.
Qed.

Lemma gc_cutoff_later c0 rows_threshold d c : gc_cutoff (Some c0) rows_threshold d = Ok (Some c) → c0 ≤ c.
Proof.
  unfold gc_cutoff. destruct rows_threshold as [n|]; [|intros [= ->]; lia]. case_bool_decide; [done|].
  destruct (_ !! _) as [z|]; [|intros [= ->]; lia]. case_bool_decide; intros [= <-]; lia.
Qed.

(** The cutoff is the given one, or that of the threshold. *)
Lemma gc_cutoff_cases cutoff rows_threshold d c :
  gc_cutoff cutoff rows_threshold d = Ok (Some c) →
  cutoff = Some c ∨ ∃ n, rows_threshold = Some n ∧ gc_cutoff None (Some n) d = Ok (Some c).
Proof.
  unfold gc_cutoff. destruct rows_threshold as [n|]; [|intros [= ->]; by left].
  case_bool_decide as Hn; [done|]. destruct (_ !! _) as [z|] eqn:Hz; [|intros [= ->]; by left].
  destruct cutoff as [c0|]; [case_bool_decide|]; intros [= <-]; [right|by left|right]; exists n; split; try done;
    by rewrite bool_decide_eq_false_2, Hz.
Qed.

Lemma out_of_reach_kept cutoff rows_threshold d c r :
  gc_cutoff cutoff rows_threshold d = Ok (Some c) → running_status r = true ∨ out_of_reach cutoff rows_threshold r d →
  gc_filter c r = false.
Proof.
  intros Hc [Hrun|[Hcut Hthr]]; unfold gc_filter.
  - unfold running_status in Hrun. by rewrite Hrun, andb_false_r.
  - rewrite bool_decide_eq_false_2; [done|]. intros Hlt.
    destruct (gc_cutoff_cases _ _ _ _ Hc) as [->|(n & -> & Hn)]; [specialize (Hcut c eq_refl); lia|].
    pose proof (threshold_newer n c d Hn r Hlt). specialize (Hthr n eq_refl). lia.
Qed.

Lemma gone_rows c d id r :
  workflow_status d !! id = Some r → gc_filter c r = true →
  let d' := delete_workflow_rows (λ _ r, gc_filter c r) d in
  workflow_status d' !! id = None ∧ ∀ fid, operation_outputs d' !! (id, fid) = None.
Proof.
  intros Hr Hf. simpl. rewrite !lookup_sql_delete, Hr. simpl. rewrite Hf. split; [done|]. intros fid.
  rewrite lookup_sql_delete. simpl. rewrite Hr. simpl. rewrite Hf. by destruct (operation_outputs d !! (id, fid)).
Qed.

(** ** Properties *)

(** Garbage collection in batches comes to its end, and leaves exactly what a single
    statement leaves, in both databases, with the same answer; no batch is needed for more
    rows than there are. *)
Lemma garbage_collect_batched {D} fuel cutoff rows_threshold b (d : db) (a : option (app_db D)) :
  1 ≤ b → (size (workflow_status d) < fuel)%nat → (∀ a', a = Some a' → (size (transaction_outputs a') < fuel)%nat) →
  garbage_collect fuel cutoff rows_threshold (Some b) (d, a) = garbage_collect fuel cutoff rows_threshold None (d, a) ∧
  is_Some (garbage_collect fuel cutoff rows_threshold (Some b) (d, a)).
Proof.
  intros Hb Hd Ha.
  assert (∀ c, collect (H := sys_collectable c) fuel (Some b) d = collect (H := sys_collectable c) fuel None d) as Hsys.
  { intros c. rewrite (@collect_all _ _ (sys_collectable_laws c)); [done|]. simpl. rewrite length_fmap.
    eapply Nat.le_lt_trans; [apply select_length|done]. }
  assert (∀ c ids a', a = Some a' →
    collect (H := app_collectable c ids) fuel (Some b) a' = collect (H := app_collectable c ids) fuel None a') as Happ.
  { intros c ids a' Ha'. rewrite (@collect_all _ _ (app_collectable_laws c ids)); [done|]. simpl. rewrite length_fmap.
    eapply Nat.le_lt_trans; [apply select_length|by apply Ha]. }
  assert (garbage_collect fuel cutoff rows_threshold (Some b) (d, a) = garbage_collect fuel cutoff rows_threshold None (d, a)) as Heq.
  { unfold garbage_collect, sys_garbage_collect, app_garbage_collect. rewrite batch_size_error_positive by done. cbn [batch_size_error].
    destruct cutoff, rows_threshold; try done; (destruct (gc_cutoff _ _ d) as [[c|]|]; [|done..]); rewrite Hsys;
      destruct (collect _ _ d) as [d'|]; try done; destruct a as [a'|]; try done; by rewrite (Happ _ _ a' eq_refl). }
  rewrite Heq. split; [done|]. unfold garbage_collect, sys_garbage_collect, app_garbage_collect. cbn [batch_size_error collect].
  destruct cutoff, rows_threshold; try (by eexists); (destruct (gc_cutoff _ _ d) as [[c|]|]; [|by eexists..]);
    destruct a; by eexists.
Qed.

Lemma garbage_collect_ends {D} fuel cutoff rows_threshold batch_size (d : db) (a : app_db D) :
  (∀ b, batch_size = Some b → 1 ≤ b) → (∀ n, rows_threshold = Some n → 1 ≤ n) →
  (size (workflow_status d) < fuel)%nat → (size (transaction_outputs a) < fuel)%nat →
  ∃ d' a', garbage_collect fuel cutoff rows_threshold batch_size (d, Some a) = Some (d', Some a', Ok tt).
Proof.
  intros Hb Hn Hd Ha.
  assert (garbage_collect fuel cutoff rows_threshold batch_size (d, Some a) = garbage_collect fuel cutoff rows_threshold None (d, Some a)) as ->.
  { destruct batch_size as [b|]; [|done]. apply garbage_collect_batched; [by apply Hb|done|by intros a' [= <-]]. }
  unfold garbage_collect, sys_garbage_collect, app_garbage_collect. cbn [batch_size_error collect].
  assert (∃ c, gc_cutoff cutoff rows_threshold d = Ok c) as [c ->].
  { unfold gc_cutoff. destruct rows_threshold as [n|]; [|eauto]. specialize (Hn n eq_refl). rewrite bool_decide_eq_false_2 by lia.
    destruct (_ !! _); [destruct cutoff|]; eauto. }
  destruct c as [c|], cutoff, rows_threshold; eauto.
Qed.

(** C29: garbage collection keeps what is needed, and takes the rest. With enough fuel for the rows
    there are, it ends. A workflow that is not over stays with its checkpoints, and so does one
    that neither the cutoff nor the threshold reaches: it was not created before the cutoff,
    and fewer than the threshold are newer; the records of its transactions stay with it, unless
    the clock of their database was behind the workflow's creation. A workflow that is over and
    was created before the cutoff is gone, and its checkpoints are. The foreign keys and the
    unique index stay valid. *)
Theorem garbage_collect_keeps {D} fuel cutoff rows_threshold batch_size (d : db) (a : app_db D) :
  (∀ b, batch_size = Some b → 1 ≤ b) → (∀ n, rows_threshold = Some n → 1 ≤ n) →
  (size (workflow_status d) < fuel)%nat → (size (transaction_outputs a) < fuel)%nat →
  ∃ d' a', garbage_collect fuel cutoff rows_threshold batch_size (d, Some a) = Some (d', Some a', Ok tt) ∧
    (schema_valid d → schema_valid d') ∧
    ∀ id r, workflow_status d !! id = Some r →
      (running_status r = true ∨ out_of_reach cutoff rows_threshold r d →
        workflow_status d' !! id = Some r ∧
        ∀ fid, operation_outputs d' !! (id, fid) = operation_outputs d !! (id, fid) ∧
          ∀ row, transaction_outputs a !! (id, fid) = Some row → ws_created_at r ≤ to_created_at row →
            transaction_outputs a' !! (id, fid) = Some row) ∧
      (∀ c, running_status r = false → cutoff = Some c → ws_created_at r < c →
        workflow_status d' !! id = None ∧ ∀ fid, operation_outputs d' !! (id, fid) = None).
Proof.
  intros Hb Hn Hd Ha. destruct (garbage_collect_ends fuel cutoff rows_threshold batch_size d a Hb Hn Hd Ha) as (d' & a' & Hgc).
  exists d', a'. split; [exact Hgc|].
  destruct (garbage_collect_cases _ _ _ _ _ _ _ _ Hgc) as [(c & ids & Hs & Happ)|(-> & -> & Hnone)].
  2:{ split; [done|]. intros id r Hr. split; [done|]. intros c _ ->. by destruct (Hnone c). }
  apply sys_garbage_collect_some in Hs as (Hc & -> & Hids). apply app_garbage_collect_some in Happ as ->; [|done].
  split; [apply keeps_delete_workflow_rows|]. intros id r Hr. split.
  - intros Hkeep. assert (gc_filter c r = false) as Hf by (by eapply out_of_reach_kept).
    split; [by apply (kept_rows c d id r 0)|]. intros fid. split; [by apply (kept_rows c d id r fid)|].
    intros row Hrow Hle. simpl. rewrite lookup_sql_delete, Hrow. simpl. unfold gc_conditions. simpl.
    case_bool_decide as Hlt; [|done]. rewrite bool_decide_eq_true_2; [done|]. apply Hids. exists r. split; [|lia].
    by apply (kept_rows c d id r 0).
  - intros c0 Hover -> Hlt. apply (gone_rows c d id r Hr). unfold gc_filter. unfold running_status in Hover. rewrite Hover.
    rewrite bool_decide_eq_true_2; [done|]. apply gc_cutoff_later in Hc. lia.
Qed.

Lemma garbage_collect_batched_witness :
  let s := (old_rows, Some old_app) in
  garbage_collect 9 (Some 8) None (Some 1) s = garbage_collect 9 (Some 8) None None s ∧
  match garbage_collect 9 (Some 8) None (Some 1) s with
  | Some (d', Some a', Ok tt) => (map_to_list (workflow_status d')).*1 = ["b"; "d"] ∧ (map_to_list (transaction_outputs a')).*1 = [("b", 1)]
  | _ => False
  end.
Proof.
  intros s. split; [|vm_compute; by split].
  apply (garbage_collect_batched 9 (Some 8) None 1 old_rows (Some old_app)); [lia|vm_compute; lia|].
  intros a' [= <-]. vm_compute. lia.
Defined.

Lemma garbage_collect_keeps_witness : ∃ d' a',
  garbage_collect 9 (Some 8) None (Some 2) (old_rows, Some old_app) = Some (d', Some a', Ok tt) ∧
  (ws_status <$> workflow_status d' !! "b") = Some PENDING ∧ is_Some (transaction_outputs a' !! ("b", 1)) ∧
  workflow_status d' !! "a" = None.
Proof.
  destruct (garbage_collect_keeps 9 (Some 8) None (Some 2) old_rows old_app) as (d' & a' & Hgc & _ & Hrows).
  - intros b [= <-]. lia.
  - done.
  - vm_compute. lia.
  - vm_compute. lia.
  - exists d', a'. split; [exact Hgc|].
    destruct (Hrows "b" ((sample_row "b" PENDING) <| ws_created_at := 2 |>) eq_refl) as [Hkeep _].
    destruct Hkeep as [Hrow Hrec]; [by left|]. rewrite Hrow. split; [reflexivity|].
    destruct (Hrec 1) as [_ Ht]. split; [exists (old_output "t" 3); apply Ht; [reflexivity|vm_compute; discriminate]|].
    destruct (Hrows "a" ((sample_row "a" SUCCESS) <| ws_created_at := 1 |>) eq_refl) as [_ Hgone].
    apply (Hgone 8); reflexivity.
Defined.
