(* ===== verification/Streams.v ===== *)
(** * Workflow events and streams: [dbos/_sys_db.py], [dbos/_core.py], [dbos/_dbos.py]

    [set_event] and [get_event], [write_stream], [close_stream] and the generator
    [read_stream]. A value is set or written in one transaction with its checkpoint
    ([set_event_from_workflow], [write_stream_from_workflow]), or from a step without one.
    An attempt to write reads the next offset, then [race] happens, what others commit
    meanwhile, then its row goes in at that offset: when the offset is taken by then this is
    an [sa.exc.IntegrityError], and there is another attempt. [races] are the races of the
    first attempts; the attempts after these are undisturbed. *)
From S2P Require Import Prelude Errors Schema Retry Serialization Workflows Context Steps Events Forks Messages.

Definition dbos_stream_closed_sentinel : string := "__DBOS_STREAM_CLOSED__".

(** [value == _dbos_stream_closed_sentinel] *)
Definition is_closed (v : pyval) : bool :=
  match v with PStr s => bool_decide (s = dbos_stream_closed_sentinel) | _ => false end.

Section streams.
Context (executor_id : option string) `{Codecs} (serializer : Serializer).

(** ** Events *)

(** The two upserts of a [set_event]. *)
Definition upsert_event (workflow_uuid : string) (function_id : Z) (key serval serialization : string) : txn unit :=
  _ ← execute_res (upsert_event_row (workflow_uuid, key)
                     {| we_value := serval; we_serialization := Some serialization |});
  execute_res (upsert_event_history_row (workflow_uuid, key, function_id)
                 {| weh_value := serval; weh_serialization := Some serialization |}).

(** The record of an operation without a result. *)
Definition done_result (workflow_uuid : string) (function_id : Z) (function_name : string) (start_time : Z) :
    OperationResultInternal := {|
  or_workflow_uuid := workflow_uuid; or_function_id := function_id; or_function_name := function_name;
  or_output := None; or_error := None; or_serialization := None; or_started_at_epoch_ms := start_time;
|}.

(** The shape of a write with its checkpoint: nothing is done when it is there already. The
    body says whether it did its write. *)
Definition checkpointed_write (workflow_uuid : string) (function_id : Z) (function_name : string) (body : txn bool)
    (start_time completed_ms : Z) : txn bool :=
  recorded_output ← check_operation_execution_txn workflow_uuid function_id function_name;
  match recorded_output with
  | Some _ => mret true
  | None =>
      written ← body;
      if written : bool
      then _ ← record_operation_result_txn executor_id (done_result workflow_uuid function_id function_name start_time) completed_ms;
           mret true
      else mret false
  end.

Definition set_event_from_workflow (start_time completed_ms : Z) (workflow_uuid : string) (function_id : Z)
    (key : string) (message : pyval) (serialization_type : option WorkflowSerializationFormat) : dbM unit :=
  '(serval, serialization) ← lift_res (serialize_value message serialization_type serializer);
  _ ← engine_begin (checkpointed_write workflow_uuid function_id "DBOS.setEvent"
                      (_ ← upsert_event workflow_uuid function_id key serval serialization; mret true)
                      start_time completed_ms);
  mret tt.

Definition set_event_from_step (workflow_uuid : string) (function_id : Z) (key : string) (message : pyval)
    (serialization_type : option WorkflowSerializationFormat) : dbM unit :=
  '(serval, serialization) ← lift_res (serialize_value message serialization_type serializer);
  engine_begin (upsert_event workflow_uuid function_id key serval serialization).

Definition get_all_events (d : db) (workflow_id : string) : res pyexn (list (string * pyval)) :=
  res_map (λ kr, match deserialize_value (Some (we_value kr.2)) (we_serialization kr.2) serializer with
                 | Ok v => Ok (kr.1.2, v) | Err e => Err e end)
    (sql_select (λ k _, bool_decide (k.1 = workflow_id)) (workflow_events d)).

(** [class GetEventWorkflowContext] *)
Record GetEventWorkflowContext := {
  ge_workflow_uuid : string; ge_function_id : Z; ge_timeout_function_id : Z }.

Definition get_event_check (target_uuid key : string) (event : nat) : SM proc pyexn unit := λ p,
  if event_present (pr_db p) target_uuid key then event_set event p else (p, Ok tt).

Definition pop_event (payload : string) (p : proc) : proc :=
  p <| pr_workflow_events_map := dict_pop payload (pr_workflow_events_map p) |>.

Definition set_event_map (payload : string) (event : nat) (components : string * string) :
    SM proc pyexn (bool * nat) := λ p,
  let '(m, r) := dict_set payload event components (pr_workflow_events_map p) in
  (p <| pr_workflow_events_map := m |>, Ok r).

Definition get_event_setup (start_time time_ms sleep_start sleep_completed time_ms' : Z) (target_uuid key : string)
    (timeout_ms : Z) (caller_ctx : option GetEventWorkflowContext) : SM proc pyexn EventSetupResult :=
  recorded_output ←
    match caller_ctx with
    | Some c => on_db (check_operation_execution (ge_workflow_uuid c) (ge_function_id c) "DBOS.getEvent")
    | None => mret None
    end;
  match recorded_output with
  | Some recorded =>
      match rr_output recorded with
      | Some output =>
          v ← lift_res (deserialize_value (Some output) (rr_serialization recorded) serializer);
          mret (SetupDone v)
      | None => raise (PyException "No output recorded in the last get_event")
      end
  | None =>
      let payload := listener_payload target_uuid key in
      new ← new_event;
      '(_, event) ← set_event_map payload new (target_uuid, key);
      cleanup_on_error
        (_ ← get_event_check target_uuid key event;
         actual_timeout ← match caller_ctx with
                          | Some c => on_db (record_sleep executor_id serializer sleep_start time_ms sleep_completed time_ms'
                                               (ge_workflow_uuid c) (ge_timeout_function_id c) timeout_ms)
                          | None => mret timeout_ms
                          end;
         mret (SetupWait event actual_timeout payload start_time))
        (pop_event payload)
  end.

Definition get_event_consume (completed_ms : Z) (target_uuid key : string) (start_time : Z)
    (caller_ctx : option GetEventWorkflowContext) : dbM pyval :=
  row ← engine_begin (query (λ d, workflow_events d !! (target_uuid, key)));
  value ← match row with
          | Some r => lift_res (deserialize_value (Some (we_value r)) (we_serialization r) serializer)
          | None => mret PNone
          end;
  match caller_ctx with
  | None => mret value
  | Some c =>
      '(serval, serialization) ← lift_res (serialize_value_as value (row ≫= we_serialization) serializer);
      _ ← record_operation_result executor_id completed_ms {|
            or_workflow_uuid := ge_workflow_uuid c; or_function_id := ge_function_id c; or_function_name := "DBOS.getEvent";
            or_output := Some serval; or_error := None; or_serialization := Some serialization;
            or_started_at_epoch_ms := start_time |};
      mret value
  end.

(** [get_event]: as [recv], but for the caller's checkpoint. [None] when the wait outlives
    the fuel. *)
Definition get_event (fuel : nat) (env : nat → proc → proc) (interval : Z)
    (start_time time_ms sleep_start sleep_completed time_ms' wait_start completed_ms : Z)
    (target_uuid key : string) (timeout_ms : Z) (caller_ctx : option GetEventWorkflowContext) (p : proc) :
    option (proc * res pyexn pyval) :=
  match get_event_setup start_time time_ms sleep_start sleep_completed time_ms' target_uuid key timeout_ms caller_ctx p with
  | (p', Err e) => Some (p', Err e)
  | (p', Ok (SetupDone v)) => Some (p', Ok v)
  | (p', Ok (SetupWait event actual_timeout payload start_time)) =>
      p'' ← wait_loop fuel env (get_event_check target_uuid key event) interval event 0 wait_start
              (wait_start + actual_timeout) p';
      let '(q, r) := on_db (get_event_consume completed_ms target_uuid key start_time caller_ctx) p'' in
      Some (pop_event payload q, r)
  end.

(** ** Streams *)

(** [coalesce(max(offset), -1) + 1] of a stream. *)
Definition next_offset (workflow_uuid key : string) (d : db) : Z :=
  foldr Z.max (-1)%Z ((λ kr, kr.1.2) <$> sql_select (λ k _, bool_decide (k.1 = (workflow_uuid, key))) (streams d)) + 1.

(** [c.execute(stmt)] with the statement of [_stream_insert_stmt], in a race *)
Definition stream_insert (race : db → db) (workflow_uuid : string) (function_id : Z)
    (key serialized_value serialization : string) (d : db) : res pyexn (db * unit) :=
  insert_stream_row (workflow_uuid, key, next_offset workflow_uuid key d)
    {| st_value := serialized_value; st_function_id := function_id; st_serialization := Some serialization |} (race d).

Definition is_IntegrityError (e : pyexn) : bool :=
  match e with UniqueViolation | ForeignKeyViolation => true | _ => false end.

(** [try: … except sa.exc.IntegrityError: …; continue]: whether there was none. *)
Definition try_integrity {S} (m : SM S pyexn unit) : SM S pyexn bool :=
  try_except (_ ← m; mret true) (λ e, if is_IntegrityError e then Some (mret false) else None).

(** The loop [while True] over the attempts; [None] when the fuel ends first. *)
Fixpoint write_attempts (fuel : nat) (races : list (db → db)) (attempt : (db → db) → dbM bool) (d : db) :
    option (db * res pyexn unit) :=
  match fuel with
  | O => None
  | S fuel' =>
      let race := default id (head races) in
      match attempt race d with
      | (d', Ok true) => Some (d', Ok tt)
      | (d', Ok false) => write_attempts fuel' (tail races) attempt (race d')
      | (d', Err e) => Some (d', Err e)
      end
  end.

Definition write_stream_from_step (fuel : nat) (races : list (db → db)) (workflow_uuid : string) (function_id : Z)
    (key : string) (value : pyval) (serialization_type : option WorkflowSerializationFormat) (d : db) :
    option (db * res pyexn unit) :=
  match serialize_value value serialization_type serializer with
  | Err e => Some (d, Err e)
  | Ok (x, n) =>
      write_attempts fuel races
        (λ race, try_integrity (engine_begin (execute_res (stream_insert race workflow_uuid function_id key x n)))) d
  end.

Definition stream_function_name (value : pyval) : string :=
  if is_closed value then "DBOS.closeStream" else "DBOS.writeStream".

(** One attempt of [write_stream_from_workflow]. *)
Definition write_stream_txn (race : db → db) (workflow_uuid : string) (function_id : Z) (key function_name x n : string)
    (start_time completed_ms : Z) : dbM bool :=
  engine_begin (checkpointed_write workflow_uuid function_id function_name
                  (try_integrity (execute_res (stream_insert race workflow_uuid function_id key x n))) start_time completed_ms).

Definition write_stream_from_workflow (fuel : nat) (races : list (db → db)) (start_time completed_ms : Z)
    (workflow_uuid : string) (function_id : Z) (key : string) (value : pyval)
    (serialization_type : option WorkflowSerializationFormat) (d : db) : option (db * res pyexn unit) :=
  match serialize_value value serialization_type serializer with
  | Err e => Some (d, Err e)
  | Ok (x, n) =>
      write_attempts fuel races
        (λ race, write_stream_txn race workflow_uuid function_id key (stream_function_name value) x n start_time completed_ms) d
  end.

Definition close_stream (fuel : nat) (races : list (db → db)) (start_time completed_ms : Z) (workflow_uuid : string)
    (function_id : Z) (key : string) : db → option (db * res pyexn unit) :=
  write_stream_from_workflow fuel races start_time completed_ms workflow_uuid function_id key
    (PStr dbos_stream_closed_sentinel) (Some PORTABLE).

Definition register_stream_listener (workflow_uuid key : string) : SM proc pyexn (nat * string) := λ p,
  let payload := listener_payload workflow_uuid key in
  let '(m, r) := dict_set payload (pr_next p) (workflow_uuid, key) (pr_streams_map p) in
  (p <| pr_next := S (pr_next p) |> <| pr_streams_map := m |>, Ok (r.2, payload)).

Definition unregister_stream_listener (payload : string) (p : proc) : proc :=
  p <| pr_streams_map := dict_pop payload (pr_streams_map p) |>.

(** [SystemDatabase.read_stream] *)
Definition read_stream (d : db) (workflow_uuid key : string) (offset : Z) : res pyexn pyval :=
  match streams d !! (workflow_uuid, key, offset) with
  | None => Err (ValueError ("No value found for workflow_uuid=" +:+ workflow_uuid +:+ ", key=" +:+ key +:+
                   ", offset=" +:+ pretty.pretty offset))
  | Some r => deserialize_value (Some (st_value r)) (st_serialization r) serializer
  end.

(** [get_all_stream_entries]: the values by key, in the order of the keys and offsets. *)
Definition stream_entries (d : db) (workflow_id : string) : list ((string * Z) * streams_row) :=
  (λ kr, ((kr.1.1.2, kr.1.2), kr.2)) <$>
  sql_order_by (λ a b, if bool_decide (a.1.1.2 = b.1.1.2) then Z.leb a.1.2 b.1.2 else String.leb a.1.1.2 b.1.1.2)
    (sql_select (λ k _, bool_decide (k.1.1 = workflow_id)) (streams d)).

Fixpoint append_entry (key : string) (v : pyval) (l : list (string * list pyval)) : list (string * list pyval) :=
  match l with
  | [] => [(key, [v])]
  | (key', vs) :: l' => if bool_decide (key = key') then (key', vs ++ [v]) :: l' else (key', vs) :: append_entry key v l'
  end.

Definition get_all_stream_entries (d : db) (workflow_id : string) : res pyexn (list (string * list pyval)) :=
  match res_map (λ e, match deserialize_value (Some (st_value e.2)) (st_serialization e.2) serializer with
                      | Ok v => Ok (e.1.1, v) | Err x => Err x end) (stream_entries d workflow_id) with
  | Err e => Err e
  | Ok l => Ok (foldl (λ acc kv, if is_closed kv.2 then acc else append_entry kv.1 kv.2 acc) [] l)
  end.

(** The generator [DBOS.read_stream]: the values it yields, and how it ends, over the
    databases of its reads; [None] when the fuel ends first. Between two reads it waits at
    most one polling interval. *)
Fixpoint stream_reader (fuel : nat) (world : nat → db) (workflow_id key : string) (offset : Z) (final_read : bool) :
    list pyval * option (res pyexn unit) :=
  match fuel with
  | O => ([], None)
  | S fuel' =>
      match read_stream (world 0) workflow_id key offset with
      | Ok value =>
          if is_closed value then ([], Some (Ok tt))
          else let '(l, r) := stream_reader fuel' (λ n, world (S n)) workflow_id key (offset + 1) final_read in (value :: l, r)
      | Err (ValueError _) =>
          if final_read then ([], Some (Ok tt))
          else match get_workflow_status (world 1) workflow_id with
               | None => ([], Some (Err (DBOSNonExistentWorkflowError "target" workflow_id)))
               | Some st =>
                   stream_reader fuel' (λ n, world (S (S n))) workflow_id key offset (negb (workflow_is_active (wi_status st)))
               end
      | Err e => ([], Some (Err e))
      end
  end.

End streams.

(** ** What a stream holds

    The offsets of a stream are the first ones, without a gap. *)
Definition contiguous (d : db) (workflow_uuid key : string) (n : Z) : Prop :=
  (0 ≤ n)%Z ∧ ∀ i, is_Some (streams d !! (workflow_uuid, key, i)) ↔ (0 ≤ i < n)%Z.

(** The values up to the one that closes the stream. *)
Fixpoint until_closed (l : list pyval) : list pyval :=
  match l with
  | [] => []
  | v :: l' => if is_closed v then [] else v :: until_closed l'
  end.

(** From the time [T] on the workflow is over; its stream only grows, and does not any more
    once the workflow is seen to be over: [values] is all of it. *)
Record stream_history `{Codecs} (serializer : Serializer) (world : nat → db) (workflow_id key : string) (T : nat)
    (values : list pyval) : Prop := {
  sh_values k v : values !! k = Some v → ∀ i, T ≤ i → read_stream serializer (world i) workflow_id key (Z.of_nat k) = Ok v;
  sh_prefix i k row : streams (world i) !! (workflow_id, key, Z.of_nat k) = Some row → k < length values ∧
    ∀ j, i ≤ j → streams (world j) !! (workflow_id, key, Z.of_nat k) = Some row;
  sh_status i : is_Some (workflow_status (world i) !! workflow_id);
  sh_over i r : workflow_status (world i) !! workflow_id = Some r → T ≤ i → workflow_is_active (ws_status r) = false;
  sh_final i r j k : workflow_status (world i) !! workflow_id = Some r → workflow_is_active (ws_status r) = false →
    i ≤ j → k < length values → is_Some (streams (world j) !! (workflow_id, key, Z.of_nat k));
}.

(** A sample: a stream in three states of its workflow. *)
Definition sample_stream (values : list string) (status : WorkflowStatusString) : db :=
  (sample_db [("w", sample_row "w" status)]) <| streams := list_to_map
    (imap (λ i v, (("w", "k", Z.of_nat i), {| st_value := sample_pickle (inl v); st_function_id := 1; st_serialization := Some "sample" |}))
       values) |>.

Definition sample_stream_world (i : nat) : db :=
  match i with
  | 0 | 1 => sample_stream ["a"] PENDING
  | _ => sample_stream ["a"; "b"] SUCCESS
  end.

(** Two steps that run together write to a stream, the later one first, and their workflow
    is forked from the later step. *)
Definition sample_gap : option (db * res pyexn (list string)) :=
  match @write_stream_from_step sample_codecs sample_serializer 1 [] "w" 5 "k" (PStr "five") None (sample_db [("w", sample_row "w" PENDING)]) with
  | Some (d, Ok _) =>
      match @write_stream_from_step sample_codecs sample_serializer 1 [] "w" 4 "k" (PStr "four") None d with
      | Some (d', Ok _) => Some (fork_workflow 9 ["w"] ["f"] [5%Z] None None None [] d')
      | _ => None
      end
  | _ => None
  end.

(** ** Lemmas *)

Lemma foldr_max_bound (l : list Z) n :
  (0 ≤ n)%Z → (∀ z, z ∈ l ↔ 0 ≤ z < n)%Z → foldr Z.max (-1)%Z l = (n - 1)%Z.
Proof.
  intros Hn Hl.
  assert (∀ l, (∀ z, z ∈ l → (z ≤ n - 1)%Z) → (foldr Z.max (-1) l ≤ n - 1)%Z ∧ ∀ z, z ∈ l → (z ≤ foldr Z.max (-1) l)%Z) as Hmax.
  { clear l Hl. induction l as [|x l IH]; intros Hz; simpl.
    - split; [lia|]. by intros z ?%elem_of_nil.
    - destruct IH as [IH1 IH2]; [intros z Hin; apply Hz; by right|]. specialize (Hz x ltac:(left)). split; [lia|].
      intros z [->|Hin]%elem_of_cons; [lia|]. specialize (IH2 z Hin). lia. }
  destruct (Hmax l) as [Hup Hin]; [intros z ?%Hl; lia|].
  assert (∀ l : list Z, (-1 ≤ foldr Z.max (-1) l)%Z) as Hlow by (clear; induction l as [|x l IH]; simpl; lia).
  specialize (Hlow l). destruct (decide (n = 0)%Z); [lia|]. specialize (Hin (n - 1)%Z). rewrite Hl in Hin. lia.
Qed.

Lemma next_offset_contiguous d wid key n : contiguous d wid key n → next_offset wid key d = n.
Proof.
  intros [Hn Hc]. unfold next_offset. rewrite (foldr_max_bound _ n); [lia|done|]. intros z. rewrite <- Hc.
  rewrite list_elem_of_fmap. split.
  - intros ([[k z'] r] & -> & Hin). apply elem_of_sql_select in Hin as [Hr Hk]. simpl in *.
    apply bool_decide_eq_true in Hk. subst k. by eexists.
  - intros [r Hr]. exists ((wid, key, z), r). split; [done|]. apply elem_of_sql_select. split; [done|]. by apply bool_decide_eq_true_2.
Qed.

Lemma stream_insert_contiguous d wid fid key x n m :
  contiguous d wid key m → workflow_exists d wid = true →
  stream_insert id wid fid key x n d =
  Ok (d <| streams := <[(wid, key, m) := {| st_value := x; st_function_id := fid; st_serialization := Some n |}]> (streams d) |>, tt).
Proof.
  intros Hc He. unfold stream_insert, insert_stream_row, id. rewrite (next_offset_contiguous _ _ _ _ Hc). destruct Hc as [Hm Hc].
  destruct (streams d !! (wid, key, m)) as [r|] eqn:Hr; [|by cbn [fst]; rewrite He].
  assert (is_Some (streams d !! (wid, key, m))) as Hs%Hc by (by rewrite Hr). lia.
Qed.

Lemma contiguous_insert d wid key m row :
  contiguous d wid key m →
  contiguous (d <| streams := <[(wid, key, m) := row]> (streams d) |>) wid key (m + 1).
Proof.
  intros [Hm Hc]. split; [lia|]. intros i. simpl. destruct (decide (i = m)) as [->|Hne].
  - rewrite lookup_insert_eq. split; [lia|by eexists].
  - rewrite lookup_insert_ne by congruence. rewrite Hc. lia.
Qed.

(** An operation around a write with its checkpoint takes effect once under [db_retry]. *)
Lemma checkpointed_exactly_once {A} e wid fid name body f (starts ends : nat → Z) (op : nat → dbM A) (a : A) d r fs :
  (∀ i d0 d1, engine_begin (checkpointed_write e wid fid name body (starts i) (ends i)) d0 = (d1, Ok true) →
     op i d0 = (d1, Ok a)) →
  (∀ c, current c = d → body c = (Conn (committed c) (f d), Ok true)) →
  check_result d wid fid name = Ok None →
  workflow_status (f d) !! wid = Some r → ws_status r ≠ CANCELLED → operation_outputs (f d) !! (wid, fid) = None →
  ∃ w slept i,
    db_retry (S (length fs)) (faulty op) (d, fs, 0) = Some (w, Ok a, slept) ∧
    w.1.1 = (reset_db e wid (f d)) <| operation_outputs :=
      <[(wid, fid) := recorded_row (done_result wid fid name (starts i)) (ends i)]> (operation_outputs (f d)) |>.
Proof.
  intros Hop Hbody Hc Hr Hs Hfree.
  set (row i := recorded_row (done_result wid fid name (starts i)) (ends i)).
  set (D i := (reset_db e wid (f d)) <| operation_outputs := <[(wid, fid) := row i]> (operation_outputs (f d)) |>).
  assert (retry_safe op d a (λ d', ∃ i, d' = D i)) as Hsafe.
  { split.
    - intros i. exists (D i). split; [|eauto]. apply Hop. unfold checkpointed_write, engine_begin, mbind, SM_bind.
      rewrite check_operation_execution_txn_eq. cbn [current]. rewrite Hc, Hbody by done.
      rewrite (record_operation_result_txn_eq e _ _ _ r); [|exact Hr|by left].
      cbn [current committed or_workflow_uuid or_function_id done_result]. rewrite Hfree. cbv zeta.
      unfold D. by rewrite reset_db_outputs.
    - intros i d1 (j & ->). exists (D j). split; [|eauto]. apply Hop.
      unfold checkpointed_write, engine_begin, mbind, SM_bind. rewrite check_operation_execution_txn_eq. cbn [current].
      assert (step_kept (wid, fid) (D j) (D j)) as Hkept.
      { split; [done|]. simpl. pose proof (reset_db_status e wid (f d) wid) as Hst. rewrite Hr in Hst.
        apply fmap_Some in Hst as (r' & Hr' & Hst). exists r'. split; [done|congruence]. }
      by rewrite (check_result_kept wid fid name _ _ (row j) Hkept); [|simpl; apply lookup_insert_eq|]. }
  destruct (db_retry_safe _ _ _ _ fs Hsafe) as (w & slept & Hw & i & Hi). by exists w, slept, i.
Qed.

Lemma reset_db_streams e wid d : streams (reset_db e wid d) = streams d.
Proof. unfold reset_db. destruct (workflow_status d !! wid); [|done]. by destruct (_ && _). Qed.

Lemma reset_db_events e wid d :
  workflow_events (reset_db e wid d) = workflow_events d ∧ workflow_events_history (reset_db e wid d) = workflow_events_history d.
Proof. unfold reset_db. destruct (workflow_status d !! wid); [|done]. by destruct (_ && _). Qed.

(** An attempt that loses its race leaves no trace. *)
Lemma write_stream_step_lost wid fid key x n d d' :
  try_integrity (engine_begin (execute_res (stream_insert id wid fid key x n))) d = (d', Ok false) → d' = d.
Proof.
  unfold try_integrity, try_except, engine_begin, execute_res, mbind, SM_bind. cbn [current committed].
  destruct (stream_insert _ _ _ _ _ _ _) as [[d0 a]|err]; [done|]. destruct (is_IntegrityError err); [|done]. by intros [= <-].
Qed.

Lemma write_stream_txn_lost e wid fid key name x n st ct d d' :
  write_stream_txn e id wid fid key name x n st ct d = (d', Ok false) → d' = d.
Proof.
  unfold write_stream_txn, checkpointed_write, try_integrity, try_except, engine_begin, execute_res, mbind, SM_bind.
  rewrite check_operation_execution_txn_eq. cbn [current committed].
  destruct (check_result d wid fid name) as [[r|]|err]; [done| |done].
  destruct (stream_insert _ _ _ _ _ _ _) as [[d0 a]|err].
  - cbn [mret SM_ret current committed]. by destruct (record_operation_result_txn e _ _ _) as [c [[]|err]].
  - destruct (is_IntegrityError err); [|done]. by intros [= <-].
Qed.

(** A write to a stream is stuck while the workflow is not there: its [ForeignKeyViolation]
    counts as a lost race, and every attempt ends like the first. *)
Lemma write_attempts_stuck fuel attempt d : attempt id d = (d, Ok false) → write_attempts fuel [] attempt d = None.
Proof. intros Hd. induction fuel as [|fuel IH]; simpl; [done|]. unfold default. by rewrite Hd. Qed.

Lemma write_stream_without_workflow `{Codecs} (serializer : Serializer) fuel wid fid key value t d x n :
  serialize_value value t serializer = Ok (x, n) → workflow_exists d wid = false →
  streams d !! (wid, key, next_offset wid key d) = None →
  write_stream_from_step serializer fuel [] wid fid key value t d = None.
Proof.
  intros Hs Hw Hfree. unfold write_stream_from_step. rewrite Hs. apply write_attempts_stuck.
  unfold try_integrity, try_except, engine_begin, execute_res, stream_insert, insert_stream_row, mbind, SM_bind, id.
  cbn [current]. rewrite Hfree. cbn [fst]. by rewrite Hw.
Qed.

(** An event that is there is got at once. *)
Lemma get_event_present `{Codecs} (serializer : Serializer) e fuel env interval t1 t2 t3 t4 t5 t6 t7 wid key timeout p row :
  workflow_events (pr_db p) !! (wid, key) = Some row →
  ∃ p', get_event e serializer fuel env interval t1 t2 t3 t4 t5 t6 t7 wid key timeout None p =
          Some (p', deserialize_value (Some (we_value row)) (we_serialization row) serializer).
Proof.
  intros Hrow. remember (deserialize_value (Some (we_value row)) _ _) as v eqn:Hv.
  unfold get_event, get_event_setup, cleanup_on_error, set_event_map, get_event_check, new_event, mbind, SM_bind, mret, SM_ret.
  cbn. destruct (dict_set _ _ _ _) as [m [b ev]]. cbn.
  unfold event_present. rewrite Hrow, bool_decide_eq_true_2 by eauto. cbn.
  assert (∀ q, ev ∈ pr_set q → wait_loop fuel env (get_event_check wid key ev) interval ev 0 t6 (t6 + timeout) q = Some q) as Hwait
    by (intros q Hq; destruct fuel; simpl; unfold event_is_set; by rewrite bool_decide_eq_true_2).
  unfold event_set, modify. cbn. rewrite Hwait by (simpl; set_solver). cbn. rewrite on_db_eq. cbn.
  unfold get_event_consume, engine_begin, query, mbind, SM_bind. cbn [current]. rewrite Hrow. unfold lift_res.
  rewrite <- Hv. destruct v; by eexists.
Qed.

Section reader.
Context `{Codecs} (serializer : Serializer) (world : nat → db) (wid key : string) (T : nat) (values : list pyval)
  (history : stream_history serializer world wid key T values).

(** A row that is there is read as the value at its place. *)
Lemma read_stream_present i k row :
  streams (world i) !! (wid, key, Z.of_nat k) = Some row →
  ∃ v, values !! k = Some v ∧ read_stream serializer (world i) wid key (Z.of_nat k) = Ok v.
Proof.
  intros Hrow. destruct (sh_prefix _ _ _ _ _ _ history _ _ _ Hrow) as [Hk Hlater].
  apply lookup_lt_is_Some in Hk as [v Hv]. exists v. split; [done|].
  pose proof (sh_values _ _ _ _ _ _ history _ _ Hv (i `max` T) ltac:(lia)) as Hread.
  unfold read_stream in *. rewrite (Hlater (i `max` T)) in Hread by lia. by rewrite Hrow.
Qed.

(** The reader from the read [s] on; when it is the last pass, every value is there. *)
Lemma stream_reader_from fuel : ∀ w s off (final : bool),
  (∀ i, w i = world (s + i)) → off ≤ length values →
  (final = true → ∀ j k, s ≤ j → k < length values → is_Some (streams (world j) !! (wid, key, Z.of_nat k))) →
  (length values - off) + (T - s) + (if final then 1 else 2) ≤ fuel →
  stream_reader serializer fuel w wid key (Z.of_nat off) final = (until_closed (drop off values), Some (Ok tt)).
Proof.
  induction fuel as [|fuel IH]; intros w s off final Hw Hoff Hfinal Hfuel; [destruct final; lia|].
  simpl. rewrite Hw, Nat.add_0_r.
  destruct (streams (world s) !! (wid, key, Z.of_nat off)) as [row|] eqn:Hrow.
  - destruct (read_stream_present s off row Hrow) as (v & Hv & ->). rewrite (drop_S _ _ _ Hv). simpl.
    pose proof (lookup_lt_Some _ _ _ Hv). destruct (is_closed v); [done|].
    replace (Z.of_nat off + 1)%Z with (Z.of_nat (S off)) by lia.
    rewrite (IH _ (S s)); [done| |lia| |destruct final; lia].
    + intros i. rewrite Hw. f_equal. lia.
    + intros Hf j k Hj. apply Hfinal; [done|lia].
  - unfold read_stream. rewrite Hrow. destruct final.
    + rewrite drop_ge; [done|]. apply Nat.le_ngt. intros Hlt.
      destruct (Hfinal eq_refl s off ltac:(lia) Hlt) as [row' ?]. congruence.
    + rewrite Hw. unfold get_workflow_status. destruct (sh_status _ _ _ _ _ _ history (s + 1)) as [r Hr]. rewrite Hr. simpl.
      apply (IH _ (S (S s))); [intros i; rewrite Hw; f_equal; lia|done| |].
      * intros Hover%negb_true_iff j k Hj. apply (sh_final _ _ _ _ _ _ history (s + 1) r); [done|done|lia].
      * pose proof (sh_over _ _ _ _ _ _ history (s + 1) r Hr) as Hover.
        destruct (workflow_is_active (ws_status r)); simpl; [|lia].
        destruct (decide (T ≤ s + 1)); [by discriminate Hover|lia].
Qed.
End reader.

(** ** Properties *)

(** An event that a workflow sets is set once and can be got. Whatever connections are
    lost before or after a commit, [set_event] ends, the events of other keys are as they
    were, the value is in the history under the step's number, which is what a fork copies,
    and [get_event] then returns what the value reads back as, without waiting. *)
Lemma set_event_then_get_event `{Codecs, !CodecLaws} (serializer : Serializer) e wid fid key value t x nm
    (starts ends : nat → Z) d r fs :
  honest_name serializer → round_trips serializer → serialize_value value t serializer = Ok (x, nm) →
  workflow_status d !! wid = Some r → ws_status r ≠ CANCELLED → operation_outputs d !! (wid, fid) = None →
  ∃ w slept, let d' := w.1.1 in
    db_retry (S (length fs)) (faulty (λ i, set_event_from_workflow e serializer (starts i) (ends i) wid fid key value t))
      (d, fs, 0) = Some (w, Ok tt, slept) ∧
    (∀ k, k ≠ (wid, key) → workflow_events d' !! k = workflow_events d !! k) ∧
    weh_value <$> workflow_events_history d' !! (wid, key, fid) = Some x ∧
    (∀ fuel env interval t1 t2 t3 t4 t5 t6 t7 timeout p, pr_db p = d' →
       ∃ p', get_event e serializer fuel env interval t1 t2 t3 t4 t5 t6 t7 wid key timeout None p =
               Some (p', canonical nm value)).
Proof.
  intros Hn Hrt Hs Hr Hst Hfree.
  set (row := {| we_value := x; we_serialization := Some nm |}).
  set (hist := {| weh_value := x; weh_serialization := Some nm |}).
  set (f d := d <| workflow_events := sql_upsert (wid, key) row (λ _, row) (workflow_events d) |>
                <| workflow_events_history := sql_upsert (wid, key, fid) hist (λ _, hist) (workflow_events_history d) |>).
  assert (workflow_exists d wid = true) as He by (apply bool_decide_eq_true_2; by eexists).
  assert (check_result d wid fid "DBOS.setEvent" = Ok None) as Hck
    by (unfold check_result; by rewrite Hr, bool_decide_eq_false_2, Hfree).
  destruct (checkpointed_exactly_once e wid fid "DBOS.setEvent"
    (_ ← upsert_event wid fid key x nm; mret true) f starts ends
    (λ i, set_event_from_workflow e serializer (starts i) (ends i) wid fid key value t) tt d r fs)
    as (w & slept & i & Hw & Hd); [| |done..|].
  { intros i d0 d1 Hrun. unfold set_event_from_workflow, lift_res. rewrite Hs. unfold mbind, SM_bind in *. by rewrite Hrun. }
  { intros [c c'] Hcur. simpl in Hcur. subst c'. unfold upsert_event, execute_res, mbind, SM_bind. cbn [current].
    unfold upsert_event_row. cbn [fst]. rewrite He. unfold upsert_event_history_row, workflow_exists. cbn [current fst].
    unfold workflow_exists in He. cbn. by rewrite He. }
  exists w, slept. cbv zeta. rewrite Hd.
  destruct (reset_db_events e wid (f d)) as [Hev Hhist]. split; [exact Hw|]. split; [|split].
  - intros k Hk. cbn. rewrite Hev. unfold f. cbn. rewrite sql_upsert_const. by rewrite lookup_insert_ne.
  - cbn. rewrite Hhist. unfold f. cbn. rewrite sql_upsert_const. by rewrite lookup_insert_eq.
  - intros fuel env interval t1 t2 t3 t4 t5 t6 t7 timeout p Hp.
    destruct (get_event_present serializer e fuel env interval t1 t2 t3 t4 t5 t6 t7 wid key timeout p row) as [p' Hget].
    { rewrite Hp. cbn. rewrite Hev. unfold f. cbn. rewrite sql_upsert_const. by rewrite lookup_insert_eq. }
    exists p'. rewrite Hget.
    by rewrite (serialize_then_deserialize serializer value (Some (serialization_for_type t serializer)) x nm).
Qed.

(** A write to a stream takes effect once: whatever connections are lost before or after
    a commit, the call ends, the stream has one more entry, at its end, that readers get as
    the value that was written, the rest of it is as it was, and the checkpoint is there. *)
Lemma write_stream_exactly_once `{Codecs, !CodecLaws} (serializer : Serializer) e wid fid key value t x nm
    (starts ends : nat → Z) d n r fs :
  honest_name serializer → round_trips serializer → serialize_value value t serializer = Ok (x, nm) →
  contiguous d wid key n → workflow_status d !! wid = Some r → ws_status r ≠ CANCELLED →
  operation_outputs d !! (wid, fid) = None →
  ∃ w slept, let d' := w.1.1 in
    db_retry (S (length fs)) (faulty (λ i, write_stream_txn e id wid fid key (stream_function_name value) x nm (starts i) (ends i)))
      (d, fs, 0) = Some (w, Ok true, slept) ∧
    contiguous d' wid key (n + 1) ∧ read_stream serializer d' wid key n = canonical nm value ∧
    (∀ k, k ≠ (wid, key, n) → streams d' !! k = streams d !! k) ∧
    is_Some (operation_outputs d' !! (wid, fid)).
Proof.
  intros Hn Hrt Hs Hc Hr Hst Hfree.
  set (row := {| st_value := x; st_function_id := fid; st_serialization := Some nm |}).
  set (f d := d <| streams := <[(wid, key, n) := row]> (streams d) |>).
  assert (workflow_exists d wid = true) as He by (apply bool_decide_eq_true_2; by eexists).
  assert (check_result d wid fid (stream_function_name value) = Ok None) as Hck
    by (unfold check_result; by rewrite Hr, bool_decide_eq_false_2, Hfree).
  destruct (checkpointed_exactly_once e wid fid (stream_function_name value) (try_integrity (execute_res (stream_insert id wid fid key x nm)))
    f starts ends (λ i, write_stream_txn e id wid fid key (stream_function_name value) x nm (starts i) (ends i)) true d r fs)
    as (w & slept & i & Hw & Hd); [done| |done..|].
  { intros [c c'] Hcur. simpl in Hcur. subst c'. unfold try_integrity, try_except, execute_res, mbind, SM_bind. cbn [current]. by rewrite (stream_insert_contiguous _ _ _ _ _ _ n). }
  exists w, slept. cbv zeta. rewrite Hd. split; [exact Hw|].
  assert (∀ d0 t0, streams ((reset_db e wid d0) <| operation_outputs := t0 |>) = streams d0) as Hstreams
    by (intros; apply reset_db_streams).
  pose proof (contiguous_insert d wid key n row Hc) as Hc'. fold (f d) in Hc'.
  split; [|split; [|split]].
  - destruct Hc' as [Hn' Hi]. split; [exact Hn'|]. intros j. rewrite Hstreams. apply Hi.
  - unfold read_stream. rewrite Hstreams. unfold f. simpl. rewrite lookup_insert_eq. simpl.
    by apply (serialize_then_deserialize serializer value (Some (serialization_for_type t serializer)) x nm).
  - intros k Hk. rewrite Hstreams. unfold f. simpl. by rewrite lookup_insert_ne.
  - simpl. rewrite lookup_insert_eq. by eexists.
Qed.

(** C38: a reader loses nothing. It reads from a stream that its workflow writes to meanwhile,
    and checks whether the workflow is over at other moments than it reads. If the
    workflow is over from some time on, then the reader ends, without an error, and has
    yielded exactly the values of the whole stream from its offset on, in their order, up
    to the one that closes it. *)
Theorem stream_reader_complete `{Codecs} (serializer : Serializer) world wid key T values offset fuel :
  stream_history serializer world wid key T values → offset ≤ length values →
  (length values - offset) + T + 2 ≤ fuel →
  stream_reader serializer fuel world wid key (Z.of_nat offset) false =
  (until_closed (drop offset values), Some (Ok tt)).
Proof.
  intros Hh Ho Hfuel. apply (stream_reader_from serializer world wid key T values Hh fuel world 0 offset false);
    [done|done|done|lia].
Qed.

#[local] Existing Instance sample_codecs.

(** A fork of a workflow whose steps write to a stream at the same time has a stream with
    a gap. A later step wrote first, an earlier one second, and the fork from the later step
    takes over the entry of the earlier step at the offset it has: there is nothing at the
    first offset, what a reader sees there is an error, and the next write goes behind the
    entry, not into the gap. *)
Lemma fork_stream_gap :
  ∃ d, sample_gap = Some (d, Ok ["f"]) ∧
    read_stream sample_serializer d "w" "k" 0 = Ok (PStr "five") ∧
    read_stream sample_serializer d "w" "k" 1 = Ok (PStr "four") ∧
    read_stream sample_serializer d "f" "k" 0 = Err (ValueError "No value found for workflow_uuid=f, key=k, offset=0") ∧
    read_stream sample_serializer d "f" "k" 1 = Ok (PStr "four") ∧
    next_offset "f" "k" d = 2%Z.
Proof. eexists. split; [vm_compute; reflexivity|]. by vm_compute. Qed.

(** ** The properties at concrete inputs *)

Lemma write_stream_exactly_once_witness :
  ∃ w slept, let d' := w.1.1 in
    db_retry 3 (faulty (λ i, write_stream_txn None id "w" 3 "k" "DBOS.writeStream" (sample_pickle (inl "v")) "sample" 1 2))
      (sample_stream ["a"] PENDING, [LostAfter; LostBefore], 0) = Some (w, Ok true, slept) ∧
    contiguous d' "w" "k" 2 ∧ read_stream sample_serializer d' "w" "k" 1 = Ok (PStr "v") ∧
    (∀ k, k ≠ ("w", "k", 1%Z) → streams d' !! k = streams (sample_stream ["a"] PENDING) !! k) ∧
    is_Some (operation_outputs d' !! ("w", 3%Z)).
Proof.
  refine (@write_stream_exactly_once sample_codecs sample_laws sample_serializer None "w" 3 "k" (PStr "v") None
    (sample_pickle (inl "v")) "sample" (λ _, 1%Z) (λ _, 2%Z) (sample_stream ["a"] PENDING) 1 (sample_row "w" PENDING)
    [LostAfter; LostBefore] sample_honest sample_reads_back eq_refl _ eq_refl _ eq_refl).
  - split; [done|]. intros i. unfold sample_stream. cbn. split.
    + intros [row Hrow]. apply lookup_insert_Some in Hrow as [[[= <-] _]|[_ Hrow]]; [lia|]. by rewrite lookup_empty in Hrow.
    + intros Hi. assert (i = 0)%Z as -> by lia. rewrite lookup_insert_eq. by eexists.
  - discriminate.
Defined.

Lemma set_event_then_get_event_witness :
  ∃ w slept, let d' := w.1.1 in
    db_retry 2 (faulty (λ i, set_event_from_workflow None sample_serializer 1 2 "w" 3 "k" (PStr "v") None))
      (sample_db [("w", sample_row "w" PENDING)], [LostAfter], 0) = Some (w, Ok tt, slept) ∧
    (∀ k, k ≠ ("w", "k") → workflow_events d' !! k = workflow_events empty_db !! k) ∧
    weh_value <$> workflow_events_history d' !! ("w", "k", 3%Z) = Some (sample_pickle (inl "v")) ∧
    (∀ fuel env interval t1 t2 t3 t4 t5 t6 t7 timeout p, pr_db p = d' →
       ∃ p', get_event None sample_serializer fuel env interval t1 t2 t3 t4 t5 t6 t7 "w" "k" timeout None p =
               Some (p', Ok (PStr "v"))).
Proof.
  refine (@set_event_then_get_event sample_codecs sample_laws sample_serializer None "w" 3 "k" (PStr "v") None
    (sample_pickle (inl "v")) "sample" (λ _, 1%Z) (λ _, 2%Z) (sample_db [("w", sample_row "w" PENDING)])
    (sample_row "w" PENDING) [LostAfter] sample_honest sample_reads_back eq_refl eq_refl _ eq_refl).
  discriminate.
Defined.

Lemma stream_reader_complete_witness :
  stream_history sample_serializer sample_stream_world "w" "k" 2 [PStr "a"; PStr "b"] ∧
  stream_reader sample_serializer 6 sample_stream_world "w" "k" 0 false = ([PStr "a"; PStr "b"], Some (Ok tt)).
Proof.
  assert (stream_history sample_serializer sample_stream_world "w" "k" 2 [PStr "a"; PStr "b"]) as Hh.
  { assert (∀ i, i < 2 → sample_stream_world i = sample_stream ["a"] PENDING) as Hearly
      by (intros [|[|i]] Hi; [done|done|lia]).
    assert (∀ i, 2 ≤ i → sample_stream_world i = sample_stream ["a"; "b"] SUCCESS) as Hlate
      by (intros [|[|i]] Hi; [lia|lia|done]).
    assert (∀ l s k row, streams (sample_stream l s) !! ("w", "k", Z.of_nat k) = Some row →
              ∃ v, l !! k = Some v ∧ row = {| st_value := sample_pickle (inl v); st_function_id := 1; st_serialization := Some "sample" |}) as Hrows.
    { intros l s k row Hrow. unfold sample_stream in Hrow. cbn in Hrow. apply elem_of_list_to_map_2 in Hrow.
      apply elem_of_lookup_imap in Hrow as (i & v & [= Hi ->] & Hv). assert (k = i) as -> by lia. by exists v. }
    split.
    - intros [|[|k]] v Hk i Hi; [..|discriminate]; rewrite Hlate by lia; injection Hk as <-; reflexivity.
    - intros i k row Hrow. destruct (decide (i < 2)) as [Hi|Hi].
      + rewrite Hearly in Hrow by done. apply Hrows in Hrow as (v & Hv & ->). destruct k as [|k]; [|discriminate].
        split; [simpl; lia|]. intros j _. destruct (decide (j < 2)); [rewrite Hearly by lia|rewrite Hlate by lia];
          injection Hv as <-; reflexivity.
      + rewrite Hlate in Hrow by lia. split.
        * apply Hrows in Hrow as (v & Hv & _). by apply lookup_lt_Some in Hv.
        * intros j Hj. by rewrite Hlate by lia.
    - intros i. destruct (decide (i < 2)); [rewrite Hearly by lia|rewrite Hlate by lia]; by eexists.
    - intros i r Hr Hi. rewrite Hlate in Hr by lia. injection Hr as <-. reflexivity.
    - intros i r j k Hr Ha Hij Hk. destruct (decide (i < 2)); [rewrite Hearly in Hr by lia; injection Hr as <-; discriminate|].
      rewrite Hlate by lia. destruct k as [|[|k]]; [by eexists..|simpl in Hk; lia]. }
  split; [exact Hh|].
  refine (stream_reader_complete sample_serializer sample_stream_world "w" "k" 2 [PStr "a"; PStr "b"] 0 6 Hh _ _); simpl; lia.
Defined.
