(* ===== verification/Exports.v ===== *)
(** * Export and import of workflows: [dbos/_sys_db.py]

    [export_workflow] reads what there is of a workflow, and of its descendants, but for
    messages: from the five tables with their rows and history; [import_workflow] inserts it into another database. Four of
    the tables hold rows that belong to a workflow, [ChildTable], and go the same way. *)
From S2P Require Import Prelude Errors Schema Retry Serialization Workflows.

(** A table with a foreign key to [workflow_status.workflow_uuid]. *)
Class ChildTable (K R : Type) `{Countable K} := {
  child_rows : db → gmap K R;
  set_child_rows : gmap K R → db → db;
  child_owner : K → string;
}.

#[export] Instance operation_outputs_table : ChildTable (string * Z) operation_outputs_row := {|
  child_rows := operation_outputs; set_child_rows t d := d <| operation_outputs := t |>; child_owner k := k.1 |}.
#[export] Instance workflow_events_table : ChildTable (string * string) workflow_events_row := {|
  child_rows := workflow_events; set_child_rows t d := d <| workflow_events := t |>; child_owner k := k.1 |}.
#[export] Instance workflow_events_history_table :
    ChildTable (string * string * Z) workflow_events_history_row := {|
  child_rows := workflow_events_history; set_child_rows t d := d <| workflow_events_history := t |>;
  child_owner k := k.1.1 |}.
#[export] Instance streams_table : ChildTable (string * string * Z) streams_row := {|
  child_rows := streams; set_child_rows t d := d <| streams := t |>; child_owner k := k.1.1 |}.

(** [INSERT] *)
Definition insert_child `{ChildTable K R} (k : K) (r : R) (d : db) : res pyexn (db * unit) :=
  match child_rows d !! k with
  | Some _ => Err UniqueViolation
  | None =>
      if workflow_exists d (child_owner k) then Ok (set_child_rows (<[k := r]> (child_rows d)) d, tt)
      else Err ForeignKeyViolation
  end.

(** The dictionary of a workflow's row; the keys that an import reads with [status.get] may
    be missing. The dictionaries of the other tables are their rows with their keys. *)
Record ExportedStatus := {
  xs_workflow_uuid : string; xs_status : WorkflowStatusString; xs_name : option string;
  xs_authenticated_user : option string; xs_assumed_role : option string;
  xs_authenticated_roles : option string; xs_output : option string; xs_error : option string;
  xs_executor_id : option string; xs_created_at : Z; xs_updated_at : Z;
  xs_application_version : option string; xs_application_id : option string;
  xs_class_name : option string; xs_config_name : option string; xs_recovery_attempts : option Z;
  xs_queue_name : option string; xs_workflow_timeout_ms : option Z;
  xs_workflow_deadline_epoch_ms : option Z; xs_started_at_epoch_ms : option Z;
  xs_deduplication_id : option string; xs_inputs : option string; xs_priority : Z;
  xs_queue_partition_key : option string; xs_forked_from : option string;
  xs_parent_workflow_id : option (option string); xs_serialization : option (option string);
  xs_delay_until_epoch_ms : option (option Z); xs_was_forked_from : option bool;
  xs_rate_limited : option bool; xs_completed_at : option (option Z);
  xs_attributes : option (option string); xs_schedule_name : option (option string);
  xs_debounce_deadline_epoch_ms : option (option Z); xs_is_debounced : option bool;
}.

(** [class ExportedWorkflow] *)
Record ExportedWorkflow := {
  xw_workflow_status : ExportedStatus;
  xw_operation_outputs : list ((string * Z) * operation_outputs_row);
  xw_workflow_events : list ((string * string) * workflow_events_row);
  xw_workflow_events_history : list ((string * string * Z) * workflow_events_history_row);
  xw_streams : list ((string * string * Z) * streams_row);
}.

(** ** Export *)

Definition exported_status (workflow_uuid : string) (r : workflow_status_row) : ExportedStatus := {|
  xs_workflow_uuid := workflow_uuid; xs_status := ws_status r; xs_name := ws_name r;
  xs_authenticated_user := ws_authenticated_user r; xs_assumed_role := ws_assumed_role r;
  xs_authenticated_roles := ws_authenticated_roles r; xs_output := ws_output r; xs_error := ws_error r;
  xs_executor_id := ws_executor_id r; xs_created_at := ws_created_at r; xs_updated_at := ws_updated_at r;
  xs_application_version := ws_application_version r; xs_application_id := ws_application_id r;
  xs_class_name := ws_class_name r; xs_config_name := ws_config_name r;
  xs_recovery_attempts := ws_recovery_attempts r; xs_queue_name := ws_queue_name r;
  xs_workflow_timeout_ms := ws_workflow_timeout_ms r;
  xs_workflow_deadline_epoch_ms := ws_workflow_deadline_epoch_ms r;
  xs_started_at_epoch_ms := ws_started_at_epoch_ms r; xs_deduplication_id := ws_deduplication_id r;
  xs_inputs := ws_inputs r; xs_priority := ws_priority r;
  xs_queue_partition_key := ws_queue_partition_key r; xs_forked_from := ws_forked_from r;
  xs_parent_workflow_id := Some (ws_parent_workflow_id r); xs_serialization := Some (ws_serialization r);
  xs_delay_until_epoch_ms := Some (ws_delay_until_epoch_ms r);
  xs_was_forked_from := Some (ws_was_forked_from r); xs_rate_limited := Some (ws_rate_limited r);
  xs_completed_at := Some (ws_completed_at r); xs_attributes := Some (ws_attributes r);
  xs_schedule_name := Some (ws_schedule_name r);
  xs_debounce_deadline_epoch_ms := Some (ws_debounce_deadline_epoch_ms r);
  xs_is_debounced := Some (ws_is_debounced r);
|}.
Definition exported_rows `{ChildTable K R} (workflow_id : string) (d : db) : list (K * R) :=
  sql_select (λ k _, bool_decide (child_owner k = workflow_id)) (child_rows d).

Definition export_one (d : db) (wf_id : string) : res pyexn ExportedWorkflow :=
  match workflow_status d !! wf_id with
  | None => Err (DBOSNonExistentWorkflowError "export" wf_id)
  | Some r => Ok {|
      xw_workflow_status := exported_status wf_id r;
      xw_operation_outputs := exported_rows wf_id d;
      xw_workflow_events := exported_rows wf_id d;
      xw_workflow_events_history := exported_rows wf_id d;
      xw_streams := exported_rows wf_id d |}
  end.

(** The descendants are read in transactions of their own, from [d0]; [None] when the search
    for them does not end. *)
Definition export_workflow (workflow_id : string) (export_children : bool) (d0 d : db) :
    option (res pyexn (list ExportedWorkflow)) :=
  children ← if export_children then get_workflow_children d0 workflow_id else Some [];
  Some (res_map (export_one d) (workflow_id :: children)).

(** ** Import *)

Definition imported_status (s : ExportedStatus) : workflow_status_row := {|
  ws_status := xs_status s; ws_name := xs_name s; ws_authenticated_user := xs_authenticated_user s;
  ws_assumed_role := xs_assumed_role s; ws_authenticated_roles := xs_authenticated_roles s;
  ws_output := xs_output s; ws_error := xs_error s; ws_executor_id := xs_executor_id s;
  ws_created_at := xs_created_at s; ws_updated_at := xs_updated_at s;
  ws_application_version := xs_application_version s; ws_application_id := xs_application_id s;
  ws_class_name := xs_class_name s; ws_config_name := xs_config_name s;
  ws_recovery_attempts := xs_recovery_attempts s; ws_queue_name := xs_queue_name s;
  ws_workflow_timeout_ms := xs_workflow_timeout_ms s;
  ws_workflow_deadline_epoch_ms := xs_workflow_deadline_epoch_ms s;
  ws_started_at_epoch_ms := xs_started_at_epoch_ms s; ws_deduplication_id := xs_deduplication_id s;
  ws_inputs := xs_inputs s; ws_priority := xs_priority s;
  ws_queue_partition_key := xs_queue_partition_key s; ws_forked_from := xs_forked_from s;
  ws_was_forked_from := default false (xs_was_forked_from s); ws_owner_xid := None;
  ws_parent_workflow_id := default None (xs_parent_workflow_id s);
  ws_serialization := default None (xs_serialization s);
  ws_delay_until_epoch_ms := default None (xs_delay_until_epoch_ms s);
  ws_rate_limited := default false (xs_rate_limited s);
  ws_completed_at := default None (xs_completed_at s); ws_attributes := default None (xs_attributes s);
  ws_schedule_name := default None (xs_schedule_name s);
  ws_debounce_deadline_epoch_ms := default None (xs_debounce_deadline_epoch_ms s);
  ws_is_debounced := default false (xs_is_debounced s);
|}.

Definition import_rows `{ChildTable K R} (l : list (K * R)) : txn unit :=
  for_each l (λ kr, execute_res (insert_child kr.1 kr.2)).

Definition import_one (workflow : ExportedWorkflow) : txn unit :=
  let status := xw_workflow_status workflow in
  _ ← execute_res (insert_workflow_row (xs_workflow_uuid status) (imported_status status));
  _ ← import_rows (xw_operation_outputs workflow);
  _ ← import_rows (xw_workflow_events workflow);
  _ ← import_rows (xw_workflow_events_history workflow);
  import_rows (xw_streams workflow).

Definition import_workflow (workflows : list ExportedWorkflow) : dbM unit := engine_begin (for_each workflows import_one).

(** ** What an import is meant to do

    The rows of a table that belong to the workflows [ids], beside the rows of another. *)
Definition grafted `{ChildTable K R} (ids : list string) (d d2 : db) : gmap K R :=
  filter (λ kr, child_owner kr.1 ∈ ids) (child_rows d) ∪ child_rows d2.

(** The workflows [ids] of [d], with all that belongs to them but their messages and the
    transaction that owns their row, beside what is in [d2]. *)
Definition graft (ids : list string) (d d2 : db) : db :=
  d2 <| workflow_status := filter (λ kr, kr.1 ∈ ids) ((λ r, r <| ws_owner_xid := None |>) <$> workflow_status d) ∪
                             workflow_status d2 |>
     <| operation_outputs := grafted ids d d2 |> <| workflow_events := grafted ids d d2 |>
     <| workflow_events_history := grafted ids d d2 |> <| streams := grafted ids d d2 |>.

(** The workflows of an export. *)
Definition exported_ids (workflows : list ExportedWorkflow) : list string :=
  (λ x, xs_workflow_uuid (xw_workflow_status x)) <$> workflows.

(** Nothing in [d2] is in the way of the workflows [ids] of [d]: neither their rows nor
    their deduplication IDs are taken. *)
Definition importable (ids : list string) (d d2 : db) : Prop :=
  ∀ id, id ∈ ids → workflow_status d2 !! id = None ∧
    ∀ r, workflow_status d !! id = Some r →
      dedup_taken (workflow_status d2) (ws_queue_name r) (ws_deduplication_id r) = false.

(** A sample: a workflow with a child, and a checkpoint. *)
Definition sample_family : db :=
  (sample_db [("w", sample_row "w" SUCCESS); ("c", (sample_row "c" SUCCESS) <| ws_parent_workflow_id := Some "w" |>)])
    <| operation_outputs := {[("c", 1%Z) := {|
         oo_function_name := "f"; oo_output := Some "x"; oo_error := None; oo_child_workflow_id := None;
         oo_started_at_epoch_ms := Some 1%Z; oo_completed_at_epoch_ms := Some 2%Z; oo_serialization := None |}]} |>.

(** ** Lemmas *)

Lemma lookup_filter_union `{Countable K} {R} (P : K → Prop) `{∀ k, Decision (P k)} (t t' : gmap K R) k :
  (filter (λ kr, P kr.1) t ∪ t') !! k =
  match t !! k with Some r => if decide (P k) then Some r else t' !! k | None => t' !! k end.
Proof.
  rewrite lookup_union, map_lookup_filter. destruct (t !! k) as [r|]; simpl; [|by destruct (t' !! k)].
  destruct (decide (P k)); [rewrite option_guard_True by done|rewrite option_guard_False by done]; by destruct (t' !! k).
Qed.

Class ChildTableLaws (K R : Type) `{ChildTable K R} : Prop := {
  child_rows_set t d : child_rows (set_child_rows t d) = t;
  child_status_set t d : workflow_status (set_child_rows t d) = workflow_status d;
  child_set_set t t' d : set_child_rows t (set_child_rows t' d) = set_child_rows t d;
  child_set_rows d : set_child_rows (child_rows d) d = d;
  child_fk d k r : fk_valid d → child_rows d !! k = Some r → is_Some (workflow_status d !! child_owner k);
}.

#[export] Instance operation_outputs_laws : ChildTableLaws (string * Z) operation_outputs_row.
Proof. split; try done; [by intros []|]. intros d k r Hd. by apply fk_operation_outputs. Qed.
#[export] Instance workflow_events_laws : ChildTableLaws (string * string) workflow_events_row.
Proof. split; try done; [by intros []|]. intros d k r Hd. by apply fk_workflow_events. Qed.
#[export] Instance workflow_events_history_laws : ChildTableLaws (string * string * Z) workflow_events_history_row.
Proof. split; try done; [by intros []|]. intros d k r Hd. by apply fk_workflow_events_history. Qed.
#[export] Instance streams_laws : ChildTableLaws (string * string * Z) streams_row.
Proof. split; try done; [by intros []|]. intros d k r Hd. by apply fk_streams. Qed.

Section child_table.
Context `{ChildTableLaws K R}.
Implicit Types (l : list (K * R)) (d : db).

Lemma import_rows_ok l c :
  NoDup l.*1 →
  (∀ k, k ∈ l.*1 → child_rows (current c) !! k = None ∧ is_Some (workflow_status (current c) !! child_owner k)) →
  import_rows l c =
  (Conn (committed c) (set_child_rows (list_to_map l ∪ child_rows (current c)) (current c)), Ok tt).
Proof.
  revert c. induction l as [|[k r] l IH]; intros [c d] Hnd Hl; cbn [current committed] in *.
  { simpl. by rewrite (left_id_L ∅ (∪)), child_set_rows. }
  apply NoDup_cons in Hnd as [Hk Hnd]. destruct (Hl k ltac:(left)) as [Hfree [w Hw]].
  unfold import_rows. cbn [for_each]. erewrite bind_Ok; [fold (import_rows l)|].
  2:{ unfold execute_res, insert_child. cbn [current committed fst snd]. unfold workflow_exists.
      by rewrite Hfree, Hw, bool_decide_eq_true_2 by eauto. }
  rewrite IH; cbn [current committed]; [|done|].
  - rewrite child_rows_set, child_set_set. cbn [list_to_map foldr uncurry].
    rewrite <- insert_union_r by (by apply not_elem_of_list_to_map). by rewrite <- insert_union_l.
  - intros k' Hk'. rewrite child_rows_set, child_status_set.
    rewrite lookup_insert_ne by (intros ->; done). apply Hl. by right.
Qed.

Lemma elem_of_exported_rows id d k r :
  (k, r) ∈ exported_rows id d ↔ child_rows d !! k = Some r ∧ child_owner k = id.
Proof. unfold exported_rows. by rewrite elem_of_sql_select, bool_decide_eq_true. Qed.

Lemma lookup_grafted ids d d2 k :
  grafted ids d d2 !! k =
  match child_rows d !! k with
  | Some r => if decide (child_owner k ∈ ids) then Some r else child_rows d2 !! k
  | None => child_rows d2 !! k
  end.
Proof. exact (lookup_filter_union (R := R) (λ k : K, child_owner k ∈ ids) (child_rows d) (child_rows d2) k). Qed.

Lemma grafted_nil d d2 : grafted [] d d2 = child_rows d2.
Proof.
  apply map_eq. intros k. rewrite lookup_grafted.
  destruct (child_rows d !! k); [by rewrite decide_False by apply not_elem_of_nil|done].
Qed.

(** The rows of one more workflow. *)
Lemma import_grafted id ids d d2 :
  fk_valid d2 → workflow_status d2 !! id = None → id ∉ ids →
  (∀ k, k ∈ (exported_rows id d).*1 → grafted ids d d2 !! k = None) ∧
  list_to_map (exported_rows id d) ∪ grafted ids d d2 = grafted (ids ++ [id]) d d2.
Proof.
  intros Hfk Hid Hids.
  assert (∀ k, child_owner k = id → child_rows d2 !! k = None) as Hd2.
  { intros k Hk. destruct (child_rows d2 !! k) as [r|] eqn:Hr; [|done]. apply (child_fk d2) in Hr as [w Hw]; [|done].
    congruence. }
  assert (NoDup (exported_rows id d).*1) as Hnd by apply NoDup_sql_select_keys. split.
  - intros k ([k' r] & -> & [Hr Hk]%elem_of_exported_rows)%list_elem_of_fmap. simpl in *.
    rewrite lookup_grafted, Hr, decide_False by (by rewrite Hk). by apply Hd2.
  - apply map_eq. intros k. rewrite lookup_union, lookup_grafted. rewrite lookup_grafted.
    destruct (list_to_map (exported_rows id d) !! k) as [r|] eqn:Hl.
    + apply elem_of_list_to_map_2, elem_of_exported_rows in Hl as [Hr Hk]. rewrite Hr.
      rewrite (decide_False (P := child_owner k ∈ ids)) by (by rewrite Hk). rewrite Hd2 by done.
      rewrite decide_True; [done|]. rewrite Hk. apply elem_of_app. right. by left.
    + rewrite (left_id None _). destruct (child_rows d !! k) as [r|] eqn:Hr; [|done].
      assert (child_owner k ≠ id) as Hk.
      { intros Hk. apply not_elem_of_list_to_map in Hl. apply Hl. apply list_elem_of_fmap. exists (k, r).
        split; [done|]. by apply elem_of_exported_rows. }
      apply decide_ext. rewrite elem_of_app, list_elem_of_singleton. tauto.
Qed.

End child_table.

Lemma lookup_graft_status ids d d2 id :
  workflow_status (graft ids d d2) !! id =
  match workflow_status d !! id with
  | Some r => if decide (id ∈ ids) then Some (r <| ws_owner_xid := None |>) else workflow_status d2 !! id
  | None => workflow_status d2 !! id
  end.
Proof.
  unfold graft. cbn. etrans; [exact (lookup_filter_union (λ k : string, k ∈ ids) _ _ id)|]. rewrite lookup_fmap. by destruct (workflow_status d !! id).
Qed.

Lemma graft_nil d d2 : graft [] d d2 = d2.
Proof.
  assert (workflow_status (graft [] d d2) = workflow_status d2) as Hws.
  { apply map_eq. intros id. rewrite lookup_graft_status.
    destruct (workflow_status d !! id); [by rewrite decide_False by apply not_elem_of_nil|done]. }
  unfold graft in *. rewrite !grafted_nil. cbn in Hws. rewrite Hws. by destruct d2.
Qed.

(** The row of an exported workflow goes into the graft. *)
Lemma insert_imported id ids d d2 r :
  schema_valid d → id ∉ ids → importable (ids ++ [id]) d d2 → workflow_status d !! id = Some r →
  insert_workflow_row id (imported_status (exported_status id r)) (graft ids d d2) =
  Ok ((graft ids d d2) <| workflow_status := <[id := r <| ws_owner_xid := None |>]> (workflow_status (graft ids d d2)) |>, tt).
Proof.
  intros [Hu _] Hid Himp Hr. destruct (Himp id) as [Hd2 Hdd]; [apply elem_of_app; right; by left|].
  unfold insert_workflow_row. rewrite lookup_graft_status, Hr, decide_False, Hd2 by done.
  replace (imported_status (exported_status id r)) with (r <| ws_owner_xid := None |>) by (by destruct r).
  enough (dedup_taken (workflow_status (graft ids d d2)) (ws_queue_name r) (ws_deduplication_id r) = false) as Hfree.
  { change (ws_queue_name (r <| ws_owner_xid := None |>)) with (ws_queue_name r).
    change (ws_deduplication_id (r <| ws_owner_xid := None |>)) with (ws_deduplication_id r). by rewrite Hfree. }
  specialize (Hdd r Hr). unfold dedup_taken in *. destruct (ws_queue_name r) as [q|] eqn:Hq; [|done].
  destruct (ws_deduplication_id r) as [i|] eqn:Hi; [|done].
  apply bool_decide_eq_false, dec_stable in Hdd. apply bool_decide_eq_false. intros Hne. apply Hne. clear Hne.
  rewrite sql_select_nil in *. intros id' r' Hr'. rewrite lookup_graft_status in Hr'.
  destruct (workflow_status d !! id') as [r0|] eqn:Hr0; [|by eapply Hdd].
  destruct (decide (id' ∈ ids)) as [Hin|]; [|by eapply Hdd]. injection Hr' as <-. simpl.
  apply andb_false_iff. unfold sql_eq. destruct (decide (ws_queue_name r0 = Some q)) as [Hq0|]; [right|left; by apply bool_decide_eq_false].
  apply bool_decide_eq_false. intros Hi0. by assert (id' = id) as -> by (by eapply Hu).
Qed.

Lemma import_one_graft id ids d d2 x c :
  schema_valid d → fk_valid d2 → id ∉ ids → importable (ids ++ [id]) d d2 →
  export_one d id = Ok x → current c = graft ids d d2 →
  import_one x c = (Conn (committed c) (graft (ids ++ [id]) d d2), Ok tt).
Proof.
  intros Hd Hfk Hid Himp Hx Hc. unfold export_one in Hx.
  destruct (workflow_status d !! id) as [r|] eqn:Hr; [|done]. injection Hx as <-.
  destruct c as [c0 c]. cbn [current committed] in *. subst c.
  destruct (Himp id) as [Hd2 _]; [apply elem_of_app; right; by left|].
  unfold import_one. cbv zeta. cbn [xw_workflow_status xw_operation_outputs xw_workflow_events xw_workflow_events_history xw_streams].
  etrans; [eapply (bind_Ok (S := conn) (E := pyexn)); unfold execute_res; cbn [current committed xs_workflow_uuid exported_status];
    by rewrite (insert_imported id ids d d2 r)|]. cbn [current committed].
  set (D := (graft ids d d2) <| workflow_status := _ |>).
  assert (∀ K R `{ChildTableLaws K R} d1 c1, workflow_status d1 = workflow_status D → child_rows d1 = grafted ids d d2 →
    import_rows (exported_rows id d) (Conn c1 d1) = (Conn c1 (set_child_rows (grafted (ids ++ [id]) d d2) d1), Ok tt)) as Hrows.
  { intros K R ???? d1 c1 Hst Hrows. destruct (import_grafted (K := K) (R := R) id ids d d2 Hfk Hd2 Hid) as [Hfree Heq].
    rewrite import_rows_ok; cbn [current committed]; [by rewrite Hrows, Heq|apply NoDup_sql_select_keys|].
    intros k Hk. rewrite Hrows, Hst. split; [by apply Hfree|].
    apply list_elem_of_fmap in Hk as ([k' r'] & -> & [_ <-]%elem_of_exported_rows). unfold D. cbn. rewrite lookup_insert_eq. by eexists. }
  do 3 (etrans; [eapply (bind_Ok (S := conn) (E := pyexn)); apply Hrows; [apply _|done..]|cbv beta]).
  etrans; [apply Hrows; [apply _|done..]|].
  assert (<[id := r <| ws_owner_xid := None |>]> (workflow_status (graft ids d d2)) =
          workflow_status (graft (ids ++ [id]) d d2)) as Hws.
  { apply map_eq. intros id'. destruct (decide (id = id')) as [<-|Hne].
    - rewrite lookup_insert_eq, lookup_graft_status, Hr, decide_True; [done|]. apply elem_of_app. right. by left.
    - rewrite lookup_insert_ne, !lookup_graft_status by done. destruct (workflow_status d !! id'); [|done].
      apply decide_ext. rewrite elem_of_app, list_elem_of_singleton. naive_solver. }
  unfold D. rewrite Hws. by unfold graft.
Qed.

(** The imports of the workflows of an export, one after the other. *)
Lemma import_all_graft d d2 ids : ∀ done xs c,
  schema_valid d → fk_valid d2 → NoDup (done ++ ids) → importable (done ++ ids) d d2 →
  res_map (export_one d) ids = Ok xs → current c = graft done d d2 →
  for_each xs import_one c = (Conn (committed c) (graft (done ++ ids) d d2), Ok tt).
Proof.
  induction ids as [|id ids IH]; intros done xs c Hd Hfk Hnd Himp Hxs Hc; cbn [res_map] in Hxs.
  { injection Hxs as <-. rewrite app_nil_r, <- Hc. by destruct c. }
  destruct (export_one d id) as [x|] eqn:Hx; [|done]. destruct (res_map (export_one d) ids) as [xs'|] eqn:Hxs'; [|done].
  injection Hxs as <-. rewrite (cons_middle id done ids), (assoc_L (++)) in Hnd, Himp |- *.
  assert (import_one x c = (Conn (committed c) (graft (done ++ [id]) d d2), Ok tt)) as Hone.
  { apply import_one_graft; try assumption.
    - apply NoDup_app in Hnd as [Hnd _]. apply NoDup_app in Hnd as (_ & Hout & _). intros Hin.
      apply (Hout _ Hin). by left.
    - intros i Hi. apply Himp. apply elem_of_app. by left. }
  cbn [for_each]. etrans; [apply (bind_Ok (S := conn) (E := pyexn)); exact Hone|].
  by apply (IH (done ++ [id]) xs' (Conn (committed c) (graft (done ++ [id]) d d2))).
Qed.

Lemma exported_ids_of d ids xs : res_map (export_one d) ids = Ok xs → exported_ids xs = ids.
Proof.
  revert xs. induction ids as [|id ids IH]; intros xs; cbn [res_map]; [by intros [= <-]|].
  unfold export_one at 1. destruct (workflow_status d !! id) as [r|]; [|done].
  destruct (res_map (export_one d) ids) as [xs'|]; [|done]. intros [= <-].
  unfold exported_ids in *. cbn. by rewrite IH.
Qed.

(** ** Properties *)

(** The workflows of an export, found in the transactions of [d0]: the search for them ends. *)
Lemma export_children root (children : bool) d0 :
  ¬ tc (child_of d0) root root →
  ∃ R, (if children then get_workflow_children d0 root else Some []) = Some R ∧ NoDup (root :: R) ∧
    ∀ i, i ∈ root :: R ↔ i = root ∨ (children = true ∧ tc (child_of d0) root i).
Proof.
  intros Hacyclic. destruct children.
  2:{ exists []. split; [done|]. split; [apply NoDup_singleton|]. intros i. rewrite elem_of_cons, elem_of_nil. naive_solver. }
  destruct (get_workflow_children_reachable d0 root) as (R & HR & Hin). exists R. split; [done|].
  split; [|intros i; rewrite elem_of_cons, Hin; naive_solver]. apply NoDup_cons. split; [by rewrite Hin|].
  unfold get_workflow_children in HR. destruct (search _ _ _ _ _ _) as [[R' d']|] eqn:Hs; [|done].
  injection HR as ->. eapply search_NoDup; [|apply NoDup_nil_2|exact Hs].
  intros s [|w ws]; [apply NoDup_nil_2|apply NoDup_sql_select_keys].
Qed.

Lemma export_missing d ids e :
  res_map (export_one d) ids = Err e →
  ∃ id, id ∈ ids ∧ workflow_status d !! id = None ∧ e = DBOSNonExistentWorkflowError "export" id.
Proof.
  induction ids as [|id ids IH]; cbn [res_map]; [done|]. unfold export_one at 1.
  destruct (workflow_status d !! id) as [r|] eqn:Hr.
  - destruct (res_map (export_one d) ids) as [xs|e']; [done|]. intros [= ->].
    destruct (IH eq_refl) as (i & Hi & Hn & He). exists i. split_and!; [by right|done..].
  - intros [= <-]. exists id. split_and!; [by left|done..].
Qed.

(** C33: an import undoes an export, but for messages. The export of a workflow, with its
    descendants if they were asked for, always ends: with the error of a workflow of them that
    is not there any more, or with exactly them. Imported into another database where nothing is
    in the way, each of them is there with its row, up to the transaction that owned it, its
    checkpoints, events, their history and its stream entries; its messages are not, and
    nothing else of the other database changes. *)
Theorem export_import_round_trip root children d0 d d2 :
  schema_valid d → schema_valid d2 → ¬ tc (child_of d0) root root →
  let exported id := id = root ∨ (children = true ∧ tc (child_of d0) root id) in
  ∃ r, export_workflow root children d0 d = Some r ∧
    match r with
    | Err e => ∃ id, exported id ∧ workflow_status d !! id = None ∧ e = DBOSNonExistentWorkflowError "export" id
    | Ok xs => (∀ id, id ∈ exported_ids xs ↔ exported id) ∧
        (importable (exported_ids xs) d d2 →
           import_workflow xs d2 = (graft (exported_ids xs) d d2, Ok tt) ∧
           notifications (import_workflow xs d2).1 = notifications d2)
    end.
Proof.
  intros Hd [_ Hfk] Hacyclic exported. destruct (export_children root children d0 Hacyclic) as (R & HR & Hnd & Hin).
  unfold export_workflow. rewrite HR. cbn [mbind option_bind]. eexists. split; [reflexivity|].
  destruct (res_map (export_one d) (root :: R)) as [xs|e] eqn:Hxs.
  - rewrite (exported_ids_of _ _ _ Hxs). split; [exact Hin|]. intros Himp.
    assert (import_workflow xs d2 = (graft (root :: R) d d2, Ok tt)) as Hi.
    { unfold import_workflow, engine_begin.
      by rewrite (import_all_graft d d2 (root :: R) [] xs (Conn d2 d2) Hd Hfk Hnd Himp Hxs) by (symmetry; apply graft_nil). }
    split; [exact Hi|]. by rewrite Hi.
  - destruct (export_missing _ _ _ Hxs) as (id & Hid & Hn & He). exists id. split; [by apply Hin|done].
Qed.

(** What the other processes send to a workflow before it is exported does not arrive at its copy. *)
Definition sample_lettered : db :=
  sample_family <| notifications := {["m" := NotificationsRow "w" None "hello" 1 None false]} |>.

Lemma messages_not_exported :
  ∃ xs d', export_workflow "w" true sample_lettered sample_lettered = Some (Ok xs) ∧
    import_workflow xs empty_db = (d', Ok tt) ∧ is_Some (workflow_status d' !! "w") ∧
    is_Some (notifications sample_lettered !! "m") ∧ notifications d' = ∅.
Proof. do 2 eexists. split_and!; [vm_compute; reflexivity|vm_compute; reflexivity|by eexists|by eexists|reflexivity]. Qed.

(** An import that is refused changes nothing. *)
Lemma import_all_or_nothing xs d d' e : import_workflow xs d = (d', Err e) → d' = d.
Proof.
  apply engine_begin_Err. apply moves_for_each; [apply _|]. intros x.
  assert (∀ K R `{ChildTable K R} (l : list (K * R)), moves same_committed (import_rows l)) as Hrows.
  { intros K R ??? l. apply moves_for_each; [apply _|]. auto with moves. }
  unfold import_one. repeat (apply moves_bind; [apply _|auto with moves|intros _]). apply Hrows.
Qed.

(** ** The round trip at a concrete input *)

Lemma export_import_round_trip_witness :
  match export_workflow "w" true sample_family sample_family with
  | Some (Ok xs) =>
      exported_ids xs = ["w"; "c"] ∧ import_workflow xs empty_db = (graft ["w"; "c"] sample_family empty_db, Ok tt) ∧
      is_Some (operation_outputs (graft ["w"; "c"] sample_family empty_db) !! ("c", 1%Z))
  | _ => False
  end.
Proof.
  assert (∀ id r, workflow_status sample_family !! id = Some r →
    ws_deduplication_id r = None ∧ (ws_parent_workflow_id r ≠ None → id = "c")) as Hrows.
  { intros id r Hr. unfold sample_family in Hr. cbn in Hr.
    apply lookup_insert_Some in Hr as [[<- <-]|[_ [[<- <-]|[_ Hr]]%lookup_insert_Some]]; [done|done|].
    by rewrite lookup_empty in Hr. }
  assert (schema_valid sample_family) as Hvalid.
  { split; [intros id1 id2 r1 r2 q i H1 H2 _ _ Hi; by rewrite (proj1 (Hrows _ _ H1)) in Hi|].
    split; unfold sample_family; cbn; try (intros k r Hk; by rewrite lookup_empty in Hk).
    intros k r [<- _]%lookup_singleton_Some. by eexists. }
  assert (∀ x y, tc (child_of sample_family) x y → y = "c") as Htc.
  { intros x y. induction 1 as [x y (r & Hr & Hp)|]; [|done]. apply (Hrows _ _ Hr). by rewrite Hp. }
  destruct (export_import_round_trip "w" true sample_family sample_family empty_db Hvalid empty_db_schema_valid) as (res & Hx & Hres).
  { intros Hw%Htc. discriminate. }
  rewrite Hx. destruct res as [xs|e]; [|vm_compute in Hx; discriminate].
  assert (exported_ids xs = ["w"; "c"]) as Hids by (vm_compute in Hx; injection Hx as <-; reflexivity).
  destruct Hres as [_ Himp]. destruct Himp as [Himp _].
  - intros id _. split; [apply lookup_empty|]. intros r Hr. rewrite (proj1 (Hrows _ _ Hr)). by destruct (ws_queue_name r).
  - rewrite Hids in Himp. split; [exact Hids|]. split; [exact Himp|]. by eexists.
Defined.
