(* ===== verification/Schedules.v ===== *)
(** * Schedules and application versions: [dbos/_sys_db.py], [dbos/_scheduler.py]

    The rows of [workflow_schedules] and [application_versions], the executions that the
    scheduler enqueues, live ([fire]) or late ([backfill_schedule]), and the loop that keeps a
    thread for every active schedule ([scheduler_round]). A [datetime] is its instant in
    milliseconds. [Cron] is the vendored cron library with the time zones: the next instant of
    an expression after another one, and the ISO text of an instant. *)
From Stdlib Require Import Ascii String.
From S2P Require Import Prelude Errors Schema Retry Serialization Workflows.
Open Scope nat_scope.
Open Scope string_scope.

Class Cron := {
  ZoneInfo : string → res pyexn unit;
  croniter : string → option string → res pyexn unit;
  get_next : string → option string → Z → res pyexn Z;
  isoformat : option string → Z → string;
  fromisoformat : string → res pyexn Z;
}.

(** What the documentation of the two says: the next instant is a later one, and different
    instants have different texts. *)
Class CronLaws `{Cron} : Prop := {
  get_next_later cron tz t t' : get_next cron tz t = Ok t' → (t < t')%Z;
  isoformat_inj tz t t' : isoformat tz t = isoformat tz t' → t = t';
}.

(** ** Rows of schedules *)

(** [class WorkflowSchedule]: the row and its key; a key that may be missing from the
    dictionary has the value that [get] answers. *)
Notation WorkflowSchedule := (string * workflow_schedules_row)%type.

(** The row of a name, which is unique. *)
Definition schedule_named (name : string) (d : db) : option WorkflowSchedule :=
  head (sql_select (λ _ r, bool_decide (sc_schedule_name r = name)) (workflow_schedules d)).

Definition insert_schedule_row (s : WorkflowSchedule) (d : db) : res pyexn (db * unit) :=
  match workflow_schedules d !! s.1, schedule_named (sc_schedule_name s.2) d with
  | None, None => Ok (d <| workflow_schedules := <[s.1 := s.2]> (workflow_schedules d) |>, tt)
  | _, _ => Err UniqueViolation
  end.

Definition create_schedule (schedule : WorkflowSchedule) : txn unit :=
  try_except (execute_res (insert_schedule_row schedule))
    (λ e, match e with
          | UniqueViolation | ForeignKeyViolation =>
              Some (raise (DBOSException ("Schedule '" +:+ sc_schedule_name schedule.2 +:+ "' already exists")))
          | _ => None
          end).

(** The columns an upsert sets on a schedule that is there. *)
Definition redefined (s r : workflow_schedules_row) : workflow_schedules_row :=
  r <| sc_workflow_name := sc_workflow_name s |> <| sc_workflow_class_name := sc_workflow_class_name s |>
    <| sc_schedule := sc_schedule s |> <| sc_context := sc_context s |>
    <| sc_automatic_backfill := sc_automatic_backfill s |> <| sc_cron_timezone := sc_cron_timezone s |>
    <| sc_queue_name := sc_queue_name s |>.

Definition upsert_schedule (schedule : WorkflowSchedule) : txn unit := execute_res (λ d,
  match schedule_named (sc_schedule_name schedule.2) d with
  | Some (id, r) => Ok (d <| workflow_schedules := <[id := redefined schedule.2 r]> (workflow_schedules d) |>, tt)
  | None => insert_schedule_row schedule d
  end).

(** [LIKE], with [%], [_] and the escape [\]. *)
Fixpoint sql_like (p s : list ascii) {struct p} : bool :=
  match p with
  | [] => match s with [] => true | _ => false end
  | "%"%char :: p' =>
      (fix any (s : list ascii) := sql_like p' s || match s with [] => false | _ :: s' => any s' end) s
  | "_"%char :: p' => match s with [] => false | _ :: s' => sql_like p' s' end
  | "\"%char :: c :: p' => match s with x :: s' => bool_decide (x = c) && sql_like p' s' | [] => false end
  | c :: p' => match s with x :: s' => bool_decide (x = c) && sql_like p' s' | [] => false end
  end.

(** SQLAlchemy's [startswith]: [LIKE p || '%'], the characters of [p] as they are. *)
Definition sql_startswith (s p : string) : bool :=
  sql_like (String.list_ascii_of_string p ++ ["%"%char])%list (String.list_ascii_of_string s).

Definition list_schedules (status workflow_name schedule_name_prefix : option (list string)) (d : db) : list WorkflowSchedule :=
  sql_select (λ _ r,
    match status with Some l => bool_decide (sc_status r ∈ l) | None => true end &&
    match workflow_name with Some l => bool_decide (sc_workflow_name r ∈ l) | None => true end &&
    match schedule_name_prefix with
    | Some [] | None => true
    | Some l => existsb (sql_startswith (sc_schedule_name r)) l
    end) (workflow_schedules d).

Definition get_schedule (name : string) (d : db) : option WorkflowSchedule := schedule_named name d.

Definition update_schedule (name : string) (f : workflow_schedules_row → workflow_schedules_row) : txn unit :=
  execute (λ d, d <| workflow_schedules := sql_update (λ _ r, bool_decide (sc_schedule_name r = name)) f (workflow_schedules d) |>).

Definition set_schedule_status (name status : string) : txn unit := update_schedule name (λ r, r <| sc_status := status |>).
Definition pause_schedule (name : string) : txn unit := set_schedule_status name "PAUSED".
Definition resume_schedule (name : string) : txn unit := set_schedule_status name "ACTIVE".
Definition update_last_fired_at (name last_fired_at : string) : dbM unit :=
  engine_begin (update_schedule name (λ r, r <| sc_last_fired_at := Some last_fired_at |>)).

Definition delete_schedule (name : string) : txn unit :=
  execute (λ d, d <| workflow_schedules := sql_delete (λ _ r, bool_decide (sc_schedule_name r = name)) (workflow_schedules d) |>).

(** ** Application versions *)

(** [version_id] is the generated ID, [now] the database's clock, the default of the two
    columns of times. *)
Definition create_application_version (now : Z) (version_id version_name : string) : dbM unit :=
  engine_begin (execute_res (λ d,
    match sql_select (λ _ r, bool_decide (av_version_name r = version_name)) (application_versions d) with
    | _ :: _ => Ok (d, tt)
    | [] =>
        match application_versions d !! version_id with
        | Some _ => Err UniqueViolation
        | None => Ok (d <| application_versions := <[version_id := {|
                           av_version_name := version_name; av_version_timestamp := now; av_created_at := now |}]>
                         (application_versions d) |>, tt)
        end
    end)).

Definition update_application_version_timestamp (version_name : string) (new_timestamp : Z) : dbM unit :=
  engine_begin (execute (λ d, d <| application_versions :=
    sql_update (λ _ r, bool_decide (av_version_name r = version_name)) (λ r, r <| av_version_timestamp := new_timestamp |>)
      (application_versions d) |>)).

Definition list_application_versions (d : db) : list (string * application_versions_row) :=
  sql_order_by (λ a b, Z.leb (av_version_timestamp b.2) (av_version_timestamp a.2)) (map_to_list (application_versions d)).

Definition get_latest_application_version (d : db) : res pyexn (string * application_versions_row) :=
  match list_application_versions d with
  | [] => Err (DBOSException "No application versions found")
  | v :: _ => Ok v
  end.

(** ** Scheduled executions *)

Section scheduler.
Context (serializer : Serializer) `{Cron}.

Definition scheduled_status (latest inputs : string) (workflow_name workflow_id schedule_name : string)
    (class_name queue_name : option string) : WorkflowStatusInternal := {|
  wi_workflow_uuid := workflow_id; wi_status := ENQUEUED; wi_name := Some workflow_name; wi_class_name := class_name;
  wi_queue_name := Some (match queue_name with Some q => if bool_decide (q = "") then INTERNAL_QUEUE_NAME else q
                                            | None => INTERNAL_QUEUE_NAME end);
  wi_app_version := Some latest; wi_config_name := None; wi_authenticated_user := None; wi_assumed_role := None;
  wi_authenticated_roles := None; wi_output := None; wi_error := None; wi_created_at := None; wi_updated_at := None;
  wi_executor_id := None; wi_recovery_attempts := None; wi_app_id := None; wi_workflow_timeout_ms := None;
  wi_workflow_deadline_epoch_ms := None; wi_deduplication_id := None; wi_priority := 0; wi_inputs := Some inputs;
  wi_serialization := None; wi_queue_partition_key := None; wi_forked_from := None; wi_parent_workflow_id := None;
  wi_started_at_epoch_ms := None; wi_owner_xid := None; wi_delay_until_epoch_ms := None; wi_attributes := None;
  wi_schedule_name := Some schedule_name; wi_debounce_deadline_epoch_ms := None; wi_is_debounced := false;
|}.

(** [_enqueue_scheduled_workflow]; [now] is the database's clock. *)
Definition enqueue_scheduled_workflow (now : Z) (workflow_name : string) (scheduled_at : Z) (workflow_id schedule_name : string)
    (context : pyval) (class_name queue_name : option string) : dbM unit :=
  latest ← engine_begin (v ← query get_latest_application_version; lift_res v);
  inputs ← lift_res (ser_serialize serializer (native_args_val {| args := [PDatetime scheduled_at; context]; kwargs := [] |}));
  _ ← init_workflow now (scheduled_status (av_version_name latest.2) inputs workflow_name workflow_id schedule_name class_name queue_name)
        None None false false;
  mret tt.

(** The workflow ID of an execution. *)
Definition scheduled_id (schedule_name : string) (tz : option string) (t : Z) : string :=
  "sched-" +:+ schedule_name +:+ "-" +:+ isoformat tz t.

(** [if not sys_db.get_workflow_status(workflow_id): _enqueue_scheduled_workflow(...)] *)
Definition enqueue_unless_there (now : Z) (workflow_name : string) (t : Z) (workflow_id schedule_name : string)
    (context : pyval) (class_name queue_name : option string) : dbM unit :=
  there ← gets (λ d, get_workflow_status d workflow_id);
  match there with
  | Some _ => mret tt
  | None => enqueue_scheduled_workflow now workflow_name t workflow_id schedule_name context class_name queue_name
  end.

(** A time zone by its name; the empty one is none. *)
Definition zone (tz_name : option string) : option string :=
  match tz_name with Some n => if bool_decide (n = "") then None else Some n | None => None end.

Definition check_zone (tz_name : option string) : res pyexn unit :=
  match zone tz_name with Some n => ZoneInfo n | None => Ok tt end.

(** The loop of [backfill_schedule] from the time [t] on; [nows i] is the database's clock at
    the [i]th enqueue; [None] when the fuel ends first. *)
Fixpoint backfill_loop (fuel : nat) (nows : nat → Z) (s : workflow_schedules_row) (context : pyval) (t end_time : Z)
    (workflow_ids : list string) (d : db) : option (db * res pyexn (list string)) :=
  match fuel with
  | O => None
  | S fuel' =>
      let tz := zone (sc_cron_timezone s) in
      match get_next (sc_schedule s) tz t with
      | Err e => Some (d, Err e)
      | Ok next_time =>
          if bool_decide (end_time ≤ next_time)%Z then Some (d, Ok workflow_ids)
          else
            let workflow_id := scheduled_id (sc_schedule_name s) tz next_time in
            match enqueue_unless_there (nows 0) (sc_workflow_name s) next_time workflow_id (sc_schedule_name s) context
                    (sc_workflow_class_name s) (sc_queue_name s) d with
            | (d', Ok _) => backfill_loop fuel' (λ i, nows (S i)) s context next_time end_time (workflow_ids ++ [workflow_id])%list d'
            | (d', Err e) => Some (d', Err e)
            end
      end
  end.

Definition no_schedule (schedule_name : string) : pyexn :=
  DBOSException ("Schedule '" +:+ schedule_name +:+ "' does not exist").

Definition backfill_schedule (fuel : nat) (nows : nat → Z) (schedule_name : string) (start end_time : Z) (d : db) :
    option (db * res pyexn (list string)) :=
  match get_schedule schedule_name d with
  | None => Some (d, Err (no_schedule schedule_name))
  | Some (_, s) =>
      match ser_deserialize serializer (sc_context s) with
      | Err e => Some (d, Err e)
      | Ok context =>
          match check_zone (sc_cron_timezone s), croniter (sc_schedule s) (zone (sc_cron_timezone s)) with
          | Err e, _ | _, Err e => Some (d, Err e)
          | Ok _, Ok _ => backfill_loop fuel nows s context start end_time [] d
          end
      end
  end.

(** [now] is the time of the process, which is UTC, [db_now] the one of the database. *)
Definition trigger_schedule (now db_now : Z) (schedule_name : string) : dbM string :=
  schedule ← gets (get_schedule schedule_name);
  match schedule with
  | None => raise (no_schedule schedule_name)
  | Some (_, s) =>
      context ← lift_res (ser_deserialize serializer (sc_context s));
      let workflow_id := "sched-" +:+ schedule_name +:+ "-trigger-" +:+ isoformat None now in
      _ ← enqueue_scheduled_workflow db_now (sc_workflow_name s) now workflow_id schedule_name context
            (sc_workflow_class_name s) (sc_queue_name s);
      mret workflow_id
  end.

(** ** Threads *)

(** [compute_signature] *)
Definition compute_signature (s : workflow_schedules_row) :
    string * option string * string * string * option string * option string :=
  (sc_workflow_name s, sc_workflow_class_name s, sc_schedule s, sc_context s, sc_cron_timezone s, sc_queue_name s).

(** [class _ScheduleThread], with the time its loop was started at. *)
Record ScheduleThread := {
  th_schedule_name : string; th_workflow_name : string; th_class_name : option string; th_cron : string;
  th_context : pyval; th_tzinfo : option string; th_queue_name : option string;
  th_signature : string * option string * string * string * option string * option string;
  th_started : Z;
}.

Definition start_thread (now : Z) (s : workflow_schedules_row) : res pyexn ScheduleThread :=
  match ser_deserialize serializer (sc_context s) with
  | Err e => Err e
  | Ok context =>
    match check_zone (sc_cron_timezone s) with
    | Err e => Err e
    | Ok _ => Ok {|
      th_schedule_name := sc_schedule_name s; th_workflow_name := sc_workflow_name s;
      th_class_name := sc_workflow_class_name s; th_cron := sc_schedule s; th_context := context;
      th_tzinfo := zone (sc_cron_timezone s); th_queue_name := sc_queue_name s; th_signature := compute_signature s;
      th_started := now |}
    end
  end.

(** What a thread does at the time of an execution, exceptions being logged. *)
Definition fire (db_now : Z) (th : ScheduleThread) (next_exec_time : Z) : dbM unit :=
  try_except
    (_ ← enqueue_unless_there db_now (th_workflow_name th) next_exec_time
           (scheduled_id (th_schedule_name th) (th_tzinfo th) next_exec_time) (th_schedule_name th) (th_context th)
           (th_class_name th) (th_queue_name th);
     update_last_fired_at (th_schedule_name th) (isoformat (th_tzinfo th) next_exec_time))
    (λ e, if is_Exception e then Some (mret tt) else None).

(** [_loop], the first executions from the time [t] on, until it is stopped: the times it
    executes at. *)
Fixpoint thread_loop (executions : nat) (db_nows : nat → Z) (th : ScheduleThread) (t : Z) (d : db) : db * list Z :=
  match executions with
  | O => (d, [])
  | S n =>
      match get_next (th_cron th) (th_tzinfo th) t with
      | Err _ => (d, [])
      | Ok next_exec_time =>
          let '(d', l) := thread_loop n (λ i, db_nows (S i)) th next_exec_time (fire (db_nows 0) th next_exec_time d).1 in
          (d', next_exec_time :: l)
      end
  end.

(** The thread: nothing when the expression is refused. *)
Definition run_thread (executions : nat) (db_nows : nat → Z) (th : ScheduleThread) (d : db) : db * list Z :=
  match croniter (th_cron th) (th_tzinfo th) with
  | Err _ => (d, [])
  | Ok _ => thread_loop executions db_nows th (th_started th) d
  end.

Definition is_active (s : workflow_schedules_row) : bool := bool_decide (sc_status s = "ACTIVE").

(** The automatic backfill before the start of a thread, exceptions being logged. There are at
    most as many executions as milliseconds. *)
Definition automatic_backfill (now : Z) (nows : nat → Z) (s : workflow_schedules_row) (d : db) : option db :=
  if sc_automatic_backfill s then
    match sc_last_fired_at s with
    | Some last =>
        if bool_decide (last = "") then Some d
        else match fromisoformat last with
             | Err _ => Some d
             | Ok last_fired =>
                 if bool_decide (last_fired < now)%Z
                 then fst <$> backfill_schedule (S (Z.to_nat (now - last_fired))) nows (sc_schedule_name s) last_fired now d
                 else Some d
             end
    | None => Some d
    end
  else Some d.

Notation threads := (gmap string ScheduleThread).

(** The state of one schedule in a round of [dynamic_scheduler_loop]: the times are those of
    the backfill and of the start of the thread. *)
Definition poll_schedule (now started : Z) (nows : nat → Z) (schedule : WorkflowSchedule) (ts : threads) (d : db) :
    option (threads * db * res pyexn unit) :=
  let '(id, s) := schedule in
  let start d := match start_thread started s with
                 | Ok th => Some (<[id := th]> ts, d, Ok tt)
                 | Err e => Some (ts, d, Err e)
                 end in
  if negb (is_active s) then Some (delete id ts, d, Ok tt)
  else match ts !! id with
       | Some th => if bool_decide (th_signature th = compute_signature s) then Some (ts, d, Ok tt) else start d
       | None => d' ← automatic_backfill now nows s d; start d'
       end.

Fixpoint poll_schedules (now started : string → Z) (nows : nat → Z) (schedules : list WorkflowSchedule) (ts : threads) (d : db) :
    option (threads * db * res pyexn unit) :=
  match schedules with
  | [] => Some (ts, d, Ok tt)
  | s :: rest =>
      match poll_schedule (now s.1) (started s.1) nows s ts d with
      | Some (ts', d', Ok _) => poll_schedules now started nows rest ts' d'
      | r => r
      end
  end.

(** One round: the threads that run after it. An exception ends the loop. [now] and [started]
    are the times a schedule is looked at. *)
Definition scheduler_round (now started : string → Z) (nows : nat → Z) (ts : threads) (d : db) :
    option (threads * db * res pyexn unit) :=
  let schedules := list_schedules None None None d in
  poll_schedules now started nows schedules (filter (λ kt, kt.1 ∈ schedules.*1) ts) d.

End scheduler.

(** ** What the scheduler is meant to do

    [t'] is the next execution after [t]. *)
Definition next_fire `{Cron} (cron : string) (tz : option string) (t t' : Z) : Prop := get_next cron tz t = Ok t'.

(** The executions of a schedule between two times, both excluded. *)
Definition due_between `{Cron} (cron : string) (tz : option string) (start end_time t : Z) : Prop :=
  tc (next_fire cron tz) start t ∧ (t < end_time)%Z.

(** A workflow's row is an execution of the schedule [s] at the time [t]. *)
Definition execution_row (serializer : Serializer) (s : workflow_schedules_row) (context : pyval) (t : Z)
    (r : workflow_status_row) : Prop :=
  ws_status r = ENQUEUED ∧ ws_name r = Some (sc_workflow_name s) ∧ ws_class_name r = sc_workflow_class_name s ∧
  ws_schedule_name r = Some (sc_schedule_name s) ∧
  Ok <$> ws_inputs r =
    Some (ser_serialize serializer (native_args_val {| args := [PDatetime t; context]; kwargs := [] |})).

(** The executions at the times [ts], where they were not there already, and no other
    difference. *)
Record backfilled (serializer : Serializer) `{Cron} (s : workflow_schedules_row) (context : pyval) (ts : list Z)
    (d d' : db) : Prop := {
  bf_kept id r : workflow_status d !! id = Some r → workflow_status d' !! id = Some r;
  bf_new id r : workflow_status d' !! id = Some r → workflow_status d !! id = Some r ∨
    ∃ t, t ∈ ts ∧ id = scheduled_id (sc_schedule_name s) (zone (sc_cron_timezone s)) t ∧
         execution_row serializer s context t r;
  bf_there t : t ∈ ts → is_Some (workflow_status d' !! scheduled_id (sc_schedule_name s) (zone (sc_cron_timezone s)) t);
  bf_else : d' = d <| workflow_status := workflow_status d' |>;
}.

(** The threads are those of the schedules that are active, as they are defined now. *)
Definition threads_follow (ts : gmap string ScheduleThread) (schedules : gmap string workflow_schedules_row) : Prop := ∀ id,
  match schedules !! id with
  | Some s => if is_active s then th_signature <$> ts !! id = Some (compute_signature s) else ts !! id = None
  | None => ts !! id = None
  end.

(** Samples: executions at the multiples of 10. *)
#[local] Instance sample_cron : Cron := {|
  ZoneInfo _ := Ok tt; croniter _ _ := Ok tt; get_next _ _ t := Ok ((t / 10 + 1) * 10)%Z;
  isoformat _ t := pretty.pretty t; fromisoformat s := if bool_decide (s = "10") then Ok 10%Z else Err (ValueError s);
|}.

Definition schedule_serializer : Serializer := {|
  ser_name := "sample"; ser_serialize _ := Ok "x";
  ser_deserialize s := if bool_decide (s = "x") then Ok PNone else Err (ValueError s);
|}.

Definition sample_schedule (name context : string) : workflow_schedules_row := {|
  sc_schedule_name := name; sc_workflow_name := "f"; sc_workflow_class_name := None; sc_schedule := "*"; sc_status := "ACTIVE";
  sc_context := context; sc_last_fired_at := Some "10"; sc_automatic_backfill := true; sc_cron_timezone := None; sc_queue_name := None;
|}.

Definition sample_schedules (l : list (string * workflow_schedules_row)) : db :=
  empty_db <| workflow_schedules := list_to_map l |>
    <| application_versions := {["v" := {| av_version_name := "1"; av_version_timestamp := 1; av_created_at := 1 |}]} |>.

(** ** Lemmas *)

Lemma increasing_NoDup l : StronglySorted Z.lt l → NoDup l.
Proof.
  induction 1 as [|t l Hl IH Ht]; constructor; [|done]. intros Hin. rewrite Forall_forall in Ht. specialize (Ht t Hin). lia.
Qed.

(** Two lists of increasing times with the same times are the same. *)
Lemma increasing_unique l l' : StronglySorted Z.lt l → StronglySorted Z.lt l' → (∀ t, t ∈ l ↔ t ∈ l') → l = l'.
Proof.
  intros Hl Hl' Hin. apply (StronglySorted_unique_strong Z.lt); [intros; lia|done|done|].
  by apply NoDup_Permutation; [apply increasing_NoDup..|].
Qed.

Section scheduler_lemmas.
Context (serializer : Serializer) `{CronLaws}.

Lemma latest_version d : application_versions d ≠ ∅ → ∃ v, get_latest_application_version d = Ok v.
Proof.
  intros Hne. unfold get_latest_application_version.
  destruct (list_application_versions d) as [|v l] eqn:Hl; [|eauto].
  exfalso. apply Hne, map_to_list_empty_iff, Permutation_nil_r. rewrite <- Hl. symmetry. apply sql_order_by_Permutation.
Qed.

Lemma tc_next_fire cron tz t n t' :
  get_next cron tz t = Ok n → tc (next_fire cron tz) t t' ↔ t' = n ∨ tc (next_fire cron tz) n t'.
Proof.
  intros Hn. split.
  - inversion 1 as [? ? Ht|? m ? Hm Ht]; subst; unfold next_fire in *; [left; congruence|right].
    by assert (m = n) as -> by congruence.
  - intros [->|Ht]; [by constructor|by eapply tc_l].
Qed.

Lemma tc_next_fire_later cron tz t t' : tc (next_fire cron tz) t t' → (t < t')%Z.
Proof. induction 1 as [t t' Ht|t m t' Hm _ IH]; [by eapply get_next_later|]. apply get_next_later in Hm. lia. Qed.

Section one_schedule.
Context (s : workflow_schedules_row) (context : pyval).
Notation tz := (zone (sc_cron_timezone s)).
Notation id_of := (scheduled_id (sc_schedule_name s) tz).
Notation backfilled := (backfilled serializer s context).
Notation serialized t := (ser_serialize serializer (native_args_val {| args := [PDatetime t; context]; kwargs := [] |})).

Lemma backfilled_trans ts1 ts2 d1 d2 d3 : backfilled ts1 d1 d2 → backfilled ts2 d2 d3 → backfilled (ts1 ++ ts2)%list d1 d3.
Proof.
  intros [K1 N1 T1 E1] [K2 N2 T2 E2]. split; [by eauto| | |rewrite E2, E1; by destruct d1].
  - intros id r [Hr|(t & Ht & Hid)]%N2.
    + apply N1 in Hr as [Hr|(t & Ht & Hid)]; [by left|right]. exists t. by rewrite elem_of_app; auto.
    + right. exists t. by rewrite elem_of_app; auto.
  - intros t [[r Hr]%T1|Ht]%elem_of_app; [exists r; by apply K2|by apply T2].
Qed.

(** Nothing more happens where everything is there. *)
Lemma backfilled_again ts d d' : (∀ t, t ∈ ts → is_Some (workflow_status d !! id_of t)) → backfilled ts d d' → d' = d.
Proof.
  intros Hd [K N T E]. rewrite E. assert (workflow_status d' = workflow_status d) as ->; [|by destruct d].
  apply map_eq. intros id. destruct (workflow_status d !! id) as [r|] eqn:Hr; [by apply K|].
  destruct (workflow_status d' !! id) as [r|] eqn:Hr'; [|done].
  apply N in Hr' as [?|(t & Ht & -> & _)]; [congruence|]. apply Hd in Ht as [? ?]. congruence.
Qed.

Lemma enqueue_backfills now t d :
  is_ok (serialized t) = true → application_versions d ≠ ∅ →
  ∃ d', enqueue_unless_there serializer now (sc_workflow_name s) t (id_of t) (sc_schedule_name s) context
          (sc_workflow_class_name s) (sc_queue_name s) d = (d', Ok tt) ∧ backfilled [t] d d'.
Proof.
  intros Hser Hv. unfold enqueue_unless_there, mbind, SM_bind, gets. unfold get_workflow_status.
  destruct (workflow_status d !! id_of t) as [r|] eqn:Hr; cbn [fmap option_fmap option_map].
  { exists d. split; [done|]. split; [done|by left| |by destruct d].
    intros t' ->%list_elem_of_singleton. by eexists. }
  destruct (latest_version d Hv) as [v Hlatest]. destruct (serialized t) as [x|] eqn:Hx; [|done].
  unfold enqueue_scheduled_workflow, mbind, SM_bind, engine_begin, query, lift_res.
  cbn [current committed]. rewrite Hlatest. cbn [current]. rewrite Hx.
  set (st := scheduled_status _ _ _ _ _ _ _). 
  assert (init_workflow now st None None false false d =
    (d <| workflow_status := <[id_of t := inserted_row now st None]> (workflow_status d) |>,
     Ok {| ir_status := wi_status st; ir_deadline := wi_workflow_deadline_epoch_ms st;
           ir_should_execute := true; ir_serialization := wi_serialization st |})) as ->
    by (by apply init_workflow_fresh).
  eexists. split; [done|]. split.
  - intros id r0 Hr0. cbn. rewrite lookup_insert_ne; [done|]. intros <-. congruence.
  - intros id r0 Hr0. cbn in Hr0. apply lookup_insert_Some in Hr0 as [[<- <-]|[_ Hr0]]; [right|by left]. exists t. split; [by left|]. split; [done|].
    unfold execution_row. by rewrite Hx.
  - intros t' ->%list_elem_of_singleton. cbn. rewrite lookup_insert_eq. by eexists.
  - by destruct d.
Qed.

Lemma backfill_loop_spec fuel : ∀ nows t end_time ids d,
  Z.to_nat (end_time - t) < fuel → application_versions d ≠ ∅ →
  (∀ t', t' = t ∨ due_between (sc_schedule s) tz t end_time t' → is_ok (get_next (sc_schedule s) tz t') = true) →
  (∀ t', due_between (sc_schedule s) tz t end_time t' → is_ok (serialized t') = true) →
  ∃ d' ts, backfill_loop serializer fuel nows s context t end_time ids d = Some (d', Ok (ids ++ (id_of <$> ts))%list) ∧
    backfilled ts d d' ∧ StronglySorted Z.lt ts ∧ ∀ t', t' ∈ ts ↔ due_between (sc_schedule s) tz t end_time t'.
Proof.
  induction fuel as [|fuel IH]; intros nows t end_time ids d Hfuel Hv Hnext Hser; [lia|]. cbn [backfill_loop].
  specialize (Hnext t ltac:(by left)) as Hn. destruct (get_next (sc_schedule s) tz t) as [n|] eqn:Hget; [|done].
  assert (∀ t', due_between (sc_schedule s) tz t end_time t' ↔
            (t' = n ∨ tc (next_fire (sc_schedule s) tz) n t') ∧ (t' < end_time)%Z) as Hdue
    by (intros t'; unfold due_between; by rewrite (tc_next_fire _ _ _ _ _ Hget)).
  pose proof (get_next_later _ _ _ _ Hget) as Hlater. case_bool_decide as Hend.
  - exists d, []. rewrite app_nil_r. split; [done|]. split; [|split; [constructor|]].
    + split; [done|by left|by intros t' ?%elem_of_nil|by destruct d].
    + intros t'. rewrite elem_of_nil, Hdue. split; [done|]. intros [[->|Ht%tc_next_fire_later] ?]; lia.
  - destruct (enqueue_backfills (nows 0) n d) as (d1 & -> & Hb1); [|done|].
    { apply Hser, Hdue. split; [by left|lia]. }
    destruct (IH (λ i, nows (S i)) n end_time (ids ++ [id_of n])%list d1) as (d' & ts & Hrun & Hb & Hsort & Hts); [lia| | | |].
    + by rewrite (bf_else _ _ _ _ _ _ Hb1).
    + intros t' Ht'. apply Hnext. right. rewrite Hdue. destruct Ht' as [->|[Ht' ?]]; split; auto. lia.
    + intros t' [Ht' ?]. apply Hser, Hdue. auto.
    + exists d', (n :: ts). rewrite Hrun. split; [by rewrite <- (assoc_L (++)%list)|].
      split; [by apply (backfilled_trans [n] ts d d1 d')|]. split.
      * constructor; [done|]. apply Forall_forall. intros t' Ht'%Hts. by apply tc_next_fire_later with (1 := proj1 Ht').
      * intros t'. rewrite elem_of_cons, Hts, Hdue. unfold due_between. split; [intros [->|[]]; split; auto; lia|].
        intros [[->|] ?]; auto.
Qed.
End one_schedule.

Lemma schedule_named_Some name d id s :
  schedule_named name d = Some (id, s) → workflow_schedules d !! id = Some s ∧ sc_schedule_name s = name.
Proof. unfold schedule_named. intros [Hs Hn]%head_sql_select. split; [done|]. by apply bool_decide_eq_true in Hn. Qed.

Lemma backfill_schedule_found fuel nows name start end_time d id s context :
  get_schedule name d = Some (id, s) → ser_deserialize serializer (sc_context s) = Ok context →
  check_zone (sc_cron_timezone s) = Ok tt → croniter (sc_schedule s) (zone (sc_cron_timezone s)) = Ok tt →
  backfill_schedule serializer fuel nows name start end_time d = backfill_loop serializer fuel nows s context start end_time [] d.
Proof. intros Hs Hc Hz Hcr. unfold backfill_schedule. by rewrite Hs, Hc, Hz, Hcr. Qed.

Lemma fire_there db_now th t d :
  is_Some (workflow_status d !! scheduled_id (th_schedule_name th) (th_tzinfo th) t) →
  workflow_status (fire serializer db_now th t d).1 = workflow_status d.
Proof.
  intros [r Hr]. unfold fire, try_except, enqueue_unless_there, mbind, SM_bind, gets, get_workflow_status.
  by rewrite Hr.
Qed.

Lemma start_thread_Ok now s th :
  start_thread serializer now s = Ok th →
  th_signature th = compute_signature s ∧ th_schedule_name th = sc_schedule_name s ∧ th_tzinfo th = zone (sc_cron_timezone s).
Proof.
  unfold start_thread. destruct (ser_deserialize _ _); [|done]. destruct (check_zone _); [|done]. by intros [= <-].
Qed.

Lemma backfill_loop_ends fuel : ∀ nows s context t end_time ids d,
  Z.to_nat (end_time - t) < fuel → is_Some (backfill_loop serializer fuel nows s context t end_time ids d).
Proof.
  induction fuel as [|fuel IH]; intros nows s context t end_time ids d Hfuel; [lia|]. cbn [backfill_loop].
  destruct (get_next _ _ t) as [n|] eqn:Hn; [|by eexists]. case_bool_decide; [by eexists|].
  destruct (enqueue_unless_there _ _ _ _ _ _ _ _ _ d) as [d' [|]]; [|by eexists].
  apply IH. apply get_next_later in Hn. lia.
Qed.

Lemma automatic_backfill_ends now nows s d : is_Some (automatic_backfill serializer now nows s d).
Proof.
  unfold automatic_backfill. destruct (sc_automatic_backfill s); [|by eexists].
  destruct (sc_last_fired_at s) as [last|]; [|by eexists]. case_bool_decide; [by eexists|].
  destruct (fromisoformat last) as [t|]; [|by eexists]. case_bool_decide; [|by eexists]. apply fmap_is_Some.
  unfold backfill_schedule. destruct (get_schedule _ d) as [[id s']|]; [|by eexists].
  destruct (ser_deserialize _ _); [|by eexists]. destruct (check_zone _); [|by eexists].
  destruct (croniter _ _); [|by eexists]. apply backfill_loop_ends. lia.
Qed.

(** The thread of one schedule after a round, or why it did not start. *)
Lemma poll_schedule_spec now started nows id s ts d :
  ∃ ts' d' r, poll_schedule serializer now started nows (id, s) ts d = Some (ts', d', r) ∧
    (∀ j, j ≠ id → ts' !! j = ts !! j) ∧
    match r with
    | Ok _ => if is_active s then th_signature <$> ts' !! id = Some (compute_signature s) else ts' !! id = None
    | Err e => is_active s = true ∧ start_thread serializer started s = Err e
    end ∧
    (is_active s = true → ts !! id = None → is_ok (start_thread serializer started s) = false → is_ok r = false).
Proof.
  unfold poll_schedule. destruct (is_active s) eqn:Hact; cbn [negb].
  2:{ eexists _, _, _. split; [done|]. split; [intros j Hj; by apply lookup_delete_ne|]. split; [apply lookup_delete_eq|done]. }
  set (start d := match start_thread serializer started s with Ok th => _ | Err e => _ end).
  assert (∀ d, ∃ ts' r, start d = Some (ts', d, r) ∧ (∀ j, j ≠ id → ts' !! j = ts !! j) ∧
    match r with Ok _ => th_signature <$> ts' !! id = Some (compute_signature s)
               | Err e => true = true ∧ start_thread serializer started s = Err e end ∧
    (true = true → ts !! id = None → is_ok (start_thread serializer started s) = false → is_ok r = false)) as Hstart.
  { intros d0. unfold start. destruct (start_thread serializer started s) as [th|e] eqn:Hth; eexists _, _; (split; [done|]).
    - split; [intros j Hj; by apply lookup_insert_ne|]. split; [|done]. rewrite lookup_insert_eq. cbn.
      by destruct (start_thread_Ok _ _ _ Hth) as [-> _].
    - done. }
  destruct (ts !! id) as [th|] eqn:Hid.
  - case_bool_decide as Hsig.
    + eexists _, _, _. split; [done|]. split; [done|]. split; [|done]. rewrite Hid. cbn. by rewrite Hsig.
    + destruct (Hstart d) as (ts' & r & Hr & Hj & Hm & Hn). exists ts', d, r. done.
  - destruct (automatic_backfill_ends now nows s d) as [d' ->]. cbn.
    destruct (Hstart d') as (ts' & r & Hr & Hj & Hm & Hn). by exists ts', d', r.
Qed.

Lemma poll_schedules_spec now started nows l : ∀ ts d, NoDup l.*1 →
  ∃ ts' d' r, poll_schedules serializer now started nows l ts d = Some (ts', d', r) ∧
    match r with
    | Ok _ => (∀ j, j ∉ l.*1 → ts' !! j = ts !! j) ∧
        ∀ id s, (id, s) ∈ l → if is_active s then th_signature <$> ts' !! id = Some (compute_signature s) else ts' !! id = None
    | Err e => ∃ id s, (id, s) ∈ l ∧ is_active s = true ∧ start_thread serializer (started id) s = Err e
    end ∧
    (∀ id s, (id, s) ∈ l → is_active s = true → ts !! id = None → is_ok (start_thread serializer (started id) s) = false →
       is_ok r = false).
Proof.
  induction l as [|[id s] l IH]; intros ts d Hnd.
  { exists ts, d, (Ok tt). split; [done|]. split; [split; [done|by intros ?? ?%elem_of_nil]|by intros ?? ?%elem_of_nil]. }
  apply NoDup_cons in Hnd as [Hid Hnd]. cbn [poll_schedules fst].
  destruct (poll_schedule_spec (now id) (started id) nows id s ts d) as (ts1 & d1 & r1 & -> & Hj & Hr1 & Hbad).
  destruct r1 as [[]|e].
  - destruct (IH ts1 d1 Hnd) as (ts' & d' & r & -> & Hr & Hbad'). exists ts', d', r. split; [done|]. split.
    + destruct r as [[]|e].
      * destruct Hr as [Hkeep Hl]. split.
        -- intros j Hj'. apply not_elem_of_cons in Hj' as [Hne Hj']. rewrite Hkeep by done. by apply Hj.
        -- intros id' s' [[= -> ->]|Hin]%elem_of_cons; [|by apply Hl]. by rewrite Hkeep.
      * destruct Hr as (id' & s' & Hin & ?). exists id', s'. split; [by right|done].
    + intros id' s' [[= -> ->]|Hin]%elem_of_cons Hact Hno Hst; [by specialize (Hbad Hact Hno Hst)|].
      eapply Hbad'; [done..| |done]. rewrite Hj; [done|]. intros ->. apply Hid. apply list_elem_of_fmap. by exists (id, s').
  - exists ts1, d1, (Err e). split; [done|]. split; [|done]. exists id, s. split; [by left|done].
Qed.

(** ** Properties *)

(** C35: a backfill is complete and runs nothing twice. It ends; it answers with the
    executions between the two times, each once and in their order; every one of them is
    there, enqueued if it was not there before, with the time and the context of the schedule as its
    arguments; nothing else has changed. Another backfill of the same time does nothing, and
    neither does a thread of the schedule that gets to one of these executions. *)
Theorem backfill_complete fuel nows name id s context start end_time d :
  get_schedule name d = Some (id, s) → ser_deserialize serializer (sc_context s) = Ok context →
  check_zone (sc_cron_timezone s) = Ok tt → croniter (sc_schedule s) (zone (sc_cron_timezone s)) = Ok tt →
  application_versions d ≠ ∅ →
  (∀ t, t = start ∨ due_between (sc_schedule s) (zone (sc_cron_timezone s)) start end_time t →
     is_ok (get_next (sc_schedule s) (zone (sc_cron_timezone s)) t) = true) →
  (∀ t, is_ok (ser_serialize serializer (native_args_val {| args := [PDatetime t; context]; kwargs := [] |})) = true) →
  Z.to_nat (end_time - start) < fuel →
  ∃ d' ts, let answer := Some (d', Ok (scheduled_id name (zone (sc_cron_timezone s)) <$> ts)) in
    backfill_schedule serializer fuel nows name start end_time d = answer ∧
    StronglySorted Z.lt ts ∧ (∀ t, t ∈ ts ↔ due_between (sc_schedule s) (zone (sc_cron_timezone s)) start end_time t) ∧
    NoDup (scheduled_id name (zone (sc_cron_timezone s)) <$> ts) ∧ backfilled serializer s context ts d d' ∧
    (∀ nows', backfill_schedule serializer fuel nows' name start end_time d' = answer) ∧
    (∀ now db_now th t, start_thread serializer now s = Ok th → t ∈ ts →
       workflow_status (fire serializer db_now th t d').1 = workflow_status d').
Proof.
  intros Hs Hc Hz Hcr Hv Hnext Hser Hfuel. destruct (schedule_named_Some _ _ _ _ Hs) as [_ <-].
  destruct (backfill_loop_spec s context fuel nows start end_time [] d Hfuel Hv Hnext ltac:(auto)) as (d' & ts & Hrun & Hb & Hsort & Hts).
  exists d', ts. cbv zeta. rewrite (backfill_schedule_found _ _ _ _ _ d id s context), Hrun by done. split_and!; try done.
  - apply NoDup_fmap_2_strong; [|by apply increasing_NoDup]. intros t1 t2 _ _ Heq. unfold scheduled_id in Heq.
    by simplify_eq; eapply isoformat_inj.
  - intros nows'. pose proof (bf_else _ _ _ _ _ _ Hb) as He.
    rewrite (backfill_schedule_found _ _ _ _ _ d' id s context); [|by rewrite He|done..].
    destruct (backfill_loop_spec s context fuel nows' start end_time [] d' Hfuel) as (d2 & ts' & -> & Hb' & Hsort' & Hts');
      [by rewrite He|done|auto|].
    assert (ts' = ts) as -> by (apply increasing_unique; [done|done|]; intros t; by rewrite Hts, Hts').
    by rewrite (backfilled_again s context ts d' d2 (bf_there _ _ _ _ _ _ Hb) Hb').
  - intros now db_now th t Hth Hin. destruct (start_thread_Ok _ _ _ Hth) as (_ & Hname & Htz). apply fire_there.
    rewrite Hname, Htz. by apply (bf_there _ _ _ _ _ _ Hb).
Qed.

(** C36: the scheduler's threads follow the table of schedules. A round ends, for the backfills
    in it do; unless it raises, afterwards a thread runs for exactly the schedules that are
    active, with the definition they have now. It raises, and the scheduler ends with it, exactly
    when it comes to a schedule it cannot start a thread for. *)
Theorem scheduler_round_follows now started nows ts d :
  ∃ ts' d' r, scheduler_round serializer now started nows ts d = Some (ts', d', r) ∧
    match r with
    | Ok _ => threads_follow ts' (workflow_schedules d)
    | Err e => ∃ id s, workflow_schedules d !! id = Some s ∧ is_active s = true ∧ start_thread serializer (started id) s = Err e
    end ∧
    (∀ id s, workflow_schedules d !! id = Some s → is_active s = true → ts !! id = None →
       is_ok (start_thread serializer (started id) s) = false → is_ok r = false).
Proof.
  unfold scheduler_round. set (l := list_schedules None None None d).
  assert (∀ id s, (id, s) ∈ l ↔ workflow_schedules d !! id = Some s) as Hl
    by (intros id s; unfold l, list_schedules; rewrite elem_of_sql_select; naive_solver).
  assert (∀ id, id ∈ l.*1 ↔ is_Some (workflow_schedules d !! id)) as Hids.
  { intros id. rewrite list_elem_of_fmap. split; [intros ([id' s] & -> & ?%Hl); by eexists|].
    intros [s ?%Hl]. by exists (id, s). }
  destruct (poll_schedules_spec now started nows l (filter (λ kt, kt.1 ∈ l.*1) ts) d) as (ts' & d' & r & -> & Hr & Hbad);
    [apply NoDup_sql_select_keys|]. exists ts', d', r. split; [done|]. split.
  - destruct r as [[]|e].
    + destruct Hr as [Hkeep Hin]. intros id. destruct (workflow_schedules d !! id) as [s|] eqn:Hs; [by apply Hin, Hl|].
      assert (id ∉ l.*1) as Hout by (rewrite Hids, Hs; by intros []). rewrite Hkeep by done.
      apply map_lookup_filter_None. right. intros th _ Hin'. done.
    + destruct Hr as (id & s & ?%Hl & ?). by exists id, s.
  - intros id s Hs Hact Hno. apply (Hbad id s); [by apply Hl|done|]. apply map_lookup_filter_None. by left.
Qed.
End scheduler_lemmas.

(** But the automatic backfill leaves a gap. It goes up to the time it is called at, and
    the thread starts from the later time it is started at: the execution between the two is never
    enqueued, and the next ones move the time of the last execution past it. *)
Lemma backfill_gap :
  ∃ ts d' th d2,
    scheduler_round schedule_serializer (λ _, 30%Z) (λ _, 31%Z) (λ _, 31%Z) ∅
      (sample_schedules [("i", sample_schedule "s" "x")]) = Some (ts, d', Ok tt) ∧
    ts !! "i" = Some th ∧
    run_thread schedule_serializer 3 (λ _, 40%Z) th d' = (d2, [40; 50; 60]%Z) ∧
    is_Some (workflow_status d2 !! "sched-s-20") ∧ workflow_status d2 !! "sched-s-30" = None ∧
    is_Some (workflow_status d2 !! "sched-s-40") ∧
    sc_last_fired_at <$> workflow_schedules d2 !! "i" = Some (Some "60").
Proof.
  eexists _, _, _, _. split; [vm_compute; reflexivity|]. split; [vm_compute; reflexivity|].
  split; [vm_compute; reflexivity|]. split; [vm_compute; by eexists|]. split; [by vm_compute|].
  split; [vm_compute; by eexists|by vm_compute].
Qed.

(** ** The properties at concrete inputs *)

#[local] Instance sample_cron_laws : CronLaws.
Proof.
  split; [|by intros tz t t' Ht; apply pretty.pretty_Z_inj].
  intros cron tz t t' [= <-]. pose proof (Z.div_mod t 10 ltac:(lia)). pose proof (Z.mod_pos_bound t 10 ltac:(lia)). lia.
Qed.

Lemma backfill_complete_witness :
  ∃ d' ts, let answer := Some (d', Ok (scheduled_id "s" None <$> ts)) in
    let s := sample_schedule "s" "x" in
    backfill_schedule schedule_serializer 40 (λ _, 1%Z) "s" 10 35 (sample_schedules [("i", s)]) = answer ∧
    StronglySorted Z.lt ts ∧ (∀ t, t ∈ ts ↔ due_between "*" None 10 35 t) ∧
    NoDup (scheduled_id "s" None <$> ts) ∧ backfilled schedule_serializer s PNone ts (sample_schedules [("i", s)]) d' ∧
    (∀ nows', backfill_schedule schedule_serializer 40 nows' "s" 10 35 d' = answer) ∧
    (∀ now db_now th t, start_thread schedule_serializer now s = Ok th → t ∈ ts →
       workflow_status (fire schedule_serializer db_now th t d').1 = workflow_status d').
Proof.
  refine (backfill_complete schedule_serializer 40 (λ _, 1%Z) "s" "i" (sample_schedule "s" "x") PNone 10 35
    (sample_schedules [("i", sample_schedule "s" "x")]) eq_refl eq_refl eq_refl eq_refl _ _ _ _);
    [discriminate|intros t _; reflexivity|intros t; reflexivity|vm_compute; lia].
Defined.

Lemma scheduler_round_follows_witness :
  ∃ ts' d' r, scheduler_round schedule_serializer (λ _, 30%Z) (λ _, 31%Z) (λ _, 31%Z) ∅
      (sample_schedules [("i", sample_schedule "s" "x"); ("j", sample_schedule "t" "unreadable")]) = Some (ts', d', r) ∧
    is_ok r = false.
Proof.
  destruct (scheduler_round_follows schedule_serializer (λ _, 30%Z) (λ _, 31%Z) (λ _, 31%Z) ∅
    (sample_schedules [("i", sample_schedule "s" "x"); ("j", sample_schedule "t" "unreadable")]))
    as (ts' & d' & r & Hr & _ & Hbad).
  exists ts', d', r. split; [exact Hr|].
  refine (Hbad "j" (sample_schedule "t" "unreadable") _ _ _ _); reflexivity.
Defined.
