(* ===== verification/Workers.v ===== *)
(** * The threads that serve the queues: [queue_worker_thread], [queue_thread] of [dbos/_queue.py]

    A worker polls one queue: it reads the queue's configuration again, waits, asks the
    database for workflows ([dispatch]) and hands each to the pool of threads
    ([execute_each]); its polling interval grows while the database is contended. The manager
    looks once a second for expired delays and for queues without a live worker. What other
    threads and processes do is in the arguments: [wait] is the machine after a wait,
    [locked] the rows others hold, [outage] an error the database raises instead of an answer. A
    handle's thread is a process of its own, which the pool runs when it gets to it. *)
From Stdlib Require Import QArith Qminmax Qpower Lqa.
From S2P Require Import Prelude Errors Schema Retry Serialization Workflows Context Steps Queues Process Execution Durability Recovery.
Open Scope nat_scope.

(** ** The polling interval, in seconds *)

Definition polling_interval_sec (queue : Queue) : Q := inject_Z (q_polling_interval_ms queue) / 1000.
Definition max_polling_interval (queue : Queue) : Q := Qmax (polling_interval_sec queue) 120.

(** Clamped to the bounds of the configuration. *)
Definition clamp_interval (queue : Queue) (polling_interval : Q) : Q :=
  Qmax (polling_interval_sec queue) (Qmin polling_interval (max_polling_interval queue)).

(** [isinstance(e.orig, (errors.SerializationFailure, errors.LockNotAvailable))] *)
Definition contention (e : pyexn) : bool :=
  match e with
  | DBAPIError _ (Some orig) _ => bool_decide (oe_sqlstate orig ∈ [Some "40001"; Some "55P03"])
  | _ => false
  end.

(** The interval after an iteration with the result [r]. *)
Definition next_interval {A} (queue : Queue) (polling_interval : Q) (r : res pyexn A) : Q :=
  let polling_interval :=
    match r with
    | Err e => if contention e then Qmin (max_polling_interval queue) (polling_interval * 2) else polling_interval
    | Ok _ => polling_interval
    end in
  Qmax (polling_interval_sec queue) (polling_interval * (9 # 10)).

Section workers.
Context {W : Type} `{Host W, Codecs} (serializer : Serializer) (executor_id : string).
Notation machine := (@machine W).
Notation workflow_handle := (@workflow_handle W).
Context (polls : nat) (app_id app_version : string) (reg : registry (W:=W)).
Context (wait : Q → machine → machine) (locked : machine → gset string) (outage : machine → option pyexn).

(** ** Workers *)

(** The state of a worker between two iterations. *)
Record worker := { wk_queue : Queue; wk_polling_interval : Q }.

(** The configuration as the database has it now, the old one when it cannot be read; [None]
    when the queue has been deleted. *)
Definition reload (queue : Queue) : process machine (option Queue) :=
  if q_database_backed queue then
    and_then (act (λ s, (s, match outage s with Some e => Err e | None => get_queue (m_db s) (q_name queue) false end)))
      (λ r, match r with
            | Ok latest => mret latest
            | Err e => if is_Exception e then mret (Some queue) else Returns (Err e)
            end)
  else mret (Some queue).

(** [start_queued_workflows] for a partition, with the workflows this process runs on it. *)
Definition dispatch (queue : Queue) (key : option string) : process machine (list string) :=
  local_running_count ← act (gets (count_for_queue (q_name queue) key));
  act (λ s, match outage s with
            | Some e => (s, Err e)
            | None => let '(d, r) := start_queued_workflows (now_ms (m_world s)) (time_ms (m_world s)) queue executor_id
                                       app_version key local_running_count (locked s) (m_db s) in
                      (s <| m_db := d |>, r)
            end).

(** [for id in dequeued_workflows: ...]: the handles, and what ends the loop early. *)
Fixpoint execute_each (uuids xids : string → string) (ids : list string) :
    process machine (list workflow_handle * res pyexn unit) :=
  match ids with
  | [] => mret ([], Ok tt)
  | id :: rest =>
      and_then (execute_workflow_by_id serializer executor_id polls app_id app_version (uuids id) (xids id) reg id false true None)
        (λ r, match r with
              | Ok handle => '(handles, r') ← execute_each uuids xids rest; mret (handle :: handles, r')
              | Err e => if is_Exception e then execute_each uuids xids rest else mret ([], Err e)
              end)
  end.

Definition serve (uuids xids : string → string) (queue : Queue) (key : option string) :
    process machine (list workflow_handle * res pyexn unit) :=
  and_then (dispatch queue key) (λ r, match r with
    | Ok ids => execute_each uuids xids ids
    | Err e => mret ([], Err e)
    end).

Fixpoint serve_partitions (uuids xids : string → string) (queue : Queue) (keys : list string) :
    process machine (list workflow_handle * res pyexn unit) :=
  match keys with
  | [] => mret ([], Ok tt)
  | key :: rest =>
      '(handles, r) ← serve uuids xids queue (Some key);
      match r with
      | Ok _ => '(handles', r') ← serve_partitions uuids xids queue rest; mret ((handles ++ handles')%list, r')
      | Err e => mret (handles, Err e)
      end
  end.

Definition serve_queue (uuids xids : string → string) (queue : Queue) : process machine (list workflow_handle * res pyexn unit) :=
  if q_partition_queue queue then
    and_then (act (λ s, (s, match outage s with Some e => Err e | None => Ok (get_queue_partitions (m_db s) (q_name queue)) end)))
      (λ r, match r with
            | Ok keys => serve_partitions uuids xids queue keys
            | Err e => mret ([], Err e)
            end)
  else serve uuids xids queue None.

(** One iteration: the worker as it goes on, unless it ends, and the handles of what it
    started. [jitter] is [random.uniform(0.95, 1.05)]. *)
Definition worker_round (jitter : Q) (uuids xids : string → string) (wk : worker) :
    process machine (option worker * list workflow_handle) :=
  latest ← reload (wk_queue wk);
  match latest with
  | None => mret (None, [])
  | Some queue =>
      let polling_interval := clamp_interval queue (wk_polling_interval wk) in
      _ ← act (modify (wait (polling_interval * jitter)));
      '(handles, r) ← serve_queue uuids xids queue;
      match r with
      | Err e => if is_Exception e
                 then mret (Some {| wk_queue := queue; wk_polling_interval := next_interval queue polling_interval r |}, handles)
                 else mret (None, handles)
      | Ok _ => mret (Some {| wk_queue := queue; wk_polling_interval := next_interval queue polling_interval r |}, handles)
      end
  end.

(** The iterations until the queue is gone, or the process stops after [rounds] of them. *)
Fixpoint worker_rounds (rounds : nat) (jitters : nat → Q) (uuids xids : nat → string → string) (wk : worker) :
    process machine (option worker * list workflow_handle) :=
  match rounds with
  | O => mret (Some wk, [])
  | S n =>
      '(wk', handles) ← worker_round (jitters n) (uuids n) (xids n) wk;
      match wk' with
      | None => mret (None, handles)
      | Some wk' => '(last, handles') ← worker_rounds n jitters uuids xids wk'; mret (last, (handles ++ handles')%list)
      end
  end.

Definition queue_worker_thread (rounds : nat) (jitters : nat → Q) (uuids xids : nat → string → string) (queue : Queue) :
    process machine (option worker * list workflow_handle) :=
  worker_rounds rounds jitters uuids xids {| wk_queue := queue; wk_polling_interval := polling_interval_sec queue |}.

(** ** The manager *)

(** The queues of the database that [include] lets in, over those of [base]. *)
Definition add_queues (include : Queue → gmap string Queue → bool) (base : gmap string Queue) (listed : res pyexn (list Queue)) :
    gmap string Queue :=
  match listed with
  | Ok qs => foldl (λ m q, if include q m then <[q_name q := q]> m else m) base qs
  | Err _ => base
  end.

(** [current_queues]; [alive] are the names whose worker is. *)
Definition current_queues (listening : option (list string)) (queue_info_map : gmap string Queue) (internal_queue : Queue)
    (alive : string → bool) (listed : res pyexn (list Queue)) : gmap string Queue :=
  match listening with
  | Some names =>
      <[INTERNAL_QUEUE_NAME := internal_queue]>
        (add_queues (λ q m, bool_decide (q_name q ∈ names) && bool_decide (m !! q_name q = None))
           (filter (λ nq, nq.1 ∈ names) queue_info_map) listed)
  | None =>
      add_queues (λ q _, bool_decide (queue_info_map !! q_name q = None) && negb (alive (q_name q))) queue_info_map listed
  end.

(** One iteration of [queue_thread]: the queues it starts a worker for. [alive] and [alive']
    are the workers that live when the queues are listed and when workers are started. *)
Definition manager_round (listening : option (list string)) (queue_info_map : gmap string Queue) (internal_queue : Queue)
    (alive alive' : string → bool) : process machine (gmap string Queue) :=
  listed ← act (gets (λ s, match outage s with Some e => Err e | None => list_queues (m_db s) false end));
  let current := current_queues listening queue_info_map internal_queue alive listed in
  and_then (act (λ s, match outage s with
                      | Some e => (s, Err e)
                      | None => let '(d, r) := transition_delayed_workflows (time_ms (m_world s)) (m_db s) in (s <| m_db := d |>, r)
                      end))
    (λ r, match r with
          | Err e => if is_Exception e then mret (filter (λ nq, alive' nq.1 = false) current) else Returns (Err e)
          | Ok _ => mret (filter (λ nq, alive' nq.1 = false) current)
          end).

End workers.

(** ** What is meant *)

(** The rows of the workflows in [X], the checkpoints, the queues and the process' own state
    are as they were. *)
Definition rows_kept (X : string → Prop) (d d' : db) : Prop :=
  operation_outputs d' = operation_outputs d ∧ queues d' = queues d ∧
  ∀ id, X id → workflow_status d' !! id = workflow_status d !! id.

Definition leaves {W} (X : string → Prop) (s s' : machine (W:=W)) : Prop :=
  m_active s' = m_active s ∧ m_world s' = m_world s ∧ rows_kept X (m_db s) (m_db s').

Definition listed_queues (listed : res pyexn (list Queue)) : list Queue := match listed with Ok qs => qs | Err _ => [] end.

(** The queues the process is meant to serve, with their configurations: the one in memory
    goes before the one in the database. *)
Definition served (listening : option (list string)) (registered : gmap string Queue) (internal : Queue)
    (stored : list Queue) (name : string) (q : Queue) : Prop :=
  let known := registered !! name = Some q ∨ (registered !! name = None ∧ q ∈ stored ∧ q_name q = name) in
  match listening with
  | None => known
  | Some names => if decide (name = INTERNAL_QUEUE_NAME) then q = internal else name ∈ names ∧ known
  end.

(** The interval after [n] more iterations that are all, or none, contended. *)
Definition after_rounds {A} (queue : Queue) (r : res pyexn A) (n : nat) (polling_interval : Q) : Q :=
  Nat.iter n (λ i, next_interval queue (clamp_interval queue i) r) polling_interval.

(** ** A sample: a queue for one workflow at a time *)

Definition one_at_a_time : Queue := {|
  q_name := "q"; q_concurrency := None; q_worker_concurrency := Some 1%Z; q_limiter := None;
  q_priority_enabled := false; q_partition_queue := false; q_polling_interval_ms := 1000; q_database_backed := false;
  q_client_bound := false |}.

Definition queued_letters (id : string) (status : WorkflowStatusString) : string * workflow_status_row :=
  (id, (sample_row id status) <| ws_inputs := Some "args" |> <| ws_queue_name := Some "q" |>).

Definition letters_queued : machine (W:=mailbox) :=
  Machine (sample_db [queued_letters "a" ENQUEUED; queued_letters "b" ENQUEUED]) (Mailbox 5 []) ∅.

(** The first action of every thread. *)
Definition first_actions (hs : list (workflow_handle (W:=mailbox))) (s : machine (W:=mailbox)) : machine (W:=mailbox) :=
  foldl (λ s h, match wh_future h with Some p => (run_for 1 p s).1 | None => s end) s hs.

Definition unlimited : Queue := one_at_a_time <| q_worker_concurrency := None |>.

Definition letters_delayed : machine (W:=mailbox) :=
  Machine (sample_db [("a", (queued_letters "a" DELAYED).2 <| ws_delay_until_epoch_ms := Some 4%Z |>)]) (Mailbox 5 []) ∅.

(** ** Lemmas: the execution of a workflow leaves the others alone *)

#[export] Instance rows_kept_preorder X : PreOrder (rows_kept X).
Proof.
  split; [done|]. intros d1 d2 d3 (Ho1 & Hq1 & H1) (Ho2 & Hq2 & H2). split_and!; [congruence..|].
  intros id Hid. by rewrite H2, H1.
Qed.

#[export] Instance leaves_preorder {W} X : PreOrder (leaves (W:=W) X).
Proof.
  split; [done|]. intros s1 s2 s3 (Ha & Hw & Hr) (Ha' & Hw' & Hr'). split_and!; [congruence..|by etrans].
Qed.

Lemma rows_kept_weaken (X Y : string → Prop) d d' : (∀ id, Y id → X id) → rows_kept X d d' → rows_kept Y d d'.
Proof. intros Hxy (? & ? & Hr). split_and!; [done..|]. intros id Hid. by apply Hr, Hxy. Qed.

Lemma leaves_weaken {W} (X Y : string → Prop) (s s' : machine (W:=W)) : (∀ id, Y id → X id) → leaves X s s' → leaves Y s s'.
Proof. intros Hxy (? & ? & ?). split_and!; [done..|]. by eapply rows_kept_weaken. Qed.

Lemma rows_kept_update X (p : string → workflow_status_row → bool) f d :
  (∀ id r, X id → p id r = false) →
  rows_kept X d (d <| workflow_status := sql_update p f (workflow_status d) |>).
Proof.
  intros Hp. split_and!; [done..|]. intros id Hid. simpl. rewrite lookup_sql_update.
  destruct (workflow_status d !! id) as [r|]; [|done]. simpl. by rewrite Hp.
Qed.

Lemma ends_database {W} X {A} (m : W → dbM A) : (∀ w, moves (rows_kept X) (m w)) → ends (leaves X) (database m).
Proof.
  intros Hm. apply ends_act; [apply _| |done]. intros s. unfold database. specialize (Hm (m_world s) (m_db s)).
  destruct (m (m_world s) (m_db s)) as [d r]. done.
Qed.

Section execution_frame.
Context {W : Type} `{Host W, Codecs} (serializer : Serializer) (executor_id : string).
Context (polls : nat) (app_id app_version : string) (reg : registry (W:=W)).
Context (X : string → Prop) (wid : string) (Hwid : ¬ X wid).
Notation workflow_handle := (@workflow_handle W).

Lemma ends_finalize_error {A} (P : A → Prop) status e :
  wi_workflow_uuid status = wid → ends_in (leaves X) P (finalize_error (A:=A) serializer status e).
Proof.
  intros Hs. unfold finalize_error. apply ends_next; [apply _|apply ends_any, _|]. intros x.
  apply ends_next; [apply _| |intros _; apply ends_raises, _]. apply ends_database. intros w.
  apply moves_update_workflow_outcome; [apply _|]. intros d. apply rows_kept_update. intros id r Hid.
  by rewrite bool_decide_eq_false_2 by (intros ->; by subst).
Qed.

(** The context comes back with the parent it had. *)
Lemma ends_init_workflow xid ctx info inputs queue tmo dl m opts b1 b2 st :
  has_parent ctx = false → wid ≠ "" →
  ends_in (leaves X) (λ r, has_parent r.1.1 = false)
    (init_workflow serializer executor_id app_version xid ctx info inputs queue tmo dl m opts b1 b2 st wid).
Proof.
  intros Hp Hne. unfold init_workflow. rewrite (bool_decide_eq_false_2 (wid = "")) by done. cbn [negb].
  rewrite (bool_decide_eq_false_2 (wid = "")) by done.
  apply ends_next; [apply _|apply ends_any, _|]. intros [x n].
  apply ends_next; [apply _|apply ends_any, _|]. intros a. cbv zeta.
  apply ends_next; [apply _| |intros out; by apply ends_mret, Hp; apply _]. apply ends_then; [apply _| |].
  - apply ends_database. intros w. unfold Workflows.init_workflow. apply moves_engine_begin; [apply _|].
    apply (moves_insert_workflow_status (rows_kept X)).
    + intros d d' row Hup. unfold upsert_workflow_row in Hup.
      change (wi_workflow_uuid (new_status _ _ _ _ _ _ _ _ _ _ _)) with wid in Hup.
      assert (∀ r, rows_kept X d (d <| workflow_status := <[wid := r]> (workflow_status d) |>)) as Hkept.
      { intros r. split_and!; [done..|]. intros id Hid. simpl. rewrite lookup_insert_ne; [done|]. by intros ->. }
      destruct (workflow_status d !! wid) eqn:Hw; [injection Hup as <- _; apply Hkept|].
      destruct (insert_workflow_row _ _ _) as [[d1 []]|] eqn:Hins; [|done]. injection Hup as <- _.
      unfold insert_workflow_row in Hins. repeat case_match; simplify_eq. apply Hkept.
    + intros d. apply rows_kept_update. intros id r Hid.
      change (wi_workflow_uuid (new_status _ _ _ _ _ _ _ _ _ _ _)) with wid.
      by rewrite (bool_decide_eq_false_2 (id = wid)) by (by intros ->).
  - intros [out|e]; [apply ends_any, _|]. destruct e; try apply ends_any, _.
    apply ends_next; [apply _|apply ends_any, _|]. intros [y l].
    assert (has_parent (ctx <| cx_workflow_attributes := None |>) = false) as -> by done.
    apply ends_next; [apply _|by apply ends_any, _|]. intros _. apply ends_any, _.
Qed.

(** The handle is the workflow's. *)
Lemma ends_start_workflow uuid xid info inputs queue b1 b2 b3 user roles key :
  wid ≠ "" →
  match start_workflow serializer executor_id polls app_id app_version uuid xid info inputs queue b1 b2 b3
    (Some (recovery_ctx executor_id app_id user roles wid key None)) with
  | Ok (_, p) => ends_in (leaves X) (λ h : workflow_handle, wh_workflow_id h = wid) p
  | Err _ => True
  end.
Proof.
  intros Hne. unfold start_workflow.
  destruct (submitted_ctx_eq executor_id app_id wid uuid user roles key Hne) as [ctx1 ->].
  change (has_parent (submitted_ctx executor_id app_id wid user roles)) with false.
  change (cx_id_assigned_for_next_workflow (submitted_ctx executor_id app_id wid user roles)) with wid.
  apply ends_next; [apply _|by apply ends_act; [apply _|intros s|]|]. intros deadline. rewrite bind_mret.
  cbn [mbind option_bind nonempty]. eapply ends_bind; [apply _|by apply ends_init_workflow|].
  intros [[ctx status] should] Hp. cbv zeta. cbn [fst] in Hp.
  assert (∀ t, has_parent (ctx <| cx_serialization_type := t |>) = false) as -> by (intros t; exact Hp).
  rewrite bind_mret. destruct (_ || _); by apply ends_mret; [apply _|].
Qed.

(** An execution ends in its handle, or an error, and has done nothing to the others. *)
Lemma ends_execute_workflow_by_id uuid xid b1 b2 :
  ends_in (leaves X) (λ h : workflow_handle, wh_workflow_id h = wid)
    (execute_workflow_by_id serializer executor_id polls app_id app_version uuid xid reg wid b1 b2 None).
Proof.
  unfold execute_workflow_by_id.
  eapply (ends_bind _ (λ found, ∀ status, found = Some status → wi_workflow_uuid status = wid)); [|].
  { apply ends_act; [apply _|intros s; unfold database; by rewrite machine_same_db|]. intros s a [= <-] status.
    unfold get_workflow_status. destruct (workflow_status (m_db s) !! wid); [|done]. by intros [= <-]. }
  intros [status|] Huuid; [|apply ends_raises, _]. specialize (Huuid _ eq_refl).
  assert (∀ A (r : res pyexn A), ends (leaves X) (or_finalize serializer status r)) as Hfin.
  { intros A [a|e]; simpl; [by apply ends_any, _|]. destruct (is_Exception e); [by apply ends_finalize_error|apply ends_raises, _]. }
  destruct (is_blank wid) eqn:Hb; [by apply ends_finalize_error|].
  apply ends_next; [apply _|apply Hfin|]. intros inputs.
  destruct (workflow_info_map reg _) as [info|]; [|apply ends_raises, _]. cbv zeta.
  apply ends_next; [apply _|destruct (wf_validate_args info); [apply Hfin|apply ends_any, _]|]. intros inputs'.
  apply ends_next; [apply _|apply ends_any, _|]. intros roles.
  apply ends_next; [apply _|apply ends_any, _|]. intros inputs2.
  pose proof (ends_start_workflow uuid xid info inputs2 (wi_queue_name status) true b1 b2 (wi_authenticated_user status)
    roles (wi_queue_partition_key status) ltac:(by intros ->)) as Hstart.
  destruct (start_workflow _ _ _ _ _ _ _ _ _ _ _ _ _ _) as [[? p]|e]; [exact Hstart|apply ends_raises, _].
Qed.
End execution_frame.

(** ** Lemmas: an iteration *)

Section rounds.
Context {W : Type} `{Host W, Codecs} (serializer : Serializer) (executor_id : string).
Context (polls : nat) (app_id app_version : string) (reg : registry (W:=W)).
Context (wait : Q → machine (W:=W) → machine (W:=W)) (locked : machine (W:=W) → gset string)
  (outage : machine (W:=W) → option pyexn).
Notation machine := (@machine W).
Notation executable := (executable serializer reg).
Notation execute_each := (execute_each serializer executor_id polls app_id app_version reg).
Notation dispatch := (dispatch executor_id app_version locked outage).
Notation serve := (serve serializer executor_id polls app_id app_version reg locked outage).

(** The workflow's thread is among the handles, in the context its row [row] gives it, and
    its row waits for the outcome. *)
Definition handed_over (hs : list (workflow_handle (W:=W))) (id : string) (row : workflow_status_row)
    (info : workflow_info (W:=W)) (inputs : WorkflowInputs) (roles : option (list string)) (d : db) : Prop :=
  ∃ status ctx row1,
    {| wh_workflow_id := id; wh_future := Some (execute_workflow_wthread serializer polls status info ctx inputs) |} ∈ hs ∧
    wi_workflow_uuid status = id ∧ enter_workflow ctx = Ok (execution_ctx executor_id app_id id row info roles) ∧
    workflow_status d !! id = Some row1 ∧ ws_status row1 = PENDING ∧ run_identity row1 = run_identity row.

(** What an execution that starts makes of the row of its workflow. *)
Definition started_again (info : workflow_info (W:=W)) (row row1 : workflow_status_row) : Prop :=
  submitted_again executor_id row row1 ∧ ws_status row1 = PENDING ∧ run_identity row1 = run_identity row ∧
  ∀ j, attempts_left row info (S j) → attempts_left row1 info j.

(** With what the thread has to know of its row. *)
Definition taken_up (hs : list (workflow_handle (W:=W))) (id : string) (row : workflow_status_row)
    (info : workflow_info (W:=W)) (inputs : WorkflowInputs) (roles : option (list string)) (d : db) : Prop :=
  ∃ status ctx row1,
    {| wh_workflow_id := id; wh_future := Some (execute_workflow_wthread serializer polls status info ctx inputs) |} ∈ hs ∧
    wi_workflow_uuid status = id ∧ not_complete (wi_status status) = true ∧ wi_serialization status = ws_serialization row ∧
    enter_workflow ctx = Ok (execution_ctx executor_id app_id id row info roles) ∧
    workflow_status d !! id = Some row1 ∧ started_again info row row1.

Lemma taken_up_handed_over hs id row info inputs roles d :
  taken_up hs id row info inputs roles d → handed_over hs id row info inputs roles d.
Proof. intros (status & ctx & row1 & ? & ? & _ & _ & ? & ? & _ & ? & ? & _). by exists status, ctx, row1. Qed.

Lemma taken_up_kept hs hs' id row info inputs roles d d' :
  taken_up hs id row info inputs roles d → (∀ h, h ∈ hs → h ∈ hs') →
  workflow_status d' !! id = workflow_status d !! id → taken_up hs' id row info inputs roles d'.
Proof.
  intros (status & ctx & row1 & Hin & ? & ? & ? & ? & Hrow & ?) Hsub Heq. exists status, ctx, row1. rewrite Heq.
  split; [by apply Hsub|done].
Qed.

Lemma execute_each_cons uuids xids id ids (s : machine) s1 r1 :
  finish (execute_workflow_by_id serializer executor_id polls app_id app_version (uuids id) (xids id) reg id false true None) s
    = (s1, Some r1) →
  finish (execute_each uuids xids (id :: ids)) s =
    match r1 with
    | Ok handle => finish ('(handles, r') ← execute_each uuids xids ids; mret (handle :: handles, r')) s1
    | Err e => if is_Exception e then finish (execute_each uuids xids ids) s1 else (s1, Some (Ok ([], Err e)))
    end.
Proof.
  intros Hf. change (execute_each uuids xids (id :: ids)) with
    (and_then (execute_workflow_by_id serializer executor_id polls app_id app_version (uuids id) (xids id) reg id false true None)
      (λ r, match r with
            | Ok handle => '(handles, r') ← execute_each uuids xids ids; mret (handle :: handles, r')
            | Err e => if is_Exception e then execute_each uuids xids ids else mret ([], Err e)
            end)).
  rewrite finish_and_then, Hf. destruct r1 as [h|e]; [done|]. by destruct (is_Exception e).
Qed.

Lemma handed_over_identity hs id row row' info inputs roles d :
  run_identity row = run_identity row' → handed_over hs id row info inputs roles d → handed_over hs id row' info inputs roles d.
Proof.
  intros Hi (status & ctx & row1 & ? & ? & Hctx & ? & ? & Hrow1). exists status, ctx, row1.
  rewrite <- Hi. split_and!; try done. rewrite Hctx. f_equal. by apply execution_ctx_identity.
Qed.

Lemma started_row_identity now start queue row row' :
  run_identity row = run_identity row' → ws_workflow_timeout_ms row = ws_workflow_timeout_ms row' →
  run_identity (started_row now start queue executor_id app_version row) =
  run_identity (started_row now start queue executor_id app_version row').
Proof.
  unfold run_identity. intros [= E1 E2 E3 E4 E5 E6 E7 E8] Ht. cbn. by rewrite E1, E2, E3, E4, E5, E6, E7, E8, Ht.
Qed.

(** An exception that is no [Exception] of the execution of one of the workflows in [ids]. *)
Definition interrupts (uuids xids : string → string) (ids : list string) (e : pyexn) : Prop :=
  is_Exception e = false ∧ ∃ id s0, id ∈ ids ∧
    (finish (execute_workflow_by_id serializer executor_id polls app_id app_version (uuids id) (xids id) reg id false true None) s0).2
      = Some (Err e).

Lemma interrupts_later uuids xids id ids e : interrupts uuids xids ids e → interrupts uuids xids (id :: ids) e.
Proof. intros (? & i & s0 & ? & ?). split; [done|]. exists i, s0. split; [by right|done]. Qed.

(** The start of a workflow that can be executed. *)
Lemma execute_takes_up uuid xid id row info inputs roles (s : machine) :
  workflow_status (m_db s) !! id = Some row → executable id row info inputs roles →
  ws_status row = PENDING → attempts_left row info 1 →
  ∃ h row1, started_again info row row1 ∧
    let d := (m_db s) <| workflow_status := <[id := row1]> (workflow_status (m_db s)) |> in
    taken_up [h] id row info inputs roles d ∧ wh_workflow_id h = id ∧
    leads_to (execute_workflow_by_id serializer executor_id polls app_id app_version uuid xid reg id false true None) s
      (mret h) (s <| m_db := d |>).
Proof.
  intros Hrow Hex Hp Hatt.
  destruct (handle_pending serializer executor_id polls app_id app_version reg id false true eq_refl uuid xid
    row info inputs roles s Hrow Hex Hp Hatt) as (status & ctx & row1 & H1 & H2 & H3 & H4 & H5 & H6 & H7 & H8 & Hlead).
  eexists _, row1. split; [by split_and!|]. cbv zeta. refine (conj _ (conj _ Hlead)); [|done].
  exists status, ctx, row1. split; [left|]. do 4 (split; [done|]). split; [apply lookup_insert_eq|by split_and!].
Qed.

(** The loop over what a dispatch has answered ends; what it does to the workflows that can be
    executed does not depend on the others, unless an exception that is no [Exception] ends it. *)
Lemma execute_each_crashes uuids xids ids (s : machine) :
  NoDup ids → crash_states (execute_each uuids xids ids) s (leaves (λ id, id ∉ ids) s).
Proof.
  revert s. induction ids as [|id ids IH]; intros s Hnd; [apply crash_returns|].
  apply NoDup_cons in Hnd as [Hnot Hnd].
  assert (∀ s s' : machine, leaves (λ i, i ≠ id) s s' → leaves (λ i, i ∉ id :: ids) s s') as Hhead
    by (intros t t'; apply leaves_weaken; intros i Hi ->; apply Hi; left).
  destruct (ends_execute_workflow_by_id serializer executor_id polls app_id app_version reg (λ i, i ≠ id) id
              ltac:(auto) (uuids id) (xids id) false true s) as [(s1 & r1 & Hf1 & Hl1 & _) Hc1].
  apply crash_and_then; [intros n s' Hn; by apply Hhead, (Hc1 n)|]. intros s' r' Hf'. rewrite Hf1 in Hf'. injection Hf' as <- <-.
  assert (crash_states (execute_each uuids xids ids) s1 (leaves (λ i, i ∉ id :: ids) s)) as Hc.
  { intros n s' Hn. etrans; [by apply Hhead|]. eapply leaves_weaken; [|by apply (IH s1 Hnd n)]. intros i Hi Hin. apply Hi. by right. }
  destruct r1 as [h|e]; [|destruct (is_Exception e); [exact Hc|apply crash_returns]].
  apply crash_and_then; [exact Hc|]. intros s' [[hs' r']|e] _; apply crash_returns.
Qed.

Lemma execute_each_spec uuids xids ids (s : machine) :
  NoDup ids →
  (∃ s' hs r, finish (execute_each uuids xids ids) s = (s', Some (Ok (hs, r))) ∧ leaves (λ id, id ∉ ids) s s' ∧
    (wh_workflow_id <$> hs) `sublist_of` ids ∧ (∀ e, r = Err e → interrupts uuids xids ids e) ∧
    (∀ id row info inputs roles, r = Ok tt ∨ id ∈ wh_workflow_id <$> hs → id ∈ ids → workflow_status (m_db s) !! id = Some row →
       executable id row info inputs roles → ws_status row = PENDING → attempts_left row info 1 →
       taken_up hs id row info inputs roles (m_db s'))) ∧
  crash_states (execute_each uuids xids ids) s (leaves (λ id, id ∉ ids) s).
Proof.
  intros Hnd. split; [|by apply execute_each_crashes]. revert s Hnd. induction ids as [|id ids IH]; intros s Hnd.
  { exists s, [], (Ok tt). split_and!; try done.
    intros id row info inputs roles _ Hin. by apply elem_of_nil in Hin. }
  apply NoDup_cons in Hnd as [Hnot Hnd].
  assert (∀ s s' : machine, leaves (λ i, i ≠ id) s s' → leaves (λ i, i ∉ id :: ids) s s') as Hhead
    by (intros t t'; apply leaves_weaken; intros i Hi ->; apply Hi; left).
  assert (∀ s s' : machine, leaves (λ i, i ∉ ids) s s' → leaves (λ i, i ∉ id :: ids) s s') as Htl
    by (intros t t'; apply leaves_weaken; intros i Hi Hin; apply Hi; by right).
  destruct (ends_execute_workflow_by_id serializer executor_id polls app_id app_version reg (λ i, i ≠ id) id
              ltac:(auto) (uuids id) (xids id) false true s) as [(s1 & r1 & Hf1 & Hl1 & Hh) _].
  destruct (IH s1 Hnd) as (s2 & hs & r & Hf2 & Hl2 & Hsub & Herr & Hok).
  assert (leaves (λ i, i ∉ id :: ids) s s2) as Hleaves by (etrans; [apply Hhead, Hl1|apply Htl, Hl2]).
  assert (∀ hs', (∀ h, h ∈ hs → h ∈ hs') → ∀ i row info inputs roles, r = Ok tt ∨ i ∈ wh_workflow_id <$> hs → i ∈ ids →
            workflow_status (m_db s) !! i = Some row → executable i row info inputs roles → ws_status row = PENDING →
            attempts_left row info 1 → taken_up hs' i row info inputs roles (m_db s2)) as Htail.
  { intros hs' Hs i row info inputs roles Hr Hi Hrow Hex Hp Hatt.
    eapply taken_up_kept; [eapply Hok; try done|done|done].
    destruct Hl1 as (_ & _ & _ & _ & Hr1). rewrite Hr1; [done|]. by intros ->. }
  rewrite (execute_each_cons _ _ _ _ _ _ _ Hf1).
  destruct r1 as [h|e].
  - exists s2, (h :: hs), r. split_and!; [|done| |intros e He; by apply interrupts_later, Herr|].
    + unfold mbind, process_bind. by rewrite finish_and_then, Hf2.
    + rewrite fmap_cons, (Hh h eq_refl). by constructor.
    + intros i row info inputs roles Hr [->|Hi]%elem_of_cons Hrow Hex Hp Hatt.
      2: { eapply Htail; try done; [intros h' Hh'; by right|]. destruct Hr as [Hr|Hr]; [by left|right].
           rewrite fmap_cons, (Hh h eq_refl) in Hr. apply elem_of_cons in Hr as [->|Hr]; done. }
      destruct (execute_takes_up (uuids id) (xids id) id row info inputs roles s Hrow Hex Hp Hatt)
        as (h' & row1 & _ & Ht & _ & [Hlead _]).
      rewrite Hf1 in Hlead. injection Hlead as -> ->. eapply taken_up_kept; [exact Ht|by intros ? ->%list_elem_of_singleton; left|].
      destruct Hl2 as (_ & _ & _ & _ & Hr2). by rewrite Hr2.
  - assert (∀ row info inputs roles, workflow_status (m_db s) !! id = Some row → executable id row info inputs roles →
      ws_status row = PENDING → attempts_left row info 1 → False) as Hfails.
    { intros row info inputs roles Hrow Hex Hp Hatt.
      destruct (execute_takes_up (uuids id) (xids id) id row info inputs roles s Hrow Hex Hp Hatt) as (h & row1 & _ & _ & _ & [Hlead _]).
      by rewrite Hf1 in Hlead. }
    destruct (is_Exception e) eqn:He.
    + exists s2, hs, r. split_and!; [done..|by constructor|intros e' He'; by apply interrupts_later, Herr|].
      intros i row info inputs roles Hr [->|Hi]%elem_of_cons Hrow Hex Hp Hatt; [by destruct (Hfails row info inputs roles)|by eapply Htail].
    + exists s1, [], (Err e). split_and!; [done|by apply Hhead|by apply sublist_nil_l| |].
      * intros e' [= <-]. split; [done|]. exists id, s. split; [left|]. by rewrite Hf1.
      * intros i row info inputs roles [?|Hin]; [done|by apply elem_of_nil in Hin].
Qed.

(** The process has done nothing but to the rows of workflows, and the row [row] of [id] is as
    it was, or as the start of its execution leaves it. *)
Definition at_most_started (id : string) (info : workflow_info (W:=W)) (row : workflow_status_row) (s s' : machine) : Prop :=
  leaves (λ _, False) s s' ∧ ∃ row', workflow_status (m_db s') !! id = Some row' ∧ (row' = row ∨ started_again info row row').

Lemma at_most_started_left X id info row (s s1 s2 : machine) :
  at_most_started id info row s s1 → leaves X s1 s2 → X id → at_most_started id info row s s2.
Proof.
  intros [Hl (row' & Hr & Hrow)] Hl2 Hid. split; [etrans; [exact Hl|by eapply leaves_weaken]|].
  exists row'. split; [|done]. destruct Hl2 as (_ & _ & _ & _ & ->); done.
Qed.

Lemma execute_each_always uuids xids ids id row info inputs roles (s : machine) :
  NoDup ids → id ∈ ids → workflow_status (m_db s) !! id = Some row →
  executable id row info inputs roles → ws_status row = PENDING → attempts_left row info 1 →
  always (execute_each uuids xids ids) s (at_most_started id info row s).
Proof.
  intros Hnd Hin Hrow Hex Hp Hatt. revert s Hnd Hin Hrow. induction ids as [|i ids IH]; intros s Hnd Hin Hrow; [by apply elem_of_nil in Hin|].
  pose proof Hnd as [Hnot Hnd']%NoDup_cons.
  assert (at_most_started id info row s s) as Hs by (split; [done|]; exists row; auto).
  assert (∀ s1, at_most_started id info row s s1 → (id ∈ ids → workflow_status (m_db s1) !! id = Some row) →
    always (execute_each uuids xids ids) s1 (at_most_started id info row s)) as Htail.
  { intros s1 H1 Hback. destruct (decide (id ∈ ids)) as [Hi|Hi].
    - eapply always_weaken; [|exact (IH s1 Hnd' Hi (Hback Hi))]. intros s' [Hl' Hr']. split; [etrans; [exact (proj1 H1)|done]|done].
    - destruct (execute_each_spec uuids xids ids s1 Hnd') as [(s2 & hs & r & Hf & Hl2 & _) Hc].
      apply always_crash_states; [intros n s' Hn; eapply at_most_started_left; [exact H1|by apply (Hc n)|done]|].
      intros s' r' Hf'. rewrite Hf in Hf'. injection Hf' as <- _. by eapply at_most_started_left. }
  assert (∀ s1 (r : res pyexn workflow_handle), at_most_started id info row s s1 →
    (id ∈ ids → workflow_status (m_db s1) !! id = Some row) →
    always (match r with
            | Ok handle => '(handles, r') ← execute_each uuids xids ids; mret (handle :: handles, r')
            | Err e => if is_Exception e then execute_each uuids xids ids else mret ([], Err e)
            end) s1 (at_most_started id info row s)) as Hnext.
  { intros s1 r H1 Hback. destruct r as [h|e]; [|destruct (is_Exception e); [by apply Htail|by apply always_returns]].
    apply always_and_then; [by apply Htail|]. intros s2 [[hs r]|e] _ H2; by apply always_returns. }
  cbn [Workers.execute_each]. apply always_and_then.
  - destruct (decide (i = id)) as [->|Hne].
    + destruct (execute_takes_up (uuids id) (xids id) id row info inputs roles s Hrow Hex Hp Hatt) as (h & row1 & Hst & _ & _ & Hf & Hc).
      assert (at_most_started id info row s (s <| m_db := (m_db s) <| workflow_status := <[id := row1]> (workflow_status (m_db s)) |> |>)) as H1
        by (split; [done|]; exists row1; split; [apply lookup_insert_eq|by right]).
      apply always_crash_states; [apply Hc; [done|done|apply crash_returns]|]. intros s' r Hf'. rewrite Hf in Hf'. by injection Hf' as <- _.
    + eapply always_weaken; [|eapply always_ends, (ends_execute_workflow_by_id _ _ _ _ _ _ (λ j, j ≠ i)); auto].
      intros s' Hl. by eapply at_most_started_left.
  - intros s1 r Hf H1. apply Hnext; [done|]. intros Hi. assert (i ≠ id) as Hne by (by intros ->).
    destruct (ends_execute_workflow_by_id serializer executor_id polls app_id app_version reg (λ j, j ≠ i) i ltac:(auto)
      (uuids i) (xids i) false true s) as [(s2 & r2 & Hf2 & (_ & _ & _ & _ & Hr) & _) _].
    rewrite Hf in Hf2. injection Hf2 as <- _. rewrite Hr; [done|]. by intros ->.
Qed.

(** A dispatch that the database answers. *)
Lemma dispatch_finish queue key (s : machine) d r :
  outage s = None →
  start_queued_workflows (now_ms (m_world s)) (time_ms (m_world s)) queue executor_id app_version key
    (count_for_queue (q_name queue) key s) (locked s) (m_db s) = (d, r) →
  finish (dispatch queue key) s = (s <| m_db := d |>, Some r).
Proof.
  intros Ho Hd. unfold Workers.dispatch, mbind, process_bind. rewrite finish_and_then, finish_act. cbn [gets fst snd].
  rewrite finish_act, Ho, Hd. done.
Qed.

Lemma serve_finish uuids xids queue key (s : machine) d ids :
  outage s = None →
  start_queued_workflows (now_ms (m_world s)) (time_ms (m_world s)) queue executor_id app_version key
    (count_for_queue (q_name queue) key s) (locked s) (m_db s) = (d, Ok ids) →
  finish (serve uuids xids queue key) s = finish (execute_each uuids xids ids) (s <| m_db := d |>).
Proof. intros Ho Hd. unfold Workers.serve. by rewrite finish_and_then, (dispatch_finish _ _ _ _ _ Ho Hd). Qed.

Lemma executable_started id row info inputs roles f :
  run_identity (f row) = (ws_name row, ws_class_name row, ws_config_name row, ws_inputs row, ws_serialization row,
    ws_authenticated_user row, ws_authenticated_roles row, ws_workflow_deadline_epoch_ms (f row)) →
  executable id row info inputs roles → executable id (f row) info inputs roles.
Proof.
  unfold run_identity. intros [= E1 E2 E3 E4 E5 E6 E7] []. by split; rewrite ?E1, ?E2, ?E3, ?E4, ?E5, ?E6, ?E7.
Qed.
End rounds.

(** A queue without limits: the dispatch answers, and takes all it can. *)
Lemma unlimited_dispatch now start q ex app_version key local locked d :
  q_concurrency q = None → q_worker_concurrency q = None → q_limiter q = None →
  ∃ ids, start_queued_workflows now start q ex app_version key local locked d =
           (started_db now start q ex app_version ids d, Ok ids) ∧ NoDup ids ∧
    ∀ id r, workflow_status d !! id = Some r → dequeuable q app_version key d r = true → id ∉ locked → id ∈ ids.
Proof.
  intros Hc Hw Hl.
  destruct (dequeued_ids q app_version key local locked d) as [ids|e] eqn:Hids.
  2: { unfold dequeued_ids in Hids. rewrite Hc in Hids. by destruct (bool_decide (max_tasks _ _ _ _ ≠ _)). }
  destruct (dequeued_ids_spec _ _ _ _ _ _ _ Hids) as (Hnd & Hrows & _ & _ & Hall).
  exists ids. split_and!; [|done|].
  - unfold start_queued_workflows, engine_begin, query, mbind, SM_bind. cbn [current]. rewrite Hl. cbn [current].
    rewrite Hids.
    rewrite start_each_eq; [|done|].
    + unfold within_limit. rewrite Hl. done.
    + intros id Hid. destruct (Hrows id Hid) as (r & Hr & Hq & _). exists r. split; [done|].
      unfold dequeuable in Hq. rewrite !andb_true_iff, bool_decide_eq_true in Hq. tauto.
  - intros id r. apply Hall. unfold max_tasks. by rewrite Hw, Hc.
Qed.

(** No more than the worker has room for. *)
Lemma dispatch_length now start q ex app_version key local locked d d' ids w :
  start_queued_workflows now start q ex app_version key local locked d = (d', Ok ids) →
  q_worker_concurrency q = Some w → (0 ≤ local)%Z → (w < sys_maxsize)%Z → (Z.of_nat (length ids) ≤ Z.max 0 (w - local))%Z.
Proof.
  intros (_ & Hids)%start_queued_workflows_Ok Hw Hlocal Hmax. destruct Hids as [(l & _ & _ & ->)|(dq & Hdq & ->)]; [simpl; lia|].
  destruct (dequeued_ids_spec _ _ _ _ _ _ _ Hdq) as (_ & _ & Hlen & _).
  assert (Z.of_nat (length dq) ≤ Z.max 0 (w - local))%Z as Hdql.
  { revert Hlen. unfold max_tasks. rewrite Hw. pose proof (sql_count_nonneg (λ _, running q key) (workflow_status d)).
    unfold sys_maxsize in *. destruct (q_concurrency q); lia. }
  unfold within_limit. destruct (q_limiter q); [rewrite length_take|]; lia.
Qed.

(** A thread that enters the list of active workflows adds one at most. *)
Lemma entered_count {W} queue_name key ks (s : machine (W:=W)) :
  (count_for_queue queue_name key (foldl (λ s k, (acquire k (Some queue_name) key s).1) s ks) ≤
   count_for_queue queue_name key s + Z.of_nat (length ks))%Z.
Proof.
  revert s. induction ks as [|k ks IH]; intros s; simpl; [lia|]. etrans; [apply IH|].
  unfold acquire. destruct (m_active s !! k) eqn:Hk; simpl; [lia|]. unfold count_for_queue. simpl.
  rewrite sql_count_insert_None by done. destruct (bool_decide _); simpl; lia.
Qed.

(** ** Lemmas: the manager *)

Lemma queue_from_db_row_name name m b q : queue_from_db_row name m b = Ok q → q_name q = name.
Proof. unfold queue_from_db_row. by destruct (validate_queue _ _ _ _); intros [= <-]. Qed.

Lemma list_queues_names d b qs : list_queues d b = Ok qs → NoDup (q_name <$> qs).
Proof.
  unfold list_queues. intros Hqs. enough (q_name <$> qs = (map_to_list (queues d)).*1) as -> by apply NoDup_fst_map_to_list.
  revert qs Hqs. induction (map_to_list (queues d)) as [|[n m] l IH]; intros qs; simpl; [by intros [= <-]|].
  destruct (queue_from_db_row n m b) as [q|] eqn:Hq; [|done]. destruct (res_map _ l) as [qs'|]; [|done]. intros [= <-].
  rewrite fmap_cons, (queue_from_db_row_name _ _ _ _ Hq). f_equal. by apply IH.
Qed.

(** What is let in, [p], depends on the map only at the queue's own name. *)
Lemma lookup_add_queues (p : Queue → bool) (include : Queue → gmap string Queue → bool) base listed name q :
  NoDup (q_name <$> listed_queues listed) →
  (∀ q m, m !! q_name q = base !! q_name q → include q m = p q) →
  (∀ q, p q = true → base !! q_name q = None) →
  add_queues include base listed !! name = Some q ↔
    base !! name = Some q ∨ (q ∈ listed_queues listed ∧ q_name q = name ∧ p q = true).
Proof.
  intros Hnd Hinc Hp. destruct listed as [qs|e]; simpl in *; [|split; [by left|intros [?|(?%elem_of_nil & _)]; done]].
  assert (∀ m0, (∀ q, q ∈ qs → m0 !! q_name q = base !! q_name q) →
    (foldl (λ m q, if include q m then <[q_name q := q]> m else m) m0 qs !! name = Some q ↔
       m0 !! name = Some q ∨ (q ∈ qs ∧ q_name q = name ∧ p q = true))) as Hgen; [|by apply Hgen].
  induction qs as [|q0 qs IH]; intros m0 Hm0; simpl.
  { split; [by left|]. intros [?|(?%elem_of_nil & _)]; done. }
  simpl in Hnd. apply NoDup_cons in Hnd as [Hnot Hnd].
  assert (m0 !! q_name q0 = base !! q_name q0) as Hq0 by (apply Hm0; left).
  rewrite (Hinc q0 m0 Hq0), IH; [|done|].
  - rewrite elem_of_cons. destruct (p q0) eqn:Hpq.
    2: { split; (intros [?|(Hin & ? & ?)]; [by left|]); [right; auto|]. destruct Hin as [->|?]; [congruence|by right]. }
    destruct (decide (q_name q0 = name)) as [<-|Hne].
    + rewrite lookup_insert_eq. rewrite Hq0, (Hp _ Hpq). split; [intros [[= <-]|(? & ? & ?)]; right; auto|].
      intros [?|([->|Hin] & Heq & _)]; [done|by left|].
      destruct Hnot. rewrite <- Heq. by apply list_elem_of_fmap_2.
    + rewrite lookup_insert_ne by done. split; (intros [?|(Hin & ? & ?)]; [by left|]); [right; auto|].
      destruct Hin as [->|?]; [done|by right].
  - intros q' Hq'. destruct (p q0); [|apply Hm0; by right]. rewrite lookup_insert_ne; [apply Hm0; by right|].
    intros Heq. destruct Hnot. rewrite Heq. by apply list_elem_of_fmap_2.
Qed.

Lemma current_queues_served listening registered internal alive listed name q :
  NoDup (q_name <$> listed_queues listed) →
  (current_queues listening registered internal alive listed !! name = Some q →
     served listening registered internal (listed_queues listed) name q) ∧
  (served listening registered internal (listed_queues listed) name q → alive name = false →
     current_queues listening registered internal alive listed !! name = Some q).
Proof.
  intros Hnd. unfold current_queues, served. destruct listening as [names|].
  - destruct (decide (name = INTERNAL_QUEUE_NAME)) as [->|Hne].
    { rewrite lookup_insert_eq. split; [by intros [= ->]|by intros ->]. }
    rewrite lookup_insert_ne by done.
    rewrite (lookup_add_queues (λ q, bool_decide (q_name q ∈ names) &&
      bool_decide (filter (λ nq : string * Queue, nq.1 ∈ names) registered !! q_name q = None))); [|done|by intros q' m ->|].
    2: { intros q' Hq'. apply andb_true_iff in Hq' as [_ Hq']. by apply bool_decide_eq_true in Hq'. }
    rewrite map_lookup_filter_Some. setoid_rewrite andb_true_iff. rewrite !bool_decide_eq_true, map_lookup_filter_None.
    split.
    + intros [[? ?]|(? & <- & ? & Hb)]; [auto|]. split; [done|]. right. split_and!; [|done..].
      destruct Hb as [?|Hb]; [done|]. destruct (registered !! q_name q) eqn:Hr; [|done]. by destruct (Hb _ eq_refl).
    + intros (? & [?|(? & ? & <-)]) _; [by left|]. right. split_and!; [done..|]. by left.
  - rewrite (lookup_add_queues (λ q, bool_decide (registered !! q_name q = None) && negb (alive (q_name q)))); [|done..|].
    2: { intros q' Hq'. apply andb_true_iff in Hq' as [Hq' _]. by apply bool_decide_eq_true in Hq'. }
    rewrite andb_true_iff, bool_decide_eq_true, negb_true_iff. split.
    + intros [?|(? & <- & ? & _)]; auto.
    + intros [?|(? & ? & <-)] Hal; [by left|by right].
Qed.

(** ** Lemmas: the interval *)

Lemma interval_bounds queue : (polling_interval_sec queue <= max_polling_interval queue)%Q ∧ (120 <= max_polling_interval queue)%Q.
Proof. split; [apply Q.le_max_l|apply Q.le_max_r]. Qed.

Lemma clamp_bounds queue i :
  (polling_interval_sec queue <= clamp_interval queue i <= max_polling_interval queue)%Q.
Proof.
  split; [apply Q.le_max_l|]. apply Q.max_lub; [apply interval_bounds|apply Q.le_min_r].
Qed.

Ltac qbound f spec a b := let Hq := fresh in pose proof (spec a b) as Hq; generalize dependent (f a b); intros.
(** Linear facts about [Qmax] and [Qmin], case by case. *)
Ltac qcases := repeat match goal with
  | |- context [Qmax ?a ?b] => qbound Qmax Q.max_spec a b
  | |- context [Qmin ?a ?b] => qbound Qmin Q.min_spec a b
  | _ : context [Qmax ?a ?b] |- _ => qbound Qmax Q.max_spec a b
  | _ : context [Qmin ?a ?b] |- _ => qbound Qmin Q.min_spec a b
  end; repeat match goal with Hq : _ ∨ _ |- _ => destruct Hq as [[? ?]|[? ?]] end; try lra.

Lemma Qpower_S (q : Q) n : (¬ q == 0 → q ^ Z.of_nat (S n) == q * q ^ Z.of_nat n)%Q.
Proof. intros Hq. rewrite Nat2Z.inj_succ, <- Z.add_1_l, Qpower_plus by done. reflexivity. Qed.

Lemma decay_small n : ((9 # 10) ^ Z.of_nat n * (9 + inject_Z (Z.of_nat n)) <= 9)%Q.
Proof.
  induction n as [|n IH]; [easy|]. rewrite Qpower_S by easy. rewrite Nat2Z.inj_succ, <- Z.add_1_r, inject_Z_plus.
  assert (0 <= (9 # 10) ^ Z.of_nat n)%Q by (apply Qpower_0_le; easy).
  assert (0 <= inject_Z (Z.of_nat n))%Q by (change 0%Q with (inject_Z 0); rewrite <- Zle_Qle; lia).
  change (inject_Z 1) with 1%Q. nra.
Qed.

Section intervals.
Context (queue : Queue) (i : Q).
Notation lo := (polling_interval_sec queue).
Notation hi := (max_polling_interval queue).
Notation p := (clamp_interval queue i).
Hypothesis positive : (0 < lo)%Q.

Lemma interval_quiet n : (after_rounds queue (Ok tt) n p == Qmax lo (p * (9 # 10) ^ Z.of_nat n))%Q.
Proof.
  pose proof (interval_bounds queue) as [Hlohi H120]. destruct (clamp_bounds queue i) as [Hlo Hhi].
  induction n as [|n IH]; [change ((9 # 10) ^ Z.of_nat 0)%Q with 1%Q; simpl; qcases|].
  rewrite Qpower_S by easy. simpl. unfold next_interval at 1, clamp_interval at 1. fold (after_rounds queue (Ok tt) n p).
  assert (0 <= (9 # 10) ^ Z.of_nat n <= 1)%Q as [Hx0 Hx1].
  { split; [apply Qpower_0_le; easy|]. pose proof (decay_small n).
    assert (0 <= inject_Z (Z.of_nat n))%Q by (change 0%Q with (inject_Z 0); rewrite <- Zle_Qle; lia).
    assert (0 <= (9 # 10) ^ Z.of_nat n)%Q by (apply Qpower_0_le; easy). nra. }
  generalize dependent ((9 # 10) ^ Z.of_nat n)%Q. intros x IH Hx0 Hx1.
  assert (p * x <= hi)%Q by nra. assert (p * ((9 # 10) * x) == p * x * (9 # 10))%Q by ring.
  generalize dependent (p * x)%Q. intros. qcases.
Qed.

Lemma interval_contended e n :
  contention e = true →
  (after_rounds queue (Err e : res pyexn unit) (S n) p == Qmax lo (Qmin (hi * (9 # 10)) (p * (9 # 5) ^ Z.of_nat (S n))))%Q.
Proof.
  intros He. pose proof (interval_bounds queue) as [Hlohi H120]. destruct (clamp_bounds queue i) as [Hlo Hhi].
  assert (∀ j, next_interval queue (clamp_interval queue j) (Err e : res pyexn unit) =
            Qmax lo (Qmin hi (Qmax lo (Qmin j hi) * 2) * (9 # 10)))%Q as Hstep by (intros j; unfold next_interval; by rewrite He).
  induction n as [|n IH].
  - simpl. rewrite Hstep. change ((9 # 5) ^ 1)%Q with (9 # 5)%Q. qcases.
  - change (after_rounds queue (Err e : res pyexn unit) (S (S n)) p) with
      (next_interval queue (clamp_interval queue (after_rounds queue (Err e : res pyexn unit) (S n) p)) (Err e : res pyexn unit)).
    rewrite Hstep, (Qpower_S (9 # 5) (S n)) by easy.
    assert (1 <= (9 # 5) ^ Z.of_nat (S n))%Q as Hx by (apply Qpower_1_le; [easy|lia]).
    generalize dependent ((9 # 5) ^ Z.of_nat (S n))%Q. intros x IH Hx. assert (lo <= p * x)%Q by nra.
    assert (p * ((9 # 5) * x) == p * x * (9 # 5))%Q by ring. generalize dependent (p * x)%Q. intros.
    generalize dependent (after_rounds queue (Err e : res pyexn unit) (S n) p). intros. qcases.
Qed.
End intervals.

Section properties.
Context {W : Type} `{Host W, Codecs} (serializer : Serializer) (executor_id : string).
Context (polls : nat) (app_id app_version : string) (reg : registry (W:=W)).
Context (wait : Q → machine (W:=W) → machine (W:=W)) (locked : machine (W:=W) → gset string)
  (outage : machine (W:=W) → option pyexn).
Notation machine := (@machine W).
Notation serve := (serve serializer executor_id polls app_id app_version reg locked outage).
Notation worker_round := (worker_round serializer executor_id polls app_id app_version reg wait locked outage).
Notation manager_round := (manager_round outage).

(** What the manager makes of the rows: the expired delays are over. *)
Lemma manager_round_finish listening registered internal alive alive' (s : machine) :
  outage s = None →
  finish (manager_round listening registered internal alive alive') s =
  (s <| m_db := (m_db s) <| workflow_status := sql_update (λ _, due (time_ms (m_world s))) transitioned_row
                              (workflow_status (m_db s)) |> |>,
   Some (Ok (filter (λ nq, alive' nq.1 = false)
     (current_queues listening registered internal alive (list_queues (m_db s) false))))).
Proof.
  intros Ho. unfold Workers.manager_round. unfold mbind at 1, process_bind at 1. rewrite finish_and_then, finish_act.
  unfold gets. cbn [fst snd]. rewrite finish_and_then, finish_act, Ho. done.
Qed.

(** The configuration is read where it is. *)
Lemma reload_configured queue0 queue (s : machine) :
  outage s = None →
  (if q_database_backed queue0 then get_queue (m_db s) (q_name queue0) false = Ok (Some queue) else queue0 = queue) →
  finish (reload outage queue0) s = (s, Some (Ok (Some queue))) ∧ ∀ P : machine → Prop, P s → crash_states (reload outage queue0) s P.
Proof.
  intros Ho Hb. unfold reload. destruct (q_database_backed queue0).
  - rewrite finish_and_then, finish_act, Ho. cbn [fst snd]. rewrite Hb. split; [done|]. intros P HP.
    apply crash_and_then; [by apply crash_act|]. intros s1 r. rewrite finish_act, Ho. cbn [fst snd]. rewrite Hb. intros [= <- <-].
    apply crash_returns.
  - rewrite Hb. split; [done|]. intros P _. apply crash_returns.
Qed.

(** The turn of a workflow in the dispatch that a worker makes of its queue now. *)
Notation has_turn_now queue s id row := (has_turn (time_ms (m_world s)) queue app_version None
  (count_for_queue (q_name queue) None s) (locked s) (m_db s) id row).

(** A worker takes up a workflow that waits on its queue when it has its turn. *)
Lemma serve_takes uuids xids queue (s : machine) id row info inputs roles :
  let row1 := started_row (now_ms (m_world s)) (time_ms (m_world s)) queue executor_id app_version row in
  outage s = None → workflow_status (m_db s) !! id = Some row → has_turn_now queue s id row →
  ws_status row = ENQUEUED → ws_queue_name row = Some (q_name queue) → ws_application_version row = Some app_version →
  executable serializer reg id row info inputs roles → attempts_left row info 1 →
  (∃ s' hs r, finish (serve uuids xids queue None) s = (s', Some (Ok (hs, r))) ∧ NoDup (wh_workflow_id <$> hs) ∧
    (∀ e, r = Err e → ∃ ids, interrupts serializer executor_id polls app_id app_version reg uuids xids ids e) ∧
    (r = Ok tt ∨ id ∈ wh_workflow_id <$> hs → taken_up serializer executor_id polls app_id hs id row1 info inputs roles (m_db s'))) ∧
  always (serve uuids xids queue None) s (λ s', s' = s ∨ at_most_started executor_id id info row1 s s').
Proof.
  intros row1 Ho Hrow Hturn Hst Hq Hv Hex Hatt.
  destruct (has_turn_dispatch (now_ms (m_world s)) (time_ms (m_world s)) queue executor_id app_version None
    (count_for_queue (q_name queue) None s) (locked s) (m_db s) id row Hrow) as (ids & Hd & Hnd & Hid); [|done|].
  { unfold dequeuable, version_predicate, in_partition. rewrite Hq, Hst, Hv.
    simpl. unfold sql_eq. by rewrite !bool_decide_eq_true_2. }
  set (f := started_row (now_ms (m_world s)) (time_ms (m_world s)) queue executor_id app_version) in *.
  set (s1 := s <| m_db := started_db (now_ms (m_world s)) (time_ms (m_world s)) queue executor_id app_version ids (m_db s) |>).
  assert (workflow_status (m_db s1) !! id = Some row1) as Hrow1.
  { simpl. rewrite lookup_sql_update, Hrow. simpl. by rewrite bool_decide_eq_true_2. }
  assert (executable serializer reg id row1 info inputs roles) as Hex1 by (by apply (executable_started serializer reg id row info inputs roles f)).
  split.
  - destruct (execute_each_spec serializer executor_id polls app_id app_version reg uuids xids ids s1 Hnd)
      as [(s' & hs & r & Hf & _ & Hsub & Herr & Hok) _].
    exists s', hs, r. split; [by rewrite (serve_finish _ _ _ _ _ _ _ _ _ _ _ _ _ _ _ Ho Hd)|].
    split; [by eapply sublist_NoDup|]. split; [by eauto|]. intros Hr. by apply (Hok id row1).
  - unfold Workers.serve. apply always_and_then.
    + unfold Workers.dispatch. apply always_and_then; [by apply always_act; left|]. intros s2 r. rewrite finish_act. intros [= <- <-] _.
      apply always_act; [by left|]. rewrite Ho, Hd. cbn [fst snd]. right. split; [done|]. exists row1. split; [exact Hrow1|by left].
    + intros s2 r Hf _. rewrite (dispatch_finish _ _ _ _ _ _ _ _ _ Ho Hd) in Hf. injection Hf as <- <-.
      eapply always_weaken; [|exact (execute_each_always serializer executor_id polls app_id app_version reg uuids xids ids id row1 info inputs
        roles s1 Hnd Hid Hrow1 Hex1 eq_refl Hatt)]. intros s' [Hl' Hr']. right. split; [|done]. etrans; [|exact Hl']. done.
Qed.

(** It leaves one that it cannot take alone. *)
Lemma serve_frame uuids xids queue key (s : machine) id :
  (∀ row, workflow_status (m_db s) !! id = Some row → dequeuable queue app_version key (m_db s) row = false) →
  (∃ s' hs r, finish (serve uuids xids queue key) s = (s', Some (Ok (hs, r))) ∧ leaves (λ i, i = id) s s' ∧
    id ∉ wh_workflow_id <$> hs ∧
    (∀ e, r = Err e → (∃ ids, interrupts serializer executor_id polls app_id app_version reg uuids xids ids e) ∨
       outage s = Some e ∨ (start_queued_workflows (now_ms (m_world s)) (time_ms (m_world s)) queue executor_id app_version key
         (count_for_queue (q_name queue) key s) (locked s) (m_db s)).2 = Err e)) ∧
  crash_states (serve uuids xids queue key) s (leaves (λ i, i = id) s).
Proof.
  intros Hnot.
  assert (∀ (s1 : machine) r, leaves (λ i, i = id) s s1 → finish (dispatch executor_id app_version locked outage queue key) s = (s1, Some r) →
    (∀ ids, r = Ok ids → NoDup ids ∧ id ∉ ids) →
    (∃ s' hs r', finish (serve uuids xids queue key) s = (s', Some (Ok (hs, r'))) ∧ leaves (λ i, i = id) s s' ∧ id ∉ wh_workflow_id <$> hs ∧
      (∀ e, r' = Err e → (∃ ids, interrupts serializer executor_id polls app_id app_version reg uuids xids ids e) ∨ r = Err e)) ∧
    crash_states (serve uuids xids queue key) s (leaves (λ i, i = id) s)) as Hrest.
  { intros s1 r Hl Hf Hids. unfold Workers.serve.
    assert (crash_states (dispatch executor_id app_version locked outage queue key) s (leaves (λ i, i = id) s)) as Hcd.
    { unfold Workers.dispatch. apply crash_and_then; [by apply crash_act|]. intros s2 r2. rewrite finish_act. intros [= <- <-]. by apply crash_act. }
    destruct r as [ids|e].
    - destruct (Hids ids eq_refl) as [Hnd Hin].
      destruct (execute_each_spec serializer executor_id polls app_id app_version reg uuids xids ids s1 Hnd) as [(s' & hs & r' & Hf' & Hl' & Hsub & Herr & _) Hcr].
      assert (∀ s2 : machine, leaves (λ i, i ∉ ids) s1 s2 → leaves (λ i, i = id) s s2) as Hleave.
      { intros s2 H2. etrans; [exact Hl|]. eapply leaves_weaken; [|exact H2]. by intros i ->. }
      split.
      + exists s', hs, r'. split; [by rewrite finish_and_then, Hf|]. split; [by apply Hleave|].
        split; [|intros e He; left; by eauto]. intros Hid. apply Hin. eapply elem_of_submseteq; [exact Hid|by apply sublist_submseteq].
      + apply crash_and_then; [exact Hcd|]. intros s2 r2. rewrite Hf. intros [= <- <-]. intros n s3 Hn. by apply Hleave, (Hcr n).
    - split.
      + exists s1, [], (Err e). split; [by rewrite finish_and_then, Hf|]. split; [done|]. split; [by intros ?%elem_of_nil|]. intros e' [= <-]. by right.
      + apply crash_and_then; [exact Hcd|]. intros s2 r2. rewrite Hf. intros [= <- <-]. apply crash_returns. }
  destruct (outage s) as [e|] eqn:Ho.
  - destruct (Hrest s (Err e)) as [(s' & hs & r & ? & ? & ? & Herr) ?]; [done| |done|].
    { unfold Workers.dispatch, mbind, process_bind. rewrite finish_and_then, finish_act. cbn [gets fst snd]. by rewrite finish_act, Ho. }
    split; [|done]. exists s', hs, r. split_and!; [done..|]. intros e' He. destruct (Herr e' He) as [?|[= ->]]; [by left|by right; left].
  - destruct (start_queued_workflows (now_ms (m_world s)) (time_ms (m_world s)) queue executor_id app_version key
      (count_for_queue (q_name queue) key s) (locked s) (m_db s)) as [d r] eqn:Hd.
    destruct (Hrest (s <| m_db := d |>) r) as [(s' & hs & r' & ? & ? & ? & Herr) ?]; [|by apply dispatch_finish| |].
    + destruct r as [ids|e]; [|rewrite (start_queued_workflows_Err _ _ _ _ _ _ _ _ _ _ _ Hd); by destruct s].
      destruct (started_rows _ _ _ _ _ _ _ _ _ _ _ Hd) as [_ Hrows]. apply start_queued_workflows_Ok in Hd as [-> _].
      split; [done|]. split; [done|]. apply rows_kept_update. intros i row ->. rewrite bool_decide_eq_false_2; [done|]. intros Hin.
      destruct (Hrows id Hin) as (row' & Hr' & Hq & _). by rewrite (Hnot row' Hr') in Hq.
    + intros ids ->. destruct (started_rows _ _ _ _ _ _ _ _ _ _ _ Hd) as [Hnd Hrows]. split; [done|]. intros Hin.
      destruct (Hrows id Hin) as (row' & Hr' & Hq & _). by rewrite (Hnot row' Hr') in Hq.
    + split; [|done]. exists s', hs, r'. split_and!; [done..|]. intros e He. destruct (Herr e He) as [?|?]; [by left|by right; right].
Qed.

(** One that does not wait there, of a queue without limits. *)
Lemma serve_leaves uuids xids queue (s : machine) id row :
  outage s = None → workflow_status (m_db s) !! id = Some row → ws_status row ≠ ENQUEUED →
  q_concurrency queue = None → q_worker_concurrency queue = None → q_limiter queue = None →
  (∃ s' hs r, finish (serve uuids xids queue None) s = (s', Some (Ok (hs, r))) ∧ leaves (λ i, i = id) s s' ∧
    id ∉ wh_workflow_id <$> hs ∧
    (∀ e, r = Err e → ∃ ids, interrupts serializer executor_id polls app_id app_version reg uuids xids ids e)) ∧
  crash_states (serve uuids xids queue None) s (leaves (λ i, i = id) s).
Proof.
  intros Ho Hrow Hst Hc Hw Hl. destruct (serve_frame uuids xids queue None s id) as [(s' & hs & r & Hf & Hl' & Hin & Herr) Hcr].
  { intros row' Hr'. rewrite Hrow in Hr'. injection Hr' as <-. unfold dequeuable. rewrite (bool_decide_eq_false_2 (_ = ENQUEUED)) by done.
    by rewrite andb_false_r. }
  split; [|done]. exists s', hs, r. split_and!; [done..|]. intros e He. destruct (Herr e He) as [?|[He'|He']]; [done|congruence|].
  destruct (unlimited_dispatch (now_ms (m_world s)) (time_ms (m_world s)) queue executor_id app_version None
    (count_for_queue (q_name queue) None s) (locked s) (m_db s) Hc Hw Hl) as (ids & Hd & _). by rewrite Hd in He'.
Qed.


(** C25: the manager keeps every queue served. After an iteration each queue the process is to serve has a
    worker: one that was alive, or one it has just started, with the configuration in memory or else the one in the
    database; no other worker is started, and no second one. When the database does not answer, the queues in
    memory still are. Unless it does not, every expired delay is over. *)
Theorem queue_manager_serves listening registered internal alive alive' (s : machine) :
  (∀ e, outage s = Some e → is_Exception e = true) → (∀ name, alive name = false → alive' name = false) →
  let stored := match outage s with Some _ => [] | None => listed_queues (list_queues (m_db s) false) end in
  ∃ s' started, finish (manager_round listening registered internal alive alive') s = (s', Some (Ok started)) ∧
    (∀ name q, started !! name = Some q → alive' name = false ∧ served listening registered internal stored name q) ∧
    (∀ name q, served listening registered internal stored name q → alive name = true ∨ started !! name = Some q) ∧
    (outage s = None → ∀ id r, workflow_status (m_db s') !! id = Some r → due (time_ms (m_world s)) r = false).
Proof.
  intros Hout Halive stored.
  set (listed := match outage s with Some e => Err e | None => list_queues (m_db s) false end).
  assert (stored = listed_queues listed) as -> by (unfold stored, listed; by destruct (outage s)).
  assert (NoDup (q_name <$> listed_queues listed)) as Hnd.
  { unfold listed. destruct (outage s); [constructor|]. destruct (list_queues (m_db s) false) eqn:Hl; [|constructor].
    by eapply list_queues_names. }
  set (started := filter (λ nq : string * Queue, alive' nq.1 = false) (current_queues listening registered internal alive listed)).
  assert (∃ s', finish (manager_round listening registered internal alive alive') s = (s', Some (Ok started)) ∧
            (outage s = None → m_db s' = (m_db s) <| workflow_status := sql_update (λ _, due (time_ms (m_world s)))
                                                       transitioned_row (workflow_status (m_db s)) |>)) as (s' & Hf & Hdb).
  { destruct (outage s) as [e|] eqn:Ho; [|eexists; split; [by apply manager_round_finish|done]].
    exists s. split; [|done]. unfold Workers.manager_round. unfold mbind at 1, process_bind at 1.
    rewrite finish_and_then, finish_act. unfold gets. cbn [fst snd]. rewrite finish_and_then, finish_act, Ho. cbn [fst snd].
    by rewrite (Hout e eq_refl). }
  exists s', started. split; [exact Hf|]. split; [|split].
  - intros name q [Hc Ha]%map_lookup_filter_Some. split; [done|].
    by apply (current_queues_served listening registered internal alive listed name q Hnd).
  - intros name q Hs. destruct (alive name) eqn:Ha; [by left|right]. apply map_lookup_filter_Some.
    split; [by apply (current_queues_served listening registered internal alive listed name q Hnd)|by apply Halive].
  - intros Ho id r. rewrite (Hdb Ho). simpl. rewrite lookup_sql_update.
    destruct (workflow_status (m_db s) !! id) as [r0|]; [|done]. simpl. intros [= <-].
    destruct (due (time_ms (m_world s)) r0) eqn:Hd; [done|exact Hd].
Qed.

(** A worker keeps to [worker_concurrency], as far as it can see: the workflows it takes for a queue (or a
    partition) are no more than are left beside those that run in this process, so that when all their threads
    have entered the list of active workflows there are still no more. *)
Lemma worker_concurrency_kept uuids xids queue key (s s' : machine) hs r w ks :
  finish (serve uuids xids queue key) s = (s', Some (Ok (hs, r))) →
  q_worker_concurrency queue = Some w → (w < sys_maxsize)%Z → length ks ≤ length hs →
  let entered := foldl (λ s k, (acquire k (Some (q_name queue)) key s).1) s' ks in
  (count_for_queue (q_name queue) key entered ≤ Z.max (count_for_queue (q_name queue) key s) w)%Z.
Proof.
  unfold Workers.serve. rewrite finish_and_then. unfold Workers.dispatch at 1. unfold mbind at 1, process_bind at 1.
  rewrite finish_and_then, finish_act. unfold gets. cbn [fst snd]. rewrite finish_act.
  set (n := count_for_queue (q_name queue) key s). intros Hf Hw Hmax Hks. set (entered := foldl _ s' ks).
  assert (length hs = 0 → s' = s ∨ (∃ d, s' = s <| m_db := d |>) → (count_for_queue (q_name queue) key entered ≤ Z.max n w)%Z) as Hnone.
  { intros Hlen Hs. destruct ks; [|simpl in Hks; lia]. subst entered. simpl.
    assert (count_for_queue (q_name queue) key s' = n) as -> by (by destruct Hs as [->|[d ->]]). lia. }
  revert Hf. destruct (outage s) as [e|]; cbn [fst snd].
  { intros Hf. simpl in Hf. injection Hf as <- <- <-. apply Hnone; [done|by left]. }
  destruct (start_queued_workflows _ _ _ _ _ _ _ _ _) as [d [ids|e]] eqn:Hd; cbn [fst snd]; intros Hf.
  2: { simpl in Hf. injection Hf as <- <- <-. apply Hnone; [done|right; eauto]. }
  assert (0 ≤ n)%Z as Hn by apply sql_count_nonneg.
  pose proof (dispatch_length _ _ _ _ _ _ _ _ _ _ _ _ Hd Hw Hn Hmax) as Hlen.
  destruct (started_rows _ _ _ _ _ _ _ _ _ _ _ Hd) as [Hnd _].
  destruct (execute_each_spec serializer executor_id polls app_id app_version reg uuids xids ids (s <| m_db := d |>) Hnd)
    as [(s2 & hs2 & r2 & Hf2 & (Hact & _) & Hlen2%sublist_length & _) _]. rewrite length_fmap in Hlen2.
  rewrite Hf2 in Hf. injection Hf as <- <- <-.
  pose proof (entered_count (q_name queue) key ks s2) as Hc. fold entered in Hc.
  assert (count_for_queue (q_name queue) key s2 = n) as Hsame by (unfold count_for_queue; by rewrite Hact). lia.
Qed.
End properties.

(** The polling interval stays between the queue's own and the largest (two minutes,
    or the queue's own), whatever it was when the configuration changed; while the database is
    contended it almost doubles with every iteration, up to nine tenths of the largest; without
    contention it comes down by a tenth at a time, and is the queue's own again after as many
    iterations as nine times their quotient. *)
Lemma polling_interval_adapts queue i :
  (0 < polling_interval_sec queue)%Q →
  let lo := polling_interval_sec queue in let hi := max_polling_interval queue in let p := clamp_interval queue i in
  (lo <= p <= hi)%Q ∧
  (∀ r : res pyexn unit, lo <= next_interval queue p r <= hi)%Q ∧
  (∀ e n, contention e = true →
     after_rounds queue (Err e : res pyexn unit) (S n) p == Qmax lo (Qmin (hi * (9 # 10)) (p * (9 # 5) ^ Z.of_nat (S n))))%Q ∧
  (∀ n, after_rounds queue (Ok tt) n p == Qmax lo (p * (9 # 10) ^ Z.of_nat n))%Q ∧
  (∀ n, (9 * hi <= lo * inject_Z (Z.of_nat n))%Q → after_rounds queue (Ok tt) n p == lo)%Q.
Proof.
  intros Hpos lo hi p. pose proof (interval_bounds queue) as [Hlohi H120]. fold lo hi in Hlohi, H120.
  pose proof (clamp_bounds queue i) as Hp. fold lo hi p in Hp. split; [exact Hp|].
  split; [|split; [|split]].
  - intros r. split; [apply Q.le_max_l|]. apply Q.max_lub; [done|]. fold hi. destruct r as [[]|e]; [lra|]. destruct (contention e); [qcases|lra].
  - intros e n. by apply interval_contended.
  - intros n. by apply interval_quiet.
  - intros n Hn. eapply Qeq_trans; [exact (interval_quiet queue i Hpos n)|]. fold lo p. pose proof (decay_small n) as Hd.
    assert (0 <= (9 # 10) ^ Z.of_nat n)%Q as Hx by (apply Qpower_0_le; easy).
    assert (0 <= inject_Z (Z.of_nat n))%Q as Hz by (change 0%Q with (inject_Z 0); rewrite <- Zle_Qle; lia).
    generalize dependent ((9 # 10) ^ Z.of_nat n)%Q. generalize dependent (inject_Z (Z.of_nat n)). intros z Hn Hz x Hd Hx.
    apply Q.max_l. fold lo in Hpos. clearbody lo hi p. assert (p * x <= hi * x)%Q by nra.
    assert (9 * hi * x <= lo * z * x)%Q by nra. assert (lo * (x * (9 + z)) <= lo * 9)%Q by (rewrite Qmult_le_l; done).
    assert (0 <= lo * x)%Q by nra. lra.
Qed.

(** But a worker counts what has entered the list of active workflows, which a workflow
    does in its thread: until the pool gets to it, it does not count. The next iterations take more, and then more
    than [worker_concurrency] run at the same time in the process. *)
Lemma worker_concurrency_exceeded :
  let rounds := @worker_rounds mailbox mailbox_host sample_codecs letter_serializer "e1" 3 "app" "v1" letters_registry
                  (λ _ s, s) (λ _, ∅) (λ _, None) in
  q_worker_concurrency one_at_a_time = Some 1%Z ∧
  match finish (rounds 2 (λ _, 1%Q) (λ _ _, "u") (λ _ _, "x") {| wk_queue := one_at_a_time; wk_polling_interval := 1 |}) letters_queued with
  | (s, Some (Ok (_, hs))) => wh_workflow_id <$> hs = ["a"; "b"] ∧ count_for_queue "q" None (first_actions hs s) = 2%Z
  | _ => False
  end.
Proof. split; [done|]. vm_compute. split; reflexivity. Qed.

(** ** The properties at concrete inputs *)

Lemma letters_delayed_executable :
  @executable mailbox sample_codecs letter_serializer letters_registry "a"
    ((queued_letters "a" DELAYED).2 <| ws_delay_until_epoch_ms := Some 4%Z |>) letters {| args := []; kwargs := [] |} None.
Proof.
  split; try done.
  - exists "args". split; [done|]. by vm_compute.
  - exists "sample". split; [done|]. intros [=].
Qed.

(** The queue with each of its limits at one. *)
Definition all_limits : Queue :=
  unlimited <| q_concurrency := Some 1%Z |> <| q_worker_concurrency := Some 1%Z |>
    <| q_limiter := Some {| rl_limit := 1; rl_period_ms := 1000 |} |>.


Lemma worker_concurrency_kept_witness :
  let serve := @serve mailbox mailbox_host sample_codecs letter_serializer "e1" 3 "app" "v1" letters_registry
                 (λ _, ∅) (λ _, None) (λ _, "u") (λ _, "x") all_limits None in
  let s' := (finish serve letters_queued).1 in
  (count_for_queue "q" None (acquire "a" (Some "q") None s').1 ≤ 1)%Z.
Proof.
  intros serve s'.
  assert (match (finish serve letters_queued).2 with Some (Ok (hs, _)) => length hs = 1 | _ => False end) as Hlen
    by (vm_compute; reflexivity).
  subst s'. destruct (finish serve letters_queued) as [s1 [[[hs r]|e]|]] eqn:Hf; [|destruct Hlen..].
  cbn [fst snd] in Hlen |- *.
  pose proof (@worker_concurrency_kept mailbox mailbox_host sample_codecs letter_serializer "e1" 3 "app" "v1" letters_registry
    (λ _, ∅) (λ _, None) (λ _, "u") (λ _, "x") all_limits None letters_queued s1 hs r 1 ["a"] Hf eq_refl eq_refl) as H.
  rewrite Hlen in H. exact (H (le_n 1)).
Defined.

Lemma queue_manager_serves_witness :
  ∃ s' started, finish (manager_round (W:=mailbox) (λ _, None) None {["q" := all_limits]} unlimited (λ _, false) (λ _, false)) letters_delayed
      = (s', Some (Ok started)) ∧ started !! "q" = Some all_limits.
Proof.
  destruct (@queue_manager_serves mailbox mailbox_host (λ _, None) None {["q" := all_limits]} unlimited (λ _, false) (λ _, false)
    letters_delayed) as (s' & started & Hf & _ & H & _); [intros e He; discriminate He|auto|].
  exists s', started. split; [exact Hf|]. destruct (H "q" all_limits) as [Ha|Hs]; [left; by vm_compute|discriminate Ha|exact Hs].
Defined.

Lemma polling_interval_adapts_witness :
  (after_rounds all_limits (Ok tt) 1080 (clamp_interval all_limits 100) == 1)%Q.
Proof.
  destruct (polling_interval_adapts all_limits 100) as (_ & _ & _ & _ & H); [reflexivity|].
  rewrite (H 1080); [reflexivity|]. vm_compute. intros Hlt. discriminate.
Defined.
