(* ===== verification/Lives.v ===== *)
(** * The life of a queued workflow, through the processes that run it

    A process that starts recovers what the ones before it left pending: a queued workflow
    goes back to its queue ([recover_pending_workflows]). A worker of the queue then takes it
    and hands it to a thread ([worker_round]). [life] is that of one process, as far as the
    workflow is concerned, and [lives] are those that are lost with their machine. The
    invariant between two of them ([alive]) says where the workflow stands, by [Recovery.stands]; each part
    of a life keeps it ([recover_keeps], [serve_keeps], [thread_keeps]). *)
From Stdlib Require Import QArith.
From S2P Require Import Prelude Errors Schema Retry Serialization Workflows Context Steps Queues Process Execution Durability Recovery Workers.
Open Scope nat_scope.

Section life.
Context {W : Type} `{Host W, Codecs} (serializer : Serializer) (executor_id : string).
Notation machine := (@machine W).
Notation workflow := (@workflow W).
Notation workflow_info := (@workflow_info W).
Notation workflow_handle := (@workflow_handle W).
(** What others do to the world between two lives, and during a wait. *)
Context (others : W → W → Prop).
Context (polls : nat) (app_id app_version : string) (reg : registry (W:=W)).
Context (wait : Q → machine → machine) (locked : machine → gset string) (outage : machine → option pyexn).
Context (uuids xids : nat → string → string) (jitters : nat → Q) (queue0 queue : Queue) (wid : string).

(** The [k]th process: it recovers what is pending, its worker takes what waits on the queue,
    and the thread of the workflow runs if it was among that. *)
Definition life (k : nat) : process machine (option worker) :=
  _ ← recover_pending_workflows serializer executor_id polls app_id app_version (uuids k) (xids k) reg executor_id None;
  '(last, handles) ← worker_round serializer executor_id polls app_id app_version reg wait locked outage (jitters k) (uuids k) (xids k)
                       {| wk_queue := queue0; wk_polling_interval := polling_interval_sec queue0 |};
  match List.find (λ h, String.eqb (wh_workflow_id h) wid) handles with
  | Some h => and_then (run_handle serializer polls h) (λ _, mret last)
  | None => mret last
  end.

(** The configuration of the queue, where the worker looks for it. *)
Definition configured (d : db) : Prop :=
  if q_database_backed queue0 then get_queue d (q_name queue0) false = Ok (Some queue) else queue0 = queue.

(** [k] lives, each of which ends with its machine after some number of actions; what others
    do before the next leaves the rows of the workflow alone, and the queue as it is configured. *)
Inductive lives : nat → machine → machine → Prop :=
| lives_0 s : lives 0 s s
| lives_S k n s s1 d w : lives k s s1 →
    undisturbed wid (m_db (run_for n (life k) s1).1) d → configured d →
    others (m_world (run_for n (life k) s1).1) w →
    lives (S k) s (crash ((run_for n (life k) s1).1 <| m_db := d |> <| m_world := w |>)).

(** A life is cut short by an exception that is no [Exception] of the execution of some
    workflow. *)
Definition interruption (e : pyexn) : Prop :=
  is_Exception e = false ∧ ∃ uuid xid id is_recovery is_dequeue s0,
    (finish (execute_workflow_by_id serializer executor_id polls app_id app_version uuid xid reg id is_recovery is_dequeue None) s0).2
      = Some (Err e).

Definition interrupted (r : res pyexn (option worker)) : Prop :=
  match r with Ok (Some _) => False | Ok None => ∃ e, interruption e | Err e => interruption e end.

(** The database answers, nobody holds the row, and the queue is not partitioned and without
    limits; a wait leaves the workflow and the queues alone. *)
Record steady : Prop := {
  st_outage s : outage s = None;
  st_locked s : wid ∉ locked s;
  st_partition : q_partition_queue queue = false;
  st_limits : q_concurrency queue = None ∧ q_worker_concurrency queue = None ∧ q_limiter queue = None;
  st_named : q_name queue ≠ "";
  st_waits t s : undisturbed wid (m_db s) (m_db (wait t s)) ∧ queues (m_db (wait t s)) = queues (m_db s) ∧
    m_active (wait t s) !! wid = m_active s !! wid ∧ others (m_world s) (m_world (wait t s));
}.

(** ** Where the workflow stands *)

(** Its row names the queue and the version of this application, and has no timeout. *)
Definition in_queue (r : workflow_status_row) : Prop :=
  ws_queue_name r = Some (q_name queue) ∧ ws_application_version r = Some app_version ∧ ws_workflow_timeout_ms r = None.

(** It is run by this executor, or it waits on the queue. *)
Definition runs_here (r : workflow_status_row) : Prop :=
  ws_status r = PENDING ∧ ws_executor_id r = Some executor_id ∧ in_queue r.
Definition in_progress (r : workflow_status_row) : Prop :=
  runs_here r ∨ (ws_status r = ENQUEUED ∧ in_queue r).

Section invariant.
Context (row0 : workflow_status_row) (info : workflow_info) (inputs : WorkflowInputs) (roles : option (list string)) (w0 : W).
Notation ctx0 := (execution_ctx executor_id app_id wid row0 info roles).
Notation wf0 := (wf_func info inputs).
Notation stands := (stands serializer executor_id app_id wid in_progress row0 info inputs roles).

(** The workflow alone, with [k] crashes, from a world that others can have made of [w0] to
    whatever they make of [w]. *)
Definition came_to (k : nat) (ctx : DBOSContext) (wf : workflow) (w : W) : Prop :=
  ∀ w', others w w' → ∃ w1, others w0 w1 ∧ spec serializer executor_id others k (ctx0, wf0, w1) (ctx, wf, w').

(** After [k] lives. *)
Record alive (k : nat) (s : machine) : Prop := {
  al_idle : m_active s !! wid = None;
  al_queue : configured (m_db s);
  al_stands : ∃ ctx wf, stands k (m_db s) ctx wf ∧ came_to k ctx wf (m_world s);
}.

(** In the middle of the life after them. *)
Definition lost (k : nat) (s : machine) : Prop :=
  ∃ ctx wf, stands (S k) (m_db s) ctx wf ∧ came_to (S k) ctx wf (m_world s).

(** It has ended in that life: the row has the outcome [r], which is that of the workflow alone. *)
Definition ran (k : nat) (s : machine) (r : res pyexn pyval) : Prop :=
  settled serializer row0 wid (m_db s) r ∧
  ∃ ctx w1, others w0 w1 ∧ spec serializer executor_id others k (ctx0, wf0, w1) (ctx, WReturn r, m_world s).
End invariant.
End life.

(** ** A sample: the letters of [Workers], with an executor's restarts *)

Definition letters_life : nat → process (machine (W:=mailbox)) (option worker) :=
  @life mailbox mailbox_host sample_codecs letter_serializer "exec" 3 "app" "v1" letters_registry (λ _ s, s) (λ _, ∅) (λ _, None)
    (λ _ _, "u") (λ _ _, "x") (λ _, 1%Q) unlimited "a".

(** ** Lemmas *)

Section keeps.
Context {W : Type} `{Host W, Codecs, !CodecLaws} (serializer : Serializer) (executor_id : string).
Notation machine := (@machine W).
Notation workflow_info := (@workflow_info W).
Notation workflow_handle := (@workflow_handle W).
Context (others : W → W → Prop) `{!PreOrder others}.
Context (polls : nat) (app_id app_version : string) (reg : registry (W:=W)).
Context (wait : Q → machine → machine) (locked : machine → gset string) (outage : machine → option pyexn).
Context (uuids xids : nat → string → string) (jitters : nat → Q) (queue0 queue : Queue) (wid : string).
Hypothesis honest : honest_name serializer.
Hypothesis reads_back : round_trips serializer.
Hypothesis steady0 : steady others wait locked outage queue wid.
Context (row0 : workflow_status_row) (info : workflow_info) (inputs : WorkflowInputs) (roles : option (list string)) (w0 : W).
Hypothesis executable0 : executable serializer reg wid row0 info inputs roles.
Hypothesis durable0 : durable_workflow serializer executor_id (ws_serialization row0) (wf_func info inputs).
Notation ctx0 := (execution_ctx executor_id app_id wid row0 info roles).
Notation wf0 := (wf_func info inputs).
Notation in_queue := (in_queue app_version queue).
Notation runs_here := (runs_here executor_id app_version queue).
Notation in_progress := (in_progress executor_id app_version queue).
Notation stands_in P := (stands serializer executor_id app_id wid P row0 info inputs roles).
Notation stands := (stands serializer executor_id app_id wid in_progress row0 info inputs roles).
Notation came_to := (came_to serializer executor_id others app_id wid row0 info inputs roles w0).
Notation configured := (configured queue0 queue).
Notation alive := (alive serializer executor_id others app_id app_version queue0 queue wid row0 info inputs roles w0).
Notation lost := (lost serializer executor_id others app_id app_version queue wid row0 info inputs roles w0).
Notation ran := (ran serializer executor_id others app_id wid row0 info inputs roles w0).
Notation life := (life serializer executor_id polls app_id app_version reg wait locked outage uuids xids jitters queue0 wid).
Notation lives := (lives serializer executor_id others polls app_id app_version reg wait locked outage uuids xids jitters queue0 queue wid).
Notation interruption := (interruption serializer executor_id polls app_id app_version reg).

Lemma came_to_others k ctx wf w w' : others w w' → came_to k ctx wf w → came_to k ctx wf w'.
Proof. intros Ho Hc w2 Ho2. apply Hc. by etrans. Qed.

(** A life that is lost now, with no call under way. *)
Lemma came_to_crash k ctx wf w : came_to k ctx wf w → came_to (S k) ctx wf w.
Proof.
  intros Hc w' Ho. destruct (Hc w ltac:(done)) as (w1 & Hw1 & Hs). exists w1. split; [done|].
  eapply spec_crash_last; [exact Hs|by constructor].
Qed.

Lemma in_queue_kept r r' :
  ws_queue_name r' = ws_queue_name r → ws_application_version r' = ws_application_version r →
  ws_workflow_timeout_ms r' = ws_workflow_timeout_ms r → in_queue r → in_queue r'.
Proof. unfold Lives.in_queue. by intros -> -> ->. Qed.

Lemma runs_here_pending r : runs_here r → ws_status r = PENDING.
Proof. by intros []. Qed.

Lemma runs_here_steps r r' : same_but_executor executor_id r r' → runs_here r → runs_here r'.
Proof. intros [->| ->] (Hp & He & Hq); [done|]. split_and!; [done..|by eapply in_queue_kept]. Qed.

Lemma runs_here_again r r' : submitted_again executor_id r r' → runs_here r → runs_here r'.
Proof.
  intros (now & st & Hst & ->) (Hp & He & Hq). destruct (existing_row_status now st true r) as [Hs _].
  split_and!; [by rewrite Hs|unfold existing_row|]; [|eapply in_queue_kept; [..|exact Hq]; unfold existing_row].
  all: destruct (is_enqueued_status (ws_status r)), (is_enqueued_status (wi_status st)); done.
Qed.

Lemma stands_weaken (P P' : workflow_status_row → Prop) k d ctx wf : (∀ r, P r → P' r) → stands_in P k d ctx wf → stands_in P' k d ctx wf.
Proof.
  intros HP (row & Hr & Hid & Hs). exists row. split_and!; [done..|]. destruct Hs as [(Hp & ?)|?]; [left|by right]. split; [by apply HP|done].
Qed.

(** The row is another one, the checkpoints are the same. *)
Lemma stands_row k d d' row row' ctx wf :
  workflow_status d !! wid = Some row → workflow_status d' !! wid = Some row' →
  (∀ fid, operation_outputs d' !! (wid, fid) = operation_outputs d !! (wid, fid)) →
  row' = row ∨ (in_progress row ∧ in_progress row' ∧ run_identity row' = run_identity row ∧
                ws_recovery_attempts row' = ws_recovery_attempts row) →
  stands k d ctx wf → stands k d' ctx wf.
Proof.
  intros Hrow Hrow' Ho Hch (row1 & Hr1 & Hid & Hs). rewrite Hrow in Hr1. injection Hr1 as <-.
  destruct (execution_ctx_workflow serializer executor_id app_id reg wid _ _ _ _ executable0) as [Hw Hwid].
  assert (∀ r, row' = row → settled serializer row0 wid d r → settled serializer row0 wid d' r) as Hset.
  { intros r ->. apply settled_undisturbed. split; [congruence|done]. }
  exists row'. split; [done|]. destruct Hs as [(Hp & Ha & Hrec & Hfr)|(r & -> & Hst)].
  - assert (recorded serializer executor_id d' ctx0 wf0 ctx wf ∧ frontier ctx d') as [Hrec' Hfr'].
    { destruct (recorded_workflow serializer executor_id _ _ _ _ _ Hrec Hw) as (_ & Hcw & _). split.
      - eapply recorded_mono; [|done|exact Hrec]. intros fid r. by rewrite Hwid, Ho.
      - intros fid Hf. rewrite Hcw, Hwid, Ho. rewrite <- Hwid, <- Hcw. by apply Hfr. }
    destruct Hch as [->|(_ & Hp' & Hid' & Ha')]; (split; [congruence|left]); (split_and!; [done| |done..]); [exact Ha|].
    intros j Hj. specialize (Ha j Hj). unfold attempts_left in *. by rewrite Ha'.
  - destruct Hch as [->|(Hp & _)]; [split; [done|right]; exists r; split; [done|by apply Hset]|].
    destruct Hst as (_ & r1 & Hr1 & _ & Hnc). rewrite Hrow in Hr1. injection Hr1 as <-.
    by destruct Hp as [(Hp & _)|[Hp _]]; rewrite Hp in Hnc.
Qed.

(** *** From the start of a life *)

Lemma alive_lost k s : alive k s → lost k s.
Proof.
  intros [_ _ (ctx & wf & Hst & Hc)]. exists ctx, wf. split; [by apply stands_more|by apply came_to_crash].
Qed.

Lemma configured_kept d d' : queues d' = queues d → configured d → configured d'.
Proof. intros Hq. unfold Lives.configured, get_queue. by rewrite Hq. Qed.

(** The row changes, and nothing else that matters. *)
Lemma alive_row k s s' :
  leaves (λ _, False) s s' →
  (∀ row, workflow_status (m_db s) !! wid = Some row → ∃ row', workflow_status (m_db s') !! wid = Some row' ∧
     (row' = row ∨ (in_progress row ∧ in_progress row' ∧ run_identity row' = run_identity row ∧
                    ws_recovery_attempts row' = ws_recovery_attempts row))) →
  alive k s → alive k s'.
Proof.
  intros (Ha & Hw & Ho & Hq & _) Hrow [Hi Hc (ctx & wf & Hst & Hto)]. split.
  - by rewrite Ha.
  - by eapply configured_kept.
  - exists ctx, wf. rewrite Hw. split; [|done]. pose proof Hst as (row & Hr & _). destruct (Hrow row Hr) as (row' & Hr' & Hch).
    eapply stands_row; [exact Hr|exact Hr'|by intros fid; rewrite Ho|exact Hch|exact Hst].
Qed.

Lemma alive_left k X s s' : leaves X s s' → X wid → alive k s → alive k s'.
Proof.
  intros Hl Hx. apply alive_row; [by eapply leaves_weaken|]. intros row Hr. exists row. split; [|by left].
  destruct Hl as (_ & _ & _ & _ & Hrows). by rewrite Hrows.
Qed.

Lemma alive_waits k t s : alive k s → alive k (wait t s).
Proof.
  intros [Hi Hc (ctx & wf & Hst & Hto)]. destruct (st_waits _ _ _ _ _ _ steady0 t s) as ([Hr Ho] & Hq & Ha & Hw). split.
  - by rewrite Ha.
  - by eapply configured_kept.
  - exists ctx, wf. split; [|by eapply came_to_others]. pose proof Hst as (row & Hrow & _).
    eapply stands_row; [exact Hrow|by rewrite Hr|done|by left|exact Hst].
Qed.

(** *** The recovery *)

Definition returned_row (r : workflow_status_row) : workflow_status_row :=
  r <| ws_status := ENQUEUED |> <| ws_started_at_epoch_ms := None |>.

(** The workflow is given back to its queue at most, and the others are not looked at. *)
Definition given_back (s s' : machine) : Prop :=
  leaves (λ _, False) s s' ∧
  (workflow_status (m_db s') !! wid = workflow_status (m_db s) !! wid ∨
   ∃ row, workflow_status (m_db s) !! wid = Some row ∧ ws_status row = PENDING ∧
     workflow_status (m_db s') !! wid = Some (returned_row row)).

#[local] Instance given_back_preorder : PreOrder given_back.
Proof.
  split; [intros s; split; [done|by left]|]. intros s1 s2 s3 [Hl1 Hr1] [Hl2 Hr2]. split; [by etrans|].
  destruct Hr2 as [->|(row & Hr & Hp & Hr2)]; [done|]. destruct Hr1 as [Hr1|(row1 & _ & _ & Hr1)].
  - right. exists row. by rewrite <- Hr1.
  - rewrite Hr1 in Hr. injection Hr as <-. done.
Qed.

Lemma leaves_given_back X s s' : leaves X s s' → X wid → given_back s s'.
Proof. intros Hl Hx. split; [by eapply leaves_weaken|left]. destruct Hl as (_ & _ & _ & _ & Hr). by apply Hr. Qed.

Lemma ends_recover_workflow uuid xid id q :
  (id = wid → truthy q = true) →
  ends given_back (recover_workflow serializer executor_id polls app_id app_version uuid xid reg (id, q) None).
Proof.
  intros Hq. unfold recover_workflow. destruct (decide (id = wid)) as [->|Hne].
  - rewrite (Hq eq_refl). apply ends_next; [apply _| |intros []; by apply ends_mret; [apply _|]].
    apply ends_act; [apply _| |done]. intros s. unfold database, clear_queue_assignment, engine_begin, update_workflow_rows. run_txn.
    cbn [fst snd committed current]. split; [done|]. simpl. rewrite lookup_sql_update.
    destruct (workflow_status (m_db s) !! wid) as [row|] eqn:Hr; [|by left]. simpl.
    destruct (_ && _) eqn:Hc; [right|by left]. exists row. rewrite !andb_true_iff, !bool_decide_eq_true in Hc.
    split_and!; [done|tauto|done].
  - eapply (ends_weaken (leaves (λ i, i ≠ id)) given_back (λ _, True)); [|done|].
    { intros s s' Hl. apply (leaves_given_back _ _ _ Hl). by intros ->. }
    destruct (truthy q).
    + apply ends_next; [apply _| |intros []; by apply ends_mret; [apply _|]]. apply ends_database. intros _ d.
      unfold clear_queue_assignment, engine_begin, update_workflow_rows. run_txn. cbn [fst snd committed current].
      apply rows_kept_update. intros i r Hi. by rewrite (bool_decide_eq_false_2 (i = id)).
    + eapply ends_weaken; [by intros s s' Hl| |apply ends_execute_workflow_by_id; auto]. done.
Qed.

(** What [wid] is after its own turn. *)
Lemma recover_own uuid xid q (s : machine) row :
  truthy q = true → workflow_status (m_db s) !! wid = Some row → ws_queue_name row ≠ None →
  ∃ s' row', finish (recover_workflow serializer executor_id polls app_id app_version uuid xid reg (wid, q) None) s =
      (s', Some (Ok (polling_handle wid))) ∧
    workflow_status (m_db s') !! wid = Some row' ∧ ws_status row' ≠ PENDING.
Proof.
  intros Hq Hr Hn. unfold recover_workflow. rewrite Hq. unfold mbind, process_bind. rewrite finish_and_then, finish_database.
  unfold clear_queue_assignment, engine_begin, update_workflow_rows. run_txn. cbn [fst snd committed current].
  eexists _, _. split; [reflexivity|]. simpl. rewrite lookup_sql_update, Hr. simpl. split; [done|].
  rewrite (bool_decide_eq_true_2 (wid = wid)), (bool_decide_eq_true_2 (_ ≠ None)) by done. simpl. by case_bool_decide.
Qed.

Lemma given_back_settles s s' row :
  given_back s s' → workflow_status (m_db s) !! wid = Some row → ws_status row ≠ PENDING →
  workflow_status (m_db s') !! wid = Some row.
Proof. intros [_ [->|(row1 & Hr & Hp & _)]] Hrow Hs; [done|]. rewrite Hrow in Hr. by injection Hr as <-. Qed.

(** The recovery ends, unless it is cut short, with the workflow on its queue, if it was among
    the pending ones. *)
Lemma recover_each_spec us xs pending (s : machine) :
  (∀ q, (wid, q) ∈ pending → truthy q = true) →
  let p := recover_each serializer executor_id polls app_id app_version us xs reg pending None in
  (∃ s' r, finish p s = (s', Some r) ∧ given_back s s' ∧ (∀ e, r = Err e → interruption e) ∧
     (is_ok r = true → ∀ row, wid ∈ pending.*1 → workflow_status (m_db s) !! wid = Some row → ws_queue_name row ≠ None →
        ∃ row', workflow_status (m_db s') !! wid = Some row' ∧ ws_status row' ≠ PENDING)) ∧
  crash_states p s (given_back s).
Proof.
  revert s. induction pending as [|[id q] pending IH]; intros s Hq; cbn [recover_each].
  { split; [|apply crash_returns]. exists s, (Ok []). split_and!; try done. intros _ row Hin. by apply elem_of_nil in Hin. }
  destruct (ends_recover_workflow (us id) (xs id) id q ltac:(by intros ->; apply Hq; left) s) as [(s1 & r1 & Hf1 & Hg1 & _) Hc1].
  destruct (IH s1 ltac:(by intros q' Hin; apply Hq; right)) as [(s2 & r2 & Hf2 & Hg2 & He2 & Hok2) Hc2]. cbn [fst].
  assert (given_back s s2) as Hg by by etrans.
  assert (crash_states (recover_each serializer executor_id polls app_id app_version us xs reg pending None) s1 (given_back s)) as Hc
    by (intros n s' Hn; etrans; [exact Hg1|by apply (Hc2 n)]).
  assert (∀ row, workflow_status (m_db s) !! wid = Some row → ws_queue_name row ≠ None →
    is_ok r2 = true → wid ∈ id :: pending.*1 → (id = wid → is_ok r1 = true) →
    ∃ row', workflow_status (m_db s2) !! wid = Some row' ∧ ws_status row' ≠ PENDING) as Hback.
  { intros row Hr Hn Hok Hin Hown. destruct (decide (id = wid)) as [->|Hne].
    - destruct (recover_own (us wid) (xs wid) q s row (Hq q ltac:(left)) Hr Hn) as (s' & row' & Hf & Hr' & Hs').
      rewrite Hf1 in Hf. injection Hf as <- _. exists row'. split; [by apply (given_back_settles s1)|done].
    - apply elem_of_cons in Hin as [?|Hin]; [congruence|]. destruct Hg1 as [_ [Hsame|(row1 & Hr1 & Hp & Hr1')]].
      + apply (Hok2 Hok row Hin); [by rewrite Hsame|done].
      + apply (Hok2 Hok (returned_row row1) Hin Hr1'). simpl. rewrite Hr in Hr1. by injection Hr1 as <-. }
  split.
  2: { apply crash_and_then; [done|]. intros s' r Hf. rewrite Hf1 in Hf. injection Hf as <- <-.
       destruct r1 as [h|e]; [|destruct (is_Exception e); [exact Hc|apply crash_returns]].
       apply crash_and_then; [exact Hc|]. intros s' [hs|e] _; apply crash_returns. }
  rewrite finish_and_then, Hf1. destruct r1 as [h|e].
  - unfold mbind, process_bind. rewrite finish_and_then, Hf2. destruct r2 as [hs|e].
    + eexists s2, _. split; [reflexivity|]. split_and!; [done..|]. intros _ row Hin Hr Hn. by apply (Hback row).
    + eexists s2, _. split; [reflexivity|]. split_and!; [done|intros e' [= <-]; by apply He2|done].
  - destruct (is_Exception e) eqn:He.
    + exists s2, r2. split; [exact Hf2|]. split_and!; [done..|]. intros Hok row Hin Hr Hn. apply (Hback row); try done.
      intros ->. destruct (recover_own (us wid) (xs wid) q s row (Hq q ltac:(left)) Hr Hn) as (s' & row' & Hf & _).
      by rewrite Hf1 in Hf.
    + eexists s1, _. split; [reflexivity|]. split_and!; [done| |done]. intros e' [= <-]. split; [done|].
      unfold recover_workflow in Hf1. destruct (truthy q) eqn:Ht.
      * unfold mbind, process_bind in Hf1. rewrite finish_and_then, finish_database in Hf1.
        unfold clear_queue_assignment, engine_begin, update_workflow_rows in Hf1. by revert Hf1; run_txn.
      * exists (us id), (xs id), id, true, false, s. by rewrite Hf1.
Qed.

(** The recovery of the process, from where the lives before it leave the workflow. *)
Lemma recover_keeps k j (s : machine) :
  alive k s →
  let p := recover_pending_workflows serializer executor_id polls app_id app_version (uuids j) (xids j) reg executor_id None in
  (∃ s' r, finish p s = (s', Some r) ∧ alive k s' ∧ (∀ e, r = Err e → interruption e) ∧
     (is_ok r = true → ∀ row, workflow_status (m_db s') !! wid = Some row → ws_status row ≠ PENDING)) ∧
  crash_states p s (alive k).
Proof.
  intros Hal p. pose proof Hal as [_ _ (ctx & wf & (row & Hrow & Hid & Hst) & _)].
  assert (∀ s', given_back s s' → alive k s') as Hkeep.
  { intros s' [Hl Hg]. eapply alive_row; [exact Hl| |exact Hal]. intros r Hr. rewrite Hrow in Hr. injection Hr as <-.
    destruct Hg as [->|(r1 & Hr1 & Hp & ->)]; [exists row; auto|]. rewrite Hrow in Hr1. injection Hr1 as <-.
    eexists. split; [done|]. destruct Hst as [(Hh & _)|(r & _ & _ & r2 & Hr2 & _ & Hnc)].
    - right. split_and!; [done| |done..]. right. split; [done|]. by destruct Hh as [(_ & _ & Hq)|[_ Hq]].
    - rewrite Hrow in Hr2. injection Hr2 as <-. by rewrite Hp in Hnc. }
  set (pending := get_pending_workflows (m_db s) executor_id app_version).
  assert (∀ q, (wid, q) ∈ pending → q = ws_queue_name row ∧ ws_status row = PENDING) as Hpend.
  { intros q Hin. apply list_elem_of_fmap_1 in Hin as ([i r] & [= -> ->] & [Hr Hc]%elem_of_sql_select).
    rewrite Hrow in Hr. injection Hr as <-. split; [done|]. by rewrite !andb_true_iff, bool_decide_eq_true in Hc; destruct Hc as [[??]?]. }
  assert (ws_status row = PENDING → in_progress row) as Hhere.
  { intros Hp. destruct Hst as [(Hh & _)|(r & _ & _ & r2 & Hr2 & _ & Hnc)]; [done|].
    rewrite Hrow in Hr2. injection Hr2 as <-. by rewrite Hp in Hnc. }
  assert (ws_status row = PENDING → ws_queue_name row = Some (q_name queue) ∧ wid ∈ pending.*1) as Hin.
  { intros Hp. destruct (Hhere Hp) as [(_ & He & Hq & Hv & _)|[Hp' _]]; [|congruence]. split; [done|].
    apply list_elem_of_fmap. exists (wid, ws_queue_name row). split; [done|]. apply list_elem_of_fmap. exists (wid, row). split; [done|].
    apply elem_of_sql_select. split; [done|]. by rewrite Hp, He, Hv, !bool_decide_eq_true_2 by done; unfold sql_eq; rewrite !bool_decide_eq_true_2. }
  destruct (recover_each_spec (uuids j) (xids j) pending s) as [(s' & r & Hf & Hg & He & Hok) Hc].
  { intros q Hq. destruct (Hpend q Hq) as [-> Hp]. rewrite (proj1 (Hin Hp)). simpl.
    rewrite bool_decide_eq_true_2; [done|exact (st_named _ _ _ _ _ _ steady0)]. }
  split.
  - exists s', r. split; [by unfold p, recover_pending_workflows, mbind, process_bind; rewrite finish_and_then, finish_database; simpl; rewrite machine_same_db|].
    split_and!; [by apply Hkeep|done|]. intros Hr row' Hrow' Hp'.
    destruct (decide (ws_status row = PENDING)) as [Hp|Hp].
    + destruct (Hin Hp) as [Hq Hi]. destruct (Hok Hr row Hi Hrow ltac:(by rewrite Hq)) as (row1 & Hr1 & Hs1). congruence.
    + rewrite (given_back_settles _ _ _ Hg Hrow Hp) in Hrow'. congruence.
  - unfold p, recover_pending_workflows. apply crash_and_then; [by unfold database; apply crash_act|]. intros s1 r1. rewrite finish_database. simpl. rewrite machine_same_db.
    intros [= <- <-]. intros n s2 Hn. by apply Hkeep, (Hc n).
Qed.

(** *** The thread *)

Lemma came_to_spec k ctx wf w : came_to k ctx wf w → ∃ w1, others w0 w1 ∧ spec serializer executor_id others k (ctx0, wf0, w1) (ctx, wf, w).
Proof. intros Hc. by apply Hc. Qed.

Lemma within_run_lost k w1 (s : machine) :
  others w0 w1 → within_run serializer executor_id others app_id wid runs_here row0 info inputs roles w1 k s → lost k s.
Proof.
  intros Hw1 (ctx & wf & w & Hst & Hspec & Huw). exists ctx, wf. split; [eapply stands_weaken; [|exact Hst]; by left|].
  intros w' Ho. exists w1. split; [done|]. eapply spec_crash_last; [exact Hspec|]. by eapply under_way_crash.
Qed.

(** The row of a workflow that was taken from its queue, and what is left of its budget. *)
Lemma stands_started k now start d d' row row' ctx wf :
  let row1 := started_row now start queue executor_id app_version row in
  workflow_status d !! wid = Some row → ws_status row = ENQUEUED → stands k d ctx wf →
  workflow_status d' !! wid = Some row' → operation_outputs d' = operation_outputs d →
  row' = row1 ∨ started_again executor_id info row1 row' →
  run_identity row1 = run_identity row0 ∧ run_identity row' = run_identity row0 ∧ runs_here row' ∧
  recorded serializer executor_id d' ctx0 wf0 ctx wf ∧ frontier ctx d' ∧
  (∀ j, attempts_left row0 info (k + j) → attempts_left row1 info j) ∧
  ∀ j, attempts_left row0 info (S k + j) → attempts_left row' info j.
Proof.
  intros row1 Hr He (row2 & Hr2 & Hid & Hst) Hr' Ho Hrow'. rewrite Hr in Hr2. injection Hr2 as <-.
  destruct Hst as [(Hp & Ha & Hrec & Hfr)|(r & _ & _ & r1 & Hr1 & _ & Hnc)].
  2: { rewrite Hr in Hr1. injection Hr1 as <-. by rewrite He in Hnc. }
  destruct Hp as [[Hp _]|[_ (Hq & Hv & Ht)]]; [congruence|].
  assert (run_identity row1 = run_identity row0) as Hid1 by (rewrite <- Hid; unfold row1, run_identity; simpl; by rewrite Ht).
  assert (runs_here row1) as Hh1 by (by split_and!).
  destruct (execution_ctx_workflow serializer executor_id app_id reg wid _ _ _ _ executable0) as [Hw _].
  assert (∀ j, attempts_left row0 info (S k + j) → attempts_left row1 info j) as Ha1.
  { intros j Hj. apply (attempts_left_mono row1 info j (S j)); [lia|]. apply (Ha (S j)). by replace (k + S j) with (S k + j) by lia. }
  split; [done|]. split_and!.
  - destruct Hrow' as [->|(_ & _ & Hi & _)]; [done|congruence].
  - destruct Hrow' as [->|(Hag & _)]; [done|]. by eapply runs_here_again.
  - eapply recorded_mono; [|exact Hw|exact Hrec]. by rewrite Ho.
  - intros fid Hf. rewrite Ho. by apply Hfr.
  - exact Ha.
  - intros j Hj. destruct Hrow' as [->|(_ & _ & _ & Hag)]; [by apply Ha1|]. apply Hag, (Ha (S j)). by replace (k + S j) with (S k + j) by lia.
Qed.

Lemma find_handle (hs : list workflow_handle) h :
  NoDup (wh_workflow_id <$> hs) → h ∈ hs → wh_workflow_id h = wid →
  List.find (λ h, String.eqb (wh_workflow_id h) wid) hs = Some h.
Proof.
  intros Hnd Hin Hid. induction Hin as [h hs|h h' hs Hin IH]; simpl.
  - by rewrite Hid, String.eqb_refl.
  - apply NoDup_cons in Hnd as [Hnot Hnd]. destruct (String.eqb_spec (wh_workflow_id h') wid) as [He|_]; [|by apply IH].
    exfalso. apply Hnot. rewrite He, <- Hid. by apply list_elem_of_fmap_2.
Qed.

Lemma ran_lost k s r : ran k s r → lost k s.
Proof.
  intros (Hset & ctx & w1 & Hw1 & Hspec). exists ctx, (WReturn r). split; [by apply ended_stands|].
  intros w' Ho. exists w1. split; [done|]. eapply spec_crash_last; [exact Hspec|by constructor].
Qed.

(** The thread runs to the end. *)
Definition runs_out (k : nat) (s : machine) (h : workflow_handle) : Prop :=
  (∃ s' r, finish (run_handle serializer polls h) s = (s', Some r) ∧ ran k s' r) ∧
  crash_states (run_handle serializer polls h) s (lost k).

Lemma taken_up_runs k now start (s s' : machine) row hs ctx wf :
  let row1 := started_row now start queue executor_id app_version row in
  workflow_status (m_db s) !! wid = Some row → ws_status row = ENQUEUED → stands k (m_db s) ctx wf →
  came_to k ctx wf (m_world s) → m_active s !! wid = None → leaves (λ _, False) s s' → NoDup (wh_workflow_id <$> hs) →
  taken_up serializer executor_id polls app_id hs wid row1 info inputs roles (m_db s') →
  ∃ h, List.find (λ h, String.eqb (wh_workflow_id h) wid) hs = Some h ∧ runs_out k s' h.
Proof.
  intros row1 Hr He Hst Hto Hidle (Ha & Hw & Ho & _) Hnd (status & ctx1 & row' & Hin & Hwid & Hnc & Hser & Hent & Hr' & Hag).
  eexists. split; [by eapply find_handle|].
  destruct (stands_started k now start _ _ _ _ _ _ Hr He Hst Hr' Ho (or_intror Hag)) as (Hid1 & Hid & Hh & Hrec & Hfr & _ & Hatt).
  destruct (came_to_spec _ _ _ _ Hto) as (w1 & Hw1 & Hspec).
  destruct (ex_serialization _ _ _ _ _ _ _ executable0) as (n & Hn & Hport).
  destruct (thread_pending serializer executor_id others polls app_id reg wid honest reads_back runs_here row0 info inputs roles w1
    runs_here_pending runs_here_steps executable0 durable0 k s' row' ctx wf status ctx1 n) as [Hfin Hcr]; try done.
  - by rewrite Ha.
  - by rewrite Hw.
  - rewrite Hser, <- Hn. exact (f_equal (λ t, t.1.1.1.2) Hid1).
  - by rewrite <- (execution_ctx_identity executor_id app_id wid row0 row1 info roles Hid1).
  - split.
    + destruct Hfin as (s2 & r & Hf & Hset & ctx2 & Hsp & _). exists s2, r. split; [exact Hf|]. split; [done|]. by exists ctx2, w1.
    + intros m s2 Hm. eapply within_run_lost; [exact Hw1|by apply (Hcr m)].
Qed.

(** *** The worker *)

(** The state the worker leaves, and its handles: if the workflow's is among them, its thread
    runs to the end; if not, the workflow has ended, unless the loop was cut short. *)
Definition left_with (k : nat) (s : machine) (hs : list workflow_handle) (r : res pyexn unit) : Prop :=
  lost k s ∧ (∀ e, r = Err e → interruption e) ∧
  match List.find (λ h, String.eqb (wh_workflow_id h) wid) hs with
  | Some h => runs_out k s h
  | None => r = Ok tt → ∃ r', ran k s r'
  end.

Lemma find_in (hs : list workflow_handle) h :
  List.find (λ h, String.eqb (wh_workflow_id h) wid) hs = Some h → wid ∈ wh_workflow_id <$> hs.
Proof.
  intros [Hin Hid]%List.find_some. apply String.eqb_eq in Hid. rewrite <- Hid. by apply list_elem_of_fmap_2, list_elem_of_In.
Qed.

Lemma interrupts_interruption us xs e :
  (∃ ids, interrupts serializer executor_id polls app_id app_version reg us xs ids e) → interruption e.
Proof. intros (ids & He & id & s0 & _ & Hs0). split; [done|]. by exists (us id), (xs id), id, false, true, s0. Qed.

Lemma waiting_row k d row ctx wf :
  workflow_status d !! wid = Some row → ws_status row = ENQUEUED → stands k d ctx wf → attempts_left row0 info (S k) →
  in_queue row ∧ executable serializer reg wid row info inputs roles ∧ attempts_left row info 1.
Proof.
  intros Hr He (row1 & Hr1 & Hid & Hst) Hbudget. rewrite Hr in Hr1. injection Hr1 as <-.
  destruct Hst as [(Hp & Ha & _)|(r & _ & _ & r1 & Hr1 & _ & Hnc)].
  - destruct Hp as [[Hp _]|[_ Hq]]; [congruence|]. split; [done|]. split; [by eapply executable_identity|].
    apply Ha. by rewrite Nat.add_1_r.
  - rewrite Hr in Hr1. injection Hr1 as <-. by rewrite He in Hnc.
Qed.

Lemma serve_waiting us xs k (s : machine) row ctx wf :
  alive k s → workflow_status (m_db s) !! wid = Some row → ws_status row = ENQUEUED → attempts_left row0 info (S k) →
  stands k (m_db s) ctx wf → came_to k ctx wf (m_world s) →
  let p := serve serializer executor_id polls app_id app_version reg locked outage us xs queue None in
  (∃ s' hs r, finish p s = (s', Some (Ok (hs, r))) ∧ left_with k s' hs r) ∧ crash_states p s (lost k).
Proof.
  intros Hal Hr He Hbudget Hst Hto p. destruct (st_limits _ _ _ _ _ _ steady0) as (Hc & Hw & Hlim).
  destruct (waiting_row k _ _ _ _ Hr He Hst Hbudget) as ((Hq & Hv & _) & Hex & Hatt).
  destruct (serve_takes serializer executor_id polls app_id app_version reg locked outage us xs queue s wid row info inputs roles
    ((st_outage _ _ _ _ _ _ steady0) s) Hr (unlimited_turn _ _ _ _ _ _ _ _ _ Hc Hw Hlim ((st_locked _ _ _ _ _ _ steady0) s)) He Hq Hv Hex Hatt) as [(s' & hs & r & Hf & Hnd & Herr & Hok) Halw].
  assert (∀ s1, s1 = s ∨ at_most_started executor_id wid info
    (started_row (now_ms (m_world s)) (time_ms (m_world s)) queue executor_id app_version row) s s1 → lost k s1) as Hlost.
  { intros s1 [->|[(_ & Hw1 & Ho & _) (row' & Hr' & Hrow')]]; [by apply alive_lost|].
    destruct (stands_started k _ _ _ _ _ _ _ _ Hr He Hst Hr' Ho Hrow') as (_ & Hid' & Hh & Hrec & Hfr & _ & Hatt').
    exists ctx, wf. rewrite Hw1. split; [|by apply came_to_crash]. exists row'. split_and!; [done..|left]. split_and!; [by left|done..]. }
  split; [|intros n s1 Hn; apply Hlost; unfold p in Hn; specialize (Halw n); by rewrite Hn in Halw].
  pose proof (always_finish _ _ _ _ _ Halw Hf) as Hend.
  assert (leaves (λ _, False) s s') as Hl by (by destruct Hend as [->|[? _]]).
  exists s', hs, r. split; [exact Hf|]. split; [by apply Hlost|]. split; [intros e ->; by eapply interrupts_interruption, Herr|].
  assert (r = Ok tt ∨ wid ∈ wh_workflow_id <$> hs →
    ∃ h, List.find (λ h, String.eqb (wh_workflow_id h) wid) hs = Some h ∧ runs_out k s' h) as Hruns
    by (intros Hr'; eapply taken_up_runs; [exact Hr|exact He|exact Hst|exact Hto|apply Hal|exact Hl|exact Hnd|exact (Hok Hr')]).
  destruct (List.find _ hs) as [h|] eqn:Hfind.
  - by destruct (Hruns (or_intror (find_in _ _ Hfind))) as (h' & [= <-] & ?).
  - intros Hr'. by destruct (Hruns (or_introl Hr')) as (? & ? & _).
Qed.

Lemma serve_ended us xs k (s : machine) ctx r :
  alive k s → settled serializer row0 wid (m_db s) r → came_to k ctx (WReturn r) (m_world s) →
  let p := serve serializer executor_id polls app_id app_version reg locked outage us xs queue None in
  (∃ s' hs r, finish p s = (s', Some (Ok (hs, r))) ∧ left_with k s' hs r) ∧ crash_states p s (lost k).
Proof.
  intros Hal [Hch (row & Hr & Hid & Hnc)] Hto p. destruct (st_limits _ _ _ _ _ _ steady0) as (Hc & Hw & Hlim).
  assert (ws_status row ≠ ENQUEUED) as Hne by (intros He; by rewrite He in Hnc).
  destruct (serve_leaves serializer executor_id polls app_id app_version reg locked outage us xs queue s wid row
    ((st_outage _ _ _ _ _ _ steady0) s) Hr Hne Hc Hw Hlim) as [(s' & hs & r' & Hf & Hl & Hin & Herr) Hcr].
  split; [|intros n s1 Hn; eapply alive_lost, alive_left; [by apply (Hcr n)|done|done]].
  exists s', hs, r'. split; [exact Hf|]. split; [by eapply alive_lost, alive_left|]. split; [intros e ->; by eapply interrupts_interruption, Herr|].
  destruct (List.find _ hs) as [h|] eqn:Hfind; [by apply find_in in Hfind|].
  intros _. exists r. destruct (came_to_spec _ _ _ _ Hto) as (w1 & Hw1 & Hspec). destruct Hl as (_ & Hw' & Ho & _ & Hrow).
  split; [|exists ctx, w1; by rewrite Hw']. eapply settled_undisturbed; [split; [by apply Hrow|intros fid; by rewrite Ho]|].
  split; [done|]. by exists row.
Qed.

(** An iteration of the worker, when the recovery is over. *)
Lemma worker_keeps k j (s : machine) :
  alive k s → (∀ row, workflow_status (m_db s) !! wid = Some row → ws_status row ≠ PENDING) → attempts_left row0 info (S k) →
  let p := worker_round serializer executor_id polls app_id app_version reg wait locked outage (jitters j) (uuids j) (xids j)
             {| wk_queue := queue0; wk_polling_interval := polling_interval_sec queue0 |} in
  (∃ s' last hs r, finish p s = (s', Some (Ok (last, hs))) ∧ left_with k s' hs r ∧ ((r = Ok tt ∧ is_Some last) ∨ (last = None ∧ ∃ e, r = Err e))) ∧
  crash_states p s (lost k).
Proof.
  intros Hal Hnot Hbudget p.
  destruct (reload_configured outage queue0 queue s ((st_outage _ _ _ _ _ _ steady0) s) ltac:(apply Hal)) as [Hre Hcre].
  set (t := (clamp_interval queue (polling_interval_sec queue0) * jitters j)%Q).
  pose proof (alive_waits k t s Hal) as Hal2. set (s2 := wait t s) in *.
  assert ((∃ s' hs r, finish (serve serializer executor_id polls app_id app_version reg locked outage (uuids j) (xids j) queue None) s2
             = (s', Some (Ok (hs, r))) ∧ left_with k s' hs r) ∧
          crash_states (serve serializer executor_id polls app_id app_version reg locked outage (uuids j) (xids j) queue None) s2 (lost k))
    as [(s' & hs & r & Hf & Hleft) Hcr].
  { pose proof Hal2 as [_ _ (ctx & wf & Hst & Hto)]. pose proof Hst as (row & Hr & Hid & [(Hp & _)|(r & -> & Hset)]).
    - destruct Hp as [[Hp _]|[He _]]; [|by eapply serve_waiting].
      unfold s2 in Hr. rewrite (proj1 (proj1 (st_waits _ _ _ _ _ _ steady0 t s))) in Hr. by destruct (Hnot row Hr).
    - by eapply serve_ended. }
  unfold p, worker_round. cbn [wk_queue wk_polling_interval]. split.
  - unfold mbind at 1, process_bind at 1. rewrite finish_and_then, Hre. cbv zeta. unfold mbind at 1, process_bind at 1.
    rewrite finish_and_then, finish_act. unfold modify. cbn [fst snd]. fold t. fold s2. unfold serve_queue. rewrite (st_partition _ _ _ _ _ _ steady0).
    unfold mbind at 1, process_bind at 1. rewrite finish_and_then, Hf.
    destruct r as [[]|e]; [|rewrite (proj1 (proj1 (proj2 Hleft) e eq_refl))]; (eexists s', _, hs, _; split; [reflexivity|]; split; [exact Hleft|]); eauto.
  - apply crash_and_then; [by apply Hcre, alive_lost|]. intros s1 r1. rewrite Hre. intros [= <- <-]. cbv zeta.
    apply crash_and_then; [by apply crash_act, alive_lost|]. intros s1 r1. rewrite finish_act. unfold modify. cbn [fst snd]. fold t. fold s2.
    intros [= <- <-]. unfold serve_queue. rewrite (st_partition _ _ _ _ _ _ steady0). apply crash_and_then; [exact Hcr|].
    intros s3 [[hs3 r3]|e3] _; [|apply crash_returns]. destruct r3; [|destruct (is_Exception _)]; apply crash_returns.
Qed.

(** *** Lives *)

Lemma life_keeps k (s : machine) :
  alive k s → attempts_left row0 info (S k) →
  (∃ s' res, finish (life k) s = (s', Some res) ∧ lost k s' ∧
     ((∃ wk r, res = Ok (Some wk) ∧ ran k s' r) ∨ interrupted serializer executor_id polls app_id app_version reg res)) ∧
  crash_states (life k) s (lost k).
Proof.
  intros Hal Hbudget. destruct (recover_keeps k k s Hal) as [(s1 & r1 & Hf1 & Hal1 & He1 & Hnot) Hc1]. unfold Lives.life.
  assert (crash_states (recover_pending_workflows serializer executor_id polls app_id app_version (uuids k) (xids k) reg executor_id None) s (lost k)) as Hcr1
    by (intros n s2 Hn; by apply alive_lost, (Hc1 n)).
  destruct r1 as [hs1|e].
  2: { split.
       - exists s1, (Err e). split; [by unfold mbind, process_bind; rewrite finish_and_then, Hf1|]. split; [by apply alive_lost|].
         right. by apply He1.
       - apply crash_and_then; [exact Hcr1|]. intros s2 r2. rewrite Hf1. intros [= <- <-]. apply crash_returns. }
  destruct (worker_keeps k k s1 Hal1 (Hnot eq_refl) Hbudget) as [(s2 & last & hs & r & Hf2 & (Hlost & Herr & Hh) & Hlast) Hc2].
  assert (∀ s', (last ≠ None → ∃ r', ran k s' r') → (∃ wk r, @Ok pyexn _ last = Ok (Some wk) ∧ ran k s' r) ∨
            interrupted serializer executor_id polls app_id app_version reg (Ok last)) as Hres.
  { intros s' Hran. destruct last as [wk|].
    - left. destruct Hran as [r' ?]; [done|]. by exists wk, r'.
    - right. destruct Hlast as [[_ [? ?]]|(_ & e & ->)]; [done|]. exists e. by apply Herr. }
  split.
  - unfold mbind at 1, process_bind at 1. rewrite finish_and_then, Hf1. unfold mbind at 1, process_bind at 1. rewrite finish_and_then, Hf2.
    destruct (List.find _ hs) as [h|].
    + destruct Hh as [(s3 & r3 & Hf3 & Hr3) _]. rewrite finish_and_then, Hf3. eexists s3, _. split; [reflexivity|].
      split; [by eapply ran_lost|]. apply Hres. by exists r3.
    + eexists s2, _. split; [reflexivity|]. split; [exact Hlost|]. apply Hres. intros Hn. apply Hh.
      by destruct Hlast as [[? _]|[? _]].
  - apply crash_and_then; [exact Hcr1|]. intros s' r'. rewrite Hf1. intros [= <- <-].
    apply crash_and_then; [exact Hc2|]. intros s' r'. rewrite Hf2. intros [= <- <-].
    destruct (List.find _ hs) as [h|]; [|apply crash_returns]. apply crash_and_then; [by apply Hh|]. intros ? ? _. apply crash_returns.
Qed.

Lemma lost_alive k (s : machine) d w :
  lost k s → undisturbed wid (m_db s) d → configured d → others (m_world s) w → alive (S k) (crash (s <| m_db := d |> <| m_world := w |>)).
Proof.
  intros (ctx & wf & Hst & Hto) [Hr Ho] Hq Hw. split; [done..|]. exists ctx, wf. split; [|by eapply came_to_others].
  pose proof Hst as (row & Hrow & _). eapply stands_row; [exact Hrow|simpl; by rewrite Hr|done|by left|exact Hst].
Qed.

Lemma lives_alive k s0 s : alive 0 s0 → attempts_left row0 info k → lives k s0 s → alive k s.
Proof.
  intros H0' Hbudget Hl. induction Hl as [|k n s s1 d w Hl IH Hd Hq Hw]; [done|].
  destruct (life_keeps k s1) as [(s2 & r & Hf & Hlost & _) Hcrash]; [|exact Hbudget|].
  { apply IH; [done|]. by apply (attempts_left_mono _ _ k (S k)); [lia|]. }
  apply lost_alive; [|done..]. destruct (run_for n (life k) s1) as [s3 [[m r']|]] eqn:Hrun.
  - apply run_for_finish in Hrun. rewrite Hf in Hrun. by injection Hrun as <- <-.
  - by apply (Hcrash n).
Qed.

(** The workflow as it was submitted to its queue. *)
Lemma submitted_alive s0 :
  m_world s0 = w0 → m_active s0 !! wid = None → configured (m_db s0) →
  workflow_status (m_db s0) !! wid = Some row0 → ws_status row0 = ENQUEUED → in_queue row0 →
  (∀ fid, (0 < fid)%Z → operation_outputs (m_db s0) !! (wid, fid) = None) → alive 0 s0.
Proof.
  intros Hw Ha Hq Hr He Hin Hfree. split; [done..|]. exists ctx0, wf0. split.
  - exists row0. split_and!; [done..|left]. split_and!; [by right|done|constructor|]. intros fid Hf. by apply Hfree.
  - intros w' Ho. exists w'. rewrite Hw in Ho. split; [done|constructor].
Qed.

(** The last of the lives ends with the outcome. *)
Lemma lives_end k s0 s :
  m_world s0 = w0 → m_active s0 !! wid = None → configured (m_db s0) →
  workflow_status (m_db s0) !! wid = Some row0 → ws_status row0 = ENQUEUED → in_queue row0 →
  (∀ fid, (0 < fid)%Z → operation_outputs (m_db s0) !! (wid, fid) = None) →
  attempts_left row0 info (S k) → lives k s0 s →
  ∃ s' res, finish (life k) s = (s', Some res) ∧
    ((∃ wk r ctx w1, res = Ok (Some wk) ∧ check_workflow_result serializer (m_db s') wid = found r ∧
        others w0 w1 ∧ spec serializer executor_id others k (ctx0, wf0, w1) (ctx, WReturn r, m_world s')) ∨
     interrupted serializer executor_id polls app_id app_version reg res).
Proof.
  intros Hw Ha Hq Hr He Hin Hfree Hbudget Hl.
  assert (alive k s) as Hal.
  { eapply lives_alive; [|by apply (attempts_left_mono _ _ k (S k)); [lia|]|exact Hl]. by apply submitted_alive. }
  destruct (life_keeps k s Hal Hbudget) as [(s' & res & Hf & _ & Hend) _]. exists s', res. split; [exact Hf|].
  destruct Hend as [(wk & r & Hres & [Hch _] & ctx & w1 & Hw1 & Hs)|?]; [left; by exists wk, r, ctx, w1|by right].
Qed.
End keeps.

(** C2: a queued workflow runs to its end, through any number of processes. A workflow with only durable calls waits on a queue
    that is not partitioned and has no limit of concurrency, per worker or of rate; it is for this version of the application,
    has no timeout, and an attempt left for each process. The database answers, and nobody else holds its row or changes it. Process after process starts, recovers what the one before it left pending, serves the queue, runs what it
    takes, and is lost with its machine at any point of that. Then the last one ends with the workflow's outcome
    in the database, whatever else it recovers and takes and however that fails, and the world is as a single run of the
    workflow alone leaves it, but that each loss was at most of a part of the one call that was under way, and
    that call was made anew; unless some execution raises what is no [Exception], and the thread it is raised in ends. *)
Theorem queued_workflow_survives {W} `{Host W, Codecs, !CodecLaws} (serializer : Serializer) (executor_id : string)
    (others : W → W → Prop) `{!PreOrder others} polls app_id app_version reg wait locked outage uuids xids jitters queue0 queue wid
    row0 info inputs roles k s0 s :
  honest_name serializer → round_trips serializer → steady others wait locked outage queue wid →
  executable serializer reg wid row0 info inputs roles →
  durable_workflow serializer executor_id (ws_serialization row0) (wf_func info inputs) →
  m_active s0 !! wid = None → configured queue0 queue (m_db s0) →
  workflow_status (m_db s0) !! wid = Some row0 → ws_status row0 = ENQUEUED → in_queue app_version queue row0 →
  (∀ fid, (0 < fid)%Z → operation_outputs (m_db s0) !! (wid, fid) = None) → attempts_left row0 info (S k) →
  let life := life serializer executor_id polls app_id app_version reg wait locked outage uuids xids jitters queue0 wid in
  lives serializer executor_id others polls app_id app_version reg wait locked outage uuids xids jitters queue0 queue wid k s0 s →
  ∃ s' res, finish (life k) s = (s', Some res) ∧
    ((∃ wk r ctx w1, res = Ok (Some wk) ∧ check_workflow_result serializer (m_db s') wid = found r ∧ others (m_world s0) w1 ∧
        spec serializer executor_id others k (execution_ctx executor_id app_id wid row0 info roles, wf_func info inputs, w1)
          (ctx, WReturn r, m_world s')) ∨
     interrupted serializer executor_id polls app_id app_version reg res).
Proof. intros. by eapply lives_end. Qed.

(** ** The property at a concrete input *)

#[local] Existing Instance sample_codecs.

Lemma letters_steady id : steady (λ w w', mb_sent w' = mb_sent w) (λ _ s, s) (λ _, ∅) (λ _, None) unlimited id.
Proof. split; done. Qed.

(** The machine dies after both letters, before the checkpoint of the second: the next process
    gives the workflow back to its queue, takes it, and sends that letter again. *)
Lemma queued_workflow_survives_witness :
  let s1 := (run_for 18 (letters_life 0) letters_queued).1 in
  let s := crash (s1 <| m_db := m_db s1 |> <| m_world := Mailbox 100 (mb_sent (m_world s1)) |>) in
  ∃ s' wk r ctx w1, finish (letters_life 1) s = (s', Some (Ok (Some wk))) ∧
    @check_workflow_result sample_codecs letter_serializer (m_db s') "a" = found r ∧ mb_sent w1 = [] ∧
    spec letter_serializer "exec" (λ w w', mb_sent w' = mb_sent w) 1
      (execution_ctx "exec" "app" "a" (queued_letters "a" ENQUEUED).2 letters None, wf_func letters {| args := []; kwargs := [] |}, w1)
      (ctx, WReturn r, m_world s').
Proof.
  intros s1 s.
  assert (PreOrder (λ w w' : mailbox, mb_sent w' = mb_sent w)) as Hpre by (split; [done|intros ???; congruence]).
  destruct (@queued_workflow_survives mailbox mailbox_host sample_codecs sample_laws letter_serializer "exec"
    (λ w w', mb_sent w' = mb_sent w) Hpre 3 "app" "v1" letters_registry (λ _ s, s) (λ _, ∅) (λ _, None)
    (λ _ _, "u") (λ _ _, "x") (λ _, 1%Q) unlimited unlimited "a" (queued_letters "a" ENQUEUED).2 letters
    {| args := []; kwargs := [] |} None 1 letters_queued s letters_honest letters_read_back)
    as (s' & res & Hf & Hend).
  - apply letters_steady.
  - refine (executable_identity _ _ _ _ _ _ _ _ _ letters_delayed_executable). reflexivity.
  - intros. by repeat (econstructor; [apply send_letter_durable|intros ?]); constructor.
  - reflexivity.
  - reflexivity.
  - reflexivity.
  - reflexivity.
  - by split_and!.
  - reflexivity.
  - vm_compute. discriminate.
  - apply (lives_S _ _ _ _ _ _ _ _ _ _ _ _ _ _ _ _ 0 18 letters_queued letters_queued); [constructor|by split|reflexivity|reflexivity].
  - assert (match (finish (letters_life 1) s).2 with Some (Ok (Some _)) => true | _ => false end = true) as Hres by (vm_compute; reflexivity).
    change (finish (letters_life 1) s = (s', Some res)) in Hf. rewrite Hf in Hres. destruct Hend as [(wk & r & ctx & w1 & -> & Hch & Hw1 & Hs)|Hi].
    + exists s', wk, r, ctx, w1. split; [exact Hf|]. split; [exact Hch|]. split; [exact Hw1|exact Hs].
    + exfalso. clear Hf. destruct res as [[wk|]|e]; [exact Hi|discriminate Hres|discriminate Hres].
Defined.
