(* ===== verification/Scopes.v ===== *)
(** * Context managers: the [with] blocks of [dbos/_context.py]

    A thread has a current context, a reference in a [ContextVar] to a mutable object; the
    managers change the object, or make another one current, on [__enter__], and put things
    back on [__exit__], which runs however the block ends and never hides its exception
    ([with_]). Those that set options for the workflows a block starts are instances of one
    shape, [Setting]. Spans are left out. *)
From Stdlib Require Import QArith.
From stdpp Require Import pretty.
From S2P Require Import Prelude Errors Schema Retry Serialization Workflows Context Steps Queues Process Execution.
Open Scope Z_scope.

(** The objects of a thread, and the one that is current. *)
Record thread := Thread { t_objects : gmap positive DBOSContext; t_current : option positive }.

#[export] Instance thread_eta : RecordEta thread := λ t, Thread (t_objects t) (t_current t).

(** [int()] of a float *)
Definition py_int (q : Q) : Z := Z.quot (Qnum q) (Z.pos (Qden q)).

Notation threadM := (SM thread pyexn).

Section managers.
Context (executor_id app_id : string).

Definition set_local_dbos_context (l : option positive) : threadM unit := modify (λ t, t <| t_current := l |>).
Definition clear_local_dbos_context : threadM unit := set_local_dbos_context None.

(** [DBOSContext()] *)
Definition alloc (c : DBOSContext) : threadM positive := λ t,
  let l := fresh (dom t.(t_objects)) in (t <| t_objects := <[l := c]> (t_objects t) |>, Ok l).

Definition get_local_dbos_context (t : thread) : option DBOSContext := t_current t ≫= λ l, t_objects t !! l.

Definition assert_current_dbos_context : threadM DBOSContext := λ t,
  match get_local_dbos_context t with
  | Some c => (t, Ok c)
  | None => (t, Err (AssertionError "No DBOS context found"))
  end.

(** A change of the current object. *)
Definition update (f : DBOSContext → DBOSContext) : threadM unit :=
  _ ← assert_current_dbos_context;
  modify (λ t, match t_current t with
               | Some l => t <| t_objects := alter f l (t_objects t) |>
               | None => t
               end).

(** [with manager as s: body s] *)
Definition with_ {S A} (enter : threadM S) (exit : S → threadM unit) (body : S → threadM A) : threadM A := λ t,
  match enter t with
  | (t1, Err e) => (t1, Err e)
  | (t1, Ok s) => let '(t2, r) := body s t1 in
                  match exit s t2 with
                  | (t3, Ok _) => (t3, r)
                  | (t3, Err e) => (t3, Err e)
                  end
  end.

(** [if ctx is None: self.created_ctx = True; _set_local_dbos_context(DBOSContext())] *)
Definition ensure : threadM bool :=
  ctx ← gets get_local_dbos_context;
  match ctx with
  | Some _ => mret false
  | None => l ← alloc (new_context executor_id app_id); _ ← set_local_dbos_context (Some l); mret true
  end.

(** [if self.created_ctx: _clear_local_dbos_context()] *)
Definition clean (created_ctx : bool) : threadM unit := if created_ctx then clear_local_dbos_context else mret tt.

Definition DBOSContextEnsure {A} (body : threadM A) : threadM A := with_ ensure clean (λ _, body).
(** The same, with a span. *)
Definition EnterDBOSHandler {A} (body : threadM A) : threadM A := DBOSContextEnsure body.

(** ** Blocks that set options *)

(** A part of a context that a manager saves, sets, and puts back. *)
Class Setting (T : Type) := {
  setting : DBOSContext → T;
  with_setting : T → DBOSContext → DBOSContext;
}.

Definition enter_setting `{Setting T} (v : T) : threadM (bool * T) :=
  created ← ensure;
  ctx ← assert_current_dbos_context;
  _ ← update (with_setting v);
  mret (created, setting ctx).

Definition exit_setting `{Setting T} (saved : bool * T) : threadM unit :=
  _ ← update (with_setting saved.2); clean saved.1.

Definition with_settings `{Setting T} {A} (v : T) (body : threadM A) : threadM A :=
  with_ (enter_setting v) exit_setting (λ _, body).

End managers.

(** The fields of [SetWorkflowTimeout]: the timeout and the deadline. *)
Record TimeoutSetting := MkTimeout { ts_timeout_ms : option Z; ts_deadline_epoch_ms : option Z }.
#[export] Instance timeout_setting : Setting TimeoutSetting := {|
  setting c := MkTimeout (cx_workflow_timeout_ms c) (cx_workflow_deadline_epoch_ms c);
  with_setting v c := c <| cx_workflow_timeout_ms := ts_timeout_ms v |> <| cx_workflow_deadline_epoch_ms := ts_deadline_epoch_ms v |>;
|}.

Record AttributesSetting := MkAttributes { as_attributes : option pyval }.
#[export] Instance attributes_setting : Setting AttributesSetting := {|
  setting c := MkAttributes (cx_workflow_attributes c);
  with_setting v c := c <| cx_workflow_attributes := as_attributes v |>;
|}.

Record EnqueueSetting := MkEnqueue {
  es_deduplication_id : option string; es_priority : option Z; es_app_version : option string;
  es_queue_partition_key : option string; es_delay_until_epoch_ms : option Z }.
#[export] Instance enqueue_setting : Setting EnqueueSetting := {|
  setting c := MkEnqueue (cx_deduplication_id c) (cx_priority c) (cx_app_version c) (cx_queue_partition_key c) (cx_delay_until_epoch_ms c);
  with_setting v c := c <| cx_deduplication_id := es_deduplication_id v |> <| cx_priority := es_priority v |>
    <| cx_app_version := es_app_version v |> <| cx_queue_partition_key := es_queue_partition_key v |>
    <| cx_delay_until_epoch_ms := es_delay_until_epoch_ms v |>;
|}.

Record DebounceSetting := MkDebounce {
  ds_deduplication_id : option string; ds_delay_until_epoch_ms : option Z; ds_debounce_deadline_epoch_ms : option Z;
  ds_is_debounced : bool; ds_workflow_deadline_epoch_ms : option Z }.
#[export] Instance debounce_setting : Setting DebounceSetting := {|
  setting c := MkDebounce (cx_deduplication_id c) (cx_delay_until_epoch_ms c) (cx_debounce_deadline_epoch_ms c)
                 (cx_is_debounced c) (cx_workflow_deadline_epoch_ms c);
  with_setting v c := c <| cx_deduplication_id := ds_deduplication_id v |> <| cx_delay_until_epoch_ms := ds_delay_until_epoch_ms v |>
    <| cx_debounce_deadline_epoch_ms := ds_debounce_deadline_epoch_ms v |> <| cx_is_debounced := ds_is_debounced v |>
    <| cx_workflow_deadline_epoch_ms := ds_workflow_deadline_epoch_ms v |>;
|}.

Record AuthSetting := MkAuth { au_user : option string; au_roles : option (list string) }.
#[export] Instance auth_setting : Setting AuthSetting := {|
  setting c := MkAuth (cx_authenticated_user c) (cx_authenticated_roles c);
  with_setting v c := c <| cx_authenticated_user := au_user v |> <| cx_authenticated_roles := au_roles v |>;
|}.

Record LogSetting := MkLog { ls_workflow_id : string }.
#[export] Instance log_setting : Setting LogSetting := {|
  setting c := MkLog (cx_workflow_id c);
  with_setting v c := c <| cx_workflow_id := ls_workflow_id v |>;
|}.

(** ** The managers *)

Section blocks.
Context `{Codecs} (executor_id app_id : string).
(** How Python prints a float, and a string with [!r]. *)
Context (float_text : Q → string) (repr : string → string).
Notation with_settings := (with_settings executor_id app_id).

Definition validate_workflow_id (workflow_id : option string) : res pyexn unit :=
  let invalid shown := Err (DBOSException ("Invalid workflow ID " +:+ shown +:+
    ": workflow IDs must be non-empty and cannot be only whitespace.")) in
  match workflow_id with
  | None => invalid "None"
  | Some w => if is_blank w then invalid (repr w) else Ok tt
  end.

Definition enter_SetWorkflowID (wfid : string) : threadM bool :=
  created ← ensure executor_id app_id;
  _ ← update (λ c, c <| cx_id_assigned_for_next_workflow := wfid |> <| cx_is_within_set_workflow_id_block := true |>);
  mret created.

Definition exit_SetWorkflowID (created_ctx : bool) : threadM unit :=
  _ ← update (λ c, c <| cx_is_within_set_workflow_id_block := false |>); clean created_ctx.

Definition SetWorkflowID {A} (wfid : string) (body : threadM A) : threadM A :=
  _ ← lift_res (validate_workflow_id (Some wfid));
  with_ (enter_SetWorkflowID wfid) exit_SetWorkflowID (λ _, body).

(** [SetWorkflowTimeout.__init__]; a timeout of 0 is let through. *)
Definition workflow_timeout (workflow_timeout_sec : option Q) : res pyexn TimeoutSetting :=
  match workflow_timeout_sec with
  | None => Ok (MkTimeout None None)
  | Some sec =>
      if negb (Qeq_bool sec 0) && Qle_bool sec 0
      then Err (PyException ("Invalid workflow timeout " +:+ float_text sec +:+ ". Timeouts must be positive."))
      else Ok (MkTimeout (Some (py_int (sec * 1000))) None)
  end.

Definition SetWorkflowTimeout {A} (workflow_timeout_sec : option Q) (body : threadM A) : threadM A :=
  v ← lift_res (workflow_timeout workflow_timeout_sec); with_settings v body.

Definition SetWorkflowAttributes {A} (attributes : option pyval) (body : threadM A) : threadM A :=
  _ ← lift_res (validate_workflow_attributes attributes); with_settings (MkAttributes attributes) body.

Definition MaxPriority : Z := 2 ^ 31 - 1.
Definition MinPriority : Z := 1.

(** [SetEnqueueOptions.__init__]; [now] is [time.time()]. *)
Definition enqueue_options (now : Q) (deduplication_id : option string) (priority : option Z)
    (app_version queue_partition_key : option string) (delay_seconds : option Q) : res pyexn EnqueueSetting :=
  let options := MkEnqueue deduplication_id priority app_version queue_partition_key
                   ((λ s, py_int ((now + s) * 1000)) <$> delay_seconds) in
  match priority with
  | Some p =>
      if bool_decide (p < MinPriority) || bool_decide (MaxPriority < p)
      then Err (PyException ("Invalid priority " +:+ pretty p +:+ ". Priority must be between " +:+ pretty MinPriority +:+ "~" +:+
                  pretty MaxPriority +:+ "."))
      else Ok options
  | None => Ok options
  end.

Definition SetEnqueueOptions {A} (now : Q) (deduplication_id : option string) (priority : option Z)
    (app_version queue_partition_key : option string) (delay_seconds : option Q) (body : threadM A) : threadM A :=
  v ← lift_res (enqueue_options now deduplication_id priority app_version queue_partition_key delay_seconds);
  with_settings v body.

Definition SetWorkflowDebounce {A} (deduplication_id : string) (delay_until_epoch_ms : Z)
    (debounce_deadline_epoch_ms : option Z) (body : threadM A) : threadM A :=
  with_settings (MkDebounce (Some deduplication_id) (Some delay_until_epoch_ms) debounce_deadline_epoch_ms true None) body.

Definition DBOSContextSetAuth {A} (user : option string) (roles : option (list string)) (body : threadM A) : threadM A :=
  with_settings (MkAuth user roles) body.

Definition UseLogAttributes {A} (workflow_id : string) (body : threadM A) : threadM A :=
  with_settings (MkLog workflow_id) body.

Definition enter_DBOSAssumeRole (role : option string) : threadM (option string) :=
  ctx ← assert_current_dbos_context;
  _ ← update (assume_role role);
  mret (cx_assumed_role ctx).

Definition exit_DBOSAssumeRole (role prior_role : option string) : threadM unit :=
  ctx ← assert_current_dbos_context;
  if match role with Some r => negb (bool_decide (cx_assumed_role ctx = Some r)) | None => false end
  then raise (AssertionError "")
  else update (λ c, c <| cx_assumed_role := prior_role |>).

Definition DBOSAssumeRole {A} (role : option string) (body : threadM A) : threadM A :=
  with_ (enter_DBOSAssumeRole role) (exit_DBOSAssumeRole role) (λ _, body).

(** ** Blocks that enter another context *)

(** What [EnterDBOSWorkflow] keeps: its context, the one before, and the fields it unset. *)
Record workflow_scope := {
  wsc_use_ctx : positive;
  wsc_prev_ctx : option positive;
  wsc_is_within_set_workflow_id_block : bool;
  wsc_workflow_timeout : option Z;
  wsc_deduplication_id : option string;
  wsc_priority : option Z;
}.

Definition enter_EnterDBOSWorkflow (uuid : string) (use_ctx : option positive) : threadM workflow_scope :=
  prev_ctx ← gets t_current;
  use_ctx ← match use_ctx with Some l => mret l | None => alloc (new_context executor_id app_id) end;
  _ ← set_local_dbos_context (Some use_ctx);
  ctx ← assert_current_dbos_context;
  if is_within_workflow ctx then raise (AssertionError "")
  else
    _ ← update (λ c, Context.start_workflow uuid None
          (c <| cx_is_within_set_workflow_id_block := false |> <| cx_workflow_timeout_ms := None |>
             <| cx_deduplication_id := None |> <| cx_priority := None |>));
    mret {| wsc_use_ctx := use_ctx; wsc_prev_ctx := prev_ctx;
            wsc_is_within_set_workflow_id_block := cx_is_within_set_workflow_id_block ctx;
            wsc_workflow_timeout := cx_workflow_timeout_ms ctx; wsc_deduplication_id := cx_deduplication_id ctx;
            wsc_priority := cx_priority ctx |}.

Definition exit_EnterDBOSWorkflow (s : workflow_scope) : threadM unit :=
  ctx ← assert_current_dbos_context;
  current ← gets t_current;
  if negb (bool_decide (current = Some (wsc_use_ctx s))) || negb (is_within_workflow ctx) then raise (AssertionError "")
  else
    _ ← update (λ c, end_workflow c <| cx_is_within_set_workflow_id_block := wsc_is_within_set_workflow_id_block s |>
          <| cx_workflow_timeout_ms := wsc_workflow_timeout s |> <| cx_workflow_deadline_epoch_ms := None |>
          <| cx_priority := wsc_priority s |> <| cx_deduplication_id := wsc_deduplication_id s |>);
    set_local_dbos_context (wsc_prev_ctx s).

Definition EnterDBOSWorkflow {A} (uuid : string) (use_ctx : option positive) (body : threadM A) : threadM A :=
  with_ (enter_EnterDBOSWorkflow uuid use_ctx) exit_EnterDBOSWorkflow (λ _, body).

Definition enter_EnterDBOSStepCtx (use_ctx : positive) : threadM (option positive) :=
  ctx ← assert_current_dbos_context;
  if negb (is_workflow ctx) then raise (AssertionError "")
  else
    prev_ctx ← gets t_current;
    _ ← set_local_dbos_context (Some use_ctx);
    _ ← update (λ c, start_step (cx_function_id c) c);
    mret prev_ctx.

Definition exit_EnterDBOSStepCtx (prev_ctx : option positive) : threadM unit :=
  ctx ← assert_current_dbos_context;
  if negb (is_step ctx) then raise (AssertionError "")
  else _ ← update end_step; set_local_dbos_context prev_ctx.

Definition EnterDBOSStepCtx {A} (use_ctx : positive) (body : threadM A) : threadM A :=
  with_ (enter_EnterDBOSStepCtx use_ctx) exit_EnterDBOSStepCtx (λ _, body).

(** [EnterDBOSStepRetry.__exit__] *)
Definition exit_step_retry (ctx : DBOSContext) : DBOSContext :=
  match cx_step_status ctx with
  | Some s => ctx <| cx_step_status := Some {| step_id := step_id s; current_attempt := None; max_attempts := None |} |>
  | None => ctx
  end.

Definition if_current (f : DBOSContext → DBOSContext) : threadM unit :=
  ctx ← gets get_local_dbos_context;
  match ctx with Some _ => update f | None => mret tt end.

Definition EnterDBOSStepRetry {A} (current_attempt max_attempts : Z) (body : threadM A) : threadM A :=
  with_ (if_current (enter_step_retry current_attempt max_attempts)) (λ _, if_current exit_step_retry) (λ _, body).

Definition enter_EnterDBOSTransaction : threadM unit :=
  ctx ← assert_current_dbos_context;
  if negb (is_workflow ctx) then raise (AssertionError "")
  else update (λ c, let c := c <| cx_function_id := cx_function_id c + 1 |> in start_transaction (cx_function_id c) c).

Definition exit_EnterDBOSTransaction : threadM unit :=
  ctx ← assert_current_dbos_context;
  if negb (is_transaction ctx) then raise (AssertionError "")
  else update end_transaction.

Definition EnterDBOSTransaction {A} (body : threadM A) : threadM A :=
  with_ enter_EnterDBOSTransaction (λ _, exit_EnterDBOSTransaction) (λ _, body).

End blocks.

(** ** What is meant: the settings of a block end with it *)

(** All that the managers of options set, and whether it is a step's context. *)
Definition settings (c : DBOSContext) :=
  (setting (T:=TimeoutSetting) c, setting (T:=AttributesSetting) c, setting (T:=EnqueueSetting) c,
   setting (T:=DebounceSetting) c, setting (T:=AuthSetting) c, setting (T:=LogSetting) c, cx_assumed_role c,
   cx_curr_step_function_id c).

(** The current context is an object. *)
Definition current_ok (t : thread) : Prop := ∀ l, t_current t = Some l → is_Some (t_objects t !! l).

(** The same context is current, with the same settings; the rest of it may have changed. *)
Definition keeps (t t' : thread) : Prop :=
  t_current t' = t_current t ∧
  ∀ l c, t_current t = Some l → t_objects t !! l = Some c → ∃ c', t_objects t' !! l = Some c' ∧ settings c' = settings c.

(** A block of options, with the arguments of its manager. *)
Inductive block :=
| BEnsure
| BTimeout (workflow_timeout_sec : option Q)
| BAttributes (attributes : option pyval)
| BEnqueue (now : Q) (deduplication_id : option string) (priority : option Z) (app_version queue_partition_key : option string)
    (delay_seconds : option Q)
| BDebounce (deduplication_id : string) (delay_until_epoch_ms : Z) (debounce_deadline_epoch_ms : option Z)
| BAuth (user : option string) (roles : option (list string))
| BLog (workflow_id : string)
| BRole (role : option string).

(** ** Lemmas *)

Lemma keeps_refl t : current_ok t → keeps t t.
Proof. intros Hok. split; [done|]. eauto. Qed.

Lemma keeps_ok t t' : current_ok t → keeps t t' → current_ok t'.
Proof. intros Hok [Hc Hk] l Hl. rewrite Hc in Hl. destruct (Hok l Hl) as [c Hlc]. destruct (Hk l c Hl Hlc) as (c' & ? & _). by eexists. Qed.

(** What a manager puts back is what it found. *)
Class SettingLaws (T : Type) `{Setting T} : Prop := {
  put_back v c c' : settings c' = settings (with_setting v c) → settings (with_setting (setting c) c') = settings c;
}.

Ltac put_back := split; intros v c c'; destruct c, c', v; unfold settings; simpl; congruence.
#[export] Instance timeout_laws : SettingLaws TimeoutSetting. Proof. put_back. Qed.
#[export] Instance attributes_laws : SettingLaws AttributesSetting. Proof. put_back. Qed.
#[export] Instance enqueue_laws : SettingLaws EnqueueSetting. Proof. put_back. Qed.
#[export] Instance debounce_laws : SettingLaws DebounceSetting. Proof. put_back. Qed.
#[export] Instance auth_laws : SettingLaws AuthSetting. Proof. put_back. Qed.
#[export] Instance log_laws : SettingLaws LogSetting. Proof. put_back. Qed.

Lemma update_current f l c t :
  t_current t = Some l → t_objects t !! l = Some c →
  update f t = (t <| t_objects := <[l := f c]> (t_objects t) |>, Ok tt).
Proof.
  intros Hl Hc.
  assert (alter f l (t_objects t) = <[l := f c]> (t_objects t)) as Halter.
  { apply map_eq. intros l'. destruct (decide (l = l')) as [<-|Hne].
    - by rewrite lookup_alter_eq, lookup_insert_eq, Hc.
    - by rewrite lookup_alter_ne, lookup_insert_ne. }
  unfold update, assert_current_dbos_context, get_local_dbos_context, mbind, SM_bind, modify.
  rewrite Hl. simpl. by rewrite Hc, Hl, Halter.
Qed.

Section blocks.
Context `{Codecs} (executor_id app_id : string).
Context (float_text : Q → string) (repr : string → string).
Notation new := (new_context executor_id app_id).
Notation with_settings := (with_settings executor_id app_id).
Notation ensure := (ensure executor_id app_id).

(** [ensure]: the context that is then current, and whether it is a new one. *)
Lemma ensure_spec t :
  current_ok t →
  ∃ t1 l c, ensure t = (t1, Ok (bool_decide (t_current t = None))) ∧ t_current t1 = Some l ∧ t_objects t1 !! l = Some c ∧
    (∀ l', t_current t = Some l' → t1 = t ∧ l' = l) ∧ (t_current t = None → c = new) ∧
    c = default new (get_local_dbos_context t).
Proof.
  intros Hok. unfold Scopes.ensure, mbind, SM_bind, gets. destruct (t_current t) as [l|] eqn:Hl.
  - destruct (Hok l Hl) as [c Hc]. assert (get_local_dbos_context t = Some c) as Hg
      by (unfold get_local_dbos_context; rewrite Hl; simpl; done).
    exists t, l, c. rewrite Hg. split_and!; try done. by intros l' [= <-].
  - assert (get_local_dbos_context t = None) as Hg by (unfold get_local_dbos_context; by rewrite Hl).
    rewrite Hg. set (l := fresh (dom (t_objects t))).
    exists (Thread (<[l := new]> (t_objects t)) (Some l)), l, new. split_and!; try done. simpl. by rewrite lookup_insert_eq.
Qed.

(** A block whose manager changes the current context by [f] and, at its end, by [g]. *)
Lemma block_spec {S A} (enter : threadM S) (exit : S → threadM unit) (f g : DBOSContext → DBOSContext) (s : S)
    (body : threadM A) t :
  current_ok t → (∀ t, current_ok t → keeps t (body t).1) →
  let c := default new (get_local_dbos_context t) in
  (∀ t0 l, ensure t = (t0, Ok (bool_decide (t_current t = None))) → t_current t0 = Some l → t_objects t0 !! l = Some c →
     enter t = (t0 <| t_objects := <[l := f c]> (t_objects t0) |>, Ok s)) →
  (∀ t2 l c2, t_current t2 = Some l → t_objects t2 !! l = Some c2 →
     exit s t2 = clean (bool_decide (t_current t = None)) (t2 <| t_objects := <[l := g c2]> (t_objects t2) |>)) →
  (∀ c2, settings c2 = settings (f c) → settings (g c2) = settings c) →
  ∃ t1 l, current_ok t1 ∧ t_current t1 = Some l ∧ t_objects t1 !! l = Some (f c) ∧
    (with_ enter exit (λ _, body) t).2 = (body t1).2 ∧ keeps t (with_ enter exit (λ _, body) t).1.
Proof.
  intros Hok Hbody c Henter Hexit Hback.
  destruct (ensure_spec t Hok) as (t0 & l & c' & Hens & Hl & Hc & Hold & Hnew & Hdef). fold c in Hdef. subst c'.
  specialize (Henter t0 l Hens Hl Hc). set (t1 := t0 <| t_objects := _ |>) in *.
  assert (current_ok t1) as Hok1.
  { intros l' Hl'. simpl in Hl'. rewrite Hl in Hl'. injection Hl' as <-. simpl. rewrite lookup_insert_eq. by eexists. }
  assert (t_objects t1 !! l = Some (f c)) as Hfc by (simpl; by rewrite lookup_insert_eq).
  destruct (Hbody t1 Hok1) as [Hcur Hk]. destruct (Hk l (f c) Hl Hfc) as (c2 & Hc2 & Hset).
  exists t1, l. unfold with_. rewrite Henter. destruct (body t1) as [t2 r] eqn:Hb. cbn [fst snd] in *.
  assert (t_current t2 = Some l) as Hl2 by (by rewrite Hcur). rewrite (Hexit t2 l c2 Hl2 Hc2).
  split; [done|]. split; [done|]. split; [done|]. unfold clean. case_bool_decide as Hn; simpl.
  - split; [done|]. split; [done|]. intros l' c' Hl'. congruence.
  - split; [done|]. destruct (t_current t) as [l'|] eqn:Hcurt; [|done]. destruct (Hold l' eq_refl) as [-> ->].
    split; [simpl; congruence|]. intros l'' c' Hl'' Hc'. assert (l'' = l) as -> by congruence.
    assert (c' = c) as -> by congruence. eexists. split; [simpl; by rewrite lookup_insert_eq|]. by apply Hback.
Qed.

Lemma assert_current t l c : t_current t = Some l → t_objects t !! l = Some c → assert_current_dbos_context t = (t, Ok c).
Proof. intros Hl Hc. unfold assert_current_dbos_context, get_local_dbos_context. rewrite Hl. simpl. by rewrite Hc. Qed.

Lemma with_settings_spec `{SettingLaws T} {A} (v : T) (body : threadM A) t :
  current_ok t → (∀ t, current_ok t → keeps t (body t).1) →
  ∃ t1 l, current_ok t1 ∧ t_current t1 = Some l ∧
    t_objects t1 !! l = Some (with_setting v (default new (get_local_dbos_context t))) ∧
    (with_settings v body t).2 = (body t1).2 ∧ keeps t (with_settings v body t).1.
Proof.
  intros Hok Hbody. set (c := default new (get_local_dbos_context t)).
  apply (block_spec _ _ (with_setting v) (with_setting (setting c)) (bool_decide (t_current t = None), setting c)); try done.
  - intros t0 l Hens Hl Hc. unfold enter_setting. erewrite bind_Ok by exact Hens.
    erewrite bind_Ok by (by eapply assert_current). by erewrite bind_Ok by (by apply update_current).
  - intros t2 l c2 Hl Hc2. unfold exit_setting. by erewrite bind_Ok by (by apply update_current).
  - intros c2. apply put_back.
Qed.

Lemma SetWorkflowID_spec {A} wfid (body : threadM A) t :
  current_ok t → (∀ t, current_ok t → keeps t (body t).1) → is_blank wfid = false →
  ∃ t1 l, current_ok t1 ∧ t_current t1 = Some l ∧
    t_objects t1 !! l = Some ((default new (get_local_dbos_context t))
      <| cx_id_assigned_for_next_workflow := wfid |> <| cx_is_within_set_workflow_id_block := true |>) ∧
    (SetWorkflowID executor_id app_id repr wfid body t).2 = (body t1).2 ∧
    keeps t (SetWorkflowID executor_id app_id repr wfid body t).1.
Proof.
  intros Hok Hbody Hb. unfold SetWorkflowID, validate_workflow_id. rewrite Hb. unfold lift_res.
  erewrite bind_Ok by reflexivity.
  apply (block_spec _ _ (λ c, c <| cx_id_assigned_for_next_workflow := wfid |> <| cx_is_within_set_workflow_id_block := true |>)
    (λ c, c <| cx_is_within_set_workflow_id_block := false |>) (bool_decide (t_current t = None))); try done.
  - intros t0 l Hens Hl Hc. unfold enter_SetWorkflowID. erewrite bind_Ok by exact Hens. by erewrite bind_Ok by (by apply update_current).
  - intros t2 l c2 Hl Hc2. unfold exit_SetWorkflowID. by erewrite bind_Ok by (by apply update_current).
Qed.
End blocks.

Section nests.
Context `{Codecs} (executor_id app_id : string).
Context (float_text : Q → string) (repr : string → string).
Notation new := (new_context executor_id app_id).

(** A block around a body. *)
Definition enter_block {A} (b : block) (body : threadM A) : threadM A :=
  match b with
  | BEnsure => DBOSContextEnsure executor_id app_id body
  | BTimeout s => SetWorkflowTimeout executor_id app_id float_text s body
  | BAttributes a => SetWorkflowAttributes executor_id app_id a body
  | BEnqueue now i p v k s => SetEnqueueOptions executor_id app_id now i p v k s body
  | BDebounce i u d => SetWorkflowDebounce executor_id app_id i u d body
  | BAuth u r => DBOSContextSetAuth executor_id app_id u r body
  | BLog w => UseLogAttributes executor_id app_id w body
  | BRole r => DBOSAssumeRole r body
  end.

(** The manager takes its arguments. *)
Definition block_valid (b : block) : Prop :=
  match b with
  | BTimeout s => is_ok (workflow_timeout float_text s) = true
  | BAttributes a => is_ok (validate_workflow_attributes a) = true
  | BEnqueue now i p v k s => is_ok (enqueue_options now i p v k s) = true
  | _ => True
  end.

Definition in_blocks {A} (bs : list block) (body : threadM A) : threadM A := foldr enter_block body bs.

Section one_block.
Context {A : Type} (body : threadM A).
Hypothesis body_keeps : ∀ t, current_ok t → keeps t (body t).1.

Definition scoped (m : threadM A) (t : thread) : Prop :=
  ∃ t1, current_ok t1 ∧ (is_Some (t_current t) → is_Some (t_current t1)) ∧ (m t).2 = (body t1).2.

Lemma lift_check {T} (r : res pyexn T) (m : T → threadM A) t :
  current_ok t → (∀ v, keeps t (m v t).1 ∧ scoped (m v) t) →
  keeps t ((v ← lift_res r; m v) t).1 ∧ (is_ok r = true → scoped (v ← lift_res r; m v) t).
Proof.
  intros Hok Hm. destruct r as [v|e]; unfold mbind, SM_bind, lift_res.
  - destruct (Hm v) as [Hk Hs]. split; [exact Hk|]. intros _. exact Hs.
  - split; [by apply keeps_refl|done].
Qed.

Lemma settings_scoped `{SettingLaws T} (v : T) t :
  current_ok t → keeps t (with_settings executor_id app_id v body t).1 ∧ scoped (with_settings executor_id app_id v body) t.
Proof.
  intros Hok. destruct (with_settings_spec executor_id app_id v body t Hok body_keeps) as (t1 & l & Hok1 & Hl & _ & Hr & Hk).
  split; [exact Hk|]. exists t1. split; [done|]. split; [by rewrite Hl|exact Hr].
Qed.

Lemma ensure_scoped t :
  current_ok t → keeps t (DBOSContextEnsure executor_id app_id body t).1 ∧ scoped (DBOSContextEnsure executor_id app_id body) t.
Proof.
  intros Hok. destruct (ensure_spec executor_id app_id t Hok) as (t1 & l & c & Hens & Hl & Hc & Hold & _ & _).
  assert (current_ok t1) as Hok1 by (intros l' Hl'; rewrite Hl in Hl'; injection Hl' as <-; by eexists).
  pose proof (body_keeps t1 Hok1) as Hk. unfold scoped, DBOSContextEnsure, with_. rewrite Hens.
  destruct (body t1) as [t2 r] eqn:Hb. cbn [fst snd] in *. case_bool_decide as Hn; simpl.
  - split; [split; [done|]; intros l' c'; congruence|]. exists t1. rewrite Hb, Hl. split_and!; [done|by eexists|done].
  - destruct (t_current t) as [l'|] eqn:Hcur; [|done]. destruct (Hold l' eq_refl) as [-> ->].
    split; [done|]. exists t. rewrite Hb. split_and!; [done|by eexists|done].
Qed.

Lemma assume_role_settings r c c2 :
  settings c2 = settings (assume_role r c) → settings (c2 <| cx_assumed_role := cx_assumed_role c |>) = settings c.
Proof. destruct c, c2, r; unfold settings; simpl; congruence. Qed.

Lemma role_scoped r t :
  current_ok t → keeps t (DBOSAssumeRole r body t).1 ∧ (is_Some (t_current t) → scoped (DBOSAssumeRole r body) t).
Proof.
  intros Hok. unfold scoped, DBOSAssumeRole, with_. destruct (t_current t) as [l|] eqn:Hl.
  2: { assert (assert_current_dbos_context t = (t, Err (AssertionError "No DBOS context found"))) as Ha
         by (unfold assert_current_dbos_context, get_local_dbos_context; by rewrite Hl).
       unfold enter_DBOSAssumeRole. erewrite bind_Err by exact Ha. split; [by apply keeps_refl|by intros []]. }
  destruct (Hok l Hl) as [c Hc].
  set (t1 := t <| t_objects := <[l := assume_role r c]> (t_objects t) |>).
  assert (enter_DBOSAssumeRole r t = (t1, Ok (cx_assumed_role c))) as Henter.
  { unfold enter_DBOSAssumeRole. erewrite bind_Ok by (by eapply assert_current). by erewrite bind_Ok by (by apply update_current). }
  assert (current_ok t1) as Hok1.
  { intros l' Hl'. simpl in Hl'. rewrite Hl in Hl'. injection Hl' as <-. simpl. rewrite lookup_insert_eq. by eexists. }
  destruct (body_keeps t1 Hok1) as [Hcur Hk]. destruct (Hk l (assume_role r c) Hl ltac:(simpl; by rewrite lookup_insert_eq)) as (c2 & Hc2 & Hset).
  rewrite Henter. destruct (body t1) as [t2 res] eqn:Hb. cbn [fst snd] in *.
  assert (t_current t2 = Some l) as Hl2 by (by rewrite Hcur).
  assert (exit_DBOSAssumeRole r (cx_assumed_role c) t2 =
    (t2 <| t_objects := <[l := c2 <| cx_assumed_role := cx_assumed_role c |>]> (t_objects t2) |>, Ok tt)) as Hexit.
  { unfold exit_DBOSAssumeRole. erewrite bind_Ok by (by eapply assert_current).
    assert (match r with Some r' => negb (bool_decide (cx_assumed_role c2 = Some r')) | None => false end = false) as ->.
    { destruct r as [r'|]; [|done]. unfold settings in Hset. injection Hset. intros _ Hrole. intros. simpl in Hrole.
      rewrite Hrole. by rewrite bool_decide_eq_true_2. }
    by apply update_current. }
  rewrite Hexit. split.
  - split; [done|]. intros l' c' Hl' Hc'. assert (l' = l) as -> by congruence. assert (c' = c) as -> by congruence.
    eexists. split; [simpl; by rewrite lookup_insert_eq|]. by eapply assume_role_settings.
  - intros _. exists t1. rewrite Hb. split_and!; [done|by intros _; eexists|done].
Qed.

Lemma enter_block_scoped b t :
  current_ok t → keeps t (enter_block b body t).1 ∧
    (block_valid b → (is_Some (t_current t) ∨ ∀ r, b ≠ BRole r) → scoped (enter_block b body) t).
Proof.
  intros Hok. destruct b; simpl; unfold SetWorkflowTimeout, SetWorkflowAttributes, SetEnqueueOptions, SetWorkflowDebounce,
    DBOSContextSetAuth, UseLogAttributes.
  - destruct (ensure_scoped t Hok). auto.
  - destruct (lift_check (workflow_timeout float_text workflow_timeout_sec) (λ v, with_settings executor_id app_id v body) t Hok
      (λ v, settings_scoped v t Hok)). auto.
  - destruct (lift_check (validate_workflow_attributes attributes)
      (λ _, with_settings executor_id app_id (MkAttributes attributes) body) t Hok (λ _, settings_scoped _ t Hok)). auto.
  - destruct (lift_check (enqueue_options now deduplication_id priority app_version queue_partition_key delay_seconds)
      (λ v, with_settings executor_id app_id v body) t Hok (λ v, settings_scoped v t Hok)). auto.
  - destruct (settings_scoped (MkDebounce (Some deduplication_id) (Some delay_until_epoch_ms) debounce_deadline_epoch_ms true None) t Hok). auto.
  - destruct (settings_scoped (MkAuth user roles) t Hok). auto.
  - destruct (settings_scoped (MkLog workflow_id) t Hok). auto.
  - destruct (role_scoped role t Hok) as [? Hs]. split; [done|]. intros _ [?|Hn]; [auto|]. by destruct (Hn role).
Qed.
End one_block.

(** C32: the options of a block end with it. However blocks are nested, and however their body ends, afterwards the
    same context is current, or none if none was, with the settings it had: timeout, deadline, attributes, options of queues
    and debouncing, user, roles, log attributes. The blocks neither hide nor change what the body returns or raises, unless one
    of them refuses its arguments, or asks for the role of a context that is not there; then nothing has been changed either. *)
Theorem nested_blocks_restore {A} bs (body : threadM A) t :
  current_ok t → (∀ t, current_ok t → keeps t (body t).1) →
  keeps t (in_blocks bs body t).1 ∧
  ((∀ b, b ∈ bs → block_valid b) → (is_Some (t_current t) ∨ ∀ r, BRole r ∉ bs) →
     ∃ t1, current_ok t1 ∧ (in_blocks bs body t).2 = (body t1).2).
Proof.
  intros Hok Hbody. revert t Hok. induction bs as [|b bs IH]; intros t Hok; simpl.
  { split; [by apply Hbody|]. intros _ _. by exists t. }
  destruct (enter_block_scoped (in_blocks bs body) (λ t Hok, proj1 (IH t Hok)) b t Hok) as [Hk Hs]. split; [exact Hk|].
  intros Hv Hr. destruct Hs as (t1 & Hok1 & Hsome & Heq).
  - apply Hv. left.
  - destruct Hr as [?|Hr]; [by left|]. right. intros r ->. apply (Hr r). left.
  - destruct (proj2 (IH t1 Hok1)) as (t2 & Hok2 & Heq2).
    + intros b' Hb'. apply Hv. by right.
    + destruct Hr as [?|Hr]; [left; auto|]. right. intros r Hin. apply (Hr r). by right.
    + exists t2. split; [done|]. congruence.
Qed.
End nests.

Section contexts.
Context `{Codecs} (executor_id app_id : string) (repr : string → string).

(** The blocks of [execute_workflow_by_id] around the start of the workflow. *)
Definition recovery_blocks {A} (user : option string) (roles : option (list string)) (workflow_id : string)
    (queue_partition_key : option string) (body : threadM A) : threadM A :=
  DBOSContextSetAuth executor_id app_id user roles
    (SetWorkflowID executor_id app_id repr workflow_id
      (SetEnqueueOptions executor_id app_id 0 None None None queue_partition_key None body)).

Lemma get_current t l c : t_current t = Some l → t_objects t !! l = Some c → get_local_dbos_context t = Some c.
Proof. intros Hl Hc. unfold get_local_dbos_context. rewrite Hl. done. Qed.

Lemma settings_workflow_id c c' : settings c = settings c' → cx_workflow_id c = cx_workflow_id c'.
Proof. destruct c, c'. unfold settings. simpl. congruence. Qed.

Lemma settings_step c c' : settings c = settings c' → cx_curr_step_function_id c = cx_curr_step_function_id c'.
Proof. destruct c, c'. unfold settings. simpl. congruence. Qed.

Section one_thread.
Context {A : Type} (body : threadM A) (t : thread).
Hypothesis Hok : current_ok t.
Hypothesis Hbody : ∀ t, current_ok t → keeps t (body t).1.

(** The recovered or dequeued workflow. *)
Lemma recovery_blocks_spec :
  ∀ user roles wid key, is_blank wid = false → ∃ t1,
     get_local_dbos_context t1 = Some (recovery_ctx executor_id app_id user roles wid key (get_local_dbos_context t)) ∧
     (recovery_blocks user roles wid key body t).2 = (body t1).2 ∧ keeps t (recovery_blocks user roles wid key body t).1.
Proof.
  intros user roles wid key Hb. unfold recovery_blocks. set (inner := SetEnqueueOptions _ _ _ _ _ _ _ _ _).
  assert (∀ t, current_ok t → keeps t (inner t).1 ∧ ∃ t1 l, current_ok t1 ∧ t_current t1 = Some l ∧
    t_objects t1 !! l = Some (with_setting (MkEnqueue None None None key None) (default (new_context executor_id app_id) (get_local_dbos_context t))) ∧
    (inner t).2 = (body t1).2) as Hinner.
  { intros t0 Hok0. destruct (with_settings_spec executor_id app_id (MkEnqueue None None None key None) body t0 Hok0 Hbody)
      as (t1 & l & ? & ? & ? & ? & ?). split; [done|]. by exists t1, l. }
  set (middle := SetWorkflowID _ _ _ _ inner).
  assert (∀ t, current_ok t → keeps t (middle t).1) as Hmiddle.
  { intros t0 Hok0. by destruct (SetWorkflowID_spec executor_id app_id repr wid inner t0 Hok0 (λ t Hok, proj1 (Hinner t Hok)) Hb)
      as (? & ? & _ & _ & _ & _ & ?). }
  destruct (with_settings_spec executor_id app_id (MkAuth user roles) middle t Hok Hmiddle) as (t1 & l1 & Hok1 & Hl1 & Hc1 & Hr1 & Hk).
  destruct (SetWorkflowID_spec executor_id app_id repr wid inner t1 Hok1 (λ t Hok, proj1 (Hinner t Hok)) Hb)
    as (t2 & l2 & Hok2 & Hl2 & Hc2 & Hr2 & _).
  destruct (proj2 (Hinner t2 Hok2)) as (t3 & l3 & _ & Hl3 & Hc3 & Hr3).
  rewrite (get_current t1 l1 _ Hl1 Hc1) in Hc2. rewrite (get_current t2 l2 _ Hl2 Hc2) in Hc3.
  exists t3. split; [|split; [|exact Hk]]; [|etrans; [exact Hr1|]; etrans; [exact Hr2|exact Hr3]]. rewrite (get_current t3 l3 _ Hl3 Hc3). reflexivity.
Qed.

(** A workflow function. *)
Lemma EnterDBOSWorkflow_spec :
  ∀ l c, t_objects t !! l = Some c →
     match enter_workflow c with
     | Ok c' => ∃ t1, get_local_dbos_context t1 = Some c' ∧
         let r := EnterDBOSWorkflow executor_id app_id "" (Some l) body t in
         (cx_workflow_id c' ≠ "" → r.2 = (body t1).2 ∧ t_current r.1 = t_current t)
     | Err e => (EnterDBOSWorkflow executor_id app_id "" (Some l) body t).2 = Err e
     end.
Proof.
  intros l c Hc. unfold enter_workflow. set (t0 := t <| t_current := Some l |>).
  assert (assert_current_dbos_context t0 = (t0, Ok c)) as Ha by (by eapply assert_current).
  destruct (is_within_workflow c) eqn:Hw.
  { unfold EnterDBOSWorkflow, with_. unfold enter_EnterDBOSWorkflow. erewrite bind_Ok by reflexivity.
    erewrite bind_Ok by reflexivity. erewrite bind_Ok by reflexivity. erewrite bind_Ok by exact Ha. by rewrite Hw. }
  set (c' := Context.start_workflow "" None _). set (t1 := t0 <| t_objects := <[l := c']> (t_objects t0) |>).
  assert (t_objects t1 !! l = Some c') as Hc' by (simpl; by rewrite lookup_insert_eq).
  exists t1. split; [by eapply get_current|]. intros Hne.
  assert (∃ s, enter_EnterDBOSWorkflow executor_id app_id "" (Some l) t = (t1, Ok s) ∧ wsc_use_ctx s = l ∧ wsc_prev_ctx s = t_current t)
    as (s & Henter & Hs1 & Hs2).
  { unfold enter_EnterDBOSWorkflow. erewrite bind_Ok by reflexivity. erewrite bind_Ok by reflexivity. erewrite bind_Ok by reflexivity.
    erewrite bind_Ok by exact Ha. rewrite Hw. erewrite bind_Ok by (by apply update_current). by eexists. }
  assert (current_ok t1) as Hok1 by (intros l' [= <-]; by eexists).
  destruct (Hbody t1 Hok1) as [Hcur Hk]. destruct (Hk l c' eq_refl Hc') as (c2 & Hc2 & Hset).
  unfold EnterDBOSWorkflow, with_. rewrite Henter. destruct (body t1) as [t2 r] eqn:Hb. cbn [fst snd] in *.
  assert (t_current t2 = Some l) as Hl2 by (by rewrite Hcur).
  assert (is_within_workflow c2 = true) as Hw2.
  { unfold is_within_workflow. rewrite (settings_workflow_id _ _ Hset). by rewrite bool_decide_eq_false_2 by exact Hne. }
  unfold exit_EnterDBOSWorkflow. erewrite bind_Ok by (by eapply assert_current). erewrite bind_Ok by reflexivity.
  rewrite Hs1, Hw2, bool_decide_eq_true_2 by done. cbn [negb orb]. erewrite bind_Ok by (by apply update_current).
  split; [done|exact Hs2].
Qed.

(** A step. *)
Lemma EnterDBOSStepCtx_spec :
  ∀ l c cur, get_local_dbos_context t = Some cur → t_objects t !! l = Some c →
     let r := EnterDBOSStepCtx l body t in
     if is_workflow cur then ∃ t1, get_local_dbos_context t1 = Some (start_step (cx_function_id c) c) ∧
       (0 ≤ cx_function_id c → r.2 = (body t1).2 ∧ t_current r.1 = t_current t)
     else r.2 = Err (AssertionError "").
Proof.
  intros l c cur Hcur Hc r.
  destruct (t_current t) as [l0|] eqn:Hl0; [|unfold get_local_dbos_context in Hcur; by rewrite Hl0 in Hcur].
  assert (assert_current_dbos_context t = (t, Ok cur)) as Ha by (unfold assert_current_dbos_context; by rewrite Hcur).
  set (t0 := t <| t_current := Some l |>). set (c' := start_step (cx_function_id c) c).
  set (t1 := t0 <| t_objects := <[l := c']> (t_objects t0) |>).
  assert (t_objects t1 !! l = Some c') as Hc' by (simpl; by rewrite lookup_insert_eq).
  destruct (is_workflow cur) eqn:Hw.
  2: { subst r. unfold EnterDBOSStepCtx, with_, enter_EnterDBOSStepCtx. erewrite bind_Ok by exact Ha. by rewrite Hw. }
  exists t1. split; [by eapply get_current|]. intros Hf. subst r.
  assert (enter_EnterDBOSStepCtx l t = (t1, Ok (Some l0))) as Henter.
  { unfold enter_EnterDBOSStepCtx. erewrite bind_Ok by exact Ha. rewrite Hw. cbn [negb]. erewrite bind_Ok by reflexivity.
    erewrite bind_Ok by reflexivity. erewrite bind_Ok by (by apply update_current). unfold mret, SM_ret. by rewrite Hl0. }
  assert (current_ok t1) as Hok1 by (intros l' [= <-]; by eexists).
  destruct (Hbody t1 Hok1) as [Hcur1 Hk]. destruct (Hk l c' eq_refl Hc') as (c2 & Hc2 & Hset).
  unfold EnterDBOSStepCtx, with_. rewrite Henter. destruct (body t1) as [t2 r] eqn:Hb. cbn [fst snd] in *.
  assert (t_current t2 = Some l) as Hl2 by (by rewrite Hcur1).
  assert (is_step c2 = true) as Hs2.
  { unfold is_step. rewrite (settings_step _ _ Hset). by apply bool_decide_eq_true. }
  unfold exit_EnterDBOSStepCtx. erewrite bind_Ok by (by eapply assert_current). rewrite Hs2. cbn [negb].
  by erewrite bind_Ok by (by apply update_current).
Qed.

End one_thread.

(** C31: the blocks make the contexts that executions run in. The pure functions on contexts by which executions, recoveries and
    steps are described elsewhere are what the managers do to the thread: a recovered or dequeued workflow is started
    in [recovery_ctx], its function runs in [enter_workflow] of the context made for it, a step in [start_step] of
    its snapshot; where those refuse, so do the managers; and after the block the caller's context is current again. *)
Theorem blocks_make_contexts {A} (body : threadM A) t :
  current_ok t → (∀ t, current_ok t → keeps t (body t).1) →
  (∀ user roles wid key, is_blank wid = false → ∃ t1,
     get_local_dbos_context t1 = Some (recovery_ctx executor_id app_id user roles wid key (get_local_dbos_context t)) ∧
     (recovery_blocks user roles wid key body t).2 = (body t1).2 ∧ keeps t (recovery_blocks user roles wid key body t).1) ∧
  (∀ l c, t_objects t !! l = Some c →
     match enter_workflow c with
     | Ok c' => ∃ t1, get_local_dbos_context t1 = Some c' ∧
         let r := EnterDBOSWorkflow executor_id app_id "" (Some l) body t in
         (cx_workflow_id c' ≠ "" → r.2 = (body t1).2 ∧ t_current r.1 = t_current t)
     | Err e => (EnterDBOSWorkflow executor_id app_id "" (Some l) body t).2 = Err e
     end) ∧
  (∀ l c cur, get_local_dbos_context t = Some cur → t_objects t !! l = Some c →
     let r := EnterDBOSStepCtx l body t in
     if is_workflow cur then ∃ t1, get_local_dbos_context t1 = Some (start_step (cx_function_id c) c) ∧
       (0 ≤ cx_function_id c → r.2 = (body t1).2 ∧ t_current r.1 = t_current t)
     else r.2 = Err (AssertionError "")).
Proof.
  intros Hok Hbody. split; [by apply recovery_blocks_spec|]. split; [by apply EnterDBOSWorkflow_spec|by apply EnterDBOSStepCtx_spec].
Qed.
End contexts.

(** But the ID of a [SetWorkflowID] block outlives it. When nothing has been started in the block, the next workflow the thread
    starts after it gets the ID, in another block or in none; and a block within a block takes both the ID and the mark from the
    outer one. *)
Lemma workflow_id_outlives_block repr :
  let t := Thread {[1%positive := new_context "exec" "app"]} (Some 1%positive) in
  let block {A} wfid (body : threadM A) := SetWorkflowID "exec" "app" repr wfid body in
  (∃ t', block "x" (mret tt) t = (t', Ok tt) ∧
     ∃ ctx child, create_start_workflow_child "exec" "app" "generated" (get_local_dbos_context t') = Ok (ctx, child) ∧
       cx_id_assigned_for_next_workflow child = "x") ∧
  (∃ t' ctx, block "x" (_ ← block "y" (mret tt); gets get_local_dbos_context) t = (t', Ok (Some ctx)) ∧
     cx_id_assigned_for_next_workflow ctx = "y" ∧ cx_is_within_set_workflow_id_block ctx = false).
Proof.
  split.
  - eexists. split; [vm_compute; reflexivity|]. eexists _, _. split; vm_compute; reflexivity.
  - eexists _, _. split; [vm_compute; reflexivity|]. split; reflexivity.
Qed.

(** ** The properties at concrete inputs *)

Definition sample_thread : thread := Thread {[1%positive := new_context "exec" "app"]} (Some 1%positive).

Lemma sample_thread_ok : current_ok sample_thread.
Proof. intros l [= <-]. by eexists. Qed.

Lemma nested_blocks_restore_witness :
  let blocks := [BAuth (Some "alice") (Some ["admin"]); BTimeout (Some 5%Q); BRole (Some "admin")] in
  let m := @in_blocks sample_codecs "exec" "app" (λ _, "") _ blocks (raise (A:=unit) (DBOSException "in the block")) in
  keeps sample_thread (m sample_thread).1 ∧ (m sample_thread).2 = Err (DBOSException "in the block").
Proof.
  intros blocks m.
  destruct (@nested_blocks_restore sample_codecs "exec" "app" (λ _, "") unit blocks (raise (DBOSException "in the block"))
    sample_thread sample_thread_ok (λ t Hok, keeps_refl t Hok)) as [Hk Hr].
  split; [exact Hk|]. destruct Hr as (t1 & _ & Hr); [|left; by eexists|exact Hr].
  intros b Hb. subst blocks. rewrite !elem_of_cons, elem_of_nil in Hb. destruct Hb as [->|[->|[->|[]]]]; vm_compute; exact I || reflexivity.
Defined.

(** A thread in a workflow, with a context made for another and a snapshot of its own. *)
Definition workflow_context (id : string) : DBOSContext := (new_context "exec" "app") <| cx_workflow_id := id |>.
Definition made_context (id : string) : DBOSContext := (new_context "exec" "app") <| cx_id_assigned_for_next_workflow := id |>.
Definition snapshot_context (fid : Z) : DBOSContext := (workflow_context "p") <| cx_function_id := fid |>.

Definition nested_thread : thread :=
  Thread (<[1%positive := workflow_context "p"]> (<[2%positive := made_context "w"]> {[3%positive := snapshot_context 7]}))
    (Some 1%positive).

(** The bodies of the three blocks say which context they run in. *)
Lemma blocks_make_contexts_witness :
  let body := gets get_local_dbos_context in
  let recovered := recovery_blocks "exec" "app" (λ s, s) (Some "alice") None "v" (Some "k") body nested_thread in
  let entered := EnterDBOSWorkflow "exec" "app" "" (Some 2%positive) body nested_thread in
  let stepped := EnterDBOSStepCtx 3%positive body nested_thread in
  (recovered.2 = Ok (Some (recovery_ctx "exec" "app" (Some "alice") None "v" (Some "k") (Some (workflow_context "p")))) ∧
   keeps nested_thread recovered.1) ∧
  (∃ c, enter_workflow (made_context "w") = Ok c ∧ cx_workflow_id c = "w" ∧ entered.2 = Ok (Some c) ∧
   t_current entered.1 = Some 1%positive) ∧
  (stepped.2 = Ok (Some (start_step 7 (snapshot_context 7))) ∧ t_current stepped.1 = Some 1%positive).
Proof.
  assert (current_ok nested_thread) as Hok by (intros l [= <-]; by eexists).
  destruct (blocks_make_contexts "exec" "app" (λ s, s) (gets get_local_dbos_context) nested_thread Hok (λ t Hok, keeps_refl t Hok))
    as (Hrecover & Henter & Hstep).
  intros body recovered entered stepped. split_and!.
  - destruct (Hrecover (Some "alice") None "v" (Some "k") eq_refl) as (t1 & Ht1 & Hr & _).
    etrans; [exact Hr|]. exact (f_equal Ok Ht1).
  - destruct (Hrecover (Some "alice") None "v" (Some "k") eq_refl) as (t1 & _ & _ & Hk). exact Hk.
  - destruct (Henter 2%positive (made_context "w") eq_refl) as (t1 & Ht1 & Hr).
    destruct Hr as [Hr Hcur]; [discriminate|]. eexists. split; [reflexivity|]. split; [reflexivity|].
    split; [etrans; [exact Hr|]; exact (f_equal Ok Ht1)|exact Hcur].
  - destruct (Hstep 3%positive (snapshot_context 7) (workflow_context "p") eq_refl eq_refl) as (t1 & Ht1 & Hr).
    destruct Hr as [Hr _]; [vm_compute; discriminate|]. etrans; [exact Hr|]. exact (f_equal Ok Ht1).
  - destruct (Hstep 3%positive (snapshot_context 7) (workflow_context "p") eq_refl eq_refl) as (t1 & _ & Hr).
    destruct Hr as [_ Hcur]; [vm_compute; discriminate|exact Hcur].
Defined.
