(* ===== verification/System.v ===== *)
(** * The system: every operation as a step of the workflow lifecycle

    An [action] is a call of one of the operations that write the database, with its
    arguments; [run] makes the call. [change] lists the statements the operations are
    made of, each under its [kind]: what may happen to a row of [workflow_status]
    is the lifecycle [row_step], and the other tables only grow, except where a workflow is
    deleted with all that belongs to it. That every action is a sequence of changes of its
    kinds ([actions_refine_changes]) carries the invariants over every history. *)
From S2P Require Import Prelude Errors Schema Retry Serialization Workflows Context Steps Events Forks Messages Queues Collection Streams Exports Schedules.

(** ** The abstract system *)

Inductive kind :=
| Submit      (* a workflow is inserted *)
| Touch       (* bookkeeping of a row: its status and outcome stay *)
| Start       (* ENQUEUED to PENDING *)
| Requeue     (* PENDING to ENQUEUED *)
| Release     (* DELAYED to ENQUEUED *)
| Park        (* PENDING to MAX_RECOVERY_ATTEMPTS_EXCEEDED *)
| Complete    (* to SUCCESS or ERROR *)
| Cancel      (* to CANCELLED *)
| Resume      (* to ENQUEUED again *)
| Delete      (* workflows are deleted *)
| Checkpoint  (* checkpoints and the history of events and streams grow *)
| Publish     (* an event is set, or set again *)
| Message     (* messages are sent or consumed *)
| Configure.  (* queues, schedules and versions are configured *)

#[export] Instance kind_eq_dec : EqDecision kind.
Proof. solve_decision. Defined.

(** The transitions of a status. *)
Definition status_step (k : kind) (s s' : WorkflowStatusString) : Prop :=
  match k with
  | Touch => s' = s
  | Start => s = ENQUEUED ∧ s' = PENDING
  | Requeue => s = PENDING ∧ s' = ENQUEUED
  | Release => s = DELAYED ∧ s' = ENQUEUED
  | Park => s = PENDING ∧ s' = MAX_RECOVERY_ATTEMPTS_EXCEEDED
  | Complete => s ≠ CANCELLED ∧ s' ∈ [SUCCESS; ERROR]
  | Cancel => s ∉ [SUCCESS; ERROR] ∧ s' = CANCELLED
  | Resume => s ∉ [SUCCESS; ERROR] ∧ s' = ENQUEUED
  | _ => False
  end.

(** The transitions of a row. Its deduplication ID is kept with its queue, or released. *)
Definition row_step (k : kind) (r r' : workflow_status_row) : Prop :=
  status_step k (ws_status r) (ws_status r') ∧ same_identity r r' ∧
  (ws_deduplication_id r' = None ∨
   (ws_queue_name r' = ws_queue_name r ∧ ws_deduplication_id r' = ws_deduplication_id r)) ∧
  (k ≠ Complete → ws_output r' = ws_output r ∧ ws_error r' = ws_error r) ∧
  (k ∉ [Complete; Cancel; Resume] → ws_completed_at r' = ws_completed_at r).

(** A table grows: its rows stay, the new ones belong to workflows that are there. *)
Definition grows `{Countable K} {R} (ws : gmap string workflow_status_row) (owner : K → R → string)
    (t t' : gmap K R) : Prop :=
  (∀ k r, t !! k = Some r → t' !! k = Some r) ∧
  (∀ k r, t' !! k = Some r → t !! k = Some r ∨ is_Some (ws !! owner k r)).

(** A table is written to: its keys stay, the new rows belong to workflows that are there. *)
Definition published `{Countable K} {R} (ws : gmap string workflow_status_row) (owner : K → string)
    (t t' : gmap K R) : Prop :=
  (∀ k, is_Some (t !! k) → is_Some (t' !! k)) ∧
  (∀ k r, t' !! k = Some r → t !! k = Some r ∨ is_Some (ws !! owner k)).

(** A message is there, and at most consumed. *)
Definition message_kept (r r' : notifications_row) : Prop :=
  r' = r ∨ r' = r <| no_consumed := true |>.

Inductive change : kind → db → db → Prop :=
| change_rows k p f d :
    (∀ id r, workflow_status d !! id = Some r → p id r = true → row_step k r (f r)) →
    change k d (d <| workflow_status := sql_update p f (workflow_status d) |>)
| change_submit id r d d' : insert_workflow_row id r d = Ok (d', tt) → change Submit d d'
| change_delete p d : change Delete d (delete_workflow_rows p d)
| change_operations t d :
    grows (workflow_status d) (λ k _, k.1) (operation_outputs d) t →
    change Checkpoint d (d <| operation_outputs := t |>)
| change_history t d :
    grows (workflow_status d) (λ k _, k.1.1) (workflow_events_history d) t →
    change Checkpoint d (d <| workflow_events_history := t |>)
| change_events t d :
    grows (workflow_status d) (λ k _, k.1) (workflow_events d) t →
    change Checkpoint d (d <| workflow_events := t |>)
| change_streams t d :
    grows (workflow_status d) (λ k _, k.1.1) (streams d) t →
    change Checkpoint d (d <| streams := t |>)
| change_published t d :
    published (workflow_status d) (λ k, k.1) (workflow_events d) t →
    change Publish d (d <| workflow_events := t |>)
| change_published_history t d :
    published (workflow_status d) (λ k, k.1.1) (workflow_events_history d) t →
    change Publish d (d <| workflow_events_history := t |>)
| change_messages t d :
    (∀ k r, notifications d !! k = Some r → ∃ r', t !! k = Some r' ∧ message_kept r r') →
    (∀ k r, t !! k = Some r → is_Some (workflow_status d !! no_destination_uuid r) ∨
       ∃ r0, notifications d !! k = Some r0 ∧ message_kept r0 r) →
    change Message d (d <| notifications := t |>)
| change_queues t d : change Configure d (d <| queues := t |>)
| change_schedules t d : change Configure d (d <| workflow_schedules := t |>)
| change_versions t d : change Configure d (d <| application_versions := t |>).

(** A sequence of changes of the kinds [ks]. *)
Definition changes (ks : list kind) : relation db := rtc (λ d d', ∃ k, k ∈ ks ∧ change k d d').

(** ** The actions *)

Section actions.
Context `{Codecs} (serializer : Serializer) `{Cron}.

Inductive action :=
| AInit (now : Z) (status : WorkflowStatusInternal) (max_recovery_attempts : option Z) (owner_xid : option string)
    (is_recovery_request is_dequeued_request : bool)
| AOutcome (now : Z) (workflow_id : string) (success : bool) (output error : option string)
| ACancel (now : Z) (workflow_ids : list string) (cancel_children : bool)
| AResume (now : Z) (workflow_ids : list string) (queue_name : option string)
| ADelay (now time_ms : Z) (workflow_id : string) (delay_seconds delay_until_epoch_ms : option Z)
| ADebounce (now : Z) (workflow_name queue_name deduplication_id : string) (delay_until_epoch_ms : Z)
    (inputs : string) (serialization : option string)
| AAttributes (now : Z) (workflow_id : string) (attributes : option pyval)
| ADelete (workflow_ids : list string)
| ARecord (executor_id : option string) (completed_ms : Z) (result : OperationResultInternal)
| AGetResult (result_workflow_id : string) (output error serialization : option string) (ctx : option DBOSContext)
| AChild (parent child : string) (function_id : Z) (function_name : string)
| ASleep (executor_id : option string) (start_time time_ms completed_ms time_ms' : Z) (workflow_uuid : string)
    (function_id ms : Z)
| APatch (executor_id : option string) (start_time completed_ms : Z) (workflow_id : string) (function_id : Z)
    (patch_name : string)
| AFork (now : Z) (originals forks : list string) (start_steps : list Z)
    (application_version queue_name queue_partition_key : option string)
    (replacement_children : list (string * string))
| AForkFromFailure (now : Z) (forks workflow_ids : list string)
    (application_version queue_name queue_partition_key : option string) (from_last_failure from_last_step : bool)
    (from_step : option Z) (from_step_name : option string)
| ASend (executor_id : option string) (created : Z) (uuids : nat → string) (start_time completed_ms : Z)
    (messages : list SendMessage) (serialization_type : option WorkflowSerializationFormat)
    (workflow : option (string * Z)) (function_name : string) (send_to_forks : bool)
| AReceive (executor_id : option string) (completed_ms : Z) (workflow_uuid : string) (function_id : Z)
    (topic : option string) (start_time : Z)
| ASetEvent (executor_id : option string) (start_time completed_ms : Z) (workflow_uuid : string) (function_id : Z)
    (key : string) (message : pyval) (serialization_type : option WorkflowSerializationFormat)
| ASetEventFromStep (workflow_uuid : string) (function_id : Z) (key : string) (message : pyval)
    (serialization_type : option WorkflowSerializationFormat)
| AGetEvent (executor_id : option string) (completed_ms : Z) (target_uuid key : string) (start_time : Z)
    (caller_ctx : option GetEventWorkflowContext)
| AWriteStream (executor_id : option string) (fuel : nat) (start_time completed_ms : Z) (workflow_uuid : string)
    (function_id : Z) (key : string) (value : pyval) (serialization_type : option WorkflowSerializationFormat)
| AWriteStreamFromStep (fuel : nat) (workflow_uuid : string) (function_id : Z) (key : string) (value : pyval)
    (serialization_type : option WorkflowSerializationFormat)
| AImport (workflows : list ExportedWorkflow)
| ACollect (cutoff rows_threshold batch_size : option Z)
| ADispatch (now start_time_ms : Z) (queue : Queue) (executor_id app_version : string)
    (queue_partition_key : option string) (local_running_count : Z) (locked : gset string)
| AClearAssignment (workflow_id : string)
| ATransitionDelayed (time_ms : Z)
| AUpsertQueue (time_ms now : Z) (name : string) (row : queues_row) (update_existing : bool)
| AUpdateQueue (time_ms : Z) (name : string) (fields : list queue_field)
| ADeleteQueue (name : string)
| ACreateSchedule (schedule : string * workflow_schedules_row)
| AUpsertSchedule (schedule : string * workflow_schedules_row)
| ASetScheduleStatus (name status : string)
| AFired (name last_fired_at : string)
| ADeleteSchedule (name : string)
| ACreateVersion (now : Z) (version_id version_name : string)
| AUpdateVersion (version_name : string) (new_timestamp : Z)
| AFire (db_now : Z) (th : ScheduleThread) (next_exec_time : Z)
| ATrigger (now db_now : Z) (schedule_name : string).

(** The database after a call that may not end: a write to a stream that goes on for ever
    leaves it as it was, and the fuel of a garbage collection is enough. *)
Definition after {A} (d : db) (o : option (db * A)) : db := default d (fst <$> o).

(** The database after the call, whether it returned or raised. The races for a place in a
    stream are lost to other actions of the history. *)
Definition run (a : action) (d : db) : db :=
  match a with
  | AInit now status m xid b1 b2 => (init_workflow now status m xid b1 b2 d).1
  | AOutcome now id ok o e => (update_workflow_outcome now id (if ok then SUCCESS else ERROR) o e d).1
  | ACancel now ids c => default d (cancel_workflows now ids c d)
  | AResume now ids q => (resume_workflows now ids q d).1
  | ADelay now t id s u => (set_workflow_delay now t id s u d).1
  | ADebounce now n q i t inp ser => (engine_begin (debounce_delayed_workflow now n q i t inp ser) d).1
  | AAttributes now id a => (update_workflow_attributes now id a d).1
  | ADelete ids => (delete_workflows ids d).1
  | ARecord e t r => (record_operation_result e t r d).1
  | AGetResult w o e s ctx => (record_get_result w o e s ctx d).1
  | AChild p c f n => (record_child_workflow p c f n d).1
  | ASleep e t0 t1 t2 t3 w f ms => (record_sleep e serializer t0 t1 t2 t3 w f ms d).1
  | APatch e t0 t1 w f n => (patch e t0 t1 w f n d).1
  | AFork now os fs ss app q part repl => (fork_workflow now os fs ss app q part repl d).1
  | AForkFromFailure now fs ws app q part b1 b2 st nm => (fork_from_failure now fs ws app q part b1 b2 st nm d).1
  | ASend e cr us t0 t1 ms ty wf fn tf => (send_bulk e serializer cr us t0 t1 ms ty wf fn tf d).1
  | AReceive e t w f tp t0 => (recv_consume e serializer t w f tp t0 d).1
  | ASetEvent e t0 t1 w f k v ty => (set_event_from_workflow e serializer t0 t1 w f k v ty d).1
  | ASetEventFromStep w f k v ty => (set_event_from_step serializer w f k v ty d).1
  | AGetEvent e t1 w k t0 ctx => (get_event_consume e serializer t1 w k t0 ctx d).1
  | AWriteStream e fuel t0 t1 w f k v ty => after d (write_stream_from_workflow e serializer fuel [] t0 t1 w f k v ty d)
  | AWriteStreamFromStep fuel w f k v ty => after d (write_stream_from_step serializer fuel [] w f k v ty d)
  | AImport xs => (import_workflow xs d).1
  | ACollect c n b => after d (sys_garbage_collect (S (size (workflow_status d))) c n b d)
  | ADispatch now t q e v key n l => (start_queued_workflows now t q e v key n l d).1
  | AClearAssignment id => (clear_queue_assignment id d).1
  | ATransitionDelayed t => (transition_delayed_workflows t d).1
  | AUpsertQueue t now n r u => (upsert_queue t now n r u d).1
  | AUpdateQueue t n fs => (update_queue t n fs d).1
  | ADeleteQueue n => (delete_queue n d).1
  | ACreateSchedule s => (engine_begin (create_schedule s) d).1
  | AUpsertSchedule s => (engine_begin (upsert_schedule s) d).1
  | ASetScheduleStatus n s => (engine_begin (set_schedule_status n s) d).1
  | AFired n t => (update_last_fired_at n t d).1
  | ADeleteSchedule n => (engine_begin (delete_schedule n) d).1
  | ACreateVersion now id n => (create_application_version now id n d).1
  | AUpdateVersion n t => (update_application_version_timestamp n t d).1
  | AFire now th t => (fire serializer now th t d).1
  | ATrigger now db_now n => (trigger_schedule serializer now db_now n d).1
  end.

Definition action_kinds (a : action) : list kind :=
  match a with
  | AInit _ _ _ _ _ _ => [Submit; Touch; Park]
  | AOutcome _ _ _ _ _ => [Complete]
  | ACancel _ _ _ => [Cancel]
  | AResume _ _ _ => [Resume]
  | ADelay _ _ _ _ _ | ADebounce _ _ _ _ _ _ _ | AAttributes _ _ _ => [Touch]
  | ADelete _ => [Delete]
  | ARecord _ _ _ | AGetResult _ _ _ _ _ | AChild _ _ _ _ | ASleep _ _ _ _ _ _ _ _ | APatch _ _ _ _ _ _ =>
      [Touch; Checkpoint]
  | AFork _ _ _ _ _ _ _ _ | AForkFromFailure _ _ _ _ _ _ _ _ _ _ => [Submit; Touch; Checkpoint]
  | ASend _ _ _ _ _ _ _ _ _ _ | AReceive _ _ _ _ _ _ => [Message; Touch; Checkpoint]
  | ASetEvent _ _ _ _ _ _ _ _ => [Publish; Touch; Checkpoint]
  | ASetEventFromStep _ _ _ _ _ => [Publish]
  | AGetEvent _ _ _ _ _ _ | AWriteStream _ _ _ _ _ _ _ _ _ => [Touch; Checkpoint]
  | AWriteStreamFromStep _ _ _ _ _ _ => [Checkpoint]
  | AImport _ => [Submit; Checkpoint]
  | ACollect _ _ _ => [Delete]
  | ADispatch _ _ _ _ _ _ _ _ => [Start]
  | AClearAssignment _ => [Requeue]
  | ATransitionDelayed _ => [Release]
  | AUpsertQueue _ _ _ _ _ | AUpdateQueue _ _ _ | ADeleteQueue _ | ACreateSchedule _ | AUpsertSchedule _
  | ASetScheduleStatus _ _ | AFired _ _ | ADeleteSchedule _ | ACreateVersion _ _ _ | AUpdateVersion _ _ => [Configure]
  | AFire _ _ _ => [Submit; Touch; Park; Configure]
  | ATrigger _ _ _ => [Submit; Touch; Park]
  end.

(** The database after a history of calls. *)
Definition run_all (l : list action) (d : db) : db := foldl (λ d a, run a d) d l.

(** No action of the history makes a change of the kind [k]. *)
Definition without (k : kind) (l : list action) : Prop := Forall (λ a, k ∉ action_kinds a) l.

End actions.

(** ** Lemmas: the operations are sequences of changes *)

#[export] Instance changes_preorder ks : PreOrder (changes ks).
Proof. unfold changes. apply _. Qed.

Lemma changes_one ks k d d' : k ∈ ks → change k d d' → changes ks d d'.
Proof. intros Hk Hc. apply rtc_once. eauto. Qed.

Lemma changes_rows ks k p f d :
  k ∈ ks → (∀ id r, workflow_status d !! id = Some r → p id r = true → row_step k r (f r)) →
  changes ks d (d <| workflow_status := sql_update p f (workflow_status d) |>).
Proof. intros Hk Hf. by eapply changes_one, change_rows. Qed.

Lemma grows_insert `{Countable K} {R} ws (owner : K → R → string) (t : gmap K R) k r :
  t !! k = None → is_Some (ws !! owner k r) → grows ws owner t (<[k := r]> t).
Proof.
  intros Hk Hw. split.
  - intros k' r' Hk'. rewrite lookup_insert_ne; [done|congruence].
  - intros k' r' [[<- <-]|[_ Hk']]%lookup_insert_Some; auto.
Qed.

Lemma grows_insert_all `{Countable K} {R} ws (owner : K → R → string) (l : list (K * R)) t t' :
  sql_insert_all l t = Some t' → (∀ k r, (k, r) ∈ l → is_Some (ws !! owner k r)) → grows ws owner t t'.
Proof.
  intros (_ & Hin & Hout & Hkeep)%sql_insert_all_Some Hw. split.
  - intros k r Hk. rewrite Hkeep; eauto.
  - intros k r Hk. destruct (decide (k ∈ l.*1)) as [Hl|Hl]; [|left; by rewrite <- Hout].
    right. apply list_elem_of_fmap in Hl as ([k' r'] & -> & Hl). simpl in *.
    destruct (Hin _ _ Hl) as [_ Hr']. rewrite Hk in Hr'. simplify_eq. auto.
Qed.

Lemma published_insert `{Countable K} {R} ws (owner : K → string) (t : gmap K R) k r :
  is_Some (ws !! owner k) → published ws owner t (<[k := r]> t).
Proof.
  intros Hw. split.
  - intros k' Hk'. destruct (decide (k = k')) as [<-|]; [by rewrite lookup_insert_eq|by rewrite lookup_insert_ne].
  - intros k' r' [[<- <-]|[_ Hk']]%lookup_insert_Some; auto.
Qed.

(** Close the side condition of [changes_rows] for a concrete assignment. *)
Ltac row_step_tac :=
  intros; repeat match goal with
                 | H : _ && _ = true |- _ => apply andb_true_iff in H as [? ?]
                 | H : bool_decide _ = true |- _ => apply bool_decide_eq_true in H
                 | H : not_complete _ = true |- _ => apply not_complete_true in H
                 | H : negb (bool_decide _) = true |- _ => apply negb_true_iff, bool_decide_eq_false in H
                 end;
  unfold row_step, same_identity; simpl;
  rewrite ?not_elem_of_cons, ?elem_of_cons, ?elem_of_nil; split_and!; try tauto; try congruence; intros; try done; tauto.

Section operations.
Context (ks : list kind).

Lemma changes_touch p (f : workflow_status_row → workflow_status_row) d :
  Touch ∈ ks → (∀ r, row_step Touch r (f r)) →
  changes ks d (d <| workflow_status := sql_update p f (workflow_status d) |>).
Proof. intros Hk Hf. apply (changes_rows ks Touch); auto. Qed.

Lemma changes_insert_operation k r d d' a :
  Checkpoint ∈ ks → insert_operation_row k r d = Ok (d', a) → changes ks d d'.
Proof.
  intros Hk (Hfree & Hw & ->)%insert_operation_row_Ok.
  apply (changes_one _ Checkpoint); [done|]. by apply change_operations, grows_insert.
Qed.

Lemma changes_init now status m xid b1 b2 :
  Submit ∈ ks → Touch ∈ ks → Park ∈ ks → moves (changes ks) (init_workflow now status m xid b1 b2).
Proof.
  intros Hs Ht Hp. move_begin. apply moves_insert_workflow_status; [apply _| |].
  - intros d d' row Hup. unfold upsert_workflow_row in Hup.
    destruct (workflow_status d !! wi_workflow_uuid status) as [r0|] eqn:Hr0.
    + injection Hup as <- _.
      rewrite <- (sql_update_unique (λ id _, bool_decide (id = wi_workflow_uuid status))
                    (existing_row now status (b1 || b2)) _ (wi_workflow_uuid status) r0 Hr0).
      * apply changes_touch; [done|]. intros r. unfold existing_row.
        destruct (is_enqueued_status (ws_status r)), (is_enqueued_status (wi_status status)); row_step_tac.
      * by apply bool_decide_eq_true.
      * intros k r' _. apply bool_decide_eq_true.
    + destruct (insert_workflow_row _ _ _) as [[d0 []]|] eqn:Hins; [|done]. injection Hup as <- _.
      apply (changes_one _ Submit); [done|]. by eapply change_submit.
  - intros d. apply (changes_rows ks Park); [done|]. row_step_tac.
Qed.

Lemma changes_executor executor_id p d :
  Touch ∈ ks →
  changes ks d (d <| workflow_status := sql_update p (λ r, r <| ws_executor_id := executor_id |>) (workflow_status d) |>).
Proof. intros Ht. apply changes_touch; [done|]. row_step_tac. Qed.

Lemma changes_record_txn executor_id result t :
  Touch ∈ ks → Checkpoint ∈ ks → moves (conn_rel (changes ks)) (record_operation_result_txn executor_id result t).
Proof.
  intros Ht Hc. apply moves_record_operation_result_txn; [apply _| |].
  - intros p d. by apply changes_executor.
  - intros k r d d' a. by apply changes_insert_operation.
Qed.

Lemma changes_message t d :
  Message ∈ ks →
  (∀ k r, notifications d !! k = Some r → ∃ r', t !! k = Some r' ∧ message_kept r r') →
  (∀ k r, t !! k = Some r → is_Some (workflow_status d !! no_destination_uuid r) ∨
     ∃ r0, notifications d !! k = Some r0 ∧ message_kept r0 r) →
  changes ks d (d <| notifications := t |>).
Proof. intros Hm H1 H2. apply (changes_one _ Message); [done|]. by apply change_messages. Qed.

Lemma changes_insert_notifications rows d d' :
  Message ∈ ks → insert_notifications rows d = Ok (d', tt) → changes ks d d'.
Proof.
  intros Hm. revert d. induction rows as [|[k r] rows IH]; intros d; cbn [insert_notifications]; [by intros [= <-]|].
  destruct (insert_notification_nothing (k, r) d) as [[d1 []]|] eqn:Hi; [|done]. intros Hrest.
  etrans; [|by apply IH]. clear IH Hrest. unfold insert_notification_nothing in Hi. simpl in Hi.
  destruct (notifications d !! k) eqn:Hk; [by injection Hi as <-|].
  destruct (workflow_exists d (no_destination_uuid r)) eqn:Hw; [|done]. injection Hi as <-.
  apply changes_message; [done| |].
  - intros k' r' Hk'. exists r'. rewrite lookup_insert_ne by congruence. split; [done|by left].
  - intros k' r' [[<- <-]|[_ Hk']]%lookup_insert_Some; [left; by apply workflow_exists_is_Some|].
    right. exists r'. split; [done|by left].
Qed.

Lemma changes_consume wid topic :
  Message ∈ ks → moves (conn_rel (changes ks)) (consume_oldest wid topic).
Proof.
  intros Hm c d0 Hc Hd. unfold consume_oldest.
  pose proof (oldest_message_spec wid topic (current c)) as Hold.
  destruct (oldest_message wid topic (current c)) as [[id r]|]; [|done]. destruct Hold as (Hr & _). simpl.
  split; [done|]. etrans; [exact Hd|]. apply changes_message; [done| |].
  - intros k r' Hk. destruct (decide (id = k)) as [<-|Hne].
    + rewrite lookup_insert_eq. eexists. split; [done|]. right. congruence.
    + rewrite lookup_insert_ne by done. exists r'. split; [done|by left].
  - intros k r' [[<- <-]|[_ Hk]]%lookup_insert_Some; right; [exists r|exists r']; (split; [done|]); [by right|by left].
Qed.

Lemma changes_send `{Codecs} executor_id serializer created uuids st ct msgs ty wf fn (tf : bool) :
  Message ∈ ks → Touch ∈ ks → Checkpoint ∈ ks →
  moves (changes ks) (send_bulk executor_id serializer created uuids st ct msgs ty wf fn tf).
Proof.
  intros Hm Ht Hc. move_begin. unfold send_bulk_txn. destruct (negb _); [auto with moves|]. move_next. intros prepared.
  apply moves_bind; [apply _| |].
  { destruct wf as [[wid fid]|]; [apply moves_check_operation_execution_txn; apply _|auto with moves]. }
  intros [r|]; [auto with moves|]. move_next. intros forks. apply moves_bind; [apply _| |].
  - apply moves_try; [apply _| |].
    + apply moves_execute_res; [apply _|]. intros d d' [] Hi. by eapply changes_insert_notifications.
    + intros [] k; try done. intros [= <-]. auto with moves.
  - intros _. destruct wf as [[wid fid]|]; [by apply changes_record_txn|auto with moves].
Qed.

Lemma changes_receive `{Codecs} executor_id serializer ct wid fid topic st :
  Message ∈ ks → Touch ∈ ks → Checkpoint ∈ ks →
  moves (changes ks) (recv_consume executor_id serializer ct wid fid topic st).
Proof.
  intros Hm Ht Hc. unfold recv_consume. cbv zeta. move_begin. move_next. intros [r|]; [auto with moves|].
  apply moves_bind; [apply _|by apply changes_consume|]. intros row.
  apply moves_bind; [apply _| |].
  { destruct row; [|auto with moves]. move_next. auto with moves. }
  intros [v n]. move_next. intros [x n']. apply moves_bind; [apply _|by apply changes_record_txn|]. auto with moves.
Qed.

Lemma changes_upsert_event wid fid key x n :
  Publish ∈ ks → moves (conn_rel (changes ks)) (upsert_event wid fid key x n).
Proof.
  intros Hp. apply moves_bind; [apply _|apply moves_execute_res; [apply _|]|intros _; apply moves_execute_res; [apply _|]];
    intros d d' [].
  - unfold upsert_event_row. cbn [fst]. destruct (workflow_exists d wid) eqn:Hw; [|done]. intros [= <-].
    apply (changes_one _ Publish); [done|]. apply change_published. rewrite sql_upsert_const.
    by apply published_insert, workflow_exists_is_Some.
  - unfold upsert_event_history_row. cbn [fst]. destruct (workflow_exists d wid) eqn:Hw; [|done]. intros [= <-].
    apply (changes_one _ Publish); [done|]. apply change_published_history. rewrite sql_upsert_const.
    by apply published_insert, workflow_exists_is_Some.
Qed.

Lemma changes_checkpointed executor_id wid fid name body st ct :
  Touch ∈ ks → Checkpoint ∈ ks → moves (conn_rel (changes ks)) body →
  moves (conn_rel (changes ks)) (checkpointed_write executor_id wid fid name body st ct).
Proof.
  intros Ht Hc Hb. apply moves_bind; [apply _|apply moves_check_operation_execution_txn; apply _|]. intros [r|]; [auto with moves|].
  apply moves_bind; [apply _|exact Hb|]. intros []; [|auto with moves].
  apply moves_bind; [apply _|by apply changes_record_txn|auto with moves].
Qed.

Lemma changes_stream_insert wid fid key x n :
  Checkpoint ∈ ks → moves (conn_rel (changes ks)) (execute_res (stream_insert id wid fid key x n)).
Proof.
  intros Hc. apply moves_execute_res; [apply _|]. intros d d' [] Hi. unfold stream_insert, id in Hi.
  apply insert_stream_row_Ok in Hi as (Hn & Hw & ->). apply (changes_one _ Checkpoint); [done|].
  by apply change_streams, grows_insert.
Qed.

Lemma moves_try_integrity {S} (Q : relation S) `{!PreOrder Q} (m : SM S pyexn unit) : moves Q m → moves Q (try_integrity m).
Proof.
  intros Hm. apply moves_try; [apply _|apply moves_bind; [apply _|done|auto with moves]|].
  intros e k. destruct (is_IntegrityError e); [|done]. intros [= <-]. auto with moves.
Qed.

Lemma changes_attempts fuel attempt d :
  moves (changes ks) (attempt id) → (∀ d d', attempt id d = (d', Ok false) → d' = d) →
  changes ks d (after d (write_attempts fuel [] attempt d)).
Proof.
  intros Hm Hlost. induction fuel as [|fuel IH]; [reflexivity|]. simpl. specialize (Hm d).
  destruct (attempt id d) as [d' [[]|e]] eqn:Ha; [done| |done]. apply Hlost in Ha as ->. apply IH.
Qed.

Lemma changes_import_rows `{ChildTableLaws K R} (l : list (K * R)) :
  (∀ t d, grows (workflow_status d) (λ k _, child_owner k) (child_rows d) t → change Checkpoint d (set_child_rows t d)) →
  Checkpoint ∈ ks → moves (conn_rel (changes ks)) (import_rows l).
Proof.
  intros Hchange Hc. apply moves_for_each; [apply _|]. intros [k r]. apply moves_execute_res; [apply _|].
  intros d d' []. unfold insert_child. cbn [fst snd]. destruct (child_rows d !! k) eqn:Hk; [done|].
  destruct (workflow_exists d (child_owner k)) eqn:Hw; [|done]. intros [= <-].
  apply (changes_one _ Checkpoint); [done|]. apply Hchange, grows_insert; [done|]. by apply workflow_exists_is_Some.
Qed.

Lemma changes_import xs : Submit ∈ ks → Checkpoint ∈ ks → moves (changes ks) (import_workflow xs).
Proof.
  intros Hs Hc. move_begin. apply moves_for_each; [apply _|]. intros x. unfold import_one.
  apply moves_bind; [apply _| |intros _].
  { apply moves_execute_res; [apply _|]. intros d d' [] Hi. apply (changes_one _ Submit); [done|]. by eapply change_submit. }
  apply moves_bind; [apply _|apply changes_import_rows; [apply change_operations|done]|intros _].
  apply moves_bind; [apply _|apply changes_import_rows; [apply change_events|done]|intros _].
  apply moves_bind; [apply _|apply changes_import_rows; [apply change_history|done]|intros _].
  apply changes_import_rows; [apply change_streams|done].
Qed.

Lemma changes_collect fuel cutoff n b d : Delete ∈ ks → changes ks d (after d (sys_garbage_collect fuel cutoff n b d)).
Proof.
  intros Hd. destruct (sys_garbage_collect fuel cutoff n b d) as [[d' r]|] eqn:Hrun; [|reflexivity].
  unfold sys_garbage_collect in Hrun. destruct (batch_size_error b); [by injection Hrun as <- _|].
  destruct (gc_cutoff cutoff n d) as [[c|]|e]; [|by injection Hrun as <- _..].
  destruct (collect (H := sys_collectable c) fuel b d) as [d0|] eqn:Hc; [|done]. injection Hrun as <- _.
  apply (@collect_some _ _ (sys_collectable_laws c)) in Hc as ->. apply (changes_one _ Delete); [done|]. apply change_delete.
Qed.

Lemma changes_schedules (f : db → gmap string workflow_schedules_row) :
  Configure ∈ ks → moves (conn_rel (changes ks)) (execute (λ d, d <| workflow_schedules := f d |>)).
Proof. intros Hc. apply moves_execute; [apply _|]. intros d. apply (changes_one _ Configure); [done|]. apply change_schedules. Qed.

Lemma changes_insert_schedule s d d' : Configure ∈ ks → insert_schedule_row s d = Ok (d', tt) → changes ks d d'.
Proof.
  intros Hc. unfold insert_schedule_row. destruct (workflow_schedules d !! s.1); [done|].
  destruct (schedule_named _ d); [done|]. intros [= <-]. apply (changes_one _ Configure); [done|]. apply change_schedules.
Qed.

Lemma changes_enqueue_scheduled serializer now n t id sn c cn q :
  Submit ∈ ks → Touch ∈ ks → Park ∈ ks → moves (changes ks) (enqueue_scheduled_workflow serializer now n t id sn c cn q).
Proof.
  intros Hs Ht Hp. apply moves_bind; [apply _|move_begin; move_next; auto with moves|]. intros v.
  apply moves_bind; [apply _|auto with moves|]. intros x. apply moves_bind; [apply _|by apply changes_init|auto with moves].
Qed.

Lemma changes_fire serializer `{Cron} now th t :
  Submit ∈ ks → Touch ∈ ks → Park ∈ ks → Configure ∈ ks → moves (changes ks) (fire serializer now th t).
Proof.
  intros Hs Ht Hp Hc. apply moves_try; [apply _| |].
  - apply moves_bind; [apply _| |].
    + apply moves_bind; [apply _|auto with moves|]. intros [st|]; [auto with moves|by apply changes_enqueue_scheduled].
    + intros _. move_begin. by apply changes_schedules.
  - intros e k. destruct (is_Exception e); [|done]. intros [= <-]. auto with moves.
Qed.

Lemma changes_trigger serializer `{Cron} now db_now n :
  Submit ∈ ks → Touch ∈ ks → Park ∈ ks → moves (changes ks) (trigger_schedule serializer now db_now n).
Proof.
  intros Hs Ht Hp. apply moves_bind; [apply _|auto with moves|]. intros [[id s]|]; [|auto with moves].
  apply moves_bind; [apply _|auto with moves|]. intros c.
  apply moves_bind; [apply _|by apply changes_enqueue_scheduled|auto with moves].
Qed.

Lemma changes_dispatch now t q e v key n locked :
  Start ∈ ks → moves (changes ks) (start_queued_workflows now t q e v key n locked).
Proof.
  intros Hs. unfold start_queued_workflows. move_begin. move_next. intros recent.
  destruct (match q_limiter q with Some l => _ | None => _ end); [auto with moves|].
  apply moves_bind; [apply _|intros c d0 Hc Hd; done|]. intros dq. generalize (@nil string) as ret.
  induction dq as [|id dq IH]; intros ret; simpl; [auto with moves|].
  destruct (match q_limiter q with Some l => _ | None => _ end); [auto with moves|].
  apply moves_bind; [apply _| |auto]. apply moves_update_workflow_rows; [apply _|]. intros d.
  apply (changes_rows ks Start); [done|]. row_step_tac.
Qed.

Lemma changes_cancel now ids c d d' :
  Cancel ∈ ks → cancel_workflows now ids c d = Some d' → changes ks d d'.
Proof.
  intros Hk. apply moves_cancel_workflows; [apply _|]. intros ids' d0. apply (changes_rows ks Cancel); [done|]. row_step_tac.
Qed.

(** *** Forks *)

Lemma changes_insert_forks now app q part t all :
  Submit ∈ ks → moves (conn_rel (changes ks)) (insert_forks now app q part t all).
Proof.
  intros Hs. apply moves_for_each; [apply _|]. intros m. destruct (t !! fm_orig m); [|auto with moves].
  apply moves_execute_res; [apply _|]. intros d d' [] Hi. apply (changes_one _ Submit); [done|]. by eapply change_submit.
Qed.

Lemma elem_of_latest_events_key mapping t k r :
  (k, r) ∈ latest_events mapping t → ∃ m, m ∈ mapping ∧ k.1 = fm_fork m.
Proof.
  intros (e & [= -> ->] & Hin)%list_elem_of_fmap. apply elem_of_latest_events in Hin as [Hj _].
  apply elem_of_joined_events in Hj as (m & r0 & Hm & _ & _ & _ & Hf & _). by exists m.
Qed.

Lemma changes_fork now os fs ss app q part repl :
  Submit ∈ ks → Touch ∈ ks → Checkpoint ∈ ks → moves (changes ks) (fork_workflow now os fs ss app q part repl).
Proof.
  intros Hs Ht Hc d. destruct (fork_workflow now os fs ss app q part repl d) as [d' [out|e]] eqn:Hrun; cbn [fst].
  - destruct (decide (os = [])) as [->|Hne]; [by injection Hrun as <- _|].
    destruct (fork_workflow_parts _ _ _ _ _ _ _ _ _ _ _ Hrun Hne) as (c2 & t4 & t5 & t6 & t7 & Horig & Hins & H4 & H5 & H6 & H7 & ->).
    pose proof (changes_insert_forks now app q part (workflow_status d) (zip3 os fs ss) Hs (Conn d d) d) as Hsub.
    rewrite Hins in Hsub. destruct Hsub as [_ Hsub]; [done..|]. cbn [fst] in Hsub.
    apply for_each_insert_forks in Hins as (_ & _ & _ & Hin & _).
    set (mapping := filter _ _) in *. set (d3 := (current c2) <| workflow_status := _ |>) in *.
    assert (∀ m, m ∈ mapping → is_Some (workflow_status d3 !! fm_fork m)) as Hfk.
    { intros m [_ Hm]%list_elem_of_filter. destruct (Hin m Hm) as (_ & r & _ & Hrow). simpl.
      rewrite lookup_sql_update, Hrow. eauto. }
    etrans; [exact Hsub|]. transitivity d3; [apply changes_touch; [done|row_step_tac]|].
    transitivity (d3 <| operation_outputs := t4 |>).
    { apply (changes_one _ Checkpoint); [done|]. apply change_operations. eapply grows_insert_all; [exact H4|].
      intros k r (m & k' & r' & Hm & _ & _ & _ & -> & _)%elem_of_copied. by apply Hfk. }
    transitivity (d3 <| operation_outputs := t4 |> <| workflow_events_history := t5 |>).
    { apply (changes_one _ Checkpoint); [done|]. apply change_history. eapply grows_insert_all; [exact H5|].
      intros k r (m & k' & r' & Hm & _ & _ & _ & -> & _)%elem_of_copied. by apply Hfk. }
    transitivity (d3 <| operation_outputs := t4 |> <| workflow_events_history := t5 |> <| workflow_events := t6 |>).
    { apply (changes_one _ Checkpoint); [done|]. apply change_events. eapply grows_insert_all; [exact H6|].
      intros k r (m & Hm & ->)%elem_of_latest_events_key. by apply Hfk. }
    apply (changes_one _ Checkpoint); [done|]. apply change_streams. eapply grows_insert_all; [exact H7|].
    intros k r (m & k' & r' & Hm & _ & _ & _ & -> & _)%elem_of_copied. by apply Hfk.
  - unfold fork_workflow in Hrun. destruct os; [done|]. destruct (_ || _); [by injection Hrun as <- _|].
    apply engine_begin_Err in Hrun as ->; [done|]. move_next. intros t.
    apply moves_bind; [apply _|apply moves_for_each; [apply _|intros w; destruct (t !! w); auto with moves]|]. intros _.
    apply moves_bind; [apply _|apply moves_for_each; [apply _|intros m; destruct (t !! fm_orig m); auto with moves]|].
    intros _. repeat (move_next; intros ?). auto with moves.
Qed.

Lemma changes_fork_from_failure now fs ws app q part b1 b2 st nm :
  Submit ∈ ks → Touch ∈ ks → Checkpoint ∈ ks →
  moves (changes ks) (fork_from_failure now fs ws app q part b1 b2 st nm).
Proof.
  intros Hs Ht Hc. unfold fork_from_failure. apply moves_bind; [apply _|apply moves_lift_res, _|]. intros mode.
  apply moves_bind; [apply _|intros d; reflexivity|]. intros steps. by apply changes_fork.
Qed.

End operations.

(** *** Every action *)

(** The actions by their kinds: what touches rows, what leaves checkpoints, what configures. *)
Lemma run_touches `{Codecs} serializer `{Cron} (a : action) d : action_kinds a = [Touch] → changes (action_kinds a) d (run serializer a d).
Proof.
  assert (∀ p f, (∀ r, row_step Touch r (f r)) →
    moves (changes [Touch]) (engine_begin (_ ← update_workflow_rows p f; mret tt))) as Htouch.
  { intros p f Hf. apply (moves_update_only (changes _)); try apply _. intros d0. apply changes_touch; [left|done]. }
  destruct a; intros Hk; try discriminate Hk; cbn [run action_kinds].
  - revert d. apply (moves_bind (changes [Touch])); [apply moves_lift_res, _|]. intros u. apply Htouch. row_step_tac.
  - apply (moves_engine_begin (changes _)). apply moves_debounce; [apply _|]. intros d0. apply changes_touch; [left|row_step_tac].
  - revert d. apply (moves_bind (changes [Touch])); [apply moves_lift_res, _|]. intros u. apply Htouch. row_step_tac.
Qed.

Lemma run_checkpoints `{Codecs} serializer `{Cron} (a : action) d : action_kinds a = [Touch; Checkpoint] → changes (action_kinds a) d (run serializer a d).
Proof.
  assert (∀ k r d d' a, insert_operation_row k r d = Ok (d', a) → changes [Touch; Checkpoint] d d') as Hop.
  { intros k r d0 d1 x. apply changes_insert_operation. right. left. }
  assert (∀ e p d, changes [Touch; Checkpoint] d
    (d <| workflow_status := sql_update p (λ r, r <| ws_executor_id := e |>) (workflow_status d) |>)) as Hex.
  { intros e p d0. apply changes_executor. left. }
  destruct a; intros Hk; try discriminate Hk; cbn [run action_kinds].
  - apply (moves_record_operation_result (changes _)); [apply Hex|apply Hop].
  - apply (moves_record_get_result (changes _)); apply Hop.
  - apply (moves_record_child_workflow (changes _)); apply Hop.
  - apply (moves_record_sleep (changes _)); [apply Hex|apply Hop].
  - apply (moves_patch (changes _)); [apply Hex|apply Hop].
  - revert d. apply (moves_bind (changes _)); [move_begin; auto with moves|]. intros row.
    apply (moves_bind (changes _)); [ |].
    { destruct row; [apply moves_lift_res, _|apply moves_ret, _]. }
    intros v. destruct caller_ctx; [|apply moves_ret, _].
    apply (moves_bind (changes _)); [apply moves_lift_res, _|]. intros [x n].
    apply (moves_bind (changes _)); [ |intros []; apply moves_ret, _].
    apply (moves_record_operation_result (changes _)); [apply Hex|apply Hop].
  - unfold write_stream_from_workflow. destruct (serialize_value _ _ _) as [[x n]|]; [|reflexivity].
    apply changes_attempts.
    + move_begin. apply changes_checkpointed; [left|right; left|]. apply moves_try_integrity; [apply _|].
      apply changes_stream_insert. right. left.
    + apply write_stream_txn_lost.
Qed.

Lemma run_configures `{Codecs} serializer `{Cron} (a : action) d : action_kinds a = [Configure] → changes (action_kinds a) d (run serializer a d).
Proof.
  destruct a; intros Hk; try discriminate Hk; cbn [run action_kinds].
  - unfold upsert_queue. apply (moves_engine_begin (changes _)). move_next. intros b. apply moves_bind; [apply _| |auto with moves].
    apply moves_execute; [apply _|]. intros d0. apply (changes_one _ Configure); [left|]. apply change_queues.
  - destruct fields; [reflexivity|]. apply (moves_engine_begin (changes _)). apply moves_execute; [apply _|].
    intros d0. apply (changes_one _ Configure); [left|]. apply change_queues.
  - apply (moves_engine_begin (changes _)). apply moves_execute; [apply _|]. intros d0.
    apply (changes_one _ Configure); [left|]. apply change_queues.
  - apply (moves_engine_begin (changes _)). apply moves_try; [apply _| |].
    + apply moves_execute_res; [apply _|]. intros d0 d' []. apply changes_insert_schedule. left.
    + intros [] k; try done; intros [= <-]; auto with moves.
  - apply (moves_engine_begin (changes _)). apply moves_execute_res; [apply _|]. intros d0 d' [] Hrun.
    destruct (schedule_named _ d0) as [[id r]|]; [|apply (changes_insert_schedule [Configure]) in Hrun; [done|left]].
    injection Hrun as <-. apply (changes_one _ Configure); [left|]. apply change_schedules.
  - apply (moves_engine_begin (changes _)). apply changes_schedules. left.
  - apply (moves_engine_begin (changes _)). apply changes_schedules. left.
  - apply (moves_engine_begin (changes _)). apply changes_schedules. left.
  - apply (moves_engine_begin (changes _)). apply moves_execute_res; [apply _|]. intros d0 d' [] Hrun. destruct (sql_select _ _); [|by injection Hrun as <-].
    destruct (application_versions d0 !! _); [done|]. injection Hrun as <-. apply (changes_one _ Configure); [left|]. apply change_versions.
  - apply (moves_engine_begin (changes _)). apply moves_execute; [apply _|]. intros d0. apply (changes_one _ Configure); [left|]. apply change_versions.
Qed.

Lemma run_changes `{Codecs} serializer `{Cron} (a : action) d : changes (action_kinds a) d (run serializer a d).
Proof.
  destruct a; try (apply run_touches; reflexivity); try (apply run_checkpoints; reflexivity);
    try (apply run_configures; reflexivity); cbn [run action_kinds].
  - apply changes_init; rewrite !elem_of_cons; tauto.
  - apply (moves_update_workflow_outcome (changes _)). intros d0. apply (changes_rows _ Complete); [left|].
    destruct success; row_step_tac.
  - destruct (cancel_workflows _ _ _ d) as [d'|] eqn:Hc; [|reflexivity]. eapply changes_cancel; [left|done].
  - apply (moves_update_only (changes _)); try apply _. intros d0. apply (changes_rows _ Resume); [left|]. row_step_tac.
  - unfold delete_workflows. apply (moves_engine_begin (changes _)). apply moves_execute; [apply _|]. intros d0.
    apply (changes_one _ Delete); [left|]. apply change_delete.
  - apply changes_fork; rewrite !elem_of_cons; tauto.
  - apply changes_fork_from_failure; rewrite !elem_of_cons; tauto.
  - apply changes_send; rewrite !elem_of_cons; tauto.
  - apply changes_receive; rewrite !elem_of_cons; tauto.
  - revert d. apply (moves_bind (changes _)); [apply moves_lift_res, _|]. intros [x n].
    apply (moves_bind (changes _)); [ |intros []; apply moves_ret, _]. move_begin.
    apply changes_checkpointed; [rewrite !elem_of_cons; tauto..|].
    apply moves_bind; [apply _|apply changes_upsert_event; left|auto with moves].
  - revert d. apply (moves_bind (changes _)); [apply moves_lift_res, _|]. intros [x n]. move_begin.
    apply changes_upsert_event. left.
  - unfold write_stream_from_step. destruct (serialize_value _ _ _) as [[x n]|]; [|reflexivity].
    apply changes_attempts.
    + apply moves_try_integrity; [apply _|]. move_begin. apply changes_stream_insert. left.
    + apply write_stream_step_lost.
  - apply changes_import; rewrite !elem_of_cons; tauto.
  - apply changes_collect. left.
  - apply changes_dispatch. left.
  - apply (moves_update_only (changes _)); try apply _. intros d0. apply (changes_rows _ Requeue); [left|]. row_step_tac.
  - apply (moves_update_only (changes _)); try apply _. intros d0. apply (changes_rows _ Release); [left|].
    unfold due. intros id r _ Hd. apply andb_true_iff in Hd as [Hd _]. apply bool_decide_eq_true in Hd.
    destruct (ws_is_debounced r) eqn:Hb; unfold transitioned_row; rewrite Hb; row_step_tac.
  - apply changes_fire; rewrite !elem_of_cons; tauto.
  - apply changes_trigger; rewrite !elem_of_cons; tauto.
Qed.

(** *** What the changes keep *)

Lemma changes_ind_inv ks (I : db → Prop) :
  (∀ k d d', k ∈ ks → change k d d' → I d → I d') → ∀ d d', changes ks d d' → I d → I d'.
Proof. intros Hstep d d'. induction 1 as [|d1 d2 d3 (k & Hk & Hc) _ IH]; [done|]. eauto. Qed.

Lemma changes_in ks (R : relation db) `{!PreOrder R} :
  (∀ k d d', k ∈ ks → change k d d' → R d d') → ∀ d d', changes ks d d' → R d d'.
Proof. intros Hstep d d'. induction 1 as [|d1 d2 d3 (k & Hk & Hc) _ IH]; [done|]. etrans; eauto. Qed.

Lemma change_schema_valid k d d' : change k d d' → schema_valid d → schema_valid d'.
Proof.
  intros Hc. destruct Hc as [k p f d Hf|id r d d' Hi|p d|t d Hg|t d Hg|t d Hg|t d Hg|t d Hg|t d Hg|t d Hk Hw|t d|t d|t d].
  4-9: intros [Hu [F1 F2 F3 F4 F5]]; split; [done|]; split; simpl; try done;
    intros k r Hr; destruct (proj2 Hg _ _ Hr); eauto.
  - refine (keeps_update p f d _). intros id r Hr Hp. by destruct (Hf id r Hr Hp) as (_ & _ & ? & _).
  - exact (keeps_insert_workflow_row _ _ _ _ _ Hi).
  - apply keeps_delete_workflow_rows.
  - intros [Hu [F1 F2 F3 F4 F5]]. split; [done|]. split; simpl; try done.
    intros k r Hr. destruct (Hw _ _ Hr) as [?|(r0 & Hr0 & [->| ->])]; simpl; eauto.
  - by intros [Hu [F1 F2 F3 F4 F5]].
  - by intros [Hu [F1 F2 F3 F4 F5]].
  - by intros [Hu [F1 F2 F3 F4 F5]].
Qed.

(** The history of a workflow: what is written to it stays, and its messages stay, at most
    consumed. *)
Definition history_kept : relation db := λ d d',
  (∀ k r, operation_outputs d !! k = Some r → operation_outputs d' !! k = Some r) ∧
  (∀ k, is_Some (workflow_events d !! k) → is_Some (workflow_events d' !! k)) ∧
  (∀ k r, streams d !! k = Some r → streams d' !! k = Some r) ∧
  (∀ k r, notifications d !! k = Some r → ∃ r', notifications d' !! k = Some r' ∧ message_kept r r').

#[export] Instance history_kept_preorder : PreOrder history_kept.
Proof.
  split.
  - intros d. split_and!; try done. intros k r Hr. exists r. split; [done|by left].
  - intros d1 d2 d3 (A1 & A2 & A3 & A4) (B1 & B2 & B3 & B4). split_and!; try by eauto.
    intros k r Hr. destruct (A4 k r Hr) as (r2 & Hr2 & H12). destruct (B4 k r2 Hr2) as (r3 & Hr3 & H23).
    exists r3. split; [done|]. unfold message_kept in *.
    destruct H12 as [->| ->], H23 as [->| ->]; simpl; auto.
Qed.

Lemma change_history_kept k d d' : k ≠ Delete → change k d d' → history_kept d d'.
Proof.
  intros Hk Hc. assert (∀ d k r, notifications d !! k = Some r → ∃ r', notifications d !! k = Some r' ∧ message_kept r r') as Hself.
  { intros d0 k0 r0 Hr0. exists r0. split; [done|by left]. }
  destruct Hc as [k p f d Hf|id r d d' Hi|p d|t d Hg|t d Hg|t d Hg|t d Hg|t d Hg|t d Hg|t d Hm Hw|t d|t d|t d];
    try done; try by (split_and!; simpl; auto; apply Hg).
  - apply insert_workflow_row_Ok in Hi as (_ & _ & ->). by split_and!; simpl; auto.
  - split_and!; simpl; auto. intros k [r Hr]. exists r. by apply Hg.
Qed.

(** What is written to the history of the events stays. *)
Definition event_history_kept : relation db := λ d d',
  ∀ k r, workflow_events_history d !! k = Some r → workflow_events_history d' !! k = Some r.

#[export] Instance event_history_kept_preorder : PreOrder event_history_kept.
Proof. split; [by intros d k r|]. intros d1 d2 d3 H1 H2 k r Hr. by apply H2, H1. Qed.

Lemma change_event_history_kept k d d' : k ≠ Delete → k ≠ Publish → change k d d' → event_history_kept d d'.
Proof.
  intros Hk Hp Hc. destruct Hc as [k p f d Hf|id r d d' Hi|p d|t d Hg|t d Hg|t d Hg|t d Hg|t d Hg|t d Hg|t d Hm Hw|t d|t d|t d];
    try done; try by (intros k0 r0; first [done | apply Hg]).
  apply insert_workflow_row_Ok in Hi as (_ & _ & ->). by intros k0 r0.
Qed.

Lemma change_rows_follow (P : relation workflow_status_row) `{!PreOrder P} (ks : list kind) k d d' :
  Delete ∉ ks → k ∈ ks → (∀ k r r', k ∈ ks → row_step k r r' → P r r') → change k d d' → rows_follow P d d'.
Proof.
  intros Hdel Hk HP Hc. destruct Hc as [k p f d Hf|id r d d' Hi|p d|t d Hg|t d Hg|t d Hg|t d Hg|t d Hg|t d Hg|t d Hm Hw|t d|t d|t d];
    try by apply rows_follow_refl_table.
  - apply rows_follow_update; [done|]. intros id r Hr Hp. eapply HP; [exact Hk|]. by apply Hf with id.
  - apply insert_workflow_row_Ok in Hi as (Hn & _ & ->). intros id' r' Hr'. exists r'. split; [|reflexivity].
    simpl. rewrite lookup_insert_ne; [done|congruence].
Qed.

Lemma row_step_identity k r r' : row_step k r r' → same_identity r r'.
Proof. by intros (_ & ? & _). Qed.

Lemma row_step_frozen k r r' : k ≠ Complete → row_step k r r' → frozen r r'.
Proof.
  intros Hk (Hs & _ & _ & Hout & Hcom) Hr. destruct (Hout Hk) as [Ho He].
  assert (k = Touch) as ->.
  { destruct k; simpl in Hs; try done; exfalso; destruct Hs as [Hs _];
      rewrite ?not_elem_of_cons in *; rewrite ?elem_of_cons, ?elem_of_nil in Hr; intuition congruence. }
  split_and!; [done..|]. apply Hcom. rewrite !not_elem_of_cons. split_and!; try done. apply not_elem_of_nil.
Qed.

Lemma row_step_cancelled k r r' : k ≠ Resume → row_step k r r' → stays_cancelled r r'.
Proof.
  intros Hk (Hs & _) Hr. destruct k; simpl in Hs; try done; try (destruct Hs; congruence).
Qed.

Lemma changes_rows_follow (P : relation workflow_status_row) `{!PreOrder P} (ks : list kind) d d' :
  Delete ∉ ks → (∀ k r r', k ∈ ks → row_step k r r' → P r r') → changes ks d d' → rows_follow P d d'.
Proof. intros Hdel HP. apply changes_in; [apply _|]. intros k d1 d2 Hk. by apply (change_rows_follow P ks). Qed.

Lemma run_all_in `{Codecs} serializer `{Cron} (R : relation db) `{!PreOrder R} (l : list action) :
  (∀ a d, a ∈ l → R d (run serializer a d)) → ∀ d, R d (run_all serializer l d).
Proof.
  intros Hl. induction l as [|a l IH]; intros d; [reflexivity|]. simpl. etrans; [apply Hl; left|].
  apply IH. intros a' d' Ha'. apply Hl. by right.
Qed.

(** An action completes the workflow [id]. *)
Definition completes (id : string) (a : action) : Prop :=
  match a with AOutcome _ workflow_id _ _ _ => workflow_id = id | _ => False end.

Lemma action_frozen `{Codecs} serializer `{Cron} id (a : action) d :
  Delete ∉ action_kinds a → ¬ completes id a → row_follows frozen id d (run serializer a d).
Proof.
  intros Hdel Hid. destruct (decide (Complete ∈ action_kinds a)) as [Hc|Hc].
  - destruct a; try (exfalso; revert Hc; simpl; rewrite ?not_elem_of_cons, ?elem_of_cons, ?elem_of_nil; intuition discriminate).
    intros r Hr. exists r. split; [|by reflexivity]. cbn [run]. rewrite update_workflow_outcome_eq.
    destruct (workflow_status d !! workflow_id) as [r0|]; [|exact Hr]. case_bool_decide; [exact Hr|].
    simpl. rewrite lookup_insert_ne; [exact Hr|exact Hid].
  - intros r Hr. eapply (changes_rows_follow frozen (action_kinds a)); [done| |apply run_changes|done].
    intros k r1 r2 Hk. apply row_step_frozen. intros ->. done.
Qed.

(** ** Properties *)

(** C7: every operation implements the lifecycle: whatever its arguments and whether it
    returns or raises, the database it leaves is reached by changes of its kinds alone:
    rows of workflows move along the transitions of [status_step], which keep their
    identity, and the other tables grow by rows of workflows that are there. *)
Theorem actions_refine_changes `{Codecs} serializer `{Cron} (a : action) d :
  changes (action_kinds a) d (run serializer a d).
Proof. apply run_changes. Qed.

(** C15: the constraints of the schema hold in every history, without the database having
    to refuse anything the operations do: deduplication IDs are unique in their queue, and
    every checkpoint, message, event and stream entry belongs to a workflow that exists. *)
Theorem schema_valid_in_every_history `{Codecs} serializer `{Cron} (l : list action) :
  schema_valid (run_all serializer l empty_db).
Proof.
  refine (run_all_in serializer (keeps schema_valid) l _ empty_db empty_db_schema_valid).
  intros a d _. unfold keeps. apply (changes_ind_inv (action_kinds a)); [|apply run_changes].
  intros k d1 d2 _. apply change_schema_valid.
Qed.

(** C9: the history is append-only: as long as no workflow is deleted, a workflow keeps its
    identity (its function, owner, parent, creation), a checkpoint once written is never
    changed or lost, nor is an entry of a stream, an event that is set can be set again but
    not unset, and a message is never lost: all that ever happens to it is that it is consumed. As long as
    no event is set the history of the events, which forks copy, only grows as well. *)
Theorem history_append_only `{Codecs} serializer `{Cron} (l : list action) d :
  without Delete l →
  rows_follow same_identity d (run_all serializer l d) ∧ history_kept d (run_all serializer l d) ∧
  (without Publish l → event_history_kept d (run_all serializer l d)).
Proof.
  intros Hl. unfold without in *. rewrite Forall_forall in Hl.
  split; [|split]; [| |rewrite Forall_forall; intros Hp]; apply run_all_in; try apply _; intros a d1 Ha.
  - apply (changes_rows_follow same_identity (action_kinds a)); [by apply Hl| |apply run_changes].
    intros k r r' _. apply row_step_identity.
  - refine (changes_in (action_kinds a) history_kept _ _ _ (run_changes serializer a d1)).
    intros k d2 d3 Hk. apply change_history_kept. intros ->. by apply (Hl a Ha).
  - refine (changes_in (action_kinds a) event_history_kept _ _ _ (run_changes serializer a d1)).
    intros k d2 d3 Hk. apply change_event_history_kept; intros ->; [by apply (Hl a Ha)|by apply (Hp a Ha)].
Qed.

(** C10: outcomes are final as far as the code makes them so. As long as nothing is deleted, a
    cancelled workflow stays cancelled until workflows are resumed, whoever runs, dispatches,
    recovers or completes it; and a completed workflow keeps its status, its result and its
    completion time through everything, resumptions and cancellations of it included, but a call
    of [update_workflow_outcome] for it. Such a call is refused only a cancelled workflow: of
    any other, completed or not, it writes the status, the result and the time. *)
Theorem outcomes_final `{Codecs} serializer `{Cron} (l : list action) d :
  without Delete l →
  (without Resume l → rows_follow stays_cancelled d (run_all serializer l d)) ∧
  (∀ id, Forall (λ a, ¬ completes id a) l → row_follows frozen id d (run_all serializer l d)) ∧
  (∀ id r now success output error, workflow_status d !! id = Some r →
     workflow_status (run serializer (AOutcome now id success output error) d) !! id =
     Some (if bool_decide (ws_status r = CANCELLED) then r
           else outcome_row now (if success : bool then SUCCESS else ERROR) output error r)).
Proof.
  intros Hl. unfold without in *. rewrite Forall_forall in Hl. split_and!.
  - rewrite Forall_forall. intros Hk. apply run_all_in; try apply _. intros a d1 Ha.
    apply (changes_rows_follow stays_cancelled (action_kinds a)); [by apply Hl| |apply run_changes].
    intros k r r' Hin. apply row_step_cancelled. intros ->. by apply (Hk a Ha).
  - intros id. rewrite Forall_forall. intros Hk. apply run_all_in; try apply _. intros a d1 Ha.
    apply action_frozen; [by apply Hl|by apply Hk].
  - intros id r now success output error Hr. cbn [run]. rewrite update_workflow_outcome_eq, Hr.
    case_bool_decide; simpl; [done|]. by rewrite lookup_insert_eq.
Qed.

(** ** Witnesses *)

Lemma history_append_only_witness :
  operation_outputs (@run_all sample_codecs sample_serializer sample_cron
    [ACancel 9 ["w"] false; ARecord (Some "b") 11 (sample_result "y")]
    (record_operation_result (Some "a") 10 (sample_result "x") sample_running).1) !! ("w", 0%Z) =
  Some (recorded_row (sample_result "x") 10).
Proof.
  set (l := [ACancel 9 ["w"] false; ARecord (Some "b") 11 (sample_result "y")]).
  assert (without Delete l) as Hl.
  { repeat constructor; simpl; rewrite ?not_elem_of_cons; split_and!; try discriminate; apply not_elem_of_nil. }
  destruct (@history_append_only sample_codecs sample_serializer sample_cron l
    (record_operation_result (Some "a") 10 (sample_result "x") sample_running).1 Hl) as [_ [[H _] _]].
  apply H. reflexivity.
Defined.

Lemma outcomes_final_witness :
  ∃ r, workflow_status (@run_all sample_codecs sample_serializer sample_cron
         [AInit 10 (sample_status "w" PENDING) None None true false; AClearAssignment "w"]
         (cancel_ids 9 ["w"] sample_running).1) !! "w" = Some r ∧ ws_status r = CANCELLED.
Proof.
  set (l := [AInit 10 (sample_status "w" PENDING) None None true false; AClearAssignment "w"]).
  assert (∀ k, k ∈ [Delete; Resume] → without k l) as Hl.
  { intros k Hk. repeat constructor; simpl; rewrite !elem_of_cons, elem_of_nil in *; intuition congruence. }
  destruct (@outcomes_final sample_codecs sample_serializer sample_cron l (cancel_ids 9 ["w"] sample_running).1
    (Hl Delete ltac:(left))) as (H & _).
  destruct (H (Hl Resume ltac:(right; left)) "w" (cancelled_row 9 (sample_row "w" PENDING)) eq_refl) as (r & Hr & Hs).
  exists r. split; [exact Hr|]. by apply Hs.
Defined.
