(* ===== verification/Calls.v ===== *)
(** * Direct calls of workflows, handles, and steps without a decorator: [dbos/_core.py]

    A workflow function that is called starts the workflow in the caller's thread and
    checkpoints its result in the caller ([call_workflow], the wrapper of
    [workflow_wrapper]); [start_workflow] gives a handle instead, whose [get_result] does the
    checkpoint. [run_step] runs a plain function as a step. *)
From S2P Require Import Prelude Errors Schema Retry Serialization Workflows Context Steps Queues Process Execution Durability Recovery.
Open Scope nat_scope.

(** [resctx]: the caller's context as it is left, and the one its checkpoint of the result
    is made under, if it is a workflow's. *)
Definition snapshot_result_ctx (cctx : option DBOSContext) : option DBOSContext * option DBOSContext :=
  match cctx with
  | Some c => if is_workflow c then let '(c, res) := snapshot_step_ctx false c in (Some c, Some res) else (Some c, None)
  | None => (None, None)
  end.

Section calls.
Context {W : Type} `{Host W, Codecs} (serializer : Serializer) (executor_id : string).
Notation machine := (@machine W).
Notation workflow_info := (@workflow_info W).
Notation workflow_handle := (@workflow_handle W).
Notation init_workflow := (Execution.init_workflow (W:=W) serializer executor_id).
Notation await_result := (await_result (W:=W) serializer).

(** ** The wrapper of a workflow function *)

(** [check_and_init]: the recorded result, or the context and the status to run with. *)
Definition check_and_init (polls : nat) (app_version owner_xid : string) (info : workflow_info) (inputs : WorkflowInputs)
    (workflow_timeout_ms workflow_deadline_epoch_ms : option Z) (newwfctx ctx : DBOSContext) :
    process machine (pyval + DBOSContext * WorkflowStatusInternal) :=
  let child_wfid := cx_id_assigned_for_next_workflow newwfctx in
  r ← (if has_parent newwfctx then
         database (λ _, check_operation_execution (cx_parent_workflow_id newwfctx) (cx_parent_workflow_fid newwfctx) (wf_name info))
       else mret None);
  match nonempty (r ≫= rr_error), nonempty (r ≫= rr_child_workflow_id) with
  | Some error, _ =>
      e ← returns (deserialize_exception error (r ≫= rr_serialization) serializer);
      Returns (Err e)
  | None, Some child => v ← await_result polls child; mret (inl v)
  | None, None =>
      '(ctx, status, should_execute) ←
        init_workflow app_version owner_xid ctx info inputs None workflow_timeout_ms workflow_deadline_epoch_ms
          (wf_max_recovery_attempts info) None false false (wf_serialization_type info) child_wfid;
      _ ← (if has_parent newwfctx then
             database (λ _, record_child_workflow (cx_parent_workflow_id newwfctx) child_wfid
                              (cx_parent_workflow_fid newwfctx) (wf_name info))
           else mret tt);
      if should_execute : bool then mret (inr (ctx, status))
      else v ← await_result polls (wi_workflow_uuid status); mret (inl v)
  end.

(** [record_get_result] of the wrapper and of the handles: the result of [workflow_id]
    checkpointed under [ctx]; an exception that is no [Exception] is not. *)
Definition record_result_of (workflow_id : string) (ctx : option DBOSContext) (r : res pyexn pyval) : process machine pyval :=
  match r with
  | Err e =>
      if is_Exception e then
        '(serialized_e, serialization) ← returns (serialize_exception e None serializer);
        _ ← database (λ _, record_get_result workflow_id None (Some serialized_e) (Some serialization) ctx);
        Returns (Err e)
      else Returns (Err e)
  | Ok v =>
      '(serialized_r, serialization) ← returns (serialize_value v None serializer);
      _ ← database (λ _, record_get_result workflow_id (Some serialized_r) None (Some serialization) ctx);
      mret v
  end.

(** The call, inside [EnterDBOSWorkflow] and [DBOSAssumeRole]. *)
Definition invoke_workflow (polls : nat) (app_version owner_xid : string) (info : workflow_info) (inputs : WorkflowInputs)
    (workflow_timeout_ms workflow_deadline_epoch_ms : option Z) (rr : option string) (newwfctx : DBOSContext) :
    process machine pyval :=
  ctx ← returns (enter_workflow newwfctx);
  r ← check_and_init polls app_version owner_xid info inputs workflow_timeout_ms workflow_deadline_epoch_ms newwfctx (assume_role rr ctx);
  match r with
  | inl v => mret v
  | inr (ctx, status) => persist serializer polls status (run_workflow ctx (wf_func info inputs))
  end.

(** The wrapper, called in the context [cctx]: the caller's context as it is left, and the call. *)
Definition call_workflow (polls : nat) (app_id app_version uuid owner_xid : string) (info : workflow_info)
    (inputs : WorkflowInputs) (cctx : option DBOSContext) : option DBOSContext * process machine pyval :=
  match check_required_roles (wf_name info) (wf_class_roles info) (wf_required_roles info) cctx with
  | Err e => (cctx, Returns (Err e))
  | Ok rr =>
      match create_start_workflow_child executor_id app_id uuid cctx with
      | Err e => (cctx, Returns (Err e))
      | Ok (cctx, newwfctx) =>
          let '(cctx, resctx) := snapshot_result_ctx cctx in
          (cctx,
           deadline ← act (gets (λ s, get_timeout_deadline (time_ms (m_world s)) cctx None));
           and_then (invoke_workflow polls app_version owner_xid info inputs deadline.1 deadline.2 rr newwfctx)
             (record_result_of (cx_id_assigned_for_next_workflow newwfctx) resctx))
      end
  end.

(** ** Handles *)

(** The result a handle gets: [self.future.result()], or the database's when there is no
    future or the execution was cancelled. *)
Definition handle_result (polls : nat) (h : workflow_handle) : process machine pyval :=
  match wh_future h with
  | None => await_result polls (wh_workflow_id h)
  | Some future =>
      and_then future (λ r, match r with
        | Err (DBOSWorkflowCancelledError _) | Err (DBOSAwaitedWorkflowCancelledError _) => await_result polls (wh_workflow_id h)
        | _ => Returns r
        end)
  end.

(** [WorkflowHandleFuture.get_result] and [WorkflowHandlePolling.get_result]: the caller's
    context, whose counter goes on when there is something to record, and the result. *)
Definition record_handle_result (h : workflow_handle) (local_ctx : option DBOSContext) (r : res pyexn pyval) :
    process machine (option DBOSContext * res pyexn pyval) :=
  let ctx := get_result_context local_ctx in
  let left := match r with Err e => if is_Exception e then ctx else None | Ok _ => ctx end in
  let serializes := match r with
                    | Err e => is_ok (serialize_exception e None serializer)
                    | Ok v => is_ok (serialize_value v None serializer)
                    end in
  and_then (record_result_of (wh_workflow_id h) ctx r) (λ r',
    mret (match left with Some c => if serializes then Some c else local_ctx | None => local_ctx end, r')).

Definition get_result (polls : nat) (h : workflow_handle) (local_ctx : option DBOSContext) :
    process machine (option DBOSContext * res pyexn pyval) :=
  and_then (handle_result polls h) (record_handle_result h local_ctx).

(** ** [run_step] *)

Definition run_step (func_name : string) (name : option string) (opts : StepOptions) (func : DBOSContext → process W pyval) :
    operation (W:=W) := λ ctx,
  if is_workflow ctx then
    let '(ctx', step_ctx) := snapshot_step_ctx false ctx in
    (ctx', invoke_step serializer executor_id ctx' step_ctx func (default func_name (nonempty name)) opts)
  else (ctx, outside (func ctx)).

End calls.

(** ** What is meant *)

(** The result of a settled workflow, for those who wait for it. *)
Definition settled_result `{Codecs} (serializer : Serializer) (d : db) (workflow_id : string) (r : res pyexn pyval) : Prop :=
  match check_workflow_result serializer d workflow_id with
  | Ok (Some v) => r = Ok v
  | Ok None => False
  | Err e => r = Err e
  end.

(** A result that a caller can checkpoint. *)
Definition checkpointable `{Codecs} (serializer : Serializer) (r : res pyexn pyval) : Prop :=
  match r with
  | Ok v => is_ok (serialize_value v None serializer) = true
  | Err e => is_Exception e = true ∧ is_ok (serialize_exception e None serializer) = true
  end.

(** A process that neither reads nor changes which workflows the process is running. *)
Class Blind {W A} (p : process (machine (W:=W)) A) : Prop :=
  blind s a : finish p (s <| m_active := a |>) = ((finish p s).1 <| m_active := a |>, (finish p s).2).

(** A context in which no [SetEnqueueOptions] and no [SetWorkflowTimeout] is in force. *)
Definition plain_context (ctx : option DBOSContext) : Prop :=
  enqueue_options_of ctx = enqueue_options_of None ∧ ctx ≫= cx_workflow_timeout_ms = None.

(** The execution of a handle, if there is one, does not end by a cancellation. *)
Definition uncancelled {W} (h : workflow_handle (W:=W)) (s : machine (W:=W)) : Prop :=
  ∀ future s' e, wh_future h = Some future → finish future s = (s', Some (Err e)) →
    (∀ w, e ≠ DBOSAwaitedWorkflowCancelledError w) ∧ (∀ m, e ≠ DBOSWorkflowCancelledError m).

(** ** Lemmas *)

Section blind_lemmas.
Context {W : Type} `{Host W}.
Notation machine := (@machine W).

#[export] Instance blind_returns {A} (r : res pyexn A) : Blind (W:=W) (Returns r).
Proof. by intros s a. Qed.

#[export] Instance blind_waits {A} : Blind (W:=W) (A:=A) Waits.
Proof. by intros s a. Qed.

#[export] Instance blind_database {A} (m : W → dbM A) : Blind (database m).
Proof. intros s a. rewrite !finish_database. done. Qed.

Lemma blind_and_then {A B} (p : process machine A) (k : res pyexn A → process machine B) :
  Blind p → (∀ r, Blind (k r)) → Blind (and_then p k).
Proof.
  intros Hp Hk s a. rewrite !finish_and_then, (Hp s a). destruct (finish p s) as [s' [r|]]; [|done]. apply Hk.
Qed.

Lemma blind_bind {A B} (p : process machine A) (k : A → process machine B) :
  Blind p → (∀ x, Blind (k x)) → Blind (p ≫= k).
Proof. intros Hp Hk. apply blind_and_then; [done|]. intros [x|e]; [apply Hk|apply _]. Qed.

#[export] Instance blind_outside {A} (p : process W A) : Blind (outside p).
Proof.
  intros s a. unfold outside. rewrite !finish_within by (intros; first [done | by destruct w]). done.
Qed.

Lemma blind_act_world {A} (m : machine → A) : (∀ s a, m (s <| m_active := a |>) = m s) → Blind (act (gets m)).
Proof. intros Hm s a. rewrite !finish_act. unfold gets. simpl. by rewrite Hm. Qed.

#[export] Instance blind_invoke_step `{!Codecs} serializer executor_id cur_ctx step_ctx func step_name opts :
  Blind (invoke_step serializer executor_id cur_ctx step_ctx func step_name opts).
Proof.
  unfold invoke_step, record_step_result, record_result, intercept. apply blind_bind; [by apply blind_act_world|]. intros x.
  destruct (_ && _); [apply _|]. destruct (negb _); [apply _|]. apply blind_bind; [apply _|].
  intros [a|]; [apply blind_returns|]. apply blind_and_then; [apply _|].
  intros [v|e]; [|destruct e; cbv beta iota]; repeat first
    [ apply blind_returns | apply blind_database | apply blind_bind; [|intros; try case_match] | destruct (is_Exception _) ].
Qed.

#[export] Instance blind_step `{!Codecs} serializer executor_id step_name class_roles func_roles opts func ctx :
  Blind (step serializer executor_id step_name class_roles func_roles opts func ctx).2.
Proof.
  unfold step. destruct (is_workflow ctx); [|apply _]. destruct (check_required_roles _ _ _ _); [|apply _].
  destruct (snapshot_step_ctx _ _). apply _.
Qed.

Lemma blind_call op k : (∀ ctx : DBOSContext, Blind (W:=W) (op ctx).2) → (∀ r ctx, Blind (run_workflow ctx (k r))) →
  ∀ ctx, Blind (run_workflow ctx (WCall op k)).
Proof. intros Hop Hk ctx. simpl. specialize (Hop ctx). destruct (op ctx). by apply blind_and_then. Qed.

End blind_lemmas.

Section call_lemmas.
Context {W : Type} `{Host W, Codecs} (serializer : Serializer) (executor_id : string).
Notation machine := (@machine W).
Notation workflow_info := (@workflow_info W).
Notation await_result := (await_result (W:=W) serializer).

Lemma finish_bind {A B} (p : process machine A) (k : A → process machine B) s :
  finish (p ≫= k) s =
  match finish p s with
  | (s', Some (Ok a)) => finish (k a) s'
  | (s', Some (Err e)) => (s', Some (Err e))
  | (s', None) => (s', None)
  end.
Proof. unfold mbind, process_bind. rewrite finish_and_then. by destruct (finish p s) as [s' [[a|e]|]]. Qed.

Lemma await_settled_result polls workflow_id r (s : machine) :
  0 < polls → settled_result serializer (m_db s) workflow_id r → finish (await_result polls workflow_id) s = (s, Some r).
Proof.
  destruct polls as [|polls]; [lia|]. intros _ Hr. cbn [Execution.await_result]. rewrite finish_bind, finish_database.
  cbn [fst snd]. unfold settled_result in Hr. rewrite machine_same_db.
  destruct (check_workflow_result serializer (m_db s) workflow_id) as [[v|]|e]; [by subst|done|by subst].
Qed.

(** Recording a result that can be checkpointed. *)
Lemma record_result_finish workflow_id ctx r (s : machine) :
  checkpointable serializer r → workflow_exists (m_db s) (cx_workflow_id ctx) = true →
  ∃ d', finish (record_result_of serializer workflow_id (Some ctx) r) s = (s <| m_db := d' |>, Some r) ∧
    workflow_status d' = workflow_status (m_db s) ∧
    (∀ k, k ≠ (cx_workflow_id ctx, cx_function_id ctx) → operation_outputs d' !! k = operation_outputs (m_db s) !! k) ∧
    (∀ row, operation_outputs (m_db s) !! (cx_workflow_id ctx, cx_function_id ctx) = Some row → d' = m_db s) ∧
    (∃ row, operation_outputs d' !! (cx_workflow_id ctx, cx_function_id ctx) = Some row).
Proof.
  intros Hc Hex.
  assert (∀ o e n, ∃ d', record_get_result workflow_id o e n (Some ctx) (m_db s) = (d', Ok tt) ∧
    workflow_status d' = workflow_status (m_db s) ∧
    (∀ k, k ≠ (cx_workflow_id ctx, cx_function_id ctx) → operation_outputs d' !! k = operation_outputs (m_db s) !! k) ∧
    (∀ row, operation_outputs (m_db s) !! (cx_workflow_id ctx, cx_function_id ctx) = Some row → d' = m_db s) ∧
    (∃ row, operation_outputs d' !! (cx_workflow_id ctx, cx_function_id ctx) = Some row)) as Hrec.
  { intros o e n. unfold record_get_result, engine_begin, execute_res, insert_operation_nothing, insert_operation_row. cbn [current].
    destruct (operation_outputs (m_db s) !! _) as [row|] eqn:Hrow; [eexists; split_and!; [done..|by eexists]|].
    cbn [fst]. rewrite Hex. eexists. split; [done|]. split; [done|]. simpl. split_and!; [|done|].
    - intros k Hk. by rewrite lookup_insert_ne.
    - eexists. apply lookup_insert_eq. }
  unfold record_result_of. destruct r as [v|e]; simpl in Hc.
  - destruct (serialize_value v None serializer) as [[x n]|] eqn:Hv; [|done]. rewrite finish_bind. unfold returns.
    cbn [finish]. destruct (Hrec (Some x) None (Some n)) as (d' & Hd' & Hrest). exists d'. split; [|done].
    rewrite finish_bind, finish_database, Hd'. done.
  - destruct Hc as [He Hx]. rewrite He. destruct (serialize_exception e None serializer) as [[x n]|] eqn:Hv; [|done].
    rewrite finish_bind. unfold returns. cbn [finish]. destruct (Hrec None (Some x) (Some n)) as (d' & Hd' & Hrest).
    exists d'. split; [|done]. rewrite finish_bind, finish_database, Hd'. done.
Qed.

(** The context of a child is no workflow's yet, and writes in the default format. *)
Lemma child_context_fresh app_id uuid ctx ctx' new :
  create_start_workflow_child executor_id app_id uuid ctx = Ok (ctx', new) →
  is_within_workflow new = false ∧ cx_serialization_type new = DEFAULT ∧ cx_workflow_timeout_ms new = None ∧
  cx_deduplication_id new = None ∧ cx_priority new = None.
Proof.
  unfold create_start_workflow_child. destruct ctx as [c|]; [|by intros [= <- <-]].
  destruct (is_within_workflow c); [destruct (is_workflow c); [|done]|]; by intros [= <- <-].
Qed.

(** A start that is admitted under a new owner's ID has inserted its row. *)
Lemma init_workflow_new_owner now status m xid d d' out :
  Workflows.init_workflow now status m xid false false d = (d', Ok out) → ir_should_execute out = true →
  (∀ row, workflow_status d !! wi_workflow_uuid status = Some row → ws_owner_xid row ≠ xid) →
  ir_status out = wi_status status ∧ ir_serialization out = wi_serialization status.
Proof.
  unfold Workflows.init_workflow, insert_workflow_status. run_txn.
  destruct (upsert_workflow_row _ _ _ d) as [[d0 row]|e] eqn:Hup; cbn [fst snd committed current]; [|done].
  destruct (conflict_message row status); [done|].
  destruct (exceeds_attempts row m xid) as [[|]|]; [done| |done]. cbn [fst snd committed current].
  intros [= <- <-]. simpl. rewrite !andb_true_r, negb_true_iff, bool_decide_eq_false. intros Hx%dec_stable Hown.
  apply upsert_workflow_row_spec in Hup as (_ & [(r0 & Hr0 & ->)|(_ & -> & _)]); [|done].
  destruct (Hown r0 Hr0). rewrite Hx. unfold existing_row. by destruct (is_enqueued_status (ws_status r0)), (is_enqueued_status _).
Qed.

Lemma serialize_args_default i x n : serialize_args i (Some DEFAULT) serializer = Ok (x, n) → n = ser_name serializer.
Proof.
  unfold serialize_args, serialization_for_type, named, not_available.
  case_bool_decide as H1; [destruct (ser_serialize _ _); [by intros [= _ <-]|done]|].
  case_bool_decide as H2; [destruct (ser_serialize _ _); [by intros [= _ <-]|done]|].
  case_bool_decide as H3; [done|]. destruct (ser_serialize _ _); [by intros [= _ <-]|done].
Qed.

(** The context of a workflow that runs. *)
Definition entered (ctx : DBOSContext) : DBOSContext :=
  Context.start_workflow "" None
    (ctx <| cx_is_within_set_workflow_id_block := false |> <| cx_workflow_timeout_ms := None |>
         <| cx_deduplication_id := None |> <| cx_priority := None |>).

Definition plain_type (info : workflow_info) : Prop :=
  wf_serialization_type info = None ∨ wf_serialization_type info = Some DEFAULT.

Notation init_workflow := (Execution.init_workflow (W:=W) serializer executor_id).

Lemma returns_uncancelled h v (s : machine) :
  (match wh_future h with Some future => (finish future s).2 = Some (Ok v) | None => True end) → uncancelled h s.
Proof. intros Hv future s' e Hf He. rewrite Hf, He in Hv. discriminate Hv. Qed.

(** The submission of a call, in the context that has been entered, is the one of a start. *)
Lemma init_entered app_version xid new info inputs t dl m (s : machine) :
  is_within_workflow new = false → plain_type info →
  finish (init_workflow app_version xid (entered new) info inputs None t dl m None false false (wf_serialization_type info)
            (cx_id_assigned_for_next_workflow new)) s =
  match finish (init_workflow app_version xid new info inputs None t dl m (Some (enqueue_options_of None)) false false
            (Some (default DEFAULT (wf_serialization_type info))) (cx_id_assigned_for_next_workflow new)) s with
  | (s', Some (Ok (c, st, b))) => (s', Some (Ok (entered c, st, b)))
  | (s', Some (Err e)) => (s', Some (Err e))
  | (s', None) => (s', None)
  end.
Proof.
  intros Hw Hty. unfold Execution.init_workflow.
  assert (cx_workflow_id new = ""%string) as Hid.
  { unfold is_within_workflow in Hw. by apply negb_false_iff, bool_decide_eq_true in Hw. }
  assert (cx_workflow_id (entered new) = cx_id_assigned_for_next_workflow new) as Hid'.
  { unfold entered. simpl. unfold assign_workflow_id. simpl. case_bool_decide; congruence. }
  assert (cx_id_assigned_for_next_workflow (entered new) = ""%string) as Hid'' by done.
  rewrite Hid, Hid', Hid''. destruct (decide (cx_id_assigned_for_next_workflow new = ""%string)) as [He|He].
  { rewrite He. done. }
  rewrite (bool_decide_eq_false_2 (cx_id_assigned_for_next_workflow new = _)) by done. cbn [negb].
  rewrite (bool_decide_eq_false_2 (cx_id_assigned_for_next_workflow new = _)) by done.
  assert (input_format (wf_serialization_type info) (entered new) =
          input_format (Some (default DEFAULT (wf_serialization_type info))) new) as -> by by destruct Hty as [-> | ->].
  rewrite !finish_bind. unfold returns.
  destruct (serialize_args _ _ _) as [[x n]|]; [|done]. cbn [finish].
  rewrite !finish_bind. change (cx_workflow_attributes (entered new)) with (cx_workflow_attributes new).
  destruct (match cx_workflow_attributes new with Some a => _ | None => _ end) as [attributes|]; [|done]. cbn [finish].
  set (st := new_status app_version new (cx_id_assigned_for_next_workflow new) info None t dl (Some (enqueue_options_of None)) x n attributes).
  rewrite !finish_bind. 
  match goal with |- match ?l with _ => _ end = match match ?r with _ => _ end with _ => _ end => change l with r; destruct r as [s' [[out|e]|]] end; done.
Qed.

(** What is known of an execution that is admitted. *)
Lemma init_admitted app_version xid new info inputs t dl m (s s' : machine) c st b wfid :
  plain_type info → cx_serialization_type new = DEFAULT → ser_name serializer ≠ ser_name DBOSPortableJSON → wfid ≠ ""%string →
  (∀ row, workflow_status (m_db s) !! wfid = Some row → ws_owner_xid row ≠ Some xid) →
  finish (init_workflow app_version xid new info inputs None t dl m (Some (enqueue_options_of None)) false false
            (Some (default DEFAULT (wf_serialization_type info))) wfid) s = (s', Some (Ok (c, st, b))) →
  c <| cx_serialization_type := DEFAULT |> = c ∧ is_within_workflow c = is_within_workflow new ∧
  (b = true → wi_serialization st ≠ Some (ser_name DBOSPortableJSON) ∧ wi_status st = PENDING) ∧ wi_workflow_uuid st = wfid ∧
  wi_queue_name st = None ∧ wi_queue_partition_key st = None ∧ m_active s' = m_active s ∧
  has_parent c = has_parent new ∧ cx_parent_workflow_id c = cx_parent_workflow_id new ∧
  cx_parent_workflow_fid c = cx_parent_workflow_fid new.
Proof.
  intros Hty Hser Hport Hne Hown. unfold Execution.init_workflow.
  rewrite (bool_decide_eq_false_2 (wfid = _)) by done. cbn [negb].
  rewrite (bool_decide_eq_false_2 (wfid = _)) by done. rewrite finish_bind. unfold returns.
  destruct (serialize_args _ _ _) as [[x n]|] eqn:Hargs; [|done]. cbn [finish]. rewrite finish_bind.
  destruct (match cx_workflow_attributes new with Some a => _ | None => _ end) as [attributes|]; [|done]. cbn [finish].
  assert (n = ser_name serializer) as ->.
  { assert (input_format (Some (default DEFAULT (wf_serialization_type info))) new = DEFAULT) as Hf
      by (destruct Hty as [-> | ->]; exact Hser).
    rewrite Hf in Hargs. by apply serialize_args_default in Hargs. }
  set (st0 := new_status app_version new wfid info None t dl (Some (enqueue_options_of None)) x (ser_name serializer) attributes).
  rewrite finish_bind, finish_and_then, finish_database. cbn [fst snd].
  destruct (Workflows.init_workflow (now_ms (m_world s)) st0 m (Some xid) false false (m_db s)) as [d' [out|e]] eqn:Hinit;
    cbn [fst snd].
  - cbn [finish]. intros [= <- <- <- Hb].
    split_and!; try done.
    + destruct new. simpl in *. by subst.
    + intros ->. destruct (init_workflow_new_owner _ _ _ _ _ _ _ Hinit Hb Hown) as [Hst Hs].
      simpl. rewrite Hs. simpl. split; [by intros [= ?]|exact Hst].
  - destruct e; try done. cbn [returns]. rewrite finish_bind. unfold returns. destruct (serialize_exception _ _ _) as [[y k]|]; [|done].
    cbn [finish]. rewrite finish_bind. destruct (has_parent _).
    + rewrite finish_database. by destruct (record_operation_result _ _ _ _) as [? [[]|]].
    + done.
Qed.

(** What a context that starts a child is left as. *)
Lemma child_context_left app_id uuid ctx ctx' new now :
  create_start_workflow_child executor_id app_id uuid ctx = Ok (ctx', new) →
  get_timeout_deadline now ctx' None = get_timeout_deadline now ctx None.
Proof.
  unfold create_start_workflow_child. destruct ctx as [c|]; [|by intros [= <- _]].
  destruct (is_within_workflow c); [destruct (is_workflow c); [|done]|]; intros [= <- _];
    try case_bool_decide; done.
Qed.

(** Contexts with the same counter record alike. *)
Lemma record_result_of_ctx workflow_id c c' r :
  cx_workflow_id c = cx_workflow_id c' → cx_function_id c = cx_function_id c' →
  record_result_of (W:=W) serializer workflow_id (Some c) r = record_result_of serializer workflow_id (Some c') r.
Proof. intros Hw Hf. unfold record_result_of, record_get_result. by rewrite Hw, Hf. Qed.

#[export] Instance blind_await polls workflow_id : Blind (await_result polls workflow_id).
Proof.
  induction polls as [|polls IH]; [apply _|]. cbn [Execution.await_result]. apply blind_bind; [apply _|].
  intros [v|]; [apply blind_returns|]. apply blind_bind; [|done].
  intros s a. rewrite !finish_act. done.
Qed.

#[export] Instance blind_persist polls status (func : process machine pyval) : Blind func → Blind (persist serializer polls status func).
Proof.
  intros Hf. assert (∀ e, Blind (finalize_error (W:=W) (A:=pyval) serializer status e)) as Hfin.
  { intros e. apply blind_bind; [apply _|]. intros x. apply blind_bind; [apply _|]. intros []. apply _. }
  unfold persist. destruct (negb _); [apply _|]. apply blind_and_then.
  - apply blind_bind; [done|]. intros v. apply blind_bind; [apply _|]. intros [x n]. apply blind_bind; [apply _|].
    intros []. apply blind_returns.
  - intros [v|e]; [apply _|]. destruct e; try apply _; simpl; apply Hfin.
Qed.

(** The thread of an execution that nobody else has under way ends as its [persist] does. *)
Lemma wthread_persists polls status info ctx inputs (s s' : machine) r :
  is_within_workflow ctx = false → wf_class_roles info = None → wf_required_roles info = None →
  m_active s !! wi_workflow_uuid status = None → Blind (run_workflow (entered ctx) (wf_func info inputs)) →
  finish (execute_workflow_wthread serializer polls status info ctx inputs) s = (s', Some r) →
  finish (persist serializer polls status (run_workflow (entered ctx) (wf_func info inputs))) s = (s', Some r).
Proof.
  intros Hw Hcr Hrr Hfree Hb. set (body := run_workflow _ _) in *.
  unfold execute_workflow_wthread, enter_workflow, returns, check_required_roles_or_finalize_error, check_required_roles.
  rewrite Hw, Hcr, Hrr, finish_bind. cbn [finish]. rewrite finish_bind. cbn [finish mret process_ret]. rewrite finish_bind, finish_act.
  unfold acquire. rewrite Hfree. cbn [fst snd]. rewrite finish_and_then.
  change (run_workflow (assume_role None _) (wf_func info inputs)) with body.
  pose proof (blind_persist polls status body Hb) as Hp. rewrite (Hp s).
  pose proof (Hp s (m_active s)) as Hsame. replace (s <| m_active := m_active s |>) with s in Hsame by by destruct s.
  destruct (finish (persist serializer polls status body) s) as [s0 [r0|]]; cbn [fst snd] in *; [|done].
  injection Hsame as Hs. rewrite finish_bind, finish_act. unfold release. simpl. rewrite lookup_insert_eq. cbn [fst snd finish].
  rewrite delete_insert_id by done. intros [= <- <-]. f_equal. exact Hs.
Qed.

(** What follows an invocation that ended with [r0] is what follows a handle that did. *)
Lemma call_of_invoked polls app_id app_version uuid xid (info : workflow_info) inputs local local' new h left r0 r (s s' s2 : machine) :
  plain_context local → wf_class_roles info = None → wf_required_roles info = None →
  create_start_workflow_child executor_id app_id uuid local = Ok (local', new) →
  wh_workflow_id h = cx_id_assigned_for_next_workflow new →
  finish (invoke_workflow serializer executor_id polls app_version xid info inputs None
            (get_timeout_deadline (time_ms (m_world s)) local None).2 None new) s = (s', Some r0) →
  finish (record_handle_result serializer h local' r0) s' = (s2, Some (Ok (left, r))) →
  finish (call_workflow serializer executor_id polls app_id app_version uuid xid info inputs local).2 s = (s2, Some r).
Proof.
  intros [_ Ht] Hcr Hrr Hchild Hid Hinv. unfold call_workflow, check_required_roles. rewrite Hcr, Hrr, Hchild.
  assert (∀ now c, get_timeout_deadline now (snapshot_result_ctx c).1 None =
      get_timeout_deadline now c None) as Hdl by (intros now [c|]; [unfold snapshot_result_ctx; by destruct (is_workflow c)|done]).
  assert (∀ now, get_timeout_deadline now local None = (None, (get_timeout_deadline now local None).2)) as Hpair.
  { intros now. destruct local as [c|]; [|done]. simpl in *. by rewrite Ht. }
  assert (record_result_of (W:=W) serializer (cx_id_assigned_for_next_workflow new) (snapshot_result_ctx local').2 r0 =
    record_result_of serializer (wh_workflow_id h) (get_result_context local') r0) as Hrec.
  { rewrite Hid. destruct local' as [c|]; [|done]. unfold get_result_context, snapshot_result_ctx.
    destruct (is_workflow c); [|done]. by apply record_result_of_ctx. }
  specialize (Hdl (time_ms (m_world s)) local'). rewrite (child_context_left _ _ _ _ _ _ Hchild), Hpair in Hdl.
  unfold record_handle_result. destruct (snapshot_result_ctx local') as [cctx resctx]. cbn [fst snd] in *. cbv zeta.
  rewrite finish_and_then, <- Hrec. intros Hget.
  rewrite finish_bind, finish_act. cbn [fst snd gets]. rewrite Hdl. cbn [fst snd]. rewrite finish_and_then, Hinv.
  destruct (finish (record_result_of _ _ _ _) s') as [s3 [r3|]]; [|done]. cbn [finish mret process_ret] in Hget. by injection Hget as <- _ <-.
Qed.

(** What a parent reads and records of its child leaves the rest of the machine. *)
Lemma parent_reads (b : bool) wid fid name (s : machine) :
  ∃ x, finish (if b then database (λ _ : W, check_operation_execution wid fid name) else mret None) s = (s, Some x).
Proof.
  destruct b; [|by eexists]. rewrite finish_database, check_operation_execution_eq. cbn [fst snd]. rewrite machine_same_db. by eexists.
Qed.

Lemma parent_records (b : bool) wid child fid name (s : machine) :
  ∃ d x, finish (if b then database (λ _ : W, record_child_workflow wid child fid name) else mret tt) s = (s <| m_db := d |>, Some x).
Proof.
  destruct b; [rewrite finish_database; by eexists _, _|]. exists (m_db s), (Ok tt). by rewrite machine_same_db.
Qed.

(** A handle whose thread is not cancelled ends as its [persist]. *)
Lemma handle_of_thread polls st info c inputs (s s' : machine) h r0 :
  wh_future h = Some (execute_workflow_wthread serializer polls st info c inputs) →
  is_within_workflow c = false → wf_class_roles info = None → wf_required_roles info = None →
  m_active s !! wi_workflow_uuid st = None → Blind (run_workflow (entered c) (wf_func info inputs)) → uncancelled h s →
  finish (handle_result serializer polls h) s = (s', Some r0) →
  finish (persist serializer polls st (run_workflow (entered c) (wf_func info inputs))) s = (s', Some r0).
Proof.
  intros Hf Hw Hcr Hrr Hidle Hb Hunc. unfold handle_result. rewrite Hf, finish_and_then.
  destruct (finish (execute_workflow_wthread _ _ _ _ _ _) _) as [s3 [r1|]] eqn:Hrun; [|done]. intros Hh.
  rewrite (wthread_persists polls st info c inputs s _ _ Hw Hcr Hrr Hidle Hb Hrun).
  destruct r1 as [v|e]; [by injection Hh as <- <-|].
  destruct (Hunc _ _ _ Hf Hrun) as [Hu1 Hu2].
  destruct e; try (by injection Hh as <- <-); [by destruct (Hu1 workflow_id)|by destruct (Hu2 msg)].
Qed.

(** An invocation ends as the handle of a start. *)
Lemma invoke_as_handle polls app_id app_version uuid xid (info : workflow_info) inputs local local' new p h r0 (s s1 s' : machine) :
  plain_context local → wf_class_roles info = None → wf_required_roles info = None → plain_type info →
  ser_name serializer ≠ ser_name DBOSPortableJSON →
  (∀ ctx, Blind (run_workflow ctx (wf_func info inputs))) →
  create_start_workflow_child executor_id app_id uuid local = Ok (local', new) →
  wh_workflow_id h = cx_id_assigned_for_next_workflow new → wh_workflow_id h ≠ ""%string →
  (∀ row, workflow_status (m_db s) !! wh_workflow_id h = Some row → ws_owner_xid row ≠ Some xid) →
  m_active s !! wh_workflow_id h = None →
  start_workflow serializer executor_id polls app_id app_version uuid xid info inputs None true false false local = Ok (local', p) →
  finish p s = (s1, Some (Ok h)) → uncancelled h s1 →
  finish (handle_result serializer polls h) s1 = (s', Some r0) →
  finish (invoke_workflow serializer executor_id polls app_version xid info inputs None
            (get_timeout_deadline (time_ms (m_world s)) local None).2 None new) s = (s', Some r0).
Proof.
  intros [Heo Ht] Hcr Hrr Hty Hport Hblind Hchild Hid Hne Hown Hfree Hstart Hp Hunc Hh. rewrite Hid in Hne, Hown, Hfree.
  destruct (child_context_fresh _ _ _ _ _ Hchild) as (Hfresh & Hser & _).
  revert Hstart. unfold start_workflow. rewrite Hchild, Heo. cbv zeta. intros Hstart. revert Hp.
  match type of Hstart with Ok (_, ?q) = _ => assert (p = q) as -> by congruence end. clear Hstart.
  rewrite finish_bind, finish_act. cbn [fst snd gets]. rewrite Ht.
  set (dl := (get_timeout_deadline (time_ms (m_world s)) local None).2). rewrite finish_bind.
  unfold invoke_workflow, enter_workflow, check_and_init. rewrite Hfresh. unfold returns at 3. rewrite bind_returns.
  change (assume_role None _) with (entered new). rewrite !finish_bind.
  destruct (parent_reads (has_parent new) (cx_parent_workflow_id new) (cx_parent_workflow_fid new) (wf_name info) s) as [[a|e] ->]; [|done].
  destruct (nonempty (a ≫= rr_error)) as [error|].
  { rewrite finish_bind. unfold returns. destruct (deserialize_exception _ _ _); done. }
  destruct (nonempty (a ≫= rr_child_workflow_id)) as [child|].
  { cbn [finish mret process_ret]. intros [= <- <-]. unfold handle_result in Hh. cbn [wh_future polling_handle wh_workflow_id] in Hh.
    rewrite finish_bind, Hh. by destruct r0. }
  rewrite !finish_bind, (init_entered app_version xid new info inputs None dl _ s Hfresh Hty).
  destruct (finish (init_workflow _ _ _ _ _ _ _ _ _ _ _ _ _ _) s) as [s0 [[[[c st] b]|e]|]] eqn:Hinit; [|done..].
  destruct (init_admitted _ _ _ _ _ _ _ _ _ _ _ _ _ _ Hty Hser Hport Hne Hown Hinit)
    as (Hcs & Hcw & Hb & Huuid & Hq & Hk & Hact & Hpar & Hpw & Hpf).
  set (c' := c <| cx_serialization_type := _ |>).
  assert (has_parent c' = has_parent new ∧ cx_parent_workflow_id c' = cx_parent_workflow_id new ∧
          cx_parent_workflow_fid c' = cx_parent_workflow_fid new) as (-> & -> & ->) by done.
  rewrite !finish_bind.
  destruct (parent_records (has_parent new) (cx_parent_workflow_id new) (cx_id_assigned_for_next_workflow new)
    (cx_parent_workflow_fid new) (wf_name info) s0) as (d & [[]|e] & ->); [|done]. destruct b; cbn [negb orb].
  - destruct (Hb eq_refl) as [Hns Hpend]. rewrite Hpend.
    assert (c' = c) as ->.
    { subst c'. rewrite (bool_decide_eq_false_2 (wi_serialization st = _)) by done. by destruct Hty as [-> | ->]. }
    change (negb (not_complete PENDING)) with false. cbn [orb finish mret process_ret]. intros [= <- <-].
    assert (m_active (s0 <| m_db := d |>) !! wi_workflow_uuid st = None) as Hidle by (rewrite Huuid; simpl; by rewrite Hact).
    by refine (handle_of_thread polls st info c inputs _ _ _ _ _ (eq_trans Hcw Hfresh) Hcr Hrr Hidle (Hblind _) Hunc Hh).
  - intros [= <- <-]. unfold handle_result in Hh. cbn [wh_future polling_handle wh_workflow_id] in Hh.
    rewrite finish_bind, Huuid, Hh. by destruct r0.
Qed.

End call_lemmas.

(** ** The properties *)

Section call_properties.
Context {W : Type} `{Host W, Codecs} (serializer : Serializer) (executor_id : string).
Context (polls : nat) (app_id app_version uuid owner_xid : string).
Notation machine := (@machine W).
Notation workflow_info := (@workflow_info W).
Notation call_workflow := (call_workflow (W:=W) serializer executor_id polls app_id app_version uuid owner_xid).

(** C18: A workflow that calls another and has been checkpointed as its parent does not run
    it again when it is replayed, whatever the function and the arguments are now: the
    call answers with the outcome of the child, and adds to the database no more than the
    checkpoint of the result, if that is not there yet. *)
Theorem called_child_not_run_again (info : workflow_info) inputs ctx prow child r (s : machine) :
  let wid := cx_workflow_id ctx in
  let fid := (cx_function_id ctx + 1)%Z in
  0 < polls → is_workflow ctx = true → cx_id_assigned_for_next_workflow ctx = "" →
  is_ok (check_required_roles (wf_name info) (wf_class_roles info) (wf_required_roles info) (Some ctx)) = true →
  workflow_status (m_db s) !! wid = Some prow → ws_status prow ≠ CANCELLED →
  operation_outputs (m_db s) !! (wid, fid) = Some (child_row child (wf_name info)) → child ≠ "" →
  settled_result serializer (m_db s) child r → checkpointable serializer r →
  ∃ d', finish (call_workflow info inputs (Some ctx)).2 s = (s <| m_db := d' |>, Some r) ∧
    workflow_status d' = workflow_status (m_db s) ∧
    (∀ k, k ≠ (wid, fid + 1)%Z → operation_outputs d' !! k = operation_outputs (m_db s) !! k) ∧
    (is_Some (operation_outputs (m_db s) !! (wid, fid + 1)%Z) → d' = m_db s) ∧
    is_Some (operation_outputs d' !! (wid, fid + 1)%Z).
Proof.
  intros wid fid Hpolls Hw Hn Hroles Hp Hpc Hrow Hchild Hset Hck.
  unfold Calls.call_workflow. destruct (check_required_roles _ _ _ _) as [rr|]; [|done].
  destruct (create_start_workflow_child_eq executor_id app_id uuid ctx Hw Hn) as (new & Heq & Hid & Hparent).
  assert (cx_parent_workflow_fid new = fid) as Hfid.
  { revert Heq. unfold create_start_workflow_child. assert (is_within_workflow ctx = true) as ->.
    { unfold is_workflow in Hw. unfold is_within_workflow. by destruct (negb (bool_decide (cx_workflow_id ctx = ""))). }
    rewrite Hw. simpl. rewrite Hn. simpl. by intros [= _ <-]. }
  pose proof (child_context_fresh executor_id app_id uuid _ _ _ Heq) as (Hfresh & _).
  rewrite Heq. unfold snapshot_result_ctx. rewrite is_workflow_function_id, Hw. cbn [snapshot_step_ctx create_child snd].
  rewrite finish_bind, finish_act. cbn [fst snd gets]. rewrite finish_and_then.
  assert (∀ t dl, finish (invoke_workflow serializer executor_id polls app_version owner_xid info inputs t dl rr new) s =
                  (s, Some r)) as Hinv.
  { intros t dl. unfold invoke_workflow, enter_workflow. rewrite Hfresh, finish_bind. unfold returns. cbn [finish]. rewrite finish_bind.
    assert (∀ c, finish (check_and_init serializer executor_id polls app_version owner_xid info inputs t dl new c) s =
       (s, Some (match r with Ok v => Ok (inl v) | Err e => Err e end))) as Hci.
    { intros c. unfold check_and_init. assert (has_parent new = true) as ->.
      { unfold has_parent. rewrite Hparent. unfold is_workflow in Hw. by destruct (bool_decide (cx_workflow_id ctx = "")). }
      rewrite finish_bind, finish_database, Hparent, Hfid.
      rewrite check_operation_execution_eq. fold wid. unfold check_result. rewrite Hp, Hrow.
      destruct (ws_status prow) eqn:Hst; try done;
        simpl; rewrite bool_decide_eq_false_2 by (by intros []); cbn [fst snd mbind option_bind rr_error rr_child_workflow_id nonempty child_row oo_error oo_child_workflow_id];
        rewrite bool_decide_eq_false_2 by done; rewrite finish_bind;
        rewrite machine_same_db, (await_settled_result serializer polls child r s Hpolls Hset); by destruct r. }
    rewrite Hci. by destruct r. }
  rewrite Hinv.
  destruct (record_result_finish serializer (cx_id_assigned_for_next_workflow new)
    (snapshot_step_ctx false (ctx <| cx_function_id := fid |>)).2 r s Hck) as (d' & Hd' & H1 & H2 & H3 & H4).
  { unfold workflow_exists. simpl. fold wid. by rewrite Hp. }
  exists d'. split; [exact Hd'|]. split; [done|]. split; [exact H2|]. split; [intros [row ?]; by eapply H3|].
  destruct H4 as [row ?]. by exists row.
Qed.

(** C17: Calling a workflow function is the same as starting the workflow and getting the
    result of its handle: in a context without enqueue options or a timeout, for a function
    without roles and with the default format that does not look at how it was invoked
    ([Blind]), and an execution that is not cancelled, the two leave the same database and world, and end with the same result. *)
Theorem call_is_start_and_get (info : workflow_info) inputs local local' new p h left r (s s1 s2 : machine) :
  plain_context local → wf_class_roles info = None → wf_required_roles info = None → plain_type info →
  ser_name serializer ≠ ser_name DBOSPortableJSON →
  (∀ ctx, Blind (run_workflow ctx (wf_func info inputs))) →
  create_start_workflow_child executor_id app_id uuid local = Ok (local', new) →
  wh_workflow_id h = cx_id_assigned_for_next_workflow new → wh_workflow_id h ≠ ""%string →
  (∀ row, workflow_status (m_db s) !! wh_workflow_id h = Some row → ws_owner_xid row ≠ Some owner_xid) →
  m_active s !! wh_workflow_id h = None →
  start_workflow serializer executor_id polls app_id app_version uuid owner_xid info inputs None true false false local = Ok (local', p) →
  finish p s = (s1, Some (Ok h)) → uncancelled h s1 →
  finish (get_result serializer polls h local') s1 = (s2, Some (Ok (left, r))) →
  finish (call_workflow info inputs local).2 s = (s2, Some r).
Proof.
  intros Hplain Hcr Hrr Hty Hport Hblind Hchild Hid Hne Hown Hfree Hstart Hp Hunc Hget.
  unfold get_result in Hget. rewrite finish_and_then in Hget.
  destruct (finish (handle_result serializer polls h) s1) as [s' [r0|]] eqn:Hh; [|done].
  eapply call_of_invoked; [done..| |exact Hget]. by eapply invoke_as_handle.
Qed.

End call_properties.

(** ** Witnesses *)

#[local] Existing Instance sample_codecs.

(** The letters sent by a call of the workflow, as "u". *)
Definition letter_call : option DBOSContext → process (machine (W:=mailbox)) pyval := λ ctx,
  (@call_workflow mailbox mailbox_host sample_codecs letter_serializer "exec" 3 "app" "v1" "u" "x" letters
     {| args := []; kwargs := [] |} ctx).2.

Definition fresh_machine : machine (W:=mailbox) := Machine empty_db (Mailbox 0 []) ∅.

(** A caller whose child "c" is done. *)
Definition replayed_caller : machine (W:=mailbox) :=
  Machine ((sample_db [("w", letters_row);
                       ("c", letters_row <| ws_status := SUCCESS |> <| ws_output := Some (sample_pickle (inl "done")) |>)])
           <| operation_outputs := {[ ("w", 1%Z) := child_row "c" "wf" ]} |>) (Mailbox 0 []) ∅.

Lemma called_child_not_run_again_witness :
  ∃ d', finish (letter_call (Some sample_ctx)) replayed_caller = (replayed_caller <| m_db := d' |>, Some (Ok (PStr "done"))) ∧
    workflow_status d' = workflow_status (m_db replayed_caller).
Proof.
  destruct (@called_child_not_run_again mailbox mailbox_host sample_codecs letter_serializer "exec" 3 "app" "v1" "u" "x"
    letters {| args := []; kwargs := [] |} sample_ctx letters_row "c" (Ok (PStr "done")) replayed_caller)
    as (d' & Hd' & Hs & _).
  - lia.
  - reflexivity.
  - reflexivity.
  - reflexivity.
  - reflexivity.
  - discriminate.
  - reflexivity.
  - discriminate.
  - reflexivity.
  - reflexivity.
  - exists d'. split; [exact Hd'|exact Hs].
Defined.

Definition letter_start : process (machine (W:=mailbox)) workflow_handle :=
  match @start_workflow mailbox mailbox_host sample_codecs letter_serializer "exec" 3 "app" "v1" "u" "x" letters
          {| args := []; kwargs := [] |} None true false false None with
  | Ok (_, p) => p
  | Err _ => Waits
  end.

Definition letter_handle : workflow_handle :=
  match (finish letter_start fresh_machine).2 with Some (Ok h) => h | _ => polling_handle "" end.

Lemma answered_ok {A} (x : machine (W:=mailbox) * option (res pyexn A)) a0 :
  (match x.2 with Some (Ok _) => True | _ => False end) → x = (x.1, Some (Ok (match x.2 with Some (Ok a) => a | _ => a0 end))).
Proof. by destruct x as [s [[a|e]|]]. Qed.

Lemma ended_with {A} (x : machine (W:=mailbox) * A) a : x.2 = a → x = (x.1, a).
Proof. by destruct x as [s a'] => /= ->. Qed.

Lemma letters_blind ctx : Blind (run_workflow ctx (wf_func letters {| args := []; kwargs := [] |})).
Proof.
  revert ctx. apply blind_call; [apply _|]. intros r. apply blind_call; [apply _|]. intros r' ctx. apply blind_returns.
Qed.

Lemma call_is_start_and_get_witness :
  let s1 := (finish letter_start fresh_machine).1 in
  let s2 := (finish (@get_result mailbox mailbox_host sample_codecs letter_serializer 3 letter_handle None) s1).1 in
  finish (letter_call None) fresh_machine = (s2, Some (Ok (PStr "done"))) ∧ mb_sent (m_world s2) = ["a"; "b"].
Proof.
  intros s1 s2. split; [|vm_compute; reflexivity].
  refine (@call_is_start_and_get mailbox mailbox_host sample_codecs letter_serializer "exec" 3 "app" "v1" "u" "x"
    letters {| args := []; kwargs := [] |} None None ((new_context "exec" "app") <| cx_id_assigned_for_next_workflow := "u" |>)
    letter_start letter_handle None (Ok (PStr "done"))
    fresh_machine s1 s2 _ _ _ _ _ letters_blind _ _ _ _ _ _ _ _ _).
  - split; reflexivity.
  - reflexivity.
  - reflexivity.
  - left. reflexivity.
  - discriminate.
  - reflexivity.
  - reflexivity.
  - discriminate.
  - intros row Hrow. discriminate Hrow.
  - reflexivity.
  - reflexivity.
  - apply answered_ok. vm_compute. exact I.
  - apply (returns_uncancelled _ (PStr "done")). vm_compute. reflexivity.
  - refine (ended_with _ (Some (Ok (None, Ok (PStr "done")))) _). vm_compute. reflexivity.
Defined.
