(* ===== verification/Operations.v ===== *)
(** * The operations of DBOS a workflow calls: the wrappers of [dbos/_core.py] and [dbos/_dbos.py]

    Each operation takes the context it is called in, takes the function IDs it needs from
    its counter ([snapshot_step_context]), and calls the system database, as a step when a
    workflow calls it. Some write their checkpoint in the transaction of their effect
    ([send_bulk], [set_event], [write_stream], [sleep]); the others go through
    [call_function_as_step] and write it after ([cancel_workflows] and the like).

    [Replays] is what an operation owes a workflow that is executed again: it answers what
    it answered; [Atomic] is one that a crash leaves undone or done, with its checkpoint.
    [api_operation] are the operations of the API, each of which is proved to keep to these;
    [ran] is an execution of them up to some call, with whatever others did meanwhile. *)
From Stdlib Require Import QArith.
From S2P Require Import Prelude Errors Schema Retry Serialization Workflows Context Steps Events Forks Messages Queues Streams Process Execution Durability Recovery System Calls.
Open Scope nat_scope.

(** ** Contexts *)

(** [snapshot_step_context]: the thread's context as it is left, and the one of the step. *)
Definition snapshot_step_context (reserve_sleep_id : bool) (local : option DBOSContext) :
    option DBOSContext * option DBOSContext :=
  match local with
  | None => (None, None)
  | Some ctx =>
      if is_workflow ctx then let '(ctx, step_ctx) := snapshot_step_ctx reserve_sleep_id ctx in (Some ctx, Some step_ctx)
      else (Some ctx, Some ctx)
  end.

(** [EnterDBOSStepCtx], when a workflow calls. *)
Definition enter_step_ctx (ctx : DBOSContext) : DBOSContext := start_step (cx_function_id ctx) ctx.

(** A format that is not given, or the default one, is the context's. *)
Definition inherited_format (serialization_type : option WorkflowSerializationFormat) (cur_ctx : option DBOSContext) :
    WorkflowSerializationFormat :=
  match serialization_type with
  | None | Some DEFAULT => match cur_ctx with Some c => cx_serialization_type c | None => DEFAULT end
  | Some t => t
  end.

Section operations.
Context {W : Type} `{Host W, Codecs} (serializer : Serializer) (executor_id : string).
(** The IDs [uuid4] draws. *)
Context (uuids : W → nat → string).
Notation machine := (@machine W).
Notation operation := (@operation W).
Notation await_result := (await_result (W:=W) serializer).

(** An operation of the API: the thread's context as it is left, and the call. *)
Definition api_call : Type := option DBOSContext → option DBOSContext * process machine pyval.

(** The call of an operation in a workflow. *)
Definition in_workflow (call : api_call) : operation := λ ctx,
  let '(local, p) := call (Some ctx) in (default ctx local, p).

(** A statement without a result. *)
Definition does (m : W → dbM unit) : process machine pyval := _ ← database m; mret PNone.

(** ** [dbos/_core.py] *)

Definition send_bulk (cur_ctx : option DBOSContext) (messages : list SendMessage)
    (serialization_type : option WorkflowSerializationFormat) (function_name : string) (send_to_forks : bool) :
    process machine pyval :=
  let serialization_type := inherited_format serialization_type cur_ctx in
  let workflow :=
    match cur_ctx with
    | Some c => if is_workflow c then let ctx := enter_step_ctx c in Some (cx_workflow_id ctx, cx_curr_step_function_id ctx)
                else None
    | None => None
    end in
  does (λ w, Messages.send_bulk (Some executor_id) serializer (now_ms w) (uuids w) (time_ms w) (time_ms w) messages
               (Some serialization_type) workflow function_name send_to_forks).

Definition set_event (cur_ctx : option DBOSContext) (key : string) (value : pyval)
    (serialization_type : option WorkflowSerializationFormat) : process machine pyval :=
  let serialization_type := inherited_format serialization_type cur_ctx in
  match cur_ctx with
  | Some c =>
      if is_workflow c then
        let ctx := enter_step_ctx c in
        does (λ w, set_event_from_workflow (Some executor_id) serializer (time_ms w) (time_ms w) (cx_workflow_id ctx)
                     (cx_curr_step_function_id ctx) key value (Some serialization_type))
      else if is_step c then
        does (λ _, set_event_from_step serializer (cx_workflow_id c) (cx_curr_step_function_id c) key value
                     (Some serialization_type))
      else Returns (Err (DBOSException "set_event() must be called from within a workflow or step"))
  | None => Returns (Err (DBOSException "set_event() must be called from within a workflow or step"))
  end.

(** [record_sleep], in milliseconds: what is left of the sleep. *)
Definition record_sleep (cur_ctx : option DBOSContext) (milliseconds : Z) : process machine Z :=
  match cur_ctx with
  | Some c =>
      if is_workflow c then
        let ctx := enter_step_ctx c in
        database (λ w, Steps.record_sleep (Some executor_id) serializer (time_ms w) (time_ms w) (time_ms w) (time_ms w)
                         (cx_workflow_id ctx) (cx_curr_step_function_id ctx) milliseconds)
      else Returns (Err (AssertionError "sleep() must be called from within a workflow"))
  | None => Returns (Err (DBOSException "sleep() must be called from within a workflow"))
  end.

(** The attempts of a write, each a transaction of its own. *)
Fixpoint write_loop (fuel : nat) (attempt : W → dbM bool) : process machine pyval :=
  match fuel with
  | O => Waits
  | S fuel' => written ← database attempt; if written : bool then mret PNone else write_loop fuel' attempt
  end.

(** The writes of [write_stream_from_workflow] and [close_stream], and of
    [write_stream_from_step]. *)
Definition write_from_workflow (fuel : nat) (workflow_id : string) (function_id : Z) (key : string) (value : pyval)
    (serialization_type : option WorkflowSerializationFormat) : process machine pyval :=
  '(x, n) ← returns (serialize_value value serialization_type serializer);
  write_loop fuel (λ w, write_stream_txn (Some executor_id) id workflow_id function_id key (stream_function_name value) x n
                          (time_ms w) (time_ms w)).

Definition write_from_step (fuel : nat) (workflow_id : string) (function_id : Z) (key : string) (value : pyval)
    (serialization_type : option WorkflowSerializationFormat) : process machine pyval :=
  '(x, n) ← returns (serialize_value value serialization_type serializer);
  write_loop fuel (λ _, try_integrity (engine_begin (execute_res (stream_insert id workflow_id function_id key x n)))).

Definition write_stream (fuel : nat) (step_ctx : option DBOSContext) (key : string) (value : pyval)
    (serialization_type : option WorkflowSerializationFormat) : process machine pyval :=
  let serialization_type := inherited_format serialization_type step_ctx in
  match step_ctx with
  | Some c =>
      if is_workflow c then
        let ctx := enter_step_ctx c in
        write_from_workflow fuel (cx_workflow_id ctx) (cx_function_id ctx) key value (Some serialization_type)
      else if is_step c then
        write_from_step fuel (cx_workflow_id c) (cx_function_id c) key value (Some serialization_type)
      else Returns (Err (DBOSException "write_stream() must be called from within a workflow or step"))
  | None => Returns (Err (DBOSException "write_stream() must be called from within a workflow or step"))
  end.

Definition close_stream (fuel : nat) (step_ctx : option DBOSContext) (key : string) : process machine pyval :=
  match step_ctx with
  | Some c =>
      if is_workflow c then
        let ctx := enter_step_ctx c in
        write_from_workflow fuel (cx_workflow_id ctx) (cx_function_id ctx) key (PStr dbos_stream_closed_sentinel) (Some PORTABLE)
      else Returns (Err (DBOSException "close_stream() must be called from within a workflow"))
  | None => Returns (Err (DBOSException "close_stream() must be called from within a workflow"))
  end.

(** [call_function_as_step], one statement after the other: the function's effect is there
    before its checkpoint is. *)
Definition call_function_as_step (fn : process machine pyval) (function_name : string) (ctx : option DBOSContext) :
    process machine pyval :=
  match ctx with
  | None => fn
  | Some ctx =>
      if is_transaction ctx then
        Returns (Err (PyException ("Invalid call to `" +:+ function_name +:+ "` inside a transaction")))
      else if is_workflow ctx then
        start_time ← act (gets (λ s, time_ms (m_world s)));
        res ← database (λ _, check_operation_execution (cx_workflow_id ctx) (cx_function_id ctx) function_name);
        match res with
        | Some recorded => returns (replay serializer function_name recorded)
        | None =>
            result ← fn;
            '(serval, serialization) ← returns (serialize_value result None serializer);
            _ ← record_result executor_id
                  (step_result ctx function_name start_time (Some serval) None (Some serialization));
            mret result
        end
      else fn
  end.

(** ** [dbos/_dbos.py] *)

(** A call that is made with the context of a step of its own. *)
Definition with_step_ctx (reserve_sleep_id : bool) (call : option DBOSContext → process machine pyval) : api_call := λ local,
  let '(local, step_ctx) := snapshot_step_context reserve_sleep_id local in (local, call step_ctx).

Definition DBOS_send (destination_id : string) (message : pyval) (topic idempotency_key : option string)
    (serialization_type : option WorkflowSerializationFormat) (send_to_forks : bool) : api_call :=
  with_step_ctx false (λ ctx,
    send_bulk ctx [{| sm_destination_id := destination_id; sm_message := message; sm_topic := topic;
                      sm_idempotency_key := idempotency_key |}] serialization_type "DBOS.send" send_to_forks).

Definition DBOS_send_bulk (messages : list SendMessage) (serialization_type : option WorkflowSerializationFormat)
    (send_to_forks : bool) : api_call :=
  with_step_ctx false (λ ctx, send_bulk ctx messages serialization_type "DBOS.send_bulk" send_to_forks).

Definition DBOS_set_event (key : string) (value : pyval) (serialization_type : option WorkflowSerializationFormat) : api_call :=
  with_step_ctx false (λ ctx, set_event ctx key value serialization_type).

(** A sleep of no time takes no function ID. *)
Definition DBOS_sleep (milliseconds : Z) : api_call := λ local,
  if bool_decide (milliseconds ≤ 0)%Z then (local, mret PNone)
  else with_step_ctx false (λ ctx,
    duration ← record_sleep ctx milliseconds;
    _ ← act (modify (λ s, s <| m_world := sleep (duration # 1000) (m_world s) |>));
    mret PNone) local.

Definition DBOS_write_stream (fuel : nat) (key : string) (value : pyval)
    (serialization_type : option WorkflowSerializationFormat) : api_call :=
  with_step_ctx false (λ ctx, write_stream fuel ctx key value serialization_type).

Definition DBOS_close_stream (fuel : nat) (key : string) : api_call :=
  with_step_ctx false (λ ctx, close_stream fuel ctx key).

(** A function of the system database called as a step. *)
Definition as_step (fn : process machine pyval) (function_name : string) : api_call :=
  with_step_ctx false (call_function_as_step fn function_name).

Definition DBOS_get_result (polls : nat) (workflow_id : string) : api_call :=
  as_step (await_result polls workflow_id) "DBOS.getResult".

Definition DBOS_get_all_events (workflow_id : string) : api_call :=
  as_step (database (λ _ d, (d, match get_all_events serializer d workflow_id with
                                | Ok l => Ok (PDict (prod_map PStr id <$> l))
                                | Err e => Err e
                                end))) "DBOS.get_events".

Definition DBOS_cancel_workflows (workflow_ids : list string) (cancel_children : bool) : api_call :=
  as_step (Act (λ s, match cancel_workflows (now_ms (m_world s)) workflow_ids cancel_children (m_db s) with
                     | Some d => (s <| m_db := d |>, mret PNone)
                     | None => (s, Waits)
                     end)) "DBOS.cancelWorkflow".

Definition DBOS_cancel_workflow (workflow_id : string) (cancel_children : bool) : api_call :=
  DBOS_cancel_workflows [workflow_id] cancel_children.

(** The handles are made of the IDs. *)
Definition DBOS_resume_workflows (workflow_ids : list string) (queue_name : option string) : api_call :=
  as_step (does (λ w, resume_workflows (now_ms w) workflow_ids queue_name)) "DBOS.resumeWorkflow".

Definition DBOS_set_workflow_delay (workflow_id : string) (delay_seconds delay_until_epoch_ms : option Z) : api_call :=
  as_step (does (λ w, set_workflow_delay (now_ms w) (time_ms w) workflow_id delay_seconds delay_until_epoch_ms))
    "DBOS.setWorkflowDelay".

Definition DBOS_update_workflow_attributes (workflow_id : string) (attributes : option pyval) : api_call :=
  as_step (does (λ w, update_workflow_attributes (now_ms w) workflow_id attributes)) "DBOS.updateWorkflowAttributes".

End operations.

(** ** What a workflow that is executed again relies on *)

(** The checkpoints of [wid] stay as they are; others may come. *)
Definition keeps_checkpoints (wid : string) (d d' : db) : Prop :=
  ∀ fid row, operation_outputs d !! (wid, fid) = Some row → operation_outputs d' !! (wid, fid) = Some row.

(** The checkpoints of [wid] are the same ones. *)
Definition same_checkpoints (wid : string) (d d' : db) : Prop :=
  ∀ fid, operation_outputs d' !! (wid, fid) = operation_outputs d !! (wid, fid).

Section replays.
Context {W : Type} `{Host W}.
Notation machine := (@machine W).
Notation operation := (@operation W).

(** The checkpoint of the call, if there is one, is of this operation. *)
Definition expected (op : operation) (name : string) (ctx : DBOSContext) (d : db) : Prop :=
  ∀ row, operation_outputs d !! next_key op ctx = Some row → oo_function_name row = name.

Definition has_checkpoint (op : operation) (name : string) (ctx : DBOSContext) (d : db) : Prop :=
  ∃ row, operation_outputs d !! next_key op ctx = Some row ∧ oo_function_name row = name.

(** The interface: a call leaves the other checkpoints of the workflow alone, its own when it
    returns a value, and once it has left that, it answers the same again and leaves the
    database as it is. *)
Class Replays (op : operation) (name : string) : Prop := {
  replays_advances ctx : is_workflow ctx = true →
    is_workflow (op ctx).1 = true ∧ cx_workflow_id (op ctx).1 = cx_workflow_id ctx;
  replays_keeps ctx s s' r :
    is_workflow ctx = true → active (cx_workflow_id ctx) (m_db s) → expected op name ctx (m_db s) →
    finish (op ctx).2 s = (s', Some r) → keeps_checkpoints (cx_workflow_id ctx) (m_db s) (m_db s');
  replays_again ctx s s' r s2 row :
    is_workflow ctx = true → active (cx_workflow_id ctx) (m_db s) → expected op name ctx (m_db s) →
    finish (op ctx).2 s = (s', Some r) →
    operation_outputs (m_db s') !! next_key op ctx = Some row → oo_function_name row = name →
    active (cx_workflow_id ctx) (m_db s2) → operation_outputs (m_db s2) !! next_key op ctx = Some row →
    ∃ w', finish (op ctx).2 s2 = (s2 <| m_world := w' |>, Some r);
  replays_leaves ctx s s' v :
    is_workflow ctx = true → active (cx_workflow_id ctx) (m_db s) → expected op name ctx (m_db s) →
    finish (op ctx).2 s = (s', Some (Ok v)) → has_checkpoint op name ctx (m_db s');
  replays_crash ctx s n s' :
    is_workflow ctx = true → active (cx_workflow_id ctx) (m_db s) → expected op name ctx (m_db s) →
    run_for n (op ctx).2 s = (s', None) → keeps_checkpoints (cx_workflow_id ctx) (m_db s) (m_db s');
}.

(** What a crash in the middle of the call leaves of it in the database: nothing, or all that
    the whole call leaves, its checkpoint with it. *)
Class Atomic (op : operation) (name : string) : Prop :=
  atomic_crash ctx s n s' :
    is_workflow ctx = true → active (cx_workflow_id ctx) (m_db s) → expected op name ctx (m_db s) →
    run_for n (op ctx).2 s = (s', None) →
    m_db s' = m_db s ∨ (m_db s' = m_db (finish (op ctx).2 s).1 ∧ has_checkpoint op name ctx (m_db s')).

(** An execution up to some call: each operation before it is one of [api], and returned a
    value or left a checkpoint of what it raised; between two of them others did what they
    liked, but for the workflow's checkpoints. *)
Inductive ran (api : operation → string → Prop) : DBOSContext → workflow (W:=W) → machine → DBOSContext → workflow (W:=W) → machine → Prop :=
| ran_here ctx wf s : ran api ctx wf s ctx wf s
| ran_call op name k ctx s s1 r s2 ctx' wf' s' : api op name →
    active (cx_workflow_id ctx) (m_db s) → expected op name ctx (m_db s) →
    finish (op ctx).2 s = (s1, Some r) → is_ok r = true ∨ has_checkpoint op name ctx (m_db s1) →
    keeps_checkpoints (cx_workflow_id ctx) (m_db s1) (m_db s2) →
    ran api (op ctx).1 (k r) s2 ctx' wf' s' → ran api ctx (WCall op k) s ctx' wf' s'.

End replays.

(** The operations of the API in a workflow, with the names of their checkpoints: those whose
    effect on the database and checkpoint are one, and those that are called as steps, whose
    effect is there before their checkpoint. *)
Section catalogue.
Context {W : Type} `{Host W, Codecs} (serializer : Serializer) (executor_id : string) (uuids : W → nat → string).

Inductive api_operation : operation (W:=W) → string → bool → Prop :=
| api_send dest v topic key ty tf :
    api_operation (in_workflow (DBOS_send serializer executor_id uuids dest v topic key ty tf)) "DBOS.send" true
| api_send_bulk messages ty tf :
    api_operation (in_workflow (DBOS_send_bulk serializer executor_id uuids messages ty tf)) "DBOS.send_bulk" true
| api_set_event key v ty :
    api_operation (in_workflow (DBOS_set_event serializer executor_id key v ty)) "DBOS.setEvent" true
| api_sleep ms : (0 < ms)%Z → api_operation (in_workflow (DBOS_sleep serializer executor_id ms)) "DBOS.sleep" true
| api_write_stream fuel key v ty :
    api_operation (in_workflow (DBOS_write_stream serializer executor_id fuel key v ty)) (stream_function_name v) true
| api_close_stream fuel key :
    api_operation (in_workflow (DBOS_close_stream serializer executor_id fuel key)) "DBOS.closeStream" true
| api_step name opts func :
    (so_retries_allowed opts = true → (0 < so_max_attempts opts)%Z) →
    (∀ ctx w, ∃ w' r, finish (step_attempt name opts func ctx) w = (w', Some r) ∧ recordable serializer r) →
    api_operation (step serializer executor_id name None None opts func) name true
| api_get_result polls workflow_id :
    api_operation (in_workflow (DBOS_get_result serializer executor_id polls workflow_id)) "DBOS.getResult" false
| api_get_all_events workflow_id :
    api_operation (in_workflow (DBOS_get_all_events serializer executor_id workflow_id)) "DBOS.get_events" false
| api_cancel_workflows ids children :
    api_operation (in_workflow (DBOS_cancel_workflows serializer executor_id ids children)) "DBOS.cancelWorkflow" false
| api_resume_workflows ids queue_name :
    api_operation (in_workflow (DBOS_resume_workflows serializer executor_id ids queue_name)) "DBOS.resumeWorkflow" false
| api_set_workflow_delay workflow_id delay until :
    api_operation (in_workflow (DBOS_set_workflow_delay serializer executor_id workflow_id delay until)) "DBOS.setWorkflowDelay" false
| api_update_attributes workflow_id attributes :
    api_operation (in_workflow (DBOS_update_workflow_attributes serializer executor_id workflow_id attributes))
      "DBOS.updateWorkflowAttributes" false.

Definition api (op : operation (W:=W)) (name : string) : Prop := ∃ whole, api_operation op name whole.
End catalogue.

Section replay_lemmas.
Context {W : Type} `{Host W}.
Notation machine := (@machine W).
Notation operation := (@operation W).

#[export] Instance keeps_checkpoints_preorder wid : PreOrder (keeps_checkpoints wid).
Proof. split; unfold keeps_checkpoints; eauto. Qed.

Lemma same_checkpoints_kept wid d d' : same_checkpoints wid d d' → keeps_checkpoints wid d d'.
Proof. intros Hs fid row. by rewrite Hs. Qed.

Section run_again.
Context (api : operation → string → Prop) (api_replays : ∀ op name, api op name → Replays op name).

Lemma ran_workflow ctx wf s ctx' wf' s' :
  ran api ctx wf s ctx' wf' s' → is_workflow ctx = true →
  is_workflow ctx' = true ∧ cx_workflow_id ctx' = cx_workflow_id ctx ∧ keeps_checkpoints (cx_workflow_id ctx) (m_db s) (m_db s').
Proof.
  induction 1 as [|op name k ctx s s1 r s2 ctx' wf' s' HR%api_replays Ha He Hf _ Hk _ IH]; intros Hw; [done|].
  destruct (replays_advances ctx Hw) as [Hw1 Hid]. destruct (IH Hw1) as (Hw' & Hid' & Hk'). rewrite Hid in *.
  split_and!; [done|done|]. pose proof (replays_keeps _ _ _ _ Hw Ha He Hf). by do 2 etrans.
Qed.

(** The calls that have been made answer again what they answered, and change nothing. *)
Lemma run_again ctx wf s ctx' wf' s' s2 :
  ran api ctx wf s ctx' wf' s' → is_workflow ctx = true →
  keeps_checkpoints (cx_workflow_id ctx) (m_db s') (m_db s2) → active (cx_workflow_id ctx) (m_db s2) →
  ∃ w', finish (run_workflow ctx wf) s2 = finish (run_workflow ctx' wf') (s2 <| m_world := w' |>).
Proof.
  intros Hran. revert s2. induction Hran as [ctx wf s|op name k ctx s s1 r t ctx' wf' s' HR%api_replays Ha He Hf Hr Hk Hran IH];
    intros s2 Hw Hkeep Hact.
  - exists (m_world s2). by destruct s2.
  - destruct (replays_advances ctx Hw) as [Hw1 Hid].
    assert (has_checkpoint op name ctx (m_db s1)) as (row & Hrow & Hn).
    { destruct Hr as [Hok|?]; [|done]. destruct r as [v|e]; [|done]. by apply (replays_leaves ctx s s1 v). }
    rewrite <- Hid in Hk, Hkeep, Hact. destruct (ran_workflow _ _ _ _ _ _ Hran Hw1) as (_ & _ & Hk').
    assert (operation_outputs (m_db s2) !! next_key op ctx = Some row) as Hr2.
    { unfold next_key in *. rewrite <- Hid in *. by apply Hkeep, Hk', Hk. }
    rewrite Hid in Hact.
    destruct (replays_again ctx s s1 r s2 row Hw Ha He Hf Hrow Hn Hact Hr2) as [w1 Hw2].
    destruct (IH (Machine (m_db s2) w1 (m_active s2)) Hw1 Hkeep) as [w' Hw']; [by rewrite Hid|].
    exists w'. cbn [run_workflow]. destruct (op ctx) as [c1 p]. cbn [fst snd] in *.
    rewrite finish_and_then, Hw2. exact Hw'.
Qed.
End run_again.

End replay_lemmas.

(** ** Operations that are one statement *)

(** A statement that checks for its checkpoint first: it is repeated without effect, with
    an answer like the first, by [R]. *)
Class Repeatable {W A} (R : relation (res pyexn A)) (wid : string) (fid : Z) (name : string) (m : W → dbM A) : Prop := {
  rep_keeps w : moves (keeps_checkpoints wid) (m w);
  rep_checkpoint w d d' a : active wid d → operation_outputs d !! (wid, fid) = None → m w d = (d', Ok a) →
    ∃ row, operation_outputs d' !! (wid, fid) = Some row ∧ oo_function_name row = name;
  rep_rolls_back w d d' e : active wid d → operation_outputs d !! (wid, fid) = None → m w d = (d', Err e) → d' = d;
  rep_again w d d' r row w2 d2 :
    active wid d → (∀ row0, operation_outputs d !! (wid, fid) = Some row0 → oo_function_name row0 = name) →
    m w d = (d', r) → operation_outputs d' !! (wid, fid) = Some row → oo_function_name row = name →
    active wid d2 → operation_outputs d2 !! (wid, fid) = Some row →
    ∃ r', m w2 d2 = (d2, r') ∧ R r r';
}.

Section statements.
Context {W : Type} `{Host W}.
Notation machine := (@machine W).
Notation operation := (@operation W).

(** What follows the statement leaves the database alone, and is the same for answers that
    are alike. *)
Definition follows {A} (R : relation (res pyexn A)) (k : res pyexn A → process machine pyval) : Prop :=
  (∀ r n s, m_db (run_for n (k r) s).1 = m_db s) ∧
  (∀ r r' s s' a s2, R r r' → finish (k r) s = (s', Some a) → ∃ w', finish (k r') s2 = (s2 <| m_world := w' |>, Some a)) ∧
  ∀ e, k (Err e) = Returns (Err e).

Lemma finish_same_db {A} (p : process machine A) s : (∀ n, m_db (run_for n p s).1 = m_db s) → m_db (finish p s).1 = m_db s.
Proof.
  revert s. induction p as [r|f IH|] using process_nested_ind; intros s Hn; [done| |done]. simpl.
  destruct (f s) as [s1 p1] eqn:Hf. assert (m_db s1 = m_db s) as He.
  { specialize (Hn 1). simpl in Hn. rewrite Hf in Hn. by destruct p1. }
  rewrite <- He. specialize (IH s s1). rewrite Hf in IH. apply IH. intros n. rewrite He.
  specialize (Hn (S n)). simpl in Hn. by rewrite Hf in Hn.
Qed.

Lemma follows_finish {A} (R : relation (res pyexn A)) k r s s' a :
  follows R k → finish (k r) s = (s', a) → m_db s' = m_db s.
Proof. intros [Hk _] Hf. pose proof (finish_same_db (k r) s (λ n, Hk r n s)) as Hs. by rewrite Hf in Hs. Qed.

Section one_statement.
Context {A : Type} (R : relation (res pyexn A)) (op : operation) (name : string).
Context (m : DBOSContext → W → dbM A) (k : res pyexn A → process machine pyval).
Hypothesis op_eq : ∀ ctx, is_workflow ctx = true →
  op ctx = (ctx <| cx_function_id := (cx_function_id ctx + 1)%Z |>, and_then (database (m ctx)) k).
Hypothesis op_repeatable : ∀ ctx, is_workflow ctx = true →
  Repeatable R (cx_workflow_id ctx) (cx_function_id ctx + 1) name (m ctx).
Hypothesis op_follows : follows R k.

Lemma statement_key ctx : is_workflow ctx = true → next_key op ctx = (cx_workflow_id ctx, cx_function_id ctx + 1)%Z.
Proof. intros Hw. unfold next_key. by rewrite (op_eq ctx Hw). Qed.

Lemma statement_finish ctx s d1 r1 : is_workflow ctx = true →
  m ctx (m_world s) (m_db s) = (d1, r1) → m_db (finish (op ctx).2 s).1 = d1.
Proof.
  intros Hw Hm. rewrite (op_eq ctx Hw). cbn [snd]. rewrite finish_and_then, finish_database, Hm. cbn [fst snd].
  destruct op_follows as [Hsame _]. exact (finish_same_db (k r1) (s <| m_db := d1 |>) (λ n, Hsame r1 n _)).
Qed.

(** A crash: before the statement, or after it. *)
Lemma statement_crash ctx s n s' d1 r1 : is_workflow ctx = true →
  m ctx (m_world s) (m_db s) = (d1, r1) → run_for n (op ctx).2 s = (s', None) → m_db s' = m_db s ∨ m_db s' = d1.
Proof.
  intros Hw Hm. rewrite (op_eq ctx Hw). cbn [snd]. rewrite run_for_and_then. unfold database. rewrite run_for_act.
  destruct n as [|n]; [intros [= <-]; by left|]. rewrite Hm. cbn [fst snd]. intros Hrun. right.
  destruct op_follows as [Hsame _]. specialize (Hsame r1 n (s <| m_db := d1 |>)). by rewrite Hrun in Hsame.
Qed.

(** The checkpoint is there after the statement, unless that raised and did nothing. *)
Lemma statement_checkpoint ctx s d1 r1 : is_workflow ctx = true →
  active (cx_workflow_id ctx) (m_db s) → expected op name ctx (m_db s) → m ctx (m_world s) (m_db s) = (d1, r1) →
  has_checkpoint op name ctx d1 ∨ (d1 = m_db s ∧ is_ok r1 = false).
Proof.
  intros Hw Ha He Hm. unfold expected, has_checkpoint in *. rewrite (statement_key ctx Hw) in *.
  destruct (op_repeatable ctx Hw) as [Hk Hc Hb _]. specialize (Hk (m_world s) (m_db s)). rewrite Hm in Hk.
  destruct (operation_outputs (m_db s) !! (cx_workflow_id ctx, (cx_function_id ctx + 1)%Z)) as [row|] eqn:Hrow.
  - left. exists row. split; [by apply Hk|by apply He].
  - destruct r1 as [a|e]; [left; by eapply Hc|right; split; [by eapply Hb|done]].
Qed.

Lemma statement_replays : Replays op name.
Proof.
  destruct op_follows as (Hsame & Hagain & Herr). split.
  - intros ctx Hw. rewrite (op_eq ctx Hw). by destruct ctx.
  - intros ctx s s' r Hw Ha He. rewrite (op_eq ctx Hw). cbn [snd]. rewrite finish_and_then, finish_database. cbn [fst snd].
    intros Hf. rewrite (follows_finish R _ _ _ _ _ op_follows Hf).
    destruct (op_repeatable ctx Hw) as [Hk _ _ _]. apply Hk.
  - intros ctx s s' r s2 row Hw Ha He. unfold expected in He. rewrite (statement_key ctx Hw) in *.
    rewrite (op_eq ctx Hw). cbn [snd]. rewrite !finish_and_then, !finish_database. cbn [fst snd]. intros Hf Hr Hn Ha2 Hr2.
    rewrite (follows_finish R _ _ _ _ _ op_follows Hf) in Hr. simpl in Hr.
    destruct (m ctx (m_world s) (m_db s)) as [d1 r1] eqn:Hm.
    destruct (op_repeatable ctx Hw) as [_ _ _ Hrep].
    destruct (Hrep _ _ _ _ row (m_world s2) (m_db s2) Ha He Hm Hr Hn Ha2 Hr2) as (r2 & Hm2 & HR).
    rewrite Hm2. cbn [fst snd]. rewrite machine_same_db. exact (Hagain _ _ _ _ _ s2 HR Hf).
  - intros ctx s s' v Hw Ha He Hf. destruct (m ctx (m_world s) (m_db s)) as [d1 r1] eqn:Hm.
    pose proof (statement_finish _ _ _ _ Hw Hm) as Hd. rewrite Hf in Hd. cbn in Hd. rewrite Hd.
    destruct (statement_checkpoint _ _ _ _ Hw Ha He Hm) as [?|[_ Hr1]]; [done|]. destruct r1 as [|e]; [done|]. exfalso.
    rewrite (op_eq ctx Hw) in Hf. cbn [snd] in Hf. rewrite finish_and_then, finish_database, Hm in Hf. cbn [fst snd] in Hf.
    by rewrite Herr in Hf.
  - intros ctx s n s' Hw Ha He Hrun. destruct (m ctx (m_world s) (m_db s)) as [d1 r1] eqn:Hm.
    destruct (op_repeatable ctx Hw) as [Hk _ _ _]. specialize (Hk (m_world s) (m_db s)). rewrite Hm in Hk.
    by destruct (statement_crash _ _ _ _ _ _ Hw Hm Hrun) as [-> | ->].
Qed.

Lemma statement_atomic : Atomic op name.
Proof.
  intros ctx s n s' Hw Ha He Hrun. destruct (m ctx (m_world s) (m_db s)) as [d1 r1] eqn:Hm.
  rewrite (statement_finish _ _ _ _ Hw Hm).
  destruct (statement_crash _ _ _ _ _ _ Hw Hm Hrun) as [-> | ->]; [by left|].
  destruct (statement_checkpoint _ _ _ _ Hw Ha He Hm) as [?|[-> _]]; [by right|by left].
Qed.

End one_statement.
End statements.

(** ** The statements *)

(** All that can happen to workflows that are not deleted. *)
Definition lifecycle : list kind :=
  [Submit; Touch; Start; Requeue; Release; Park; Complete; Cancel; Resume; Checkpoint; Publish; Message; Configure].

Ltac in_kinds := unfold lifecycle; solve [repeat first [left | right]].

Lemma lifecycle_keeps wid d d' : changes lifecycle d d' → keeps_checkpoints wid d d'.
Proof.
  intros Hc fid row. apply (changes_in lifecycle history_kept) in Hc; [apply Hc|].
  intros k d1 d2 Hk. apply change_history_kept. intros ->. revert Hk. apply (bool_decide_unpack (Delete ∉ lifecycle)). done.
Qed.

Lemma lifecycle_moves {A} wid (m : dbM A) : moves (changes lifecycle) m → moves (keeps_checkpoints wid) m.
Proof. intros Hm d. apply lifecycle_keeps, Hm. Qed.

Definition recorded_of (row : operation_outputs_row) : RecordedResult := {|
  rr_output := oo_output row; rr_error := oo_error row; rr_serialization := oo_serialization row;
  rr_child_workflow_id := oo_child_workflow_id row |}.

Lemma check_present wid fid name d row :
  active wid d → operation_outputs d !! (wid, fid) = Some row → oo_function_name row = name →
  check_result d wid fid name = Ok (Some (recorded_of row)).
Proof.
  intros (r & Hr & Hs) Ho Hn. apply (check_result_kept wid fid name d d row); [|done|done].
  split; [done|]. by exists r.
Qed.

Lemma check_free wid fid name d :
  active wid d → operation_outputs d !! (wid, fid) = None → check_result d wid fid name = Ok None.
Proof. intros (r & Hr & Hs) Ho. unfold check_result. by rewrite Hr, bool_decide_eq_false_2, Ho. Qed.

Section statement_lemmas.
Context {W : Type} {A : Type} (wid : string) (fid : Z) (name : string).
Notation k := (wid, fid).

Lemma repeatable_ext R (m m' : W → dbM A) : (∀ w d, m w d = m' w d) → Repeatable R wid fid name m' → Repeatable R wid fid name m.
Proof.
  intros He [H1 H2 H3 H4]. split.
  - intros w d. rewrite He. apply H1.
  - intros w d d' a. rewrite He. apply H2.
  - intros w d d' e. rewrite He. apply H3.
  - intros w d d' r row w2 d2. rewrite !He. apply H4.
Qed.

(** A statement that raises before it reads the database. *)
Lemma failing_repeatable e : Repeatable eq wid fid name (λ (_ : W) d, (d, Err (A:=A) e)).
Proof.
  split; [by intros w d|done|by intros w d d' e' _ _ [= <-]|].
  intros w d d' r row w2 d2 _ _ [= <- <-] _ _ _ _. by eexists.
Qed.

(** A transaction that answers by its checkpoint when it is there, and otherwise writes it. *)
Lemma checked_repeatable (answer : RecordedResult → res pyexn A) (body : W → txn A) :
  let m := λ w, engine_begin (o ← check_operation_execution_txn wid fid name;
                              match o with Some recorded => lift_res (answer recorded) | None => body w end) in
  (∀ w, moves (keeps_checkpoints wid) (m w)) → (∀ w, moves same_committed (body w)) →
  (∀ w c c' v, active wid (current c) → operation_outputs (current c) !! k = None → body w c = (c', Ok v) →
     ∃ row, operation_outputs (current c') !! k = Some row ∧ oo_function_name row = name ∧ answer (recorded_of row) = Ok v) →
  Repeatable eq wid fid name m.
Proof.
  intros m Hkeep Hsame Hbody.
  assert (∀ w d row, active wid d → operation_outputs d !! k = Some row → oo_function_name row = name →
    m w d = (d, answer (recorded_of row))) as Hpresent.
  { intros w d row Ha Ho Hn. subst m. cbv beta. unfold engine_begin, mbind, SM_bind.
    rewrite check_operation_execution_txn_eq. cbn [current]. rewrite (check_present _ _ _ _ _ Ha Ho Hn).
    unfold lift_res. by destruct (answer _). }
  assert (∀ w d, active wid d → operation_outputs d !! k = None → m w d = engine_begin (body w) d) as Hfree.
  { intros w d Ha Ho. subst m. cbv beta. unfold engine_begin, mbind, SM_bind.
    rewrite check_operation_execution_txn_eq. cbn [current]. by rewrite (check_free _ _ _ _ Ha Ho). }
  split; [done| | |].
  - intros w d d' a Ha Ho. rewrite (Hfree _ _ Ha Ho). intros (c & Hc & ->)%engine_begin_Ok.
    destruct (Hbody w (Conn d d) c a Ha Ho Hc) as (row & Hr & Hn & _). by exists row.
  - intros w d d' e Ha Ho. rewrite (Hfree _ _ Ha Ho). by apply engine_begin_Err.
  - intros w d d' r row w2 d2 Ha He Hm Hr Hn Ha2 Hr2. rewrite (Hpresent w2 d2 row Ha2 Hr2 Hn).
    destruct (operation_outputs d !! k) as [row0|] eqn:Ho.
    + rewrite (Hpresent w d row0 Ha Ho (He _ eq_refl)) in Hm. injection Hm as <- <-.
      assert (row0 = row) as -> by congruence. by eexists.
    + rewrite (Hfree _ _ Ha Ho) in Hm. destruct r as [v|e].
      * apply engine_begin_Ok in Hm as (c & Hc & ->).
        destruct (Hbody w (Conn d d) c v Ha Ho Hc) as (row' & Hr' & _ & Hans). assert (row' = row) as -> by congruence.
        eexists. split; [done|by rewrite Hans].
      * apply engine_begin_Err in Hm as ->; [congruence|done].
Qed.

(** The checkpoint that is written last. *)
Lemma record_txn_row executor_id result t c c' :
  or_workflow_uuid result = wid → or_function_id result = fid → or_function_name result = name →
  or_error result = None ∨ or_output result = None →
  is_Some (workflow_status (current c) !! wid) → operation_outputs (current c) !! k = None →
  record_operation_result_txn executor_id result t c = (c', Ok tt) →
  operation_outputs (current c') !! k = Some (recorded_row result t) ∧ oo_function_name (recorded_row result t) = name.
Proof.
  intros Hwid Hfid Hname Hor [r Hr] Ho. rewrite (record_operation_result_txn_eq executor_id result t c r) by (rewrite ?Hwid; done).
  rewrite Hwid, Hfid. cbv zeta. rewrite Ho. intros [= <-]. simpl. by rewrite lookup_insert_eq.
Qed.

Lemma done_row executor_id t0 t c c' :
  is_Some (workflow_status (current c) !! wid) → operation_outputs (current c) !! k = None →
  record_operation_result_txn executor_id (done_result wid fid name t0) t c = (c', Ok tt) →
  ∃ row, operation_outputs (current c') !! k = Some row ∧ oo_function_name row = name.
Proof. intros Hw Ho Hrec. eexists. eapply record_txn_row; [..|exact Hrec]; first [done | by left]. Qed.

Lemma record_txn_same_committed executor_id result t :
  moves same_committed (record_operation_result_txn executor_id result t).
Proof.
  unfold record_operation_result_txn. destruct (_ && _); [done|].
  apply moves_bind; [apply _|done|]. intros [x|]; [|done].
  apply moves_bind; [apply _| |].
  { unfold reset_executor. destruct (_ && _); [|done]. apply moves_bind; [apply _|done|done]. }
  intros _. apply moves_bind; [apply _| |].
  - apply moves_try; [apply _|auto with moves|]. intros [] h; try done. by intros [= <-].
  - intros [x'|]; [|done]. by destruct (bool_decide _).
Qed.

End statement_lemmas.

Section statement_instances.
Context {W : Type} `{Host W, Codecs} (serializer : Serializer) (executor_id : string) (uuids : W → nat → string).

Lemma send_repeatable wid fid name messages ty (tf : bool) :
  Repeatable eq wid fid name (λ w, Messages.send_bulk (Some executor_id) serializer (now_ms w) (uuids w) (time_ms w) (time_ms w)
    messages ty (Some (wid, fid)) name tf).
Proof.
  assert (∀ w, moves (keeps_checkpoints wid) (Messages.send_bulk (Some executor_id) serializer (now_ms w) (uuids w) (time_ms w)
    (time_ms w) messages ty (Some (wid, fid)) name tf)) as Hk.
  { intros w. apply lifecycle_moves, changes_send; in_kinds. }
  unfold Messages.send_bulk, send_bulk_txn in *. destruct (negb _).
  { eapply repeatable_ext; [|apply (failing_repeatable _ _ _ (duplicate_keys_error (provided_keys messages)))]. done. }
  destruct (prepare serializer ty messages) as [prepared|e].
  2: { eapply repeatable_ext; [|apply (failing_repeatable _ _ _ e)]. done. }
  pose (body := λ w, forks ← query (λ d, if tf then find_fork_descendants d (sm_destination_id ∘ fst <$> prepared) else None);
     _ ← try_except
           (execute_res (insert_notifications (message_rows (now_ms w) (uuids w) forks prepared)))
           (λ e, match e with
                 | ForeignKeyViolation => Some (raise (DBOSNonExistentWorkflowError "`send` destination"
                     (String.concat ", " (sql_order_by String.leb (remove_dups (sm_destination_id <$> messages))))))
                 | _ => None
                 end);
     record_operation_result_txn (Some executor_id) (done_result wid fid name (time_ms w)) (time_ms w) : txn unit).
  apply (checked_repeatable wid fid name (λ _, Ok tt) body Hk).
  - intros w. subst body. cbv beta. apply moves_bind; [apply _|auto with moves|]. intros forks.
    apply moves_bind; [apply _| |intros _; apply record_txn_same_committed].
    apply moves_try; [apply _|auto with moves|]. intros [] h; try done. by intros [= <-].
  - intros w c c' [] Ha Ho (c1 & forks & [= <- <-] & (c2 & [] & Hins & Hrec)%bind_inv_Ok)%bind_inv_Ok.
    assert (∃ t, current c2 = (current c) <| notifications := t |>) as [t Ht].
    { unfold try_except in Hins. destruct (execute_res _ c) as [c3 [[]|e]] eqn:Hx; [|by destruct e].
      injection Hins as <-. apply execute_res_Ok in Hx as (d & Hd & ->). by apply insert_notifications_Ok in Hd as ((t & ->) & _); exists t. }
    destruct Ha as (r & Hr & _).
    apply done_row in Hrec as (row & Hrow & Hn); [by exists row|rewrite Ht; by eexists|by rewrite Ht].
Qed.

(** What a transaction does not touch. *)
Definition same_history : relation conn := λ c c',
  workflow_status (current c') = workflow_status (current c) ∧ operation_outputs (current c') = operation_outputs (current c).

Lemma upsert_event_same wid fid key x n c c' : upsert_event wid fid key x n c = (c', Ok tt) → same_history c c'.
Proof.
  unfold upsert_event. intros (c1 & [] & H1 & H2)%bind_inv_Ok.
  apply execute_res_Ok in H1 as (d1 & H1 & ->). apply execute_res_Ok in H2 as (d2 & H2 & ->). cbn [current committed] in H2.
  unfold upsert_event_row in H1. destruct (workflow_exists _ _); [|done]. injection H1 as <-.
  unfold upsert_event_history_row in H2. destruct (workflow_exists _ _); [|done]. injection H2 as <-. done.
Qed.

Lemma set_event_repeatable wid fid key value ty :
  Repeatable eq wid fid "DBOS.setEvent" (λ w, set_event_from_workflow (Some executor_id) serializer (time_ms w) (time_ms w)
    wid fid key value ty).
Proof.
  unfold set_event_from_workflow. destruct (serialize_value value ty serializer) as [[x n]|e].
  2: { eapply repeatable_ext; [|apply (failing_repeatable _ _ _ e)]. done. }
  pose (body := λ w, _ ← upsert_event wid fid key x n;
    record_operation_result_txn (Some executor_id) (done_result wid fid "DBOS.setEvent" (time_ms w)) (time_ms w) : txn unit).
  eapply repeatable_ext; [|apply (checked_repeatable wid fid "DBOS.setEvent" (λ _, Ok tt) body)].
  - intros w d. subst body. unfold checkpointed_write, engine_begin, mbind, SM_bind, lift_res.
    rewrite !check_operation_execution_txn_eq. destruct (check_result _ _ _ _) as [[o|]|e]; [done| |done].
    destruct (upsert_event wid fid key x n _) as [c1 [[]|e]]; [|done]. cbn [mret SM_ret].
    by destruct (record_operation_result_txn _ _ _ _) as [c2 [[]|e]].
  - intros w. apply lifecycle_moves. move_begin. apply moves_bind; [apply _|apply moves_check_operation_execution_txn; apply _|].
    intros [o|]; [auto with moves|]. apply moves_bind; [apply _| |intros _]; [apply changes_upsert_event|apply changes_record_txn]; in_kinds.
  - intros w. apply moves_bind; [apply _| |intros _; apply record_txn_same_committed].
    apply moves_bind; [apply _|auto with moves|intros _; auto with moves].
  - intros w c c' [] Ha Ho (c2 & [] & [Hws Hoo]%upsert_event_same & Hrec)%bind_inv_Ok. destruct Ha as (r & Hr & _).
    apply done_row in Hrec as (row & Hrow & Hn); [by exists row|rewrite Hws; by eexists|by rewrite Hoo].
Qed.

(** Answers that tell the caller the same but for a value. *)
Definition alike {A} (r r' : res pyexn A) : Prop :=
  match r, r' with Ok _, Ok _ => True | Err e, Err e' => e = e' | _, _ => False end.

Lemma sleep_repeatable `{!CodecLaws} wid fid ms :
  Repeatable alike wid fid "DBOS.sleep" (λ w, Steps.record_sleep (Some executor_id) serializer (time_ms w) (time_ms w) (time_ms w)
    (time_ms w) wid fid ms).
Proof.
  set (m := λ w, Steps.record_sleep _ _ _ _ _ _ _ _ _).
  assert (∀ w, moves (keeps_checkpoints wid) (m w)) as Hk.
  { intros w. subst m. cbv beta. apply lifecycle_moves. apply moves_record_sleep; [apply _| |].
    - intros p d. apply changes_executor; in_kinds.
    - intros k r d d' a. apply changes_insert_operation; in_kinds. }
  assert (∀ w d, active wid d → operation_outputs d !! (wid, fid) = None →
    ∃ d' row, m w d = (d', Ok (Z.max 0 (time_ms w + ms - time_ms w))) ∧
      operation_outputs d' !! (wid, fid) = Some row ∧ oo_function_name row = "DBOS.sleep") as Hfree.
  { intros w d Ha Ho. subst m. cbv beta. unfold Steps.record_sleep, mbind, SM_bind.
    rewrite check_operation_execution_eq, (check_free _ _ _ _ Ha Ho). unfold lift_res. cbn [ser_serialize DBOSPortableJSON].
    cbn. unfold try_except. destruct Ha as (r & Hr & _).
    erewrite (record_operation_result_eq (Some executor_id) _ (time_ms w) d r); [|exact Hr|by left].
    cbv zeta. cbn [or_workflow_uuid or_function_id]. rewrite Ho. eexists _, _. split; [done|]. simpl.
    by rewrite lookup_insert_eq. }
  assert (∀ d row, active wid d → operation_outputs d !! (wid, fid) = Some row → oo_function_name row = "DBOS.sleep" →
    ∃ r : res pyexn Z, ∀ w d2, active wid d2 → operation_outputs d2 !! (wid, fid) = Some row → ∃ r', m w d2 = (d2, r') ∧ alike r r') as Hpresent.
  { intros d row Ha Ho Hn.
    exists (match rr_output (recorded_of row) with
            | None => Err (AssertionError "no recorded end time")
            | Some output => match deserialize_value (Some output) (rr_serialization (recorded_of row)) serializer with
                             | Ok v => sleep_end v | Err e => Err e end
            end).
    intros w d2 Ha2 Ho2. subst m. cbv beta. unfold Steps.record_sleep, mbind, SM_bind, lift_res.
    rewrite check_operation_execution_eq, (check_present _ _ _ _ _ Ha2 Ho2 Hn).
    destruct (rr_output _); [|by eexists]. destruct (deserialize_value _ _ _) as [v|e]; [|by eexists].
    destruct (sleep_end v); by eexists. }
  split; [exact Hk| | |].
  - intros w d d' a Ha Ho Hm. destruct (Hfree w d Ha Ho) as (d1 & row & Hm1 & Hr). rewrite Hm in Hm1. injection Hm1 as -> _. by exists row.
  - intros w d d' e Ha Ho Hm. destruct (Hfree w d Ha Ho) as (d1 & row & Hm1 & Hr). by rewrite Hm in Hm1.
  - intros w d d' r row w2 d2 Ha He Hm Hr Hn Ha2 Hr2.
    destruct (operation_outputs d !! (wid, fid)) as [row0|] eqn:Ho.
    + destruct (Hpresent d row0 Ha Ho (He _ eq_refl)) as [r0 Hall].
      destruct (Hall w d Ha Ho) as (r1 & Hm1 & Hr1). rewrite Hm in Hm1. injection Hm1 as -> ->.
      assert (row0 = row) as -> by congruence. destruct (Hall w2 d2 Ha2 Hr2) as (r2 & Hm2 & Hr2'). exists r2. split; [done|].
      destruct r0, r1, r2; simpl in *; congruence || done.
    + destruct (Hfree w d Ha Ho) as (d1 & row1 & Hm1 & _). rewrite Hm in Hm1. injection Hm1 as <- ->.
      subst m. cbv beta in Hm |- *. destruct Ha2 as (r2 & Hr2' & Hs2).
      pose proof (record_sleep_durable serializer _ (Some executor_id) _ _ _ _ (time_ms w2) (time_ms w2) (time_ms w2) (time_ms w2)
        wid fid ms ms d d' d2 _ (check_free _ _ _ _ Ha Ho) Hm) as [_ Hagain]; [split; [congruence|by exists r2]|].
      eexists. split; [exact Hagain|done].
Qed.

End statement_instances.

(** ** The operations *)

Lemma snapshot_facts ctx :
  is_workflow ctx = true →
  let sc := (snapshot_step_ctx false ctx).2 in
  is_workflow sc = true ∧ is_transaction sc = false ∧ cx_workflow_id sc = cx_workflow_id ctx ∧
  cx_function_id sc = (cx_function_id ctx + 1)%Z ∧ cx_serialization_type sc = cx_serialization_type ctx.
Proof. intros Hw. unfold is_workflow in *. simpl. by destruct (bool_decide (cx_workflow_id ctx = "")). Qed.

Section operation_instances.
Context {W : Type} `{Host W, Codecs, !CodecLaws} (serializer : Serializer) (executor_id : string) (uuids : W → nat → string).
Notation machine := (@machine W).

Lemma in_workflow_step (call : option DBOSContext → process machine pyval) ctx :
  is_workflow ctx = true →
  in_workflow (with_step_ctx false call) ctx =
  (ctx <| cx_function_id := (cx_function_id ctx + 1)%Z |>, call (Some (snapshot_step_ctx false ctx).2)).
Proof. intros Hw. unfold in_workflow, with_step_ctx, snapshot_step_context. by rewrite Hw. Qed.

(** The interface, for a call with the context of a step of its own. *)
Lemma api_step_replays (call : option DBOSContext → process machine pyval) name :
  (∀ ctx sc s, is_workflow ctx = true → is_workflow sc = true → cx_workflow_id sc = cx_workflow_id ctx → cx_function_id sc = (cx_function_id ctx + 1)%Z →
     sc = (snapshot_step_ctx false ctx).2 → active (cx_workflow_id ctx) (m_db s) →
     let k := (cx_workflow_id ctx, cx_function_id ctx + 1)%Z in
     (∀ row, operation_outputs (m_db s) !! k = Some row → oo_function_name row = name) →
     (∀ s' r, finish (call (Some sc)) s = (s', Some r) →
        keeps_checkpoints (cx_workflow_id ctx) (m_db s) (m_db s') ∧
        (∀ row s2, operation_outputs (m_db s') !! k = Some row → oo_function_name row = name →
           active (cx_workflow_id ctx) (m_db s2) → operation_outputs (m_db s2) !! k = Some row →
           finish (call (Some sc)) s2 = (s2, Some r)) ∧
        (is_ok r = true → ∃ row, operation_outputs (m_db s') !! k = Some row ∧ oo_function_name row = name)) ∧
     ∀ n s', run_for n (call (Some sc)) s = (s', None) → keeps_checkpoints (cx_workflow_id ctx) (m_db s) (m_db s')) →
  Replays (in_workflow (with_step_ctx false call)) name.
Proof.
  intros Hcall. set (op := in_workflow _).
  assert (∀ ctx, is_workflow ctx = true → op ctx =
    (ctx <| cx_function_id := (cx_function_id ctx + 1)%Z |>, call (Some (snapshot_step_ctx false ctx).2))) as Hop
    by (intros; by apply in_workflow_step).
  assert (∀ ctx, is_workflow ctx = true → next_key op ctx = (cx_workflow_id ctx, cx_function_id ctx + 1)%Z) as Hkey.
  { intros ctx Hw. unfold next_key. by rewrite Hop. }
  assert (∀ ctx, is_workflow ctx = true → (op ctx).2 = call (Some (snapshot_step_ctx false ctx).2)) as Hproc
    by (intros; by rewrite Hop).
  assert (∀ ctx s, is_workflow ctx = true → active (cx_workflow_id ctx) (m_db s) → expected op name ctx (m_db s) → _) as Hstep
    by (intros ctx s Hw Ha He; unfold expected in He; rewrite Hkey in He by done;
        destruct (snapshot_facts ctx Hw) as (Hs & _ & Hid & Hfid & _);
        exact (Hcall ctx _ s Hw Hs Hid Hfid eq_refl Ha He)).
  split.
  - intros ctx Hw. rewrite Hop by done. by destruct ctx.
  - intros ctx s s' r Hw Ha He. rewrite Hproc by done. intros Hf.
    by destruct (proj1 (Hstep ctx s Hw Ha He) _ _ Hf) as (? & _).
  - intros ctx s s' r s2 row Hw Ha He. rewrite Hkey, Hproc by done.
    intros Hf Hr Hn Ha2 Hr2. exists (m_world s2). replace (s2 <| m_world := m_world s2 |>) with s2 by by destruct s2.
    destruct (proj1 (Hstep ctx s Hw Ha He) _ _ Hf) as (_ & Hagain & _). by apply (Hagain row s2).
  - intros ctx s s' v Hw Ha He. rewrite Hproc by done. intros Hf. unfold has_checkpoint. rewrite Hkey by done.
    destruct (proj1 (Hstep ctx s Hw Ha He) _ _ Hf) as (_ & _ & Hleaves). by apply Hleaves.
  - intros ctx s n s' Hw Ha He. rewrite Hproc by done. apply (proj2 (Hstep ctx s Hw Ha He)).
Qed.

(** What [does] goes on with. *)
Definition answers_none (r : res pyexn unit) : process machine pyval :=
  match r with Ok _ => mret PNone | Err e => Returns (Err e) end.

Lemma answers_none_follows : follows eq answers_none.
Proof.
  split; [intros [] n s; by destruct n|]. split; [|done]. intros r r' s s' a s2 <- Hf. exists (m_world s2).
  replace (s2 <| m_world := m_world s2 |>) with s2 by by destruct s2. destruct r; simpl in *; congruence.
Qed.

(** An operation whose step is one statement. *)
Lemma step_statement {A} (R : relation (res pyexn A)) (call : option DBOSContext → process machine pyval) name
    (m : DBOSContext → W → dbM A) (k : res pyexn A → process machine pyval) :
  (∀ ctx, is_workflow ctx = true → call (Some (snapshot_step_ctx false ctx).2) = and_then (database (m ctx)) k) →
  (∀ ctx, Repeatable R (cx_workflow_id ctx) (cx_function_id ctx + 1) name (m ctx)) → follows R k →
  Replays (in_workflow (with_step_ctx false call)) name ∧ Atomic (in_workflow (with_step_ctx false call)) name.
Proof.
  intros Hcall Hm Hk.
  assert (∀ ctx, is_workflow ctx = true → in_workflow (with_step_ctx false call) ctx =
    (ctx <| cx_function_id := (cx_function_id ctx + 1)%Z |>, and_then (database (m ctx)) k)) as Hop.
  { intros ctx Hw. by rewrite in_workflow_step, Hcall. }
  split; [exact (statement_replays R _ name m k Hop (λ ctx _, Hm ctx) Hk)|exact (statement_atomic R _ name m k Hop (λ ctx _, Hm ctx) Hk)].
Qed.

Lemma send_bulk_step messages ty name tf :
  let op := in_workflow (with_step_ctx false (λ ctx, send_bulk serializer executor_id uuids ctx messages ty name tf)) in
  Replays op name ∧ Atomic op name.
Proof.
  apply (step_statement eq _ name (λ ctx w, Messages.send_bulk (Some executor_id) serializer (now_ms w) (uuids w) (time_ms w)
    (time_ms w) messages (Some (inherited_format ty (Some ctx))) (Some (cx_workflow_id ctx, cx_function_id ctx + 1)%Z) name tf)
    answers_none).
  - intros ctx Hw. destruct (snapshot_facts ctx Hw) as (Hs & _). unfold send_bulk. by rewrite Hs.
  - intros ctx. apply send_repeatable.
  - apply answers_none_follows.
Qed.

#[export] Instance DBOS_send_bulk_replays messages ty tf :
  Replays (in_workflow (DBOS_send_bulk serializer executor_id uuids messages ty tf)) "DBOS.send_bulk".
Proof. apply send_bulk_step. Qed.

#[export] Instance DBOS_send_bulk_atomic messages ty tf :
  Atomic (in_workflow (DBOS_send_bulk serializer executor_id uuids messages ty tf)) "DBOS.send_bulk".
Proof. apply send_bulk_step. Qed.

#[export] Instance DBOS_send_replays dest v topic key ty tf :
  Replays (in_workflow (DBOS_send serializer executor_id uuids dest v topic key ty tf)) "DBOS.send".
Proof. apply send_bulk_step. Qed.

#[export] Instance DBOS_send_atomic dest v topic key ty tf :
  Atomic (in_workflow (DBOS_send serializer executor_id uuids dest v topic key ty tf)) "DBOS.send".
Proof. apply send_bulk_step. Qed.

Lemma set_event_step key value ty :
  let op := in_workflow (DBOS_set_event serializer executor_id key value ty) in
  Replays op "DBOS.setEvent" ∧ Atomic op "DBOS.setEvent".
Proof.
  apply (step_statement eq _ _ (λ ctx w, set_event_from_workflow (Some executor_id) serializer (time_ms w) (time_ms w)
    (cx_workflow_id ctx) (cx_function_id ctx + 1) key value (Some (inherited_format ty (Some ctx)))) answers_none).
  - intros ctx Hw. destruct (snapshot_facts ctx Hw) as (Hs & _). unfold set_event. by rewrite Hs.
  - intros ctx. apply set_event_repeatable.
  - apply answers_none_follows.
Qed.

#[export] Instance DBOS_set_event_replays key v ty :
  Replays (in_workflow (DBOS_set_event serializer executor_id key v ty)) "DBOS.setEvent".
Proof. apply set_event_step. Qed.

#[export] Instance DBOS_set_event_atomic key v ty :
  Atomic (in_workflow (DBOS_set_event serializer executor_id key v ty)) "DBOS.setEvent".
Proof. apply set_event_step. Qed.

Definition sleeps (r : res pyexn Z) : process machine pyval :=
  match r with
  | Ok duration => _ ← act (modify (λ s : machine, s <| m_world := sleep (duration # 1000) (m_world s) |>)); mret PNone
  | Err e => Returns (Err e)
  end.

Lemma sleeps_follows : follows alike sleeps.
Proof.
  split; [|split; [|done]].
  - intros [z|e] [|[|n]] s; done.
  - intros [z|e] [z'|e'] s s' a s2; simpl; try done.
    + intros _ [= <- <-]. by eexists.
    + intros <- [= <- <-]. exists (m_world s2). by destruct s2.
Qed.

Lemma sleep_step ms : (0 < ms)%Z →
  let op := in_workflow (DBOS_sleep serializer executor_id ms) in Replays op "DBOS.sleep" ∧ Atomic op "DBOS.sleep".
Proof.
  intros Hms.
  replace (DBOS_sleep serializer executor_id ms) with (with_step_ctx false (λ ctx, and_then (record_sleep serializer executor_id ctx ms) sleeps)).
  2: { unfold DBOS_sleep. by rewrite bool_decide_eq_false_2 by lia. }
  apply (step_statement alike _ _ (λ ctx w, Steps.record_sleep (Some executor_id) serializer (time_ms w) (time_ms w) (time_ms w)
    (time_ms w) (cx_workflow_id ctx) (cx_function_id ctx + 1) ms) sleeps).
  - intros ctx Hw. destruct (snapshot_facts ctx Hw) as (Hs & _). unfold record_sleep. by rewrite Hs.
  - intros ctx. by apply sleep_repeatable.
  - apply sleeps_follows.
Qed.

(** *** Writes to a stream *)

Section writes.
Context (wid : string) (fid : Z) (key name x n : string).
Notation attempt := (λ w : W, write_stream_txn (Some executor_id) id wid fid key name x n (time_ms w) (time_ms w)).

Lemma attempt_keeps w : moves (keeps_checkpoints wid) (attempt w).
Proof.
  apply lifecycle_moves. unfold write_stream_txn. move_begin. apply changes_checkpointed; [in_kinds..|].
  apply moves_try_integrity; [apply _|]. apply changes_stream_insert. in_kinds.
Qed.

Lemma attempt_present w d row :
  active wid d → operation_outputs d !! (wid, fid) = Some row → oo_function_name row = name → attempt w d = (d, Ok true).
Proof.
  intros Ha Ho Hn. unfold write_stream_txn, checkpointed_write, engine_begin, mbind, SM_bind.
  rewrite check_operation_execution_txn_eq. cbn [current]. by rewrite (check_present _ _ _ _ _ Ha Ho Hn).
Qed.

(** A free attempt writes with its checkpoint, or leaves no trace. *)
Lemma attempt_free w d d' r :
  active wid d → operation_outputs d !! (wid, fid) = None → attempt w d = (d', r) →
  d' = d ∧ r ≠ Ok true ∨ r = Ok true ∧ ∃ row, operation_outputs d' !! (wid, fid) = Some row ∧ oo_function_name row = name.
Proof.
  intros Ha Ho. unfold write_stream_txn. intros Hm. destruct r as [[]|e].
  - right. split; [done|]. apply engine_begin_Ok in Hm as (c & Hm & ->).
    apply bind_inv_Ok in Hm as (c1 & o & Hc & Hm). rewrite check_operation_execution_txn_eq in Hc. injection Hc as <- Hc.
    cbn [current] in Hc. rewrite (check_free _ _ _ _ Ha Ho) in Hc. injection Hc as <-.
    apply bind_inv_Ok in Hm as (c2 & b & Hb & Hm). destruct b; [|done].
    apply bind_inv_Ok in Hm as (c3 & [] & Hrec & [= <-]).
    assert (∃ t, current c2 = d <| streams := t |>) as [t Ht].
    { unfold try_integrity, try_except, mbind, SM_bind in Hb.
      destruct (execute_res _ _) as [c4 [[]|e]] eqn:Hx; [|by destruct (is_IntegrityError e)]. injection Hb as <-.
      apply execute_res_Ok in Hx as (d1 & Hi & ->). unfold stream_insert, id in Hi.
      apply insert_stream_row_Ok in Hi as (_ & _ & ->). by eexists. }
    destruct Ha as (r & Hr & _). apply done_row in Hrec; [done|rewrite Ht; by eexists|by rewrite Ht].
  - left. split; [|done]. by apply (write_stream_txn_lost (Some executor_id) wid fid key name x n (time_ms w) (time_ms w)).
  - left. split; [|done]. revert Hm. apply engine_begin_Err.
    apply moves_bind; [apply _| |intros [o|]; [done|]].
    { intros c. by rewrite check_operation_execution_txn_eq. }
    apply moves_bind; [apply _| |intros []; [|done]].
    + apply moves_try_integrity; [apply _|]. auto with moves.
    + apply moves_bind; [apply _|apply record_txn_same_committed|done].
Qed.

(** The loop as a whole. *)
Definition wrote (s s' : machine) : Prop :=
  keeps_checkpoints wid (m_db s) (m_db s') ∧
  ∃ row, operation_outputs (m_db s') !! (wid, fid) = Some row ∧ oo_function_name row = name.

Lemma loop_free fuel s s' r :
  active wid (m_db s) → operation_outputs (m_db s) !! (wid, fid) = None →
  finish (write_loop fuel attempt) s = (s', Some r) →
  (m_db s' = m_db s ∧ is_ok r = false) ∨ r = Ok PNone ∧ wrote s s'.
Proof.
  revert s. induction fuel as [|fuel IH]; intros s Ha Ho; [done|]. cbn [write_loop]. rewrite finish_bind, finish_database.
  cbn [fst snd]. pose proof (attempt_keeps (m_world s) (m_db s)) as Hk. cbv beta in Hk.
  destruct (write_stream_txn _ _ _ _ _ _ _ _ _ _ (m_db s)) as [d' r'] eqn:Hm. cbn [fst snd] in *.
  destruct (attempt_free _ _ _ _ Ha Ho Hm) as [[-> Hne]|[-> Hrow]].
  - rewrite machine_same_db. destruct r' as [[]|e]; [done|by apply IH|]. intros [= <- <-]. by left.
  - intros [= <- <-]. right. split; [done|]. by split.
Qed.

Lemma loop_present fuel s row :
  active wid (m_db s) → operation_outputs (m_db s) !! (wid, fid) = Some row → oo_function_name row = name →
  finish (write_loop (S fuel) attempt) s = (s, Some (Ok PNone)).
Proof.
  intros Ha Ho Hn. cbn [write_loop]. rewrite finish_bind, finish_database. cbn [fst snd].
  pose proof (attempt_present (m_world s) (m_db s) row Ha Ho Hn) as Hm. cbv beta in Hm. rewrite Hm. cbn [fst snd].
  by rewrite machine_same_db.
Qed.

Lemma loop_crash fuel k s s' :
  active wid (m_db s) → (∀ row, operation_outputs (m_db s) !! (wid, fid) = Some row → oo_function_name row = name) →
  run_for k (write_loop fuel attempt) s = (s', None) → m_db s' = m_db s.
Proof.
  revert k s. induction fuel as [|fuel IH]; intros k s Ha He; [destruct k; by intros [= <-]|]. cbn [write_loop].
  unfold mbind, process_bind. rewrite run_for_and_then. unfold database. rewrite run_for_act.
  destruct k as [|k]; [by intros [= <-]|].
  destruct (write_stream_txn _ _ _ _ _ _ _ _ _ _ (m_db s)) as [d' r'] eqn:Hm. cbn [fst snd].
  destruct (operation_outputs (m_db s) !! (wid, fid)) as [row|] eqn:Ho.
  - pose proof (attempt_present (m_world s) (m_db s) row Ha Ho (He _ eq_refl)) as Hp. cbv beta in Hp. rewrite Hp in Hm.
    injection Hm as <- <-. done.
  - destruct (attempt_free _ _ _ _ Ha Ho Hm) as [[-> Hne]|[-> Hrow]]; [|done].
    rewrite machine_same_db. destruct r' as [[]|e]; [done| |done]. apply IH; [done|]. by rewrite Ho.
Qed.

End writes.
Lemma write_step (call : option DBOSContext → process machine pyval) fuel key value (ty : DBOSContext → WorkflowSerializationFormat) :
  (∀ ctx, is_workflow ctx = true → call (Some (snapshot_step_ctx false ctx).2) =
     write_from_workflow serializer executor_id fuel (cx_workflow_id ctx) (cx_function_id ctx + 1) key value (Some (ty ctx))) →
  let op := in_workflow (with_step_ctx false call) in
  Replays op (stream_function_name value) ∧ Atomic op (stream_function_name value).
Proof.
  intros Hcall op.
  assert (∀ ctx (s : machine) n s', is_workflow ctx = true → active (cx_workflow_id ctx) (m_db s) →
    (∀ row, operation_outputs (m_db s) !! (cx_workflow_id ctx, cx_function_id ctx + 1)%Z = Some row →
       oo_function_name row = stream_function_name value) →
    run_for n (call (Some (snapshot_step_ctx false ctx).2)) s = (s', None) → m_db s' = m_db s) as Hcrash.
  { intros ctx s n s' Hw Ha He. rewrite Hcall by done. unfold write_from_workflow, mbind, process_bind. rewrite run_for_and_then.
    destruct (serialize_value _ _ _) as [[x y]|e]; [|done]. cbn [returns run_for]. intros Hrun. by eapply loop_crash in Hrun. }
  split.
  - apply api_step_replays. intros ctx sc s Hw Hs Hid _ -> Ha k He. split.
    2:{ intros n s' Hrun. apply Hcrash in Hrun as ->; [reflexivity|done..]. }
    intros s' r. rewrite Hcall by done. unfold write_from_workflow. rewrite finish_bind.
    destruct (serialize_value _ _ _) as [[x n]|e] eqn:Hv; cbn [returns finish].
    2: { intros [= <- <-]. split; [done|]. split; [|done]. intros row s2 _ _ _ _. by rewrite finish_bind. }
    intros Hf. destruct fuel as [|fuel]; [done|].
    destruct (operation_outputs (m_db s) !! k) as [row|] eqn:Ho.
    + erewrite loop_present in Hf by eauto. injection Hf as <- <-. split; [done|]. split; [|by eauto].
      intros row' s2 Hr Hn Ha2 Hr2. rewrite finish_bind. cbn [returns finish]. by erewrite loop_present by eauto.
    + destruct (loop_free _ _ _ _ _ _ _ _ _ _ Ha Ho Hf) as [[Hd Hr]|[-> [Hk Hrow]]].
      * rewrite Hd. split; [done|]. split; [|by rewrite Hr]. intros row s2 Hrow. congruence.
      * split; [done|]. split; [|done]. intros row' s2 Hr Hn Ha2 Hr2. rewrite finish_bind. cbn [returns finish]. by erewrite loop_present by eauto.
  - intros ctx s n s' Hw Ha He. unfold expected, next_key in He. unfold op in He |- *. rewrite in_workflow_step in He |- * by done.
    cbn [snd fst] in *. intros Hrun. left. by eapply Hcrash.
Qed.

Lemma write_stream_step fuel key value ty :
  let op := in_workflow (DBOS_write_stream serializer executor_id fuel key value ty) in
  Replays op (stream_function_name value) ∧ Atomic op (stream_function_name value).
Proof.
  apply (write_step _ fuel key value (λ ctx, inherited_format ty (Some ctx))). intros ctx Hw.
  destruct (snapshot_facts ctx Hw) as (Hs & _). unfold write_stream. by rewrite Hs.
Qed.

Lemma close_stream_step fuel key :
  let op := in_workflow (DBOS_close_stream serializer executor_id fuel key) in
  Replays op "DBOS.closeStream" ∧ Atomic op "DBOS.closeStream".
Proof.
  apply (write_step _ fuel key (PStr dbos_stream_closed_sentinel) (λ _, PORTABLE)). intros ctx Hw.
  destruct (snapshot_facts ctx Hw) as (Hs & _). unfold close_stream. by rewrite Hs.
Qed.

(** *** Functions called as steps *)

(** The function leaves the checkpoints of the workflow alone, and its row where it is. *)
Definition harmless (fn : process machine pyval) : Prop := ∀ wid s n,
  let s' := (run_for n fn s).1 in
  same_checkpoints wid (m_db s) (m_db s') ∧
  (is_Some (workflow_status (m_db s) !! wid) → is_Some (workflow_status (m_db s') !! wid)).

Hypothesis honest : honest_name serializer.
Hypothesis reads_back : round_trips serializer.
Hypothesis not_portable : ser_name serializer ≠ ser_name DBOSPortableJSON.

Lemma harmless_finish fn s s' r :
  harmless fn → finish fn s = (s', Some r) → ∀ wid, same_checkpoints wid (m_db s) (m_db s') ∧
    (is_Some (workflow_status (m_db s) !! wid) → is_Some (workflow_status (m_db s') !! wid)).
Proof. intros Hfn (n & Hn)%finish_run_for wid. pose proof (Hfn wid s n) as Hh. by rewrite Hn in Hh. Qed.

Section function_step.
Context (fn : process machine pyval) (name : string) (sc : DBOSContext).
Hypothesis fn_harmless : harmless fn.
Hypothesis sc_workflow : is_workflow sc = true.
Notation k := (cx_workflow_id sc, cx_function_id sc).
Notation call := (call_function_as_step serializer executor_id fn name (Some sc)).

Lemma function_step_eq s :
  finish call s =
  match check_result (m_db s) (cx_workflow_id sc) (cx_function_id sc) name with
  | Err e => (s, Some (Err e))
  | Ok (Some recorded) => (s, Some (replay serializer name recorded))
  | Ok None => finish (result ← fn;
        '(serval, serialization) ← returns (serialize_value result None serializer);
        _ ← record_result executor_id (step_result sc name (time_ms (m_world s)) (Some serval) None (Some serialization));
        mret result) s
  end.
Proof.
  unfold call_function_as_step.
  assert (is_transaction sc = false) as -> by (unfold is_workflow in sc_workflow; destruct (is_transaction sc); [by rewrite andb_false_r in sc_workflow|done]).
  rewrite sc_workflow, finish_bind, finish_act. cbn [fst snd gets]. rewrite finish_bind, finish_database. cbn [fst snd].
  rewrite check_operation_execution_eq. cbn [fst snd]. rewrite machine_same_db.
  destruct (check_result _ _ _ _) as [[recorded|]|e]; done.
Qed.

Lemma function_present s row :
  active (cx_workflow_id sc) (m_db s) → operation_outputs (m_db s) !! k = Some row → oo_function_name row = name →
  finish call s = (s, Some (replay serializer name (recorded_of row))).
Proof. intros Ha Ho Hn. by rewrite function_step_eq, (check_present _ _ _ _ _ Ha Ho Hn). Qed.

Lemma function_free s s' r :
  active (cx_workflow_id sc) (m_db s) → operation_outputs (m_db s) !! k = None → finish call s = (s', Some r) →
  keeps_checkpoints (cx_workflow_id sc) (m_db s) (m_db s') ∧
  (∀ row, operation_outputs (m_db s') !! k = Some row → replay serializer name (recorded_of row) = r) ∧
  (is_ok r = true → ∃ row, operation_outputs (m_db s') !! k = Some row ∧ oo_function_name row = name).
Proof.
  intros Ha Ho. rewrite function_step_eq, (check_free _ _ _ _ Ha Ho), finish_bind.
  destruct (finish fn s) as [s1 [r1|]] eqn:Hf; [|done].
  destruct (harmless_finish _ _ _ _ fn_harmless Hf (cx_workflow_id sc)) as [Hsame Hrow].
  assert (operation_outputs (m_db s1) !! k = None) as Ho1 by (rewrite <- Ho; apply Hsame).
  assert (∀ (s2 : machine) e, m_db s2 = m_db s1 → keeps_checkpoints (cx_workflow_id sc) (m_db s) (m_db s2) ∧
    (∀ row, operation_outputs (m_db s2) !! k = Some row → replay serializer name (recorded_of row) = Err e) ∧
    (is_ok (Err (A:=pyval) e) = true → ∃ row, operation_outputs (m_db s2) !! k = Some row ∧ oo_function_name row = name)) as Hnone.
  { intros s2 e ->. split; [by apply same_checkpoints_kept|]. split; [|done]. intros row. by rewrite Ho1. }
  destruct r1 as [v|e]; [|intros [= <- <-]; by apply Hnone]. rewrite finish_bind.
  destruct (serialize_value v None serializer) as [[x n]|e] eqn:Hs; cbn [returns finish]; [|intros [= <- <-]; by apply Hnone].
  destruct Hrow as [row1 Hrow1]; [destruct Ha as (r0 & Hr0 & _); by eexists|].
  unfold record_result. rewrite finish_bind, finish_database. cbn [fst snd].
  erewrite (record_operation_result_eq (Some executor_id) _ (time_ms (m_world s1)) (m_db s1) row1); [|exact Hrow1|by left].
  cbv zeta. cbn [or_workflow_uuid or_function_id step_result]. rewrite Ho1. cbn [fst snd]. intros [= <- <-].
  split_and!.
  - etrans; [by apply same_checkpoints_kept|]. intros fid row Hr. simpl. rewrite reset_db_outputs.
    rewrite lookup_insert_ne; [done|]. intros [= <-]. congruence.
  - intros row. simpl. rewrite lookup_insert_eq. intros [= <-]. change (deserialize_value (Some x) (Some n) serializer = Ok v).
    rewrite (serialize_then_deserialize serializer v _ x _ honest reads_back Hs).
    assert (n = ser_name serializer) as -> by (by eapply serialize_value_as_name). by apply canonical_native.
  - intros _. eexists. simpl. split; [apply lookup_insert_eq|done].
Qed.

(** A crash: the effect may be there without the checkpoint. *)
Lemma function_crash s n s' :
  active (cx_workflow_id sc) (m_db s) → (∀ row, operation_outputs (m_db s) !! k = Some row → oo_function_name row = name) →
  run_for n call s = (s', None) → same_checkpoints (cx_workflow_id sc) (m_db s) (m_db s').
Proof.
  intros Ha He. unfold call_function_as_step.
  assert (is_transaction sc = false) as -> by (unfold is_workflow in sc_workflow; destruct (is_transaction sc); [by rewrite andb_false_r in sc_workflow|done]).
  rewrite sc_workflow. unfold mbind, process_bind. rewrite run_for_and_then, run_for_act.
  destruct n as [|n]; [by intros [= <-]|]. cbn [gets fst snd]. rewrite run_for_and_then. unfold database. rewrite run_for_act.
  destruct n as [|n]; [by intros [= <-]|]. rewrite check_operation_execution_eq. cbn [fst snd]. rewrite machine_same_db.
  destruct (check_result _ _ _ _) as [[recorded|]|e]; [done| |done]. rewrite run_for_and_then.
  pose proof (fn_harmless (cx_workflow_id sc) s n) as [Hh _].
  destruct (run_for n fn s) as [s1 [[n1 [v|e]]|]]; cbn [fst] in Hh; [|done|by intros [= <-]].
  cbn [run_for returns and_then]. destruct (serialize_value v None serializer) as [[x y]|e]; [|done].
  cbn [and_then]. unfold record_result, database. rewrite run_for_and_then, run_for_act.
  destruct n1 as [|n1]; [by intros [= <-]|]. by destruct (record_operation_result _ _ _ _) as [d [[]|e]].
Qed.

End function_step.

Lemma as_step_replays fn name : harmless fn → Replays (in_workflow (as_step serializer executor_id fn name)) name.
Proof.
  intros Hfn. apply api_step_replays. intros ctx sc s _ Hs Hid Hfid _. rewrite <- Hid, <- Hfid. intros Ha k He. split.
  2:{ intros n s' Hrun. by apply same_checkpoints_kept, (function_crash fn name sc Hfn Hs s n s' Ha He Hrun). }
  intros s' r Hf. destruct (operation_outputs (m_db s) !! k) as [row|] eqn:Ho.
  - rewrite (function_present fn name sc Hs s row Ha Ho (He _ eq_refl)) in Hf. injection Hf as <- <-. split; [done|]. split; [|by eauto].
    intros row' s2 Hr Hn Ha2 Hr2. rewrite (function_present fn name sc Hs s2 row' Ha2 Hr2 Hn). congruence.
  - destruct (function_free fn name sc Hfn Hs s s' r Ha Ho Hf) as (Hk & Hrep & Hleaves). split; [done|]. split; [|done].
    intros row s2 Hr Hn Ha2 Hr2. by rewrite (function_present fn name sc Hs s2 row Ha2 Hr2 Hn), (Hrep row Hr).
Qed.

(** *** What is called as a step *)

(** Rows of [workflow_status] are changed, and stay. *)
Definition rows_only : relation db := λ d d',
  operation_outputs d' = operation_outputs d ∧
  ∀ wid, is_Some (workflow_status d !! wid) → is_Some (workflow_status d' !! wid).

#[local] Instance rows_only_preorder : PreOrder rows_only.
Proof. split; [by intros d|]. intros d1 d2 d3 [A1 A2] [B1 B2]. split; [congruence|auto]. Qed.

Lemma rows_only_update p f d : rows_only d (d <| workflow_status := sql_update p f (workflow_status d) |>).
Proof. split; [done|]. intros wid [r Hr]. simpl. rewrite lookup_sql_update, Hr. by eexists. Qed.

Lemma harmless_does m : (∀ w, moves rows_only (m w)) → harmless (does m).
Proof.
  intros Hm wid s n. unfold does, mbind, process_bind. rewrite run_for_and_then. unfold database. rewrite run_for_act.
  destruct n as [|n]; [done|]. destruct (Hm (m_world s) (m_db s)) as [Ho Hr].
  destruct (m (m_world s) (m_db s)) as [d' [[]|e]]; cbn [fst snd] in *; (destruct n; cbn [run_for mret process_ret fst]);
    (split; [intros fid; cbn; by rewrite Ho|apply Hr]).
Qed.

Lemma harmless_same_db fn : (∀ s n, m_db (run_for n fn s).1 = m_db s) → harmless fn.
Proof. intros Hfn wid s n. cbv zeta. by rewrite Hfn. Qed.

Lemma await_same_db polls workflow_id (s : machine) n : m_db (run_for n (await_result serializer polls workflow_id) s).1 = m_db s.
Proof.
  revert s n. induction polls as [|polls IH]; intros s n; [by destruct n|]. cbn [await_result].
  unfold mbind, process_bind. rewrite run_for_and_then. unfold database. rewrite run_for_act.
  destruct n as [|n]; [done|]. cbn [fst snd]. rewrite machine_same_db.
  destruct (check_workflow_result _ _ _) as [[v|]|e]; [by destruct n| |by destruct n].
  rewrite run_for_and_then, run_for_act. destruct n as [|n]; [done|]. cbn [fst snd modify]. by rewrite IH.
Qed.

#[export] Instance DBOS_get_result_replays polls workflow_id :
  Replays (in_workflow (DBOS_get_result serializer executor_id polls workflow_id)) "DBOS.getResult".
Proof. apply as_step_replays, harmless_same_db, await_same_db. Qed.

#[export] Instance DBOS_get_all_events_replays workflow_id :
  Replays (in_workflow (DBOS_get_all_events serializer executor_id workflow_id)) "DBOS.get_events".
Proof. apply as_step_replays, harmless_same_db. by intros s [|n]. Qed.

#[export] Instance DBOS_resume_workflows_replays ids queue_name :
  Replays (in_workflow (DBOS_resume_workflows serializer executor_id ids queue_name)) "DBOS.resumeWorkflow".
Proof. apply as_step_replays, harmless_does. intros w. apply (moves_update_only rows_only). apply rows_only_update. Qed.

#[export] Instance DBOS_set_workflow_delay_replays workflow_id delay until :
  Replays (in_workflow (DBOS_set_workflow_delay serializer executor_id workflow_id delay until)) "DBOS.setWorkflowDelay".
Proof.
  apply as_step_replays, harmless_does. intros w. apply moves_bind; [apply _|apply moves_lift_res, _|]. intros t.
  apply (moves_update_only rows_only). apply rows_only_update.
Qed.

#[export] Instance DBOS_update_workflow_attributes_replays workflow_id attributes :
  Replays (in_workflow (DBOS_update_workflow_attributes serializer executor_id workflow_id attributes)) "DBOS.updateWorkflowAttributes".
Proof.
  apply as_step_replays, harmless_does. intros w. apply moves_bind; [apply _|apply moves_lift_res, _|]. intros t.
  apply (moves_update_only rows_only). apply rows_only_update.
Qed.

#[export] Instance DBOS_cancel_workflows_replays ids (children : bool) :
  Replays (in_workflow (DBOS_cancel_workflows serializer executor_id ids children)) "DBOS.cancelWorkflow".
Proof.
  apply as_step_replays. intros wid s n. destruct n as [|n]; [done|]. cbn [run_for].
  destruct (cancel_workflows _ _ _ _) as [d|] eqn:Hc; [|by destruct n].
  apply (moves_cancel_workflows rows_only) in Hc as [Ho Hr]; [|intros; apply rows_only_update].
  destruct n; cbn [run_for mret process_ret fst]; (split; [intros fid; cbn; by rewrite Ho|apply Hr]).
Qed.

(** Durable operations, steps among them. *)
Lemma durable_op_replays (op : operation (W:=W)) attempt name : Durable serializer executor_id op attempt name → Replays op name ∧ Atomic op name.
Proof.
  intros HD.
  assert (∀ ctx s n s', is_workflow ctx = true → active (cx_workflow_id ctx) (m_db s) → expected op name ctx (m_db s) →
    run_for n (op ctx).2 s = (s', None) → m_db s' = m_db s) as Hcrash.
  { intros ctx s n s' Hw Ha He Hrun. destruct (operation_outputs (m_db s) !! next_key op ctx) as [row|] eqn:Ho.
    - destruct (durable_replays serializer executor_id ctx s row Hw Ha Ho (He _ Ho)) as [_ Hs]. specialize (Hs n). rewrite Hrun in Hs.
      cbn [fst] in Hs. by subst s'.
    - destruct (durable_records serializer executor_id ctx s Hw Ha Ho) as [_ Hs]. by destruct (Hs n s' Hrun) as (-> & _). }
  split; [split|].
  - intros ctx Hw. destruct (durable_advances serializer executor_id ctx Hw) as (? & ? & _). done.
  - intros ctx s s' r Hw Ha He Hf. destruct (operation_outputs (m_db s) !! next_key op ctx) as [row|] eqn:Ho.
    + destruct (durable_replays serializer executor_id ctx s row Hw Ha Ho (He _ Ho)) as [Hf' _]. rewrite Hf in Hf'. by injection Hf' as -> _.
    + destruct (durable_records serializer executor_id ctx s Hw Ha Ho) as [(s1 & r1 & row & Hf' & _ & _ & [Hck _] & _) _].
      rewrite Hf in Hf'. injection Hf' as <- <-. intros fid row' Hr. rewrite Hck. rewrite lookup_insert_ne; [done|].
      intros Hk. rewrite Hk in Ho. congruence.
  - intros ctx s s' r s2 row Hw Ha He Hf Hr Hn Ha2 Hr2. exists (m_world s2).
    replace (s2 <| m_world := m_world s2 |>) with s2 by by destruct s2.
    destruct (durable_replays serializer executor_id ctx s2 row Hw Ha2 Hr2 Hn) as [-> _]. do 2 f_equal.
    destruct (operation_outputs (m_db s) !! next_key op ctx) as [row0|] eqn:Ho.
    + destruct (durable_replays serializer executor_id ctx s row0 Hw Ha Ho (He _ Ho)) as [Hf' _]. rewrite Hf in Hf'. injection Hf' as -> ->.
      by assert (row0 = row) as -> by congruence.
    + destruct (durable_records serializer executor_id ctx s Hw Ha Ho) as [(s1 & r1 & row1 & Hf' & _ & _ & [Hck _] & _ & Hans) _].
      rewrite Hf in Hf'. injection Hf' as <- <-. rewrite Hck, lookup_insert_eq in Hr. congruence.
  - intros ctx s s' v Hw Ha He Hf. unfold has_checkpoint. destruct (operation_outputs (m_db s) !! next_key op ctx) as [row0|] eqn:Ho.
    + destruct (durable_replays serializer executor_id ctx s row0 Hw Ha Ho (He _ Ho)) as [Hf' _]. rewrite Hf in Hf'. injection Hf' as -> _.
      exists row0. split; [done|by apply He].
    + destruct (durable_records serializer executor_id ctx s Hw Ha Ho) as [(s1 & r1 & row1 & Hf' & _ & _ & [Hck _] & Hn & _) _].
      rewrite Hf in Hf'. injection Hf' as <- _. exists row1. split; [rewrite Hck; apply lookup_insert_eq|done].
  - intros ctx s n s' Hw Ha He Hrun. by rewrite (Hcrash ctx s n s' Hw Ha He Hrun).
  - intros ctx s n s' Hw Ha He Hrun. left. by eapply Hcrash.
Qed.

(** Every operation of the API keeps to the interface. *)
Lemma api_operation_replays op name whole : api_operation serializer executor_id uuids op name whole → Replays op name.
Proof.
  destruct 1 as [dest v topic key ty tf|messages ty tf|key v ty|ms Hms|fuel key v ty|fuel key|name opts func Hopts Hends
    |polls wid|wid|ids children|ids queue|wid delay until|wid attributes]; try apply _.
  - by apply sleep_step.
  - apply write_stream_step.
  - apply close_stream_step.
  - by eapply durable_op_replays, step_durable.
Qed.

Lemma api_operation_atomic op name :
  api_operation serializer executor_id uuids op name true → Atomic op name.
Proof.
  remember true as whole eqn:Hwhole.
  destruct 1 as [dest v topic key ty tf|messages ty tf|key v ty|ms Hms|fuel key v ty|fuel key|name opts func Hopts Hends
    |polls wid|wid|ids children|ids queue|wid delay until|wid attributes]; try discriminate Hwhole; try apply _.
  - by apply sleep_step.
  - apply write_stream_step.
  - apply close_stream_step.
  - by eapply durable_op_replays, step_durable.
Qed.

End operation_instances.

(** ** The properties *)

(** C4: A workflow that is executed again goes on after its last checkpoint, whichever of the
    operations of [api_operation] it is made of. Let it have run, whatever others did in
    between, up to the call of some operation, each earlier call having returned a value, or
    left the checkpoint of what it raised, and let the machine die in that call. Of a [send], a
    [send_bulk], a [set_event], a [sleep], a write to or the closing of a stream, and of a step,
    the database then has nothing, or all that the whole call leaves, with its checkpoint; and in
    that case the call, made again, answers as it would have, and does nothing. Whatever the
    operation, the next execution, at any later time, answers the calls before by their
    checkpoints, changes nothing by them, and comes to the very same call. *)
Theorem recovery_continues {W : Type} `{Host W, Codecs, !CodecLaws} serializer executor_id uuids ctx wf (s : machine (W:=W)) ctx' op name whole k s' n s1 s2 :
  honest_name serializer → round_trips serializer → ser_name serializer ≠ ser_name DBOSPortableJSON →
  is_workflow ctx = true → ran (api serializer executor_id uuids) ctx wf s ctx' (WCall op k) s' →
  api_operation serializer executor_id uuids op name whole →
  active (cx_workflow_id ctx) (m_db s') → expected op name ctx' (m_db s') → run_for n (op ctx').2 s' = (s1, None) →
  keeps_checkpoints (cx_workflow_id ctx) (m_db s1) (m_db s2) → active (cx_workflow_id ctx) (m_db s2) →
  (whole = true →
    m_db s1 = m_db s' ∨
    (m_db s1 = m_db (finish (op ctx').2 s').1 ∧ has_checkpoint op name ctx' (m_db s1) ∧
     ∀ s3 r, finish (op ctx').2 s' = (s3, Some r) → ∃ w', finish (op ctx').2 s2 = (s2 <| m_world := w' |>, Some r))) ∧
  ∃ w', finish (run_workflow ctx wf) s2 = finish (run_workflow ctx' (WCall op k)) (s2 <| m_world := w' |>).
Proof.
  intros Hhon Hrb Hport Hw Hran Hop Ha He Hrun Hk Ha2.
  assert (∀ op name, api serializer executor_id uuids op name → Replays op name) as Hapi
    by (intros op0 name0 [b Hb]; by eapply api_operation_replays).
  destruct (ran_workflow _ Hapi _ _ _ _ _ _ Hran Hw) as (Hw' & Hid & _). rewrite <- Hid in Ha, Hk, Ha2.
  pose proof (Hapi op name ltac:(by exists whole)) as Hreplays. split.
  - intros ->. assert (Atomic op name) as Hatom by by eapply api_operation_atomic.
    destruct (Hatom ctx' s' n s1 Hw' Ha He Hrun) as [?|(Hd & row & Hrow & Hn)]; [by left|]. right. split; [done|]. split; [by exists row|].
    intros s3 r Hf. rewrite Hf in Hd. eapply replays_again; [exact Hw'|exact Ha|exact He|exact Hf| |exact Hn|exact Ha2|by apply Hk].
    cbn in Hd. by rewrite <- Hd.
  - pose proof (replays_crash ctx' s' n s1 Hw' Ha He Hrun) as Hk1. rewrite Hid in *.
    apply (run_again _ Hapi _ _ _ _ _ _ _ Hran Hw); [by etrans|done].
Qed.

(** ** Samples *)

#[local] Existing Instance sample_codecs.
#[local] Existing Instance sample_laws.

Notation letter_send := (DBOS_send (W:=mailbox) letter_serializer "exec" (λ _ _, "m")).
Notation letter_event := (DBOS_set_event (W:=mailbox) letter_serializer "exec").

Definition letter_db (others : list string) : db :=
  sample_db (("w", letters_row) :: ((λ id, (id, letters_row)) <$> others)).

Definition letter_machine (others : list string) : machine (W:=mailbox) := Machine (letter_db others) (Mailbox 0 []) ∅.

(** Sends a message to "v", then sleeps for a second. *)
Definition patient : workflow (W:=mailbox) :=
  WCall (in_workflow (letter_send "v" (PStr "hello") None None None false)) (λ _,
  WCall (in_workflow (DBOS_sleep letter_serializer "exec" 1000)) (λ r, WReturn r)).

Lemma crash_keeps wid (s : machine (W:=mailbox)) : keeps_checkpoints wid (m_db s) (m_db (crash s)).
Proof. intros fid row Hrow. exact Hrow. Qed.

(** The workflow dies in the sleep after its message, when that has its checkpoint: the next
    execution sends no second message, and finds the time it is to wake at. *)
Lemma recovery_continues_witness :
  let nap := in_workflow (DBOS_sleep (W:=mailbox) letter_serializer "exec" 1000) in
  let s := (finish (in_workflow (letter_send "v" (PStr "hello") None None None false) sample_ctx).2 (letter_machine ["v"])).1 in
  let ctx := sample_ctx <| cx_function_id := 1%Z |> in
  let s1 := (run_for 1 (nap ctx).2 s).1 in
  let s2 := crash s1 in
  (m_db s1 = m_db s ∨ (m_db s1 = m_db (finish (nap ctx).2 s).1 ∧ has_checkpoint nap "DBOS.sleep" ctx (m_db s1) ∧
    ∀ s3 r, finish (nap ctx).2 s = (s3, Some r) → ∃ w', finish (nap ctx).2 s2 = (s2 <| m_world := w' |>, Some r))) ∧
  ∃ w', finish (run_workflow sample_ctx patient) s2 =
    finish (run_workflow ctx (WCall nap (λ r, WReturn r))) (s2 <| m_world := w' |>).
Proof.
  intros nap s ctx s1 s2.
  destruct (@recovery_continues mailbox mailbox_host sample_codecs sample_laws letter_serializer "exec" (λ _ _, "m") sample_ctx patient
    (letter_machine ["v"]) ctx nap "DBOS.sleep" true (λ r, WReturn r) s 1 s1 s2 letters_honest letters_read_back) as [Hwhole Hagain].
  - discriminate.
  - reflexivity.
  - eapply (ran_call _ _ "DBOS.send" _ sample_ctx (letter_machine ["v"]) s (Ok PNone)).
    + exists true. apply api_send.
    + exists letters_row. split; [reflexivity|discriminate].
    + intros row Hrow. discriminate Hrow.
    + refine (ended_with _ (Some (Ok PNone)) _). vm_compute. reflexivity.
    + by left.
    + reflexivity.
    + apply ran_here.
  - apply api_sleep. reflexivity.
  - exists letters_row. split; [reflexivity|discriminate].
  - intros row Hrow. discriminate Hrow.
  - vm_compute. reflexivity.
  - exact (crash_keeps _ s1).
  - exists letters_row. split; [reflexivity|discriminate].
  - split; [by apply Hwhole|exact Hagain].
Defined.

(** A workflow that publishes what it does when the message cannot be sent. *)
Definition careful : workflow (W:=mailbox) :=
  WCall (in_workflow (letter_send "x" (PStr "hello") None None None false)) (λ r,
  match r with
  | Err (DBOSNonExistentWorkflowError _ _) => WCall (send_letter "missed") (λ r, WReturn r)
  | _ => WCall (in_workflow (letter_event "sent" (PStr "yes") None)) (λ r, WReturn r)
  end).

(** The error of a send is not checkpointed, though the workflow can catch it. A
    workflow that sends to a workflow that is not there, and makes up for it by a step, has
    that step in its history; when it is recovered after the destination has come to be,
    its send succeeds, and the operation that then follows meets the checkpoint of the step
    and raises [DBOSUnexpectedStepError]. *)
Lemma caught_send_error_breaks_replay :
  let '(s1, r1) := finish (run_workflow sample_ctx careful) (letter_machine []) in
  let d2 := (m_db s1) <| workflow_status := <["x" := letters_row]> (workflow_status (m_db s1)) |> in
  let r2 := (finish (run_workflow sample_ctx careful) (crash (s1 <| m_db := d2 |>))).2 in
  r1 = Some (Ok (PStr "missed")) ∧
  r2 = Some (Err (DBOSUnexpectedStepError "w" 2 "DBOS.setEvent" "post")).
Proof. vm_compute. split; reflexivity. Qed.

(** An operation that goes through [call_function_as_step] takes effect again when the
    machine dies before its checkpoint. A workflow sets the attributes of another and dies;
    somebody else sets them; the recovery of the workflow overwrites them. *)
Lemma attributes_updated_again :
  let op := in_workflow (DBOS_update_workflow_attributes letter_serializer "exec" "v" None) sample_ctx in
  let s1 := (run_for 3 op.2 (letter_machine ["v"])).1 in
  let d2 := (update_workflow_attributes 7 "v" (Some (PDict [(PStr "k", PStr "theirs")])) (m_db s1)).1 in
  let s3 := (finish op.2 (crash (s1 <| m_db := d2 |>))).1 in
  operation_outputs (m_db s1) !! ("w", 1%Z) = None ∧
  (ws_updated_at <$> workflow_status (m_db s1) !! "v") = Some 0%Z ∧
  is_Some (workflow_status d2 !! "v" ≫= ws_attributes) ∧
  (workflow_status (m_db s3) !! "v" ≫= ws_attributes) = None.
Proof. vm_compute. split_and!; try reflexivity. by eexists. Qed.

(** ** A portable workflow that is called *)

Definition bulletin : workflow_info (W:=mailbox) := {|
  wf_name := "wf"; wf_class_name := None; wf_config_name := None; wf_static := false;
  wf_class_roles := None; wf_required_roles := None; wf_max_recovery_attempts := Some 5%Z;
  wf_serialization_type := Some PORTABLE; wf_validate_args := None; wf_coerce_to_hints := id;
  wf_func _ := WCall (in_workflow (letter_event "k" (PStr "v") None)) (λ r, WReturn r);
|}.

(** The name of the serialization the event of the workflow "u" is written in. *)
Definition event_format (s : machine (W:=mailbox)) : option (option string) :=
  we_serialization <$> workflow_events (m_db s) !! ("u", "k").

(** The call leaves the function's context in the default format, the start puts it in the
    function's: the same event is written in two formats. *)
Lemma called_portable_writes_default :
  let called := (finish (@call_workflow mailbox mailbox_host sample_codecs letter_serializer "exec" 3 "app" "v1" "u" "x"
                           bulletin {| args := []; kwargs := [] |} None).2 (letter_machine [])).1 in
  let started := match @start_workflow mailbox mailbox_host sample_codecs letter_serializer "exec" 3 "app" "v1" "u" "x"
                         bulletin {| args := []; kwargs := [] |} None true false false None with
                 | Ok (_, p) => (finish (h ← p; handle_result letter_serializer 3 h) (letter_machine [])).1
                 | Err _ => letter_machine []
                 end in
  event_format called = Some (Some "sample") ∧ event_format started = Some (Some (ser_name DBOSPortableJSON)).
Proof. vm_compute. split; reflexivity. Qed.
