(* ===== verification/Debouncing.v ===== *)
(** * Debouncing: [Debouncer] of [dbos/_debouncer.py]

    A debounce of a key extends the delayed workflow of that key, if there is one, or else
    enqueues a new one, whose deduplication ID is the key. Between the two others may take
    the key; the call then starts over. In a workflow both parts are checkpointed: the
    bounce in its own transaction ([call_txn_as_step]), the new workflow as a child.

    A [call] is a call of the API as a thread makes it: it may change the thread's context
    between the actions of the process, and depend on their answers. *)
From Stdlib Require Import QArith.
From S2P Require Import Prelude Errors Schema Retry Serialization Workflows Context Steps Queues Process Execution Durability Recovery Scopes Calls Operations.
Open Scope nat_scope.

(** ** Calls of a thread *)

Definition call (W A : Type) : Type := option DBOSContext → process (machine (W:=W)) (option DBOSContext * res pyexn A).

#[export] Instance call_ret {W} : MRet (call W) := λ A a local, mret (local, Ok a).
#[export] Instance call_bind {W} : MBind (call W) := λ A B k m local,
  '(local, r) ← m local;
  match r with Ok a => k a local | Err e => mret (local, Err e) end.

Section calls.
Context {W : Type}.
Notation machine := (@machine W).

Definition raising {A} (r : res pyexn A) : call W A := λ local, mret (local, r).
(** What the process does, whatever the context. *)
Definition waiting {A} (p : process machine A) : call W A := λ local, and_then p (λ r, mret (local, r)).
Definition local_dbos_context : call W (option DBOSContext) := λ local, mret (local, Ok local).
Definition set_context (f : DBOSContext → DBOSContext) : call W unit := λ local, mret (f <$> local, Ok tt).
(** [try: m except e: h e]. *)
Definition trying {A} (m : call W A) (h : pyexn → option (call W A)) : call W A := λ local,
  '(local, r) ← m local;
  match r with Err e => match h e with Some k => k local | None => mret (local, r) end | Ok _ => mret (local, r) end.

(** A block that sets options, around calls. *)
Definition within_settings (executor_id app_id : string) `{Setting T} (v : T) {A} (body : call W A) : call W A := λ local,
  let ctx := default (new_context executor_id app_id) local in
  '(inner, r) ← body (Some (with_setting v ctx));
  mret (match local with Some _ => with_setting (setting ctx) <$> inner | None => None end, r).

End calls.

(** ** Decisions *)

(** [_is_queue_deduplicated_error] *)
Definition is_queue_deduplicated_error (e : pyexn) : bool :=
  match e with
  | DBOSQueueDeduplicatedError _ _ _ => true
  | PortableWorkflowError _ name _ _ => String.eqb name "DBOSQueueDeduplicatedError"
  | _ => false
  end.

(** [_reject_conflicting_options] *)
Definition reject_conflicting_options (has_deduplication_id has_delay has_priority has_partition_key : bool) : res pyexn unit :=
  if has_deduplication_id then
    Err (DBOSException ("Cannot debounce a workflow with a deduplication_id set: the debounce " +:+
                        "key is used as the workflow's deduplication ID."))
  else if has_delay then
    Err (DBOSException ("Cannot debounce a workflow with a delay set: the debounce period " +:+
                        "controls the workflow's delay."))
  else if has_priority then
    Err (DBOSException ("Cannot debounce a workflow with a priority set: priority is not " +:+
                        "supported for debounced workflows."))
  else if has_partition_key then
    Err (DBOSException ("Cannot debounce a workflow with a queue partition key set: partitioned " +:+
                        "queues do not support deduplication, which debouncing requires."))
  else Ok tt.

Inductive BounceAction := BounceReturn | BounceEnqueue | BounceRaise | BounceRetry.

(** [_classify_bounce] *)
Definition classify_bounce (result : DebounceResult) (workflow_name : string) : BounceAction :=
  match bounced_workflow_id result, holder_workflow_id result with
  | Some _, _ => BounceReturn
  | None, None => BounceEnqueue
  | None, Some _ =>
      if negb (holder_is_debounced result) then BounceRaise
      else if bool_decide (holder_workflow_name result ≠ Some workflow_name) then BounceRaise
      else BounceRetry
  end.

(** [DebounceResult] as the dictionary it is, and back. *)
Definition opt_py (o : option string) : pyval := match o with Some s => PStr s | None => PNone end.

Definition bounce_dict (r : DebounceResult) : pyval := PDict [
  (PStr "bounced_workflow_id", opt_py (bounced_workflow_id r));
  (PStr "holder_workflow_id", opt_py (holder_workflow_id r));
  (PStr "holder_is_debounced", PBool (holder_is_debounced r));
  (PStr "holder_workflow_name", opt_py (holder_workflow_name r))].

Definition bounce_of_dict (v : pyval) : res pyexn DebounceResult :=
  match v with
  | PDict [(_, bounced); (_, holder); (_, PBool debounced); (_, name)] =>
      let str v := match v with PStr s => Some s | _ => None end in
      Ok {| bounced_workflow_id := str bounced; holder_workflow_id := str holder;
            holder_is_debounced := debounced; holder_workflow_name := str name |}
  | _ => Err (KeyError "bounced_workflow_id")
  end.

(** [DebouncerOptions]; the timeout in milliseconds. *)
Record DebouncerOptions := {
  do_workflow_name : string;
  do_debounce_timeout_ms : option Z;
  do_queue_name : option string;
}.

(** A timeout of 0 is none. *)
Definition debounce_deadline (o : DebouncerOptions) (now_ms : Z) : option Z :=
  match do_debounce_timeout_ms o with
  | Some t => if bool_decide (t = 0)%Z then None else Some (now_ms + t)%Z
  | None => None
  end.

Definition first_delay (now_ms period_ms : Z) (deadline_ms : option Z) : Z :=
  match deadline_ms with Some d => Z.min (now_ms + period_ms) d | None => now_ms + period_ms end.

Definition debounce_id (o : DebouncerOptions) (debounce_key : string) : string := do_workflow_name o +:+ "-" +:+ debounce_key.

(** ** [Debouncer] *)

Section debouncer.
Context {W : Type} `{Host W, Codecs} (serializer : Serializer) (executor_id app_id app_version : string).
(** The IDs [uuid4] draws. *)
Context (uuids : W → nat → string).
(** [dbos._registry]: its queues, the internal queue, and its workflow functions. *)
Context (queue_info_map : string → option Queue) (internal_queue : Queue) (reg : registry (W:=W)).
Notation machine := (@machine W).
Notation workflow_info := (@workflow_info W).
Notation workflow_handle := (@workflow_handle W).

(** [_bounce], in a transaction. *)
Definition bounce (o : DebouncerOptions) (w : W) (info : workflow_info) (queue_name deduplication_id : string) (period_ms : Z)
    (inputs : WorkflowInputs) : txn pyval :=
  '(x, n) ← lift_res (serialize_args inputs (wf_serialization_type info) serializer);
  result ← debounce_delayed_workflow (now_ms w) (do_workflow_name o) queue_name deduplication_id (time_ms w + period_ms) x (Some n);
  mret (bounce_dict result).

(** The bounce of [debounce], as a step when a workflow calls. *)
Definition bounce_call (o : DebouncerOptions) (info : workflow_info) (queue_name deduplication_id : string) (period_ms : Z)
    (inputs : WorkflowInputs) : call W DebounceResult := λ local,
  let '(local, step_ctx) := snapshot_step_context false local in
  let body w := bounce o w info queue_name deduplication_id period_ms inputs in
  (result ← waiting (database (λ w,
     match step_ctx with
     | Some c =>
         if is_workflow c then
           let step := enter_step_ctx c in
           call_txn_as_step (Some executor_id) serializer (time_ms w) (time_ms w) (cx_workflow_id step)
             (cx_curr_step_function_id step) "DBOS.debounce_delayed_workflow" (body w)
         else engine_begin (body w)
     | None => engine_begin (body w)
     end));
   raising (bounce_of_dict result)) local.

(** [Queue.enqueue] *)
Definition enqueue (queue : Queue) (info : workflow_info) (inputs : WorkflowInputs) : call W workflow_handle :=
  ctx ← local_dbos_context;
  _ ← raising (validate_enqueue queue ctx);
  w ← waiting (act (gets m_world));
  (λ local,
   match start_workflow serializer executor_id 0 app_id app_version (uuids w 0) (uuids w 1) info inputs (Some (q_name queue))
           false false false local with
   | Ok (local, p) => waiting p local
   | Err e => mret (local, Err e)
   end) : call W workflow_handle.

Definition resolve_queue (queue_name : option string) : call W Queue :=
  match nonempty queue_name with
  | Some name =>
      match queue_info_map name with
      | Some q => mret q
      | None =>
          found ← waiting (database (λ _ d, (d, get_queue d name false)));
          match found with
          | Some q => mret q
          | None => raising (Err (PyException ("Invalid queue name provided to debouncer: " +:+ name)))
          end
      end
  | None => mret internal_queue
  end.

(** The loop of [debounce]. *)
Fixpoint debounce_loop (fuel : nat) (o : DebouncerOptions) (queue : Queue) (info : workflow_info) (deduplication_id : string)
    (period_ms : Z) (inputs : WorkflowInputs) (pinned_workflow_id : option string) : call W workflow_handle :=
  match fuel with
  | O => λ _, Waits
  | S fuel' =>
      let again := debounce_loop fuel' o queue info deduplication_id period_ms inputs pinned_workflow_id in
      result ← bounce_call o info (q_name queue) deduplication_id period_ms inputs;
      match classify_bounce result (do_workflow_name o) with
      | BounceReturn => mret (polling_handle (default "" (bounced_workflow_id result)))
      | BounceRaise =>
          raising (Err (DBOSQueueDeduplicatedError (default "" (holder_workflow_id result)) (q_name queue) deduplication_id))
      | BounceRetry => again
      | BounceEnqueue =>
          now_ms ← waiting (act (gets (λ s, time_ms (m_world s))));
          let deadline_ms := debounce_deadline o now_ms in
          _ ← match pinned_workflow_id with
              | Some pinned => set_context (λ c, c <| cx_id_assigned_for_next_workflow := pinned |>)
              | None => mret tt
              end;
          trying
            (within_settings executor_id app_id
               (MkDebounce (Some deduplication_id) (Some (first_delay now_ms period_ms deadline_ms)) deadline_ms true None)
               (enqueue queue info inputs))
            (λ e, if is_queue_deduplicated_error e then Some again else None)
      end
  end.

(** [Debouncer.debounce] *)
Definition debounce (fuel : nat) (o : DebouncerOptions) (debounce_key : string) (period_ms : Z) (inputs : WorkflowInputs) :
    call W workflow_handle :=
  ctx ← local_dbos_context;
  _ ← raising match ctx with
              | Some c => reject_conflicting_options (bool_decide (is_Some (cx_deduplication_id c)))
                            (bool_decide (is_Some (cx_delay_until_epoch_ms c))) (bool_decide (is_Some (cx_priority c)))
                            (bool_decide (is_Some (cx_queue_partition_key c)))
              | None => Ok tt
              end;
  let pinned_workflow_id := nonempty (cx_id_assigned_for_next_workflow <$> ctx) in
  _ ← (if pinned_workflow_id is Some _ then set_context (λ c, c <| cx_id_assigned_for_next_workflow := "" |>) else mret tt);
  queue ← resolve_queue (do_queue_name o);
  match workflow_info_map reg (do_workflow_name o) with
  | None => raising (Err (PyException ("Invalid workflow name provided to debouncer: " +:+ do_workflow_name o)))
  | Some info => debounce_loop fuel o queue info (debounce_id o debounce_key) period_ms inputs pinned_workflow_id
  end.

End debouncer.

(** ** Lemmas *)

Section call_lemmas.
Context {W : Type} `{Host W}.
Notation machine := (@machine W).

Lemma finish_call_bind {A B} (m : call W A) (k : A → call W B) local (s : machine) :
  finish ((m ≫= k) local) s =
  match finish (m local) s with
  | (s', Some (Ok (local', Ok a))) => finish (k a local') s'
  | (s', Some (Ok (local', Err e))) => (s', Some (Ok (local', Err e)))
  | (s', Some (Err e)) => (s', Some (Err e))
  | (s', None) => (s', None)
  end.
Proof.
  unfold mbind, call_bind. rewrite finish_bind. destruct (finish (m local) s) as [s' [[[l [a|e]]|e]|]]; done.
Qed.

Lemma finish_waiting {A} (p : process machine A) local (s : machine) :
  finish (waiting p local) s =
  match finish p s with (s', Some r) => (s', Some (Ok (local, r))) | (s', None) => (s', None) end.
Proof. unfold waiting. rewrite finish_and_then. by destruct (finish p s) as [s' [r|]]. Qed.

Lemma finish_raising {A} (r : res pyexn A) local (s : machine) : finish (raising r local) s = (s, Some (Ok (local, r))).
Proof. done. Qed.

Lemma finish_within_settings `{Setting T} executor_id app_id (v : T) {A} (body : call W A) local (s : machine) :
  finish (within_settings executor_id app_id v body local) s =
  let ctx := default (new_context executor_id app_id) local in
  match finish (body (Some (with_setting v ctx))) s with
  | (s', Some (Ok (inner, r))) =>
      (s', Some (Ok (match local with Some _ => with_setting (setting ctx) <$> inner | None => None end, r)))
  | (s', Some (Err e)) => (s', Some (Err e))
  | (s', None) => (s', None)
  end.
Proof. unfold within_settings. rewrite finish_bind. by destruct (finish (body _) s) as [s' [[[l r]|e]|]]. Qed.

Lemma finish_trying {A} (m : call W A) h local (s : machine) :
  finish (trying m h local) s =
  match finish (m local) s with
  | (s', Some (Ok (local', Err e))) =>
      match h e with Some k => finish (k local') s' | None => (s', Some (Ok (local', Err e))) end
  | sr => sr
  end.
Proof.
  unfold trying. rewrite finish_bind. destruct (finish (m local) s) as [s' [[[l [a|e]]|e]|]]; try done. by destruct (h e).
Qed.

End call_lemmas.

(** ** A bounce *)

Definition bounced_row (now t : Z) (inputs : string) (serialization : option string) (r : workflow_status_row) : workflow_status_row :=
  r <| ws_delay_until_epoch_ms := Some (capped_delay r t) |> <| ws_inputs := Some inputs |>
    <| ws_serialization := serialization |> <| ws_updated_at := now |>.

Lemma bounce_holder now n q i t x ser c id r :
  dedup_unique (workflow_status (current c)) → workflow_status (current c) !! id = Some r → debounce_match n q i r = true →
  debounce_delayed_workflow now n q i t x ser c =
    (Conn (committed c) ((current c) <| workflow_status := <[id := bounced_row now t x ser r]> (workflow_status (current c)) |>),
     Ok {| bounced_workflow_id := Some id; holder_workflow_id := None; holder_is_debounced := false; holder_workflow_name := None |}).
Proof.
  intros Hu Hr Hm. unfold debounce_delayed_workflow. run_txn. set (t0 := workflow_status (current c)) in *.
  set (p := λ _ : string, debounce_match n q i).
  assert (∀ id' r', t0 !! id' = Some r' → p id' r' = true → id' = id) as Hall.
  { intros id' r' Hr' Hp'. subst p. cbv beta in Hp'. unfold debounce_match, sql_eq in Hm, Hp'.
    rewrite !andb_true_iff, !bool_decide_eq_true in Hm, Hp'. destruct Hm as [[[[]]]], Hp' as [[[[]]]]. by eapply Hu. }
  rewrite (sql_update_unique p _ t0 id r Hr Hm Hall).
  destruct (sql_select p t0) as [|[id' r'] l] eqn:Hsel.
  - rewrite sql_select_nil in Hsel. specialize (Hsel id r Hr). unfold p in Hsel. congruence.
  - assert ((id', r') ∈ sql_select p t0) as [Hr' Hp']%elem_of_sql_select by (rewrite Hsel; left).
    by rewrite (Hall id' r' Hr' Hp').
Qed.

Lemma bounce_free now n q i t x ser c :
  dedup_taken (workflow_status (current c)) (Some q) (Some i) = false →
  debounce_delayed_workflow now n q i t x ser c =
    (c, Ok {| bounced_workflow_id := None; holder_workflow_id := None; holder_is_debounced := false; holder_workflow_name := None |}).
Proof.
  intros Hfree. pose proof (dedup_taken_false _ _ _ Hfree) as Hnone. unfold debounce_delayed_workflow. run_txn.
  set (t0 := workflow_status (current c)) in *. set (p := λ _ : string, debounce_match n q i).
  assert (sql_select p t0 = []) as Hsel.
  { apply sql_select_nil. intros id r Hr. apply not_true_is_false. unfold p, debounce_match, sql_eq.
    rewrite !andb_true_iff, !bool_decide_eq_true. intros [[[[? Hq] Hi] ?] ?]. exact (Hnone id r Hr Hq Hi). }
  rewrite (sql_update_none _ _ _ Hsel), Hsel. cbn [fmap list_fmap head fst snd committed current].
  unfold dedup_taken in Hfree. rewrite bool_decide_eq_false in Hfree. apply dec_stable in Hfree.
  change (workflow_status (_ <| workflow_status := t0 |>)) with t0. rewrite Hfree. cbn [head fst snd committed current].
  destruct c as [cm [] ]. done.
Qed.

(** Another workflow holds the key, or this one does and does not wait any more. *)
Lemma bounce_held now n q i t x ser c id r :
  dedup_unique (workflow_status (current c)) → workflow_status (current c) !! id = Some r →
  ws_queue_name r = Some q → ws_deduplication_id r = Some i → debounce_match n q i r = false →
  debounce_delayed_workflow now n q i t x ser c =
    (c, Ok {| bounced_workflow_id := None; holder_workflow_id := Some id; holder_is_debounced := ws_is_debounced r;
              holder_workflow_name := ws_name r |}).
Proof.
  intros Hu Hr Hq Hi Hm. unfold debounce_delayed_workflow. run_txn.
  set (t0 := workflow_status (current c)) in *. set (p := λ _ : string, debounce_match n q i).
  assert (sql_select p t0 = []) as Hsel.
  { apply sql_select_nil. intros id' r' Hr'. apply not_true_is_false. unfold p. intros Hm'. pose proof Hm' as Hm2.
    unfold debounce_match, sql_eq in Hm2. rewrite !andb_true_iff, !bool_decide_eq_true in Hm2. destruct Hm2 as [[[[_ Hq'] Hi'] _] _].
    assert (id' = id) as -> by (by eapply Hu). congruence. }
  rewrite (sql_update_none _ _ _ Hsel), Hsel. cbn [fmap list_fmap head fst snd committed current].
  change (workflow_status (_ <| workflow_status := t0 |>)) with t0.
  destruct (head (sql_select (λ _ r, sql_eq (ws_queue_name r) q && sql_eq (ws_deduplication_id r) i) t0)) as [[id' r']|] eqn:Hh.
  - apply head_sql_select in Hh as [Hr' Hk]. unfold sql_eq in Hk. rewrite andb_true_iff, !bool_decide_eq_true in Hk.
    destruct Hk as [Hq' Hi']. assert (id' = id) as -> by (by eapply Hu). rewrite Hr in Hr'. injection Hr' as <-.
    cbn [fst snd committed current]. by destruct c as [cm []].
  - exfalso. apply head_None in Hh. rewrite sql_select_nil in Hh. specialize (Hh id r Hr). unfold sql_eq in Hh.
    by rewrite !bool_decide_eq_true_2 in Hh.
Qed.

(** The submission of a workflow that is not there, and whose key is free. *)
Lemma init_undelayed now status m xid d :
  workflow_status d !! wi_workflow_uuid status = None → is_enqueued_status (wi_status status) = true →
  dedup_taken (workflow_status d) (wi_queue_name status) (wi_deduplication_id status) = false →
  Workflows.init_workflow now status m xid false false d =
    (d <| workflow_status := <[wi_workflow_uuid status := inserted_row now status xid]> (workflow_status d) |>,
     Ok {| ir_status := wi_status status; ir_deadline := wi_workflow_deadline_epoch_ms status; ir_should_execute := true;
           ir_serialization := wi_serialization status |}).
Proof.
  intros Hnew Hs Hfree. unfold Workflows.init_workflow, insert_workflow_status. run_txn.
  unfold upsert_workflow_row, insert_workflow_row. rewrite Hnew.
  change (ws_queue_name (inserted_row now status xid)) with (wi_queue_name status).
  change (ws_deduplication_id (inserted_row now status xid)) with (wi_deduplication_id status).
  rewrite Hfree. cbn [fst snd committed current].
  assert (conflict_message (inserted_row now status xid) status = None) as ->.
  { unfold conflict_message. simpl. by rewrite !bool_decide_eq_false_2 by tauto. }
  assert (exceeds_attempts (inserted_row now status xid) m xid = Ok false) as ->.
  { unfold exceeds_attempts. destruct (not_complete _); [|done]. destruct m; [|done]. simpl.
    rewrite (bool_decide_eq_false_2 (xid ≠ xid)) by tauto. by rewrite andb_false_r. }
  cbn [fst snd committed current]. simpl. by rewrite (bool_decide_eq_false_2 (xid ≠ xid)) by tauto.
Qed.

(** ** Debounces of a thread outside workflows *)

Section outside_workflows.
Context {W : Type} `{Host W, Codecs} (serializer : Serializer) (executor_id app_id app_version : string).
Context (uuids : W → nat → string) (queue_info_map : string → option Queue) (internal_queue : Queue) (reg : registry (W:=W)).
Context (o : DebouncerOptions) (key : string) (queue : Queue) (info : workflow_info (W:=W)).
Notation machine := (@machine W).
Notation debounce := (debounce serializer executor_id app_id app_version uuids queue_info_map internal_queue reg).
Notation debounce_loop := (debounce_loop serializer executor_id app_id app_version uuids).
Notation bounce_call := (bounce_call (W:=W) serializer executor_id).
Notation bounce := (bounce (W:=W) serializer).
Notation enqueue := (enqueue serializer executor_id app_id app_version uuids).

(** The debouncer's queue and function, as the registry has them. *)
Record registered : Prop := {
  queue_found : match nonempty (do_queue_name o) with
                | Some name => queue_info_map name = Some queue
                | None => internal_queue = queue
                end;
  info_found : workflow_info_map reg (do_workflow_name o) = Some info;
  info_name : wf_name info = do_workflow_name o;
  plain_function : wf_class_name info = None;
  in_process : q_client_bound queue = false;
  not_partitioned : q_partition_queue queue = false;
}.

Notation written inputs := (serialize_args inputs (wf_serialization_type info) serializer).
Notation dedup := (debounce_id o key).

(** The debounced workflow of the key, as it waits. *)
Record waits_for (inputs : string * string) (until : Z) (deadline : option Z) (r : workflow_status_row) : Prop := {
  wf_delayed : ws_status r = DELAYED;
  wf_named : ws_name r = Some (do_workflow_name o);
  wf_queued : ws_queue_name r = Some (q_name queue);
  wf_keyed : ws_deduplication_id r = Some dedup;
  wf_debounced : ws_is_debounced r = true;
  wf_inputs : ws_inputs r = Some inputs.1 ∧ ws_serialization r = Some inputs.2;
  wf_until : ws_delay_until_epoch_ms r = Some until;
  wf_deadline : ws_debounce_deadline_epoch_ms r = deadline;
}.

Lemma debounce_match_waits inputs until deadline r :
  waits_for inputs until deadline r → debounce_match (do_workflow_name o) (q_name queue) dedup r = true.
Proof.
  intros [Hs Hn Hq Hk Hd _ _ _]. unfold debounce_match, sql_eq. rewrite Hs, Hn, Hq, Hk, Hd.
  by rewrite !bool_decide_eq_true_2.
Qed.

Lemma finish_bounce_call period inputs (s : machine) :
  finish (bounce_call o info (q_name queue) dedup period inputs None) s =
  let '(d', r) := engine_begin (bounce o (m_world s) info (q_name queue) dedup period inputs) (m_db s) in
  (s <| m_db := d' |>, Some (Ok (None, match r with Ok v => bounce_of_dict v | Err e => Err e end))).
Proof.
  unfold bounce_call. cbn [snapshot_step_context]. rewrite finish_call_bind, finish_waiting, finish_database.
  destruct (engine_begin _ _) as [d' [v|e]]; cbn [fst snd]; [|done]. by rewrite finish_raising.
Qed.

Lemma bounce_of_bounce_dict r : bounce_of_dict (bounce_dict r) = Ok r.
Proof. by destruct r as [[] [] ? []]. Qed.

Lemma bounce_eq w period inputs x n c :
  written inputs = Ok (x, n) →
  bounce o w info (q_name queue) dedup period inputs c =
  match debounce_delayed_workflow (now_ms w) (do_workflow_name o) (q_name queue) dedup (time_ms w + period) x (Some n) c with
  | (c', Ok r) => (c', Ok (bounce_dict r))
  | (c', Err e) => (c', Err e)
  end.
Proof. intros Hx. unfold Debouncing.bounce, mbind, SM_bind, lift_res. by rewrite Hx. Qed.

Lemma queue_admits ctx :
  registered → cx_queue_partition_key ctx = None → cx_priority ctx = None → validate_enqueue queue (Some ctx) = Ok tt.
Proof.
  intros [_ _ _ _ Hc Hp] Hk Hpr. unfold validate_enqueue. cbn [mbind option_bind]. rewrite Hc, Hk, Hpr, Hp. cbn.
  by destruct (q_database_backed queue).
Qed.

Lemma finish_init_workflow xid ctx inputs x n q deadline opts (s : machine) wfid :
  wfid ≠ "" → cx_workflow_attributes ctx = None →
  serialize_args (drop_receiver (wf_class_name info) inputs)
    (Some (input_format (Some (default DEFAULT (wf_serialization_type info))) ctx)) serializer = Ok (x, n) →
  let status := new_status app_version ctx wfid info (Some q) None deadline (Some opts) x n None in
  workflow_status (m_db s) !! wfid = None →
  dedup_taken (workflow_status (m_db s)) (Some q) (eo_deduplication_id opts) = false →
  finish (Execution.init_workflow (W:=W) serializer executor_id app_version xid ctx info inputs (Some q) None deadline
            (wf_max_recovery_attempts info) (Some opts) false false (Some (default DEFAULT (wf_serialization_type info))) wfid) s =
  (s <| m_db := (m_db s) <| workflow_status :=
      <[wfid := inserted_row (now_ms (m_world s)) status (Some xid)]> (workflow_status (m_db s)) |> |>,
   Some (Ok (ctx <| cx_workflow_attributes := None |> <| cx_workflow_deadline_epoch_ms := deadline |>,
             status <| wi_workflow_deadline_epoch_ms := deadline |> <| wi_status := wi_status status |>
               <| wi_serialization := wi_serialization status |>, true))).
Proof.
  intros Hne Ha Hx status Hnew Hfree. unfold Execution.init_workflow.
  rewrite (bool_decide_eq_false_2 (wfid = "")) by done. cbn [negb].
  rewrite (bool_decide_eq_false_2 (wfid = "")) by done.
  rewrite finish_bind. unfold returns at 1. cbn [finish]. rewrite Hx. rewrite finish_bind. unfold returns at 1. cbn [finish].
  rewrite Ha. rewrite finish_bind, finish_and_then, finish_database. fold status.
  rewrite init_undelayed; [|done| |done].
  2: { subst status. unfold new_status. cbn [wi_status mbind option_bind]. by destruct (eo_delay_until_epoch_ms opts). }
  done.
Qed.

(** The enqueue of the first debounce. *)
Lemma finish_enqueue inputs x n until deadline (s : machine) :
  registered → written inputs = Ok (x, n) → uuids (m_world s) 0 ≠ "" → workflow_status (m_db s) !! uuids (m_world s) 0 = None →
  dedup_taken (workflow_status (m_db s)) (Some (q_name queue)) (Some dedup) = false →
  ∃ row inner,
    finish (enqueue queue info inputs
      (Some (with_setting (MkDebounce (Some dedup) (Some until) deadline true None) (new_context executor_id app_id)))) s =
      (s <| m_db := (m_db s) <| workflow_status := <[uuids (m_world s) 0 := row]> (workflow_status (m_db s)) |> |>,
       Some (Ok (inner, Ok (polling_handle (uuids (m_world s) 0))))) ∧
    waits_for (x, n) until deadline row.
Proof.
  intros Hreg Hx Hid Hnew Hfree. unfold Debouncing.enqueue. rewrite finish_call_bind. cbn [local_dbos_context finish mret process_ret].
  rewrite finish_call_bind, finish_raising, queue_admits by done. rewrite finish_call_bind, finish_waiting, finish_act. cbn [gets fst snd].
  set (w := m_world s) in *. set (ctx := with_setting _ _).
  assert (create_start_workflow_child executor_id app_id (uuids w 0) (Some ctx) =
    Ok (Some ctx, (new_context executor_id app_id) <| cx_id_assigned_for_next_workflow := uuids w 0 |>)) as Hchild by reflexivity.
  unfold Execution.start_workflow. rewrite Hchild, finish_waiting, finish_bind, finish_act.
  cbn [gets fst snd]. rewrite finish_bind. cbn [has_parent finish mret process_ret].
  set (child := (new_context executor_id app_id) <| cx_id_assigned_for_next_workflow := uuids w 0 |>).
  change (has_parent child) with false. cbv iota. cbn [finish mret process_ret mbind option_bind nonempty].
  change (cx_id_assigned_for_next_workflow child) with (uuids w 0).
  rewrite finish_bind.
  change (cx_workflow_timeout_ms ctx) with (@None Z).
  change (get_timeout_deadline (time_ms (m_world s)) (Some ctx) (Some (q_name queue))).2 with (@None Z).
  erewrite finish_init_workflow; [|done|reflexivity| |done|exact Hfree].
  2: { rewrite (plain_function Hreg). cbn [drop_receiver truthy].
       transitivity (written inputs); [by destruct (wf_serialization_type info) as [[]|]|exact Hx]. }
  cbv beta iota. eexists _, _. split; [reflexivity|].
  split; try reflexivity; [simpl; by rewrite (info_name Hreg)|by split].
Qed.

Lemma debounce_enters fuel period inputs (s : machine) :
  registered →
  finish (debounce fuel o key period inputs None) s =
  finish (debounce_loop fuel o queue info dedup period inputs None None) s.
Proof.
  intros [Hq Hi _ _ _ _]. unfold Debouncing.debounce. rewrite finish_call_bind. cbn [local_dbos_context finish mret process_ret].
  rewrite finish_call_bind, finish_raising. cbn [nonempty fmap option_fmap option_map]. rewrite finish_call_bind.
  cbn [finish mret call_ret process_ret]. rewrite finish_call_bind. unfold resolve_queue.
  destruct (nonempty (do_queue_name o)) as [name|]; rewrite Hq; cbn [finish mret call_ret process_ret]; by rewrite Hi.
Qed.

(** The first debounce of a key that is free. *)
Lemma debounce_first fuel period inputs x n (s : machine) :
  registered → written inputs = Ok (x, n) → uuids (m_world s) 0 ≠ "" → workflow_status (m_db s) !! uuids (m_world s) 0 = None →
  dedup_taken (workflow_status (m_db s)) (Some (q_name queue)) (Some dedup) = false →
  let t := time_ms (m_world s) in
  ∃ row,
    finish (debounce (S fuel) o key period inputs None) s =
      (s <| m_db := (m_db s) <| workflow_status := <[uuids (m_world s) 0 := row]> (workflow_status (m_db s)) |> |>,
       Some (Ok (None, Ok (polling_handle (uuids (m_world s) 0))))) ∧
    waits_for (x, n) (first_delay t period (debounce_deadline o t)) (debounce_deadline o t) row.
Proof.
  intros Hreg Hx Hid Hnew Hfree t.
  destruct (finish_enqueue inputs x n (first_delay t period (debounce_deadline o t)) (debounce_deadline o t) s Hreg Hx Hid Hnew Hfree)
    as (row & inner & Henq & Hrow).
  exists row. split; [|exact Hrow]. rewrite (debounce_enters _ _ _ _ Hreg). cbn [Debouncing.debounce_loop].
  rewrite finish_call_bind, finish_bounce_call. unfold engine_begin. rewrite (bounce_eq _ _ _ _ _ _ Hx), bounce_free by done.
  cbn [committed current]. rewrite bounce_of_bounce_dict, machine_same_db.
  cbn [classify_bounce bounced_workflow_id holder_workflow_id].
  rewrite finish_call_bind, finish_waiting, finish_act. cbn [gets fst snd]. rewrite finish_call_bind. cbn [finish mret call_ret process_ret].
  rewrite finish_trying, finish_within_settings. cbn [default]. fold t. cbv zeta. by rewrite Henq.
Qed.

(** The next one, while the workflow of the key waits. *)
Lemma debounce_next fuel period inputs x n (s : machine) id r before until deadline :
  registered → written inputs = Ok (x, n) → dedup_unique (workflow_status (m_db s)) →
  workflow_status (m_db s) !! id = Some r → waits_for before until deadline r →
  ∃ row,
    finish (debounce (S fuel) o key period inputs None) s =
      (s <| m_db := (m_db s) <| workflow_status := <[id := row]> (workflow_status (m_db s)) |> |>,
       Some (Ok (None, Ok (polling_handle id)))) ∧
    waits_for (x, n) (first_delay (time_ms (m_world s)) period deadline) deadline row.
Proof.
  intros Hreg Hx Hu Hr Hw. exists (bounced_row (now_ms (m_world s)) (time_ms (m_world s) + period) x (Some n) r). split.
  - rewrite (debounce_enters _ _ _ _ Hreg). cbn [Debouncing.debounce_loop].
    rewrite finish_call_bind, finish_bounce_call. unfold engine_begin.
    rewrite (bounce_eq _ _ _ _ _ _ Hx), (bounce_holder _ _ _ _ _ _ _ (Conn (m_db s) (m_db s)) id r Hu Hr (debounce_match_waits _ _ _ _ Hw)).
    cbn [committed current]. by rewrite bounce_of_bounce_dict.
  - destruct Hw as [Hs Hn Hq Hk Hd _ _ Hdl]. split; simpl; try done. unfold capped_delay, first_delay. rewrite Hdl.
    destruct deadline as [dl|]; [|done]. case_bool_decide; f_equal; lia.
Qed.

(** A debounce, and what others do after it. *)
Record debounced_call := { dc_period_ms : Z; dc_inputs : WorkflowInputs; dc_others : machine → machine }.

(** Debounces of the key, one after the other, with the times at which they are made. *)
Fixpoint debounces (fuel : nat) (l : list debounced_call) (s : machine) :
    machine * list (Z * option (res pyexn (option DBOSContext * res pyexn (workflow_handle (W:=W))))) :=
  match l with
  | [] => (s, [])
  | c :: l =>
      let '(s1, r) := finish (debounce fuel o key (dc_period_ms c) (dc_inputs c) None) s in
      let '(s2, rs) := debounces fuel l (dc_others c s1) in
      (s2, (time_ms (m_world s), r) :: rs)
  end.

Lemma debounces_nonempty fuel c l s s' : debounces fuel (c :: l) s ≠ (s', []).
Proof. cbn [debounces]. destruct (finish _ _) as [s1 r]. by destruct (debounces fuel l _). Qed.

(** Others leave the workflow [id] as it waits, and the key to it. *)
Definition leaves_waiting (id : string) (f : machine → machine) : Prop := ∀ s,
  workflow_status (m_db (f s)) !! id = workflow_status (m_db s) !! id ∧
  (dedup_unique (workflow_status (m_db s)) → dedup_unique (workflow_status (m_db (f s)))).

Lemma waits_for_unique id row before until deadline r (t : gmap string workflow_status_row) :
  dedup_unique t → t !! id = Some r → waits_for before until deadline r →
  ws_queue_name row = ws_queue_name r → ws_deduplication_id row = ws_deduplication_id r → dedup_unique (<[id := row]> t).
Proof.
  intros Hu Hr _ Hq Hi i1 i2 r1 r2 q i H1 H2 Hq1 Hq2 Hi1 Hi2.
  assert (∀ j rj, <[id := row]> t !! j = Some rj → ws_queue_name rj = Some q → ws_deduplication_id rj = Some i →
    ∃ rj', t !! j = Some rj' ∧ ws_queue_name rj' = Some q ∧ ws_deduplication_id rj' = Some i) as Hback.
  { intros j rj [[<- <-]|[Hne Hj]]%lookup_insert_Some Hqj Hij; [|by eauto]. exists r. split; [done|]. split; congruence. }
  destruct (Hback _ _ H1 Hq1 Hi1) as (? & ? & ? & ?), (Hback _ _ H2 Hq2 Hi2) as (? & ? & ? & ?). by eapply Hu.
Qed.

Lemma debounces_more fuel id (l : list debounced_call) (s : machine) r before until deadline :
  registered → Forall (λ c, is_ok (written (dc_inputs c)) = true ∧ leaves_waiting id (dc_others c)) l →
  dedup_unique (workflow_status (m_db s)) → workflow_status (m_db s) !! id = Some r → waits_for before until deadline r →
  let '(s', rs) := debounces (S fuel) l s in
  Forall (λ tr, tr.2 = Some (Ok (None, Ok (polling_handle id)))) rs ∧
  ∃ row x until', workflow_status (m_db s') !! id = Some row ∧ waits_for x until' deadline row ∧
    match last l, last rs with
    | Some c, Some (t, _) => written (dc_inputs c) = Ok x ∧ until' = first_delay t (dc_period_ms c) deadline
    | _, _ => x = before ∧ until' = until
    end ∧
    (Forall (λ c, ∀ s, m_db (dc_others c s) = m_db s) l →
     m_db s' = (m_db s) <| workflow_status := <[id := row]> (workflow_status (m_db s)) |>).
Proof.
  intros Hreg. revert s r before until. induction l as [|c l IH]; intros s r before until Hl Hu Hr Hw.
  - split; [done|]. exists r, before, until. split_and!; try done. intros _. rewrite insert_id by done. by destruct (m_db s).
  - apply Forall_cons in Hl as [[Hx Hc] Hl]. destruct (written (dc_inputs c)) as [[x n]|] eqn:Hxn; [|done].
    destruct (debounce_next fuel (dc_period_ms c) (dc_inputs c) x n s id r before until deadline Hreg Hxn Hu Hr Hw) as (row & Hf & Hrow).
    cbn [debounces]. rewrite Hf. set (s1 := s <| m_db := _ |>). destruct (Hc s1) as [Hkeep Huniq].
    assert (workflow_status (m_db s1) !! id = Some row) as Hr1 by (simpl; apply lookup_insert_eq).
    assert (dedup_unique (workflow_status (m_db s1))) as Hu1.
    { eapply waits_for_unique; [done..| |]; [by rewrite (wf_queued _ _ _ _ Hrow), (wf_queued _ _ _ _ Hw)|by rewrite (wf_keyed _ _ _ _ Hrow), (wf_keyed _ _ _ _ Hw)]. }
    rewrite Hr1 in Hkeep. specialize (IH (dc_others c s1) row (x, n) _ Hl (Huniq Hu1) Hkeep Hrow).
    destruct (debounces (S fuel) l (dc_others c s1)) as [s2 rs] eqn:Hd. destruct IH as (Hall & row' & x' & until' & Hr' & Hw' & Hlast & Hdb).
    split; [by constructor|]. exists row', x', until'. split_and!; [done|done| |].
    + destruct l as [|c' l]; [cbn [debounces] in Hd; injection Hd as <- <-; cbn in *; by destruct Hlast as [-> ->]|].
      destruct rs as [|tr rs]; [by apply debounces_nonempty in Hd|].
      rewrite !last_cons_cons. destruct (last (c' :: l)) eqn:E1; [|by apply last_None in E1].
      destruct (last (tr :: rs)) eqn:E2; [done|by apply last_None in E2].
    + intros [He Hes]%Forall_cons. rewrite (Hdb Hes), He. subst s1. simpl. by rewrite insert_insert_eq.
Qed.

(** C20: Debounces of a key coalesce. A thread debounces a free key again and again, while
    others leave the workflow of the key waiting. Every call returns, with a handle to one and
    the same workflow. It is delayed until the period after the last call, but never beyond
    the timeout after the first one, and has the inputs of the last call; and the calls
    change nothing else in the database. *)
Theorem debounces_coalesce fuel c l (s : machine) :
  let id := uuids (m_world s) 0 in
  let deadline := debounce_deadline o (time_ms (m_world s)) in
  registered → Forall (λ c, is_ok (written (dc_inputs c)) = true ∧ leaves_waiting id (dc_others c)) (c :: l) →
  id ≠ "" → workflow_status (m_db s) !! id = None → dedup_unique (workflow_status (m_db s)) →
  dedup_taken (workflow_status (m_db s)) (Some (q_name queue)) (Some dedup) = false →
  let '(s', rs) := debounces (S fuel) (c :: l) s in
  Forall (λ tr, tr.2 = Some (Ok (None, Ok (polling_handle id)))) rs ∧
  ∃ row x c' t r,
    workflow_status (m_db s') !! id = Some row ∧ last (c :: l) = Some c' ∧ last rs = Some (t, r) ∧
    written (dc_inputs c') = Ok x ∧ waits_for x (first_delay t (dc_period_ms c') deadline) deadline row ∧
    (Forall (λ c, ∀ s, m_db (dc_others c s) = m_db s) (c :: l) →
     m_db s' = (m_db s) <| workflow_status := <[id := row]> (workflow_status (m_db s)) |>).
Proof.
  intros id deadline Hreg [[Hx Hc] Hl]%Forall_cons Hid Hnew Hu Hfree.
  destruct (written (dc_inputs c)) as [[x n]|] eqn:Hxn; [|done].
  destruct (debounce_first fuel (dc_period_ms c) (dc_inputs c) x n s Hreg Hxn Hid Hnew Hfree) as (row & Hf & Hrow).
  cbn [debounces]. rewrite Hf. set (s1 := s <| m_db := _ |>). destruct (Hc s1) as [Hkeep Huniq].
  assert (workflow_status (m_db s1) !! id = Some row) as Hr1 by (simpl; apply lookup_insert_eq).
  assert (dedup_unique (workflow_status (m_db s1))) as Hu1.
  { apply dedup_unique_insert; [done|done|]. by rewrite (wf_queued _ _ _ _ Hrow), (wf_keyed _ _ _ _ Hrow). }
  rewrite Hr1 in Hkeep.
  pose proof (debounces_more fuel id l (dc_others c s1) row (x, n) _ deadline Hreg Hl (Huniq Hu1) Hkeep Hrow) as Hmore.
  destruct (debounces (S fuel) l (dc_others c s1)) as [s2 rs] eqn:Hd.
  destruct Hmore as (Hall & row' & x' & until' & Hr' & Hw' & Hlast & Hdb). split; [by constructor|].
  assert (Forall (λ c, ∀ s, m_db (dc_others c s) = m_db s) (c :: l) →
     m_db s2 = (m_db s) <| workflow_status := <[id := row']> (workflow_status (m_db s)) |>) as Hdb'.
  { intros [He Hes]%Forall_cons. rewrite (Hdb Hes), He. subst s1. simpl. by rewrite insert_insert_eq. }
  destruct l as [|c' l].
  - cbn [debounces] in Hd. injection Hd as <- <-. destruct Hlast as [-> ->]. by eexists _, _, _, _, _.
  - destruct rs as [|tr rs]; [by apply debounces_nonempty in Hd|].
    rewrite !last_cons_cons. destruct (last (c' :: l)) as [c1|] eqn:E1; [|by apply last_None in E1].
    destruct (last (tr :: rs)) as [[t r]|] eqn:E2; [|by apply last_None in E2]. destruct Hlast as [Hx' ->].
    exists row', x', c1, t, r. split_and!; done.
Qed.

End outside_workflows.

(** ** Samples *)

#[local] Existing Instance sample_codecs.

(** A portable function, the queue it waits on, and its debouncer, with a timeout of ten seconds. *)
Definition digest : workflow_info (W:=mailbox) := {|
  wf_name := "digest"; wf_class_name := None; wf_config_name := None; wf_static := false;
  wf_class_roles := None; wf_required_roles := None; wf_max_recovery_attempts := Some 5%Z;
  wf_serialization_type := Some PORTABLE; wf_validate_args := None; wf_coerce_to_hints := id;
  wf_func _ := WReturn (Ok PNone);
|}.

Definition digest_queue : Queue := MkQueue "q" None None None false false 1000 false false.
Definition digest_queues (name : string) : option Queue := if String.eqb name "q" then Some digest_queue else None.
Definition digest_registry : registry (W:=mailbox) := {|
  workflow_info_map name := if String.eqb name "digest" then Some digest else None;
  instance_info_map _ := None; class_info_map _ := None |}.
Definition digest_options : DebouncerOptions := {|
  do_workflow_name := "digest"; do_debounce_timeout_ms := Some 10000%Z; do_queue_name := Some "q" |}.
Definition digest_inputs (text : string) : WorkflowInputs := {| args := [PStr text]; kwargs := [] |}.

Lemma digest_registered : registered digest_queues digest_queue digest_registry digest_options digest_queue digest.
Proof. split; reflexivity. Qed.

(** Three seconds go by. *)
Definition later (s : machine (W:=mailbox)) : machine (W:=mailbox) :=
  Machine (m_db s) (Mailbox (mb_clock (m_world s) + 3000) (mb_sent (m_world s))) (m_active s).

Definition digest_call (text : string) : debounced_call (W:=mailbox) :=
  {| dc_period_ms := 4000; dc_inputs := digest_inputs text; dc_others := later |}.

Definition digest_debounces (l : list debounced_call) : machine (W:=mailbox) * list (Z * _) :=
  @debounces mailbox mailbox_host sample_codecs letter_serializer "exec" "app" "v1" (λ _ _, "d") digest_queues digest_queue digest_registry
    digest_options "key" 1 l fresh_machine.

(** The fourth call would put the workflow off to the thirteenth second. *)
Lemma debounces_coalesce_witness :
  let s := (digest_debounces (digest_call <$> ["a"; "b"; "c"; "d"])).1 in
  ∃ row x, workflow_status (m_db s) = {["d" := row]} ∧
    serialize_args (digest_inputs "d") (Some PORTABLE) letter_serializer = Ok x ∧
    ws_status row = DELAYED ∧ ws_delay_until_epoch_ms row = Some 10000%Z ∧ ws_inputs row = Some x.1.
Proof.
  assert (∀ text, is_ok (serialize_args (digest_inputs text) (Some PORTABLE) letter_serializer) = true ∧
    leaves_waiting "d" (dc_others (digest_call text))) as Hcalls by (split; [reflexivity|split; [reflexivity|exact id]]).
  pose proof (@debounces_coalesce mailbox mailbox_host sample_codecs letter_serializer "exec" "app" "v1" (λ _ _, "d") digest_queues
    digest_queue digest_registry digest_options "key" digest_queue digest 0 (digest_call "a")
    (digest_call <$> ["b"; "c"; "d"]) fresh_machine digest_registered) as H.
  assert (last (digest_debounces (digest_call <$> ["a"; "b"; "c"; "d"])).2 =
    Some (9000%Z, Some (Ok (None, Ok (polling_handle "d"))))) as Hlast by (vm_compute; reflexivity).
  unfold digest_debounces in Hlast |- *. change (digest_call <$> ["a"; "b"; "c"; "d"]) with (digest_call "a" :: (digest_call <$> ["b"; "c"; "d"])) in *.
  destruct (debounces _ _ _ _ _ _ _ _ _ _ _ _ _) as [s rs]. cbn [fst snd] in *.
  destruct H as (_ & row & x & c & t & r & _ & Hc & Hl & Hx & Hw & Hdb).
  - repeat (constructor; [exact (Hcalls _)|]). constructor.
  - discriminate.
  - reflexivity.
  - intros i1 i2 r1 r2 q i H1. discriminate H1.
  - reflexivity.
  - injection Hc as <-. rewrite Hlast in Hl. injection Hl as <- _. exists row, x. split.
    + rewrite Hdb; [reflexivity|]. repeat (constructor; [reflexivity|]). constructor.
    + split; [exact Hx|]. split; [exact (wf_delayed _ _ _ _ _ _ _ Hw)|]. split; [exact (wf_until _ _ _ _ _ _ _ Hw)|exact (proj1 (wf_inputs _ _ _ _ _ _ _ Hw))].
Defined.

(** *** A method *)

(** A method that returns its arguments, of a class with the instance "main". *)
Definition echo : workflow_info (W:=mailbox) := {|
  wf_name := "Digest.echo"; wf_class_name := Some "Digest"; wf_config_name := Some "main"; wf_static := false;
  wf_class_roles := None; wf_required_roles := None; wf_max_recovery_attempts := Some 5%Z;
  wf_serialization_type := Some PORTABLE; wf_validate_args := None; wf_coerce_to_hints := id;
  wf_func inputs := WReturn (Ok (PList (args inputs)));
|}.

Definition echo_registry : registry (W:=mailbox) := {|
  workflow_info_map name := if String.eqb name "Digest.echo" then Some echo else None;
  instance_info_map name := if String.eqb name "Digest/main" then Some (PStr "main") else None;
  class_info_map _ := None |}.

Definition debounce_echo (text : string) (s : machine (W:=mailbox)) : machine (W:=mailbox) :=
  (finish (@debounce mailbox mailbox_host sample_codecs letter_serializer "exec" "app" "v1" (λ _ _, "d") digest_queues digest_queue
     echo_registry 1 {| do_workflow_name := "Digest.echo"; do_debounce_timeout_ms := None; do_queue_name := Some "q" |} "key" 4000
     {| args := [PStr "main"; PStr text]; kwargs := [] |} None) s).1.

(** The result of the workflow, when it is due, dispatched and run. *)
Definition echo_result (s : machine (W:=mailbox)) : option (res pyexn pyval) :=
  let d := (start_queued_workflows 0 0 digest_queue "exec" "v1" None 0 ∅ (transition_delayed_workflows 60000 (m_db s)).1).1 in
  (finish (h ← @execute_workflow_by_id mailbox mailbox_host sample_codecs letter_serializer "exec" 3 "app" "v1" "u" "x" echo_registry
             "d" false true None;
           handle_result letter_serializer 3 h) (s <| m_db := d |>)).2.

(** The bounce of a method writes its receiver with the inputs, which the enqueue
    leaves out. The execution puts the receiver in front again: the method gets its
    arguments after the first debounce, and the receiver twice after the second one. *)
Lemma bounced_method_gets_receiver_twice :
  echo_result (debounce_echo "a" fresh_machine) = Some (Ok (PList [PStr "main"; PStr "a"])) ∧
  echo_result (debounce_echo "b" (debounce_echo "a" fresh_machine)) =
    Some (Ok (PList [PStr "main"; PStr "main"; PStr "b"])).
Proof. vm_compute. split; reflexivity. Qed.
