(* ===== verification/DebounceReplay.v ===== *)
(** * Debounces of a workflow: replays and races

    [among] of [Process] is the run of a call with what others do between any two of its actions: they
    may take the key of a debounce after its bounce has found it free, and the call goes
    around its loop. A workflow that is executed again makes the same turns, by the
    checkpoints of its bounces and of its children. *)
From S2P Require Import Prelude Errors Schema Retry Serialization Workflows Context Steps Queues Process Execution Durability Recovery Scopes System Calls Operations Debouncing.
Open Scope nat_scope.

(** ** A process among others *)

Section among.
Context {W : Type} `{Host W}.
Notation machine := (@machine W).

Context (R : relation machine).

Lemma among_database {A} (m : W → dbM A) s r s' :
  among R (database m) s r s' → r = (m (m_world s) (m_db s)).2 ∧ R (s <| m_db := (m (m_world s) (m_db s)).1 |>) s'.
Proof. unfold database. intros Ha%among_one. by destruct (m (m_world s) (m_db s)). Qed.

Lemma among_call_bind {A B} (m : call W A) (k : A → call W B) local s local' b s' :
  among R ((m ≫= k) local) s (Ok (local', Ok b)) s' →
  ∃ local1 a s1, among R (m local) s (Ok (local1, Ok a)) s1 ∧ among R (k a local1) s1 (Ok (local', Ok b)) s'.
Proof.
  unfold mbind, call_bind. intros [([local1 r1] & s1 & H1 & H2)|(e & _ & ?)]%among_bind; [|done].
  destruct r1 as [a|e]; [by exists local1, a, s1|]. by apply among_done in H2 as [? ->].
Qed.

Lemma among_waiting {A} (p : process machine A) local s r s' :
  among R (waiting p local) s r s' → ∃ r0, r = Ok (local, r0) ∧ among R p s r0 s'.
Proof. unfold waiting. intros (r0 & s1 & H1 & [-> ->]%among_done)%among_and_then. by exists r0. Qed.

Lemma among_raising {A} (r0 : res pyexn A) local s r s' : among R (raising r0 local) s r s' → r = Ok (local, r0) ∧ s' = s.
Proof. apply among_done. Qed.

End among.

(** ** What is recorded, and read back *)

(** A new checkpoint of [wid] at [fid]. *)
Definition adds (wid : string) (fid : Z) (row : operation_outputs_row) (d d' : db) : Prop :=
  ∀ fid', operation_outputs d' !! (wid, fid') = if bool_decide (fid' = fid) then Some row else operation_outputs d !! (wid, fid').

Lemma adds_insert wid fid row d d' :
  operation_outputs d' = <[(wid, fid) := row]> (operation_outputs d) → adds wid fid row d d'.
Proof.
  intros He fid'. rewrite He. case_bool_decide as Hf; [subst; apply lookup_insert_eq|]. rewrite lookup_insert_ne; [done|congruence].
Qed.

Lemma same_adds wid fid row d1 d2 d3 d4 :
  same_checkpoints wid d1 d2 → adds wid fid row d2 d3 → same_checkpoints wid d3 d4 → adds wid fid row d1 d4.
Proof. intros H1 H2 H3 fid'. by rewrite H3, H2, H1. Qed.

Lemma adds_present wid fid row d d' : adds wid fid row d d' → operation_outputs d' !! (wid, fid) = Some row.
Proof. intros Ha. by rewrite Ha, bool_decide_eq_true_2. Qed.

Lemma adds_keeps wid fid row d d' : operation_outputs d !! (wid, fid) = None → adds wid fid row d d' → keeps_checkpoints wid d d'.
Proof. intros Hn Ha fid' row' Hr. rewrite Ha. case_bool_decide; [subst; congruence|done]. Qed.

#[export] Instance same_checkpoints_preorder wid : PreOrder (same_checkpoints wid).
Proof. split; [by intros d fid|]. intros d1 d2 d3 H1 H2 fid. by rewrite H2, H1. Qed.

Lemma check_result_error d wid fid name e : check_result d wid fid name = Err e → is_queue_deduplicated_error e = false.
Proof.
  unfold check_result. destruct (workflow_status d !! wid); [|by intros [= <-]].
  case_bool_decide; [by intros [= <-]|]. destruct (operation_outputs d !! _); [|done].
  case_bool_decide; [by intros [= <-]|done].
Qed.

Lemma check_result_free d wid fid name :
  operation_outputs d !! (wid, fid) = None →
  check_result d wid fid name = Ok None ∨ ∃ e, check_result d wid fid name = Err e.
Proof.
  intros Ho. unfold check_result. destruct (workflow_status d !! wid); [|eauto]. case_bool_decide; [eauto|]. rewrite Ho. eauto.
Qed.

(** Recording a step that has no checkpoint: it gets it, or the workflow is not there. *)
Lemma record_fresh executor_id t result d :
  operation_outputs d !! (or_workflow_uuid result, or_function_id result) = None →
  or_error result = None ∨ or_output result = None →
  (∃ d', record_operation_result executor_id t result d = (d', Ok tt) ∧
     operation_outputs d' = <[(or_workflow_uuid result, or_function_id result) := recorded_row result t]> (operation_outputs d)) ∨
  ∃ e, record_operation_result executor_id t result d = (d, Err e) ∧ is_queue_deduplicated_error e = false.
Proof.
  intros Ho Hor. destruct (workflow_status d !! or_workflow_uuid result) as [r|] eqn:Hr.
  - left. rewrite (record_operation_result_eq executor_id result t d r Hr Hor). cbv zeta. rewrite Ho.
    eexists. split; [done|]. simpl. by rewrite reset_db_outputs.
  - right. unfold record_operation_result, record_operation_result_txn.
    assert (bool_decide (or_error result ≠ None) && bool_decide (or_output result ≠ None) = false) as ->.
    { destruct Hor as [->| ->]; [done|]. by rewrite andb_false_r. }
    run_txn. rewrite Hr. cbn. by eexists.
Qed.

Lemma record_child_fresh parent child fid name d :
  child ≠ "" → operation_outputs d !! (parent, fid) = None →
  (∃ d', record_child_workflow parent child fid name d = (d', Ok tt) ∧
     operation_outputs d' = <[(parent, fid) := child_row child name]> (operation_outputs d)) ∨
  ∃ d' e, record_child_workflow parent child fid name d = (d', Err e) ∧ is_queue_deduplicated_error e = false.
Proof.
  intros Hc Ho. unfold record_child_workflow, insert_operation_row. rewrite bool_decide_eq_false_2 by done. run_txn. rewrite Ho.
  destruct (workflow_exists d _); cbn; [left|right]; eauto.
Qed.

(** Only the conflict of the key is the error of a deduplication. *)
Lemma init_workflow_error now status m xid b1 b2 d d' e :
  Workflows.init_workflow now status m xid b1 b2 d = (d', Err e) →
  (∃ w q i, e = DBOSQueueDeduplicatedError w q i) ∨ is_queue_deduplicated_error e = false.
Proof.
  unfold Workflows.init_workflow, insert_workflow_status. run_txn.
  destruct (upsert_workflow_row _ _ _ d) as [[d0 row]|e0] eqn:Hup; cbn [fst snd committed current].
  - destruct (conflict_message row status); cbn; [by intros [= _ <-]; right|].
    destruct (exceeds_attempts row m xid) as [[|]|e1] eqn:Hx; cbn; [by intros [= _ <-]; right|done|].
    intros [= _ <-]. right. unfold exceeds_attempts in Hx. destruct (not_complete _); [|done].
    destruct m; [|done]. destruct (ws_recovery_attempts row); [done|]. by injection Hx as <-.
  - intros [= _ <-]. unfold upsert_workflow_row, insert_workflow_row in Hup. destruct (workflow_status d !! _); [done|].
    destruct (dedup_taken _ _ _); [|done]. injection Hup as <-. unfold dedup_conflict.
    destruct (wi_deduplication_id status); [|by right]. destruct (wi_queue_name status); [|by right]. left. eauto.
Qed.

Definition same_outputs : relation db := λ d d', operation_outputs d' = operation_outputs d.
#[export] Instance same_outputs_preorder : PreOrder same_outputs.
Proof. split; [by intros d|]. intros d1 d2 d3 H1 H2. unfold same_outputs in *. congruence. Qed.

Lemma init_workflow_outputs now status m xid b1 b2 d :
  operation_outputs (Workflows.init_workflow now status m xid b1 b2 d).1 = operation_outputs d.
Proof.
  apply (moves_engine_begin same_outputs). apply moves_insert_workflow_status; [apply _| |by intros ?].
  intros d1 d2 row (-> & _)%upsert_workflow_row_spec. done.
Qed.

(** *** The bounce *)

Section bounce.
Context `{Codecs, !CodecLaws} (serializer : Serializer).
Hypothesis reads_back : round_trips serializer.

(** A row that answers a transaction called as a step. *)
Definition answers_txn (row : operation_outputs_row) (name : string) (v : pyval) : Prop :=
  oo_function_name row = name ∧ ∃ x, oo_output row = Some x ∧ ser_deserialize serializer x = Ok v.

Lemma txn_step_records executor_id t0 t1 wid fid name op d d' v :
  (∀ c' u, op (Conn d d) = (c', Ok u) → operation_outputs (current c') = operation_outputs d) →
  operation_outputs d !! (wid, fid) = None →
  call_txn_as_step executor_id serializer t0 t1 wid fid name op d = (d', Ok v) →
  ∃ row, operation_outputs d' = <[(wid, fid) := row]> (operation_outputs d) ∧ answers_txn row name v.
Proof.
  intros Hop Ho Hrun. unfold call_txn_as_step in Hrun. apply engine_begin_Ok in Hrun as (c & Hrun & ->).
  apply bind_inv_Ok in Hrun as (c0 & o & Hcheck & Hrun). rewrite check_operation_execution_txn_eq in Hcheck.
  injection Hcheck as <- Hcheck. cbn [current] in Hcheck. destruct (check_result_free d wid fid name Ho) as [Hc|[e Hc]]; [|congruence].
  rewrite Hc in Hcheck. injection Hcheck as <-.
  apply bind_inv_Ok in Hrun as (c1 & u & Hu & Hrun). apply bind_inv_Ok in Hrun as (c2 & x & Hx & Hrun).
  unfold lift_res in Hx. injection Hx as <- Hx. apply bind_inv_Ok in Hrun as (c3 & [] & Hrec & Hret). injection Hret as <- <-.
  pose proof (Hop _ _ Hu) as Hsame.
  destruct (workflow_status (current c1) !! wid) as [r|] eqn:Hr.
  - rewrite (record_operation_result_txn_eq executor_id _ t1 c1 r) in Hrec; [|exact Hr|by left].
    cbv zeta in Hrec. cbn [or_workflow_uuid or_function_id] in Hrec. rewrite Hsame, Ho in Hrec. injection Hrec as <-.
    eexists. cbn [current]. simpl. rewrite reset_db_outputs, Hsame. split; [done|]. split; [done|].
    exists x. split; [done|]. by apply reads_back.
  - unfold record_operation_result_txn in Hrec. simpl in Hrec. revert Hrec. run_txn. by rewrite Hr.
Qed.

Lemma txn_step_answers executor_id t0 t1 wid fid name op d row v :
  active wid d → operation_outputs d !! (wid, fid) = Some row → answers_txn row name v →
  call_txn_as_step executor_id serializer t0 t1 wid fid name op d = (d, Ok v).
Proof.
  intros Ha Ho (Hn & x & Hx & Hv). unfold call_txn_as_step, engine_begin, mbind, SM_bind.
  rewrite check_operation_execution_txn_eq. cbn [current]. rewrite (check_present _ _ _ _ _ Ha Ho Hn).
  cbn [rr_output recorded_of]. rewrite Hx. unfold lift_res. by rewrite Hv.
Qed.

End bounce.

(** *** The enqueue *)

Lemma start_child executor_id app_id ctx uuid :
  is_workflow ctx = true →
  ∃ child, create_start_workflow_child executor_id app_id uuid (Some ctx) =
      Ok (Some (ctx <| cx_function_id := (cx_function_id ctx + 1)%Z |> <| cx_id_assigned_for_next_workflow := "" |>), child) ∧
    cx_parent_workflow_id child = cx_workflow_id ctx ∧ cx_parent_workflow_fid child = (cx_function_id ctx + 1)%Z ∧
    has_parent child = true ∧ cx_id_assigned_for_next_workflow child ≠ "" ∧ cx_serialization_type child = DEFAULT ∧
    cx_workflow_attributes child = cx_workflow_attributes ctx.
Proof.
  intros Hw. unfold create_start_workflow_child.
  assert (is_within_workflow ctx = true) as ->.
  { unfold is_workflow in Hw. unfold is_within_workflow. by destruct (negb (bool_decide (cx_workflow_id ctx = ""))). }
  rewrite Hw. unfold is_workflow in Hw. apply andb_true_iff in Hw as [[Hid _]%andb_true_iff _].
  destruct (decide (cx_id_assigned_for_next_workflow ctx = "")) as [Ha|Ha].
  - rewrite (bool_decide_eq_true_2 (cx_id_assigned_for_next_workflow (_ <| cx_function_id := _ |>) = "")) by exact Ha.
    cbn [create_child]. eexists. split; [reflexivity|]. simpl. unfold has_parent, assign_workflow_id. simpl.
    rewrite Hid. split_and!; try done. rewrite bool_decide_eq_false_2 by apply child_workflow_id_nonempty.
    apply child_workflow_id_nonempty.
  - rewrite (bool_decide_eq_false_2 (cx_id_assigned_for_next_workflow (_ <| cx_function_id := _ |>) = "")) by exact Ha.
    cbn [create_child]. eexists. split; [reflexivity|]. simpl. unfold has_parent, assign_workflow_id. simpl.
    rewrite Hid. split_and!; try done. by rewrite bool_decide_eq_false_2.
Qed.

Section enqueue.
Context {W : Type} `{Host W, Codecs, !CodecLaws} (serializer : Serializer) (executor_id app_id app_version : string).
Context (uuids : W → nat → string) (queue : Queue) (info : workflow_info (W:=W)).
Notation machine := (@machine W).
Hypothesis honest : honest_name serializer.
Hypothesis reads_back : round_trips serializer.
Hypothesis plain : wf_class_name info = None.

(** Others leave the checkpoints of [wid] alone. *)
Definition others (wid : string) : relation machine := λ s s', same_checkpoints wid (m_db s) (m_db s').

(** The formats in which the inputs, and the conflict of a key, are written. *)
Definition writable (inputs : WorkflowInputs) : Prop := ∃ x n,
  serialize_args inputs (wf_serialization_type info) serializer = Ok (x, n) ∧
  ∀ w q i, ∃ y, serialize_exception (DBOSQueueDeduplicatedError w q i) (Some n) serializer = Ok (y, n) ∧ y ≠ "".

Definition attributes_writable (ctx : DBOSContext) : Prop :=
  match cx_workflow_attributes ctx with Some a => is_ok (py_json_dumps a) = true | None => True end.

(** The checkpoint of an enqueue that made [r] of it. *)
Definition answers_enqueue (row : operation_outputs_row) (r : res pyexn (workflow_handle (W:=W))) : Prop :=
  oo_function_name row = wf_name info ∧
  match r with
  | Ok h => oo_error row = None ∧ ∃ id, id ≠ "" ∧ oo_child_workflow_id row = Some id ∧ h = polling_handle id
  | Err e => ∃ y n e', oo_error row = Some y ∧ y ≠ "" ∧ oo_serialization row = Some n ∧
      deserialize_exception y (Some n) serializer = Ok e' ∧ is_queue_deduplicated_error e' = true
  end.

Lemma conflict_back w q i y n :
  serialize_exception (DBOSQueueDeduplicatedError w q i) (Some n) serializer = Ok (y, n) →
  ∃ e, deserialize_exception y (Some n) serializer = Ok e ∧ is_queue_deduplicated_error e = true.
Proof.
  intros Hs. destruct (decide (n = ser_name DBOSPortableJSON)) as [->|Hn].
  - rewrite (portable_exception_back serializer _ _ _ Hs). by eexists.
  - rewrite (native_exception_back serializer _ _ _ _ honest reads_back Hs Hn). by eexists.
Qed.

(** The checkpoint of an error, among others. *)
Lemma among_record_error wid fid y n (s s' : machine) r :
  operation_outputs (m_db s) !! (wid, fid) = None →
  among (others wid) (database (λ w, record_operation_result (Some executor_id) (time_ms w) {|
      or_workflow_uuid := wid; or_function_id := fid; or_function_name := wf_name info; or_output := None;
      or_error := Some y; or_serialization := Some n; or_started_at_epoch_ms := time_ms w |})) s r s' →
  (r = Ok tt ∧ ∃ row, adds wid fid row (m_db s) (m_db s') ∧ oo_function_name row = wf_name info ∧
     oo_error row = Some y ∧ oo_serialization row = Some n) ∨
  (∃ e, r = Err e ∧ is_queue_deduplicated_error e = false).
Proof.
  intros Hfree [-> HR]%among_database. set (result := Build_OperationResultInternal _ _ _ _ _ _ _) in *.
  destruct (record_fresh (Some executor_id) (time_ms (m_world s)) result (m_db s) Hfree) as [(d' & Hd' & Ho)|(e & He & Hd)];
    [by right| |rewrite He; right; by exists e].
  cbv beta in HR |- *. rewrite Hd' in HR |- *. cbn [fst snd] in *. left. split; [done|].
  exists (recorded_row result (time_ms (m_world s))). split; [|done].
  apply (same_adds _ _ _ _ (m_db s) d'); [done|by apply adds_insert|exact HR].
Qed.

Lemma among_record_child wid fid child (s s' : machine) r :
  child ≠ "" → operation_outputs (m_db s) !! (wid, fid) = None →
  among (others wid) (database (λ _, record_child_workflow wid child fid (wf_name info))) s r s' →
  (r = Ok tt ∧ adds wid fid (child_row child (wf_name info)) (m_db s) (m_db s')) ∨
  (∃ e, r = Err e ∧ is_queue_deduplicated_error e = false).
Proof.
  intros Hc Hfree [-> HR]%among_database.
  destruct (record_child_fresh wid child fid (wf_name info) (m_db s) Hc Hfree) as [(d' & Hd' & Ho)|(d' & e & He & Hd)].
  - rewrite Hd' in HR |- *. cbn [fst snd] in *. left. split; [done|]. apply (same_adds _ _ _ _ (m_db s) d'); [done|by apply adds_insert|exact HR].
  - rewrite He. right. by exists e.
Qed.

(** The submission of a child among others. *)
Lemma init_among inputs q t dl m opts wid fid child xid wfid (s s' : machine) r :
  writable inputs → attributes_writable child → has_parent child = true → cx_parent_workflow_id child = wid →
  cx_parent_workflow_fid child = fid → cx_serialization_type child = DEFAULT → wfid ≠ "" →
  operation_outputs (m_db s) !! (wid, fid) = None →
  among (others wid) (Execution.init_workflow (W:=W) serializer executor_id app_version xid child info inputs q t dl m opts
    false false (Some (default DEFAULT (wf_serialization_type info))) wfid) s r s' →
  (∃ c st b, r = Ok (c, st, b) ∧ has_parent c = true ∧ cx_parent_workflow_id c = wid ∧ cx_parent_workflow_fid c = fid ∧
     same_checkpoints wid (m_db s) (m_db s')) ∨
  (∃ e, r = Err e ∧ (is_queue_deduplicated_error e = true →
     ∃ row, adds wid fid row (m_db s) (m_db s') ∧ answers_enqueue row (Err e))).
Proof.
  intros (x & n & Hx & Hconf) Hattr Hpar <- <- Hdef Hne Hfree Ham. unfold Execution.init_workflow in Ham.
  rewrite (bool_decide_eq_false_2 (wfid = "")) in Ham by done. cbn [negb] in Ham.
  rewrite (bool_decide_eq_false_2 (wfid = "")) in Ham by done.
  assert (serialize_args (drop_receiver (wf_class_name info) inputs)
    (Some (input_format (Some (default DEFAULT (wf_serialization_type info))) child)) serializer = Ok (x, n)) as Hx'.
  { rewrite plain, <- Hx. unfold input_format. rewrite Hdef. by destruct (wf_serialization_type info) as [[]|]. }
  rewrite Hx' in Ham. apply among_bind in Ham as [([x0 n0] & s1 & [[= -> ->] ->]%among_done & Ham)|(e & [? _]%among_done & _)]; [|done].
  apply among_bind in Ham as [(attrs & s1 & [_ ->]%among_done & Ham)|(e & [He _]%among_done & _)].
  2: { unfold attributes_writable in Hattr. destruct (cx_workflow_attributes child) as [a|]; [|done]. by destruct (py_json_dumps a). }
  set (status := new_status app_version child wfid info q t dl opts x n attrs) in Ham.
  set (child' := child <| cx_workflow_attributes := None |>) in Ham.
  change (cx_parent_workflow_id child) with (cx_parent_workflow_id child') in *.
  change (cx_parent_workflow_fid child) with (cx_parent_workflow_fid child') in *. change (has_parent child) with (has_parent child') in Hpar.
  assert (∀ w d1 o, Workflows.init_workflow (now_ms w) status m (Some xid) false false (m_db s) = (d1, o) →
    operation_outputs d1 = operation_outputs (m_db s)) as Hout.
  { intros w d1 o Hi. by rewrite <- (init_workflow_outputs (now_ms w) status m (Some xid) false false (m_db s)), Hi. }
  apply among_bind in Ham as [(out & s2 & Hdb & [-> ->]%among_done)|(e & Hdb & ->)].
  - left. apply among_and_then in Hdb as (r1 & s3 & [-> HR]%among_database & Hk).
    destruct (Workflows.init_workflow _ _ _ _ _ _ _) as [d1 [o|e]] eqn:Hi; cbn [fst snd] in *.
    + apply among_done in Hk as [[= ->] ->]. eexists _, _, _. split; [done|]. split_and!; [exact Hpar|done..|].
      intros fid'. rewrite HR. simpl. by rewrite (Hout _ _ _ Hi).
    + destruct e; try (by apply among_done in Hk as [? _]).
      apply among_bind in Hk as [([] & s4 & _ & Hk)|(e & _ & ?)]; [|done].
      by apply among_bind in Hk as [([] & s5 & _ & [? _]%among_done)|(e & _ & ?)].
  - right. exists e. split; [done|]. intros He. apply among_and_then in Hdb as (r1 & s3 & [-> HR]%among_database & Hk).
    destruct (Workflows.init_workflow _ _ _ _ _ _ _) as [d1 [o|e1]] eqn:Hi; cbn [fst snd] in *; [by apply among_done in Hk as [? _]|].
    assert (same_checkpoints (cx_parent_workflow_id child') (m_db s) (m_db s3)) as Hs3.
    { intros fid'. rewrite HR. simpl. by rewrite (Hout _ _ _ Hi). }
    apply init_workflow_error in Hi as [(w & k & i & ->)|Hno].
    2: { destruct e1; try done; apply among_done in Hk as [[= ->] _]; by rewrite Hno in He. }
    destruct (Hconf w k i) as (y & Hy & Hyne). change (wi_serialization status) with (Some n) in Hk. rewrite Hy, Hpar in Hk.
    apply among_bind in Hk as [([y0 n0] & s4 & [[= -> ->] ->]%among_done & Hk)|(e2 & [? _]%among_done & _)]; [|done].
    assert (operation_outputs (m_db s3) !! (cx_parent_workflow_id child', cx_parent_workflow_fid child') = None) as Hfree3 by by rewrite Hs3.
    apply among_bind in Hk as [([] & s4 & Hrec & [[= ->] ->]%among_done)|(e2 & Hrec & [= ->])];
      apply among_record_error in Hrec as [(? & row & Hadd & Hn & He1 & He2)|(e3 & ? & Hd3)]; try done; simplify_eq; [|congruence].
    exists row. split; [by apply (same_adds _ _ _ _ (m_db s3) (m_db s4))|]. split; [done|].
    destruct (conflict_back _ _ _ _ _ Hy) as (e' & He' & Hd). by exists y, n, e'.
Qed.

Notation enqueue := (enqueue serializer executor_id app_id app_version uuids queue info).

(** The context after the enqueue. *)
Definition enqueued (ctx : DBOSContext) : DBOSContext :=
  ctx <| cx_function_id := (cx_function_id ctx + 1)%Z |> <| cx_id_assigned_for_next_workflow := "" |>.

Lemma validate_enqueue_error ctx e : validate_enqueue queue ctx = Err e → is_queue_deduplicated_error e = false.
Proof. unfold validate_enqueue. repeat (destruct (_ : bool); [by intros [= <-]|]). by intros [= <-] || done. Qed.

(** What the loop goes on with after an enqueue: a handle, or the loss of the key. *)
Definition goes_on (r : res pyexn (workflow_handle (W:=W))) : Prop :=
  match r with Ok _ => True | Err e => is_queue_deduplicated_error e = true end.

Lemma enqueue_records inputs ctx (s s' : machine) local r :
  is_workflow ctx = true → writable inputs → attributes_writable ctx →
  operation_outputs (m_db s) !! (cx_workflow_id ctx, (cx_function_id ctx + 1)%Z) = None →
  among (others (cx_workflow_id ctx)) (enqueue inputs (Some ctx)) s (Ok (local, r)) s' → goes_on r →
  local = Some (enqueued ctx) ∧ validate_enqueue queue (Some ctx) = Ok tt ∧
  ∃ row, adds (cx_workflow_id ctx) (cx_function_id ctx + 1) row (m_db s) (m_db s') ∧ answers_enqueue row r.
Proof.
  intros Hw Hwr Hattr Hfree Ham Hgo. unfold Debouncing.enqueue in Ham.
  set (wid := cx_workflow_id ctx) in *. set (fid := (cx_function_id ctx + 1)%Z) in *.
  apply among_bind in Ham as [([l0 r0] & s0 & [[= -> ->] ->]%among_done & Ham)|(e & [? _]%among_done & _)]; [|done].
  apply among_bind in Ham as [([l1 r1] & s1 & [[= -> ->] ->]%among_raising & Ham)|(e & [? _]%among_raising & _)]; [|done].
  destruct (validate_enqueue queue (Some ctx)) as [[]|e] eqn:Hval.
  2: { apply among_done in Ham as [[= -> ->] _]. cbn in Hgo. by rewrite (validate_enqueue_error _ _ Hval) in Hgo. }
  apply among_bind in Ham as [([l2 r2] & s2 & (w & [= -> ->] & [-> HR2]%among_one)%among_waiting & Ham)|(e & (? & ? & _)%among_waiting & _)]; [|done].
  cbn [gets fst snd] in Ham, HR2.
  destruct (start_child executor_id app_id ctx (uuids (m_world s) 0) Hw) as (child & Hchild & Hp & Hpf & Hpar & Hid & Hser & Hat).
  unfold Execution.start_workflow in Ham. rewrite Hchild in Ham. apply among_waiting in Ham as (r3 & [= -> ->] & Ham).
  split; [done|]. split; [done|]. rewrite Hpar in Ham.
  apply among_bind in Ham as [(dl & s3 & [_ HR3]%among_one & Ham)|(e & [? _]%among_one & _)]; [|done].
  assert (same_checkpoints wid (m_db s) (m_db s3)) as H03 by (etrans; [exact HR2|exact HR3]).
  rewrite Hp, Hpf in Ham. fold wid fid in Ham.
  apply among_bind in Ham as [(o & s4 & [Ho HR4]%among_database & Ham)|(e & [He _]%among_database & ->)];
    rewrite check_operation_execution_eq in *; cbn [fst snd] in *.
  2: { exfalso. cbn in Hgo. by rewrite (check_result_error _ _ _ _ _ (eq_sym He)) in Hgo. }
  assert (o = None) as ->.
  { destruct (check_result_free (m_db s3) wid fid (wf_name info)) as [Hc|[e Hc]]; [by rewrite H03|congruence..]. }
  cbn [mbind option_bind nonempty] in Ham.
  assert (same_checkpoints wid (m_db s) (m_db s4)) as H04 by (etrans; [exact H03|]; intros f; by rewrite HR4).
  assert (attributes_writable child) as Hattr' by by unfold attributes_writable; rewrite Hat.
  assert (operation_outputs (m_db s4) !! (wid, fid) = None) as Hfree4 by by rewrite H04.
  apply among_bind in Ham as [([[c st] b] & s5 & Hinit & Ham)|(e & Hinit & ->)];
    apply (init_among _ _ _ _ _ _ wid fid child) in Hinit; try done.
  - destruct Hinit as [(c' & st' & b' & [= <- <- <-] & Hpar' & Hp' & Hpf' & HR5)|(e & ? & _)]; [|done].
    assert (same_checkpoints wid (m_db s) (m_db s5)) as H05 by by etrans.
    change (has_parent (c <| cx_serialization_type := _ |>)) with (has_parent c) in Ham.
    change (cx_parent_workflow_id (c <| cx_serialization_type := _ |>)) with (cx_parent_workflow_id c) in Ham.
    change (cx_parent_workflow_fid (c <| cx_serialization_type := _ |>)) with (cx_parent_workflow_fid c) in Ham.
    rewrite Hpar', Hp', Hpf' in Ham.
    apply among_bind in Ham as [([] & s6 & Hrec & [-> ->]%among_done)|(e & Hrec & ->)];
      apply among_record_child in Hrec as [(? & Hadd)|(e2 & ? & Hd)]; try done; try by rewrite H05.
    + eexists. split; [apply (same_adds _ _ _ _ (m_db s5) (m_db s6)); [exact H05|exact Hadd|done]|].
      split; [done|]. cbn. split; [done|]. by eexists.
    + simplify_eq. cbn in Hgo. congruence.
  - destruct Hinit as [(c' & st' & b' & ? & _)|(e' & [= <-] & Herr)]; [done|].
    destruct (Herr Hgo) as (row & Hadd & Hans). exists row. split; [|exact Hans].
    by apply (same_adds _ _ _ _ (m_db s4) (m_db s')).
Qed.

(** The same enqueue in a later execution. *)
Lemma enqueue_answers inputs ctx (s : machine) row r :
  is_workflow ctx = true → validate_enqueue queue (Some ctx) = Ok tt → active (cx_workflow_id ctx) (m_db s) →
  operation_outputs (m_db s) !! (cx_workflow_id ctx, (cx_function_id ctx + 1)%Z) = Some row → answers_enqueue row r →
  ∃ r', finish (enqueue inputs (Some ctx)) s = (s, Some (Ok (Some (enqueued ctx), r'))) ∧
    match r with Ok h => r' = Ok h | Err _ => ∃ e, r' = Err e ∧ is_queue_deduplicated_error e = true end.
Proof.
  intros Hw Hval Hact Hrow [Hname Hans]. unfold Debouncing.enqueue. rewrite finish_call_bind. cbn [local_dbos_context finish mret process_ret].
  rewrite finish_call_bind, finish_raising, Hval. rewrite finish_call_bind, finish_waiting, finish_act. cbn [gets fst snd].
  destruct (start_child executor_id app_id ctx (uuids (m_world s) 0) Hw) as (child & Hchild & Hp & Hpf & Hpar & _).
  unfold Execution.start_workflow. rewrite Hchild, Hpar, finish_waiting, finish_bind, finish_act. cbn [gets fst snd].
  rewrite finish_bind, finish_database, Hp, Hpf, check_operation_execution_eq, (check_present _ _ _ _ row Hact Hrow Hname).
  cbn [fst snd mbind option_bind rr_error rr_child_workflow_id rr_serialization recorded_of]. rewrite machine_same_db.
  destruct r as [h|e].
  - destruct Hans as (He & id & Hne & Hc & ->). rewrite He, Hc. cbn [nonempty]. rewrite bool_decide_eq_false_2 by done.
    exists (Ok (polling_handle id)). by split.
  - destruct Hans as (y & n & e' & He & Hne & Hn & Hd & Hq). rewrite He, Hn. cbn [nonempty]. rewrite bool_decide_eq_false_2 by done.
    rewrite Hd. exists (Err e'). split; [done|]. by exists e'.
Qed.

End enqueue.

(** *** The loop *)

Section replay.
Context {W : Type} `{Host W, Codecs, !CodecLaws} (serializer : Serializer) (executor_id app_id app_version : string).
Context (uuids : W → nat → string) (queue_info_map : string → option Queue) (internal_queue : Queue) (reg : registry (W:=W)).
Context (o : DebouncerOptions) (key : string) (queue : Queue) (info : workflow_info (W:=W)).
Notation machine := (@machine W).
Notation debounce := (debounce serializer executor_id app_id app_version uuids queue_info_map internal_queue reg).
Notation debounce_loop := (debounce_loop serializer executor_id app_id app_version uuids).
Notation bounce_call := (bounce_call (W:=W) serializer executor_id).
Notation bounce := (bounce (W:=W) serializer).
Notation enqueue := (enqueue serializer executor_id app_id app_version uuids).
Notation dedup := (debounce_id o key).
Hypothesis honest : honest_name serializer.
Hypothesis reads_back : round_trips serializer.
Hypothesis is_registered : registered queue_info_map internal_queue reg o queue info.

Lemma bounce_outputs w period inputs d c' u :
  bounce o w info (q_name queue) dedup period inputs (Conn d d) = (c', Ok u) →
  operation_outputs (current c') = operation_outputs d.
Proof.
  unfold Debouncing.bounce. intros (c1 & [x n] & Hx & Hrun)%bind_inv_Ok. injection Hx as <- _.
  apply bind_inv_Ok in Hrun as (c2 & r & Hb & [= <- _]).
  pose proof (moves_debounce same_outputs (now_ms w) (do_workflow_name o) (q_name queue) dedup (time_ms w + period) x (Some n)) as Hm.
  specialize (Hm (λ d, eq_refl) (Conn d d) d). rewrite Hb in Hm. by apply Hm.
Qed.

Lemma snapshot_left ctx : (snapshot_step_ctx false ctx).1 = ctx <| cx_function_id := (cx_function_id ctx + 1)%Z |>.
Proof. done. Qed.

Lemma bounce_call_workflow period inputs ctx :
  is_workflow ctx = true →
  bounce_call o info (q_name queue) dedup period inputs (Some ctx) =
  (result ← waiting (database (λ w, call_txn_as_step (Some executor_id) serializer (time_ms w) (time_ms w) (cx_workflow_id ctx)
       (cx_function_id ctx + 1) "DBOS.debounce_delayed_workflow" (bounce o w info (q_name queue) dedup period inputs)));
   raising (bounce_of_dict result)) (Some (ctx <| cx_function_id := (cx_function_id ctx + 1)%Z |>)).
Proof.
  intros Hw. pose proof (snapshot_facts ctx Hw) as Hfacts. pose proof (snapshot_left ctx) as Hleft. cbv zeta in Hfacts.
  unfold Debouncing.bounce_call, snapshot_step_context. rewrite Hw.
  destruct (snapshot_step_ctx false ctx) as [c sc]. cbn [fst snd] in *. destruct Hfacts as (Hsw & _ & Hwid & Hfid & _).
  rewrite Hsw, Hleft. unfold enter_step_ctx. change (cx_workflow_id (start_step (cx_function_id sc) sc)) with (cx_workflow_id sc).
  change (cx_curr_step_function_id (start_step (cx_function_id sc) sc)) with (cx_function_id sc). rewrite Hwid, Hfid. reflexivity.
Qed.

(** Nothing is recorded beyond the context's counter. *)
Definition fresh_from (ctx : DBOSContext) (d : db) : Prop :=
  ∀ fid, (cx_function_id ctx < fid)%Z → operation_outputs d !! (cx_workflow_id ctx, fid) = None.

Lemma fresh_adds ctx ctx' row d d' :
  fresh_from ctx d → cx_workflow_id ctx' = cx_workflow_id ctx → cx_function_id ctx' = (cx_function_id ctx + 1)%Z →
  adds (cx_workflow_id ctx) (cx_function_id ctx + 1) row d d' → fresh_from ctx' d'.
Proof.
  intros Hf Hw Hn Ha fid Hlt. rewrite Hw, Ha, bool_decide_eq_false_2 by lia. apply Hf. lia.
Qed.

Lemma fresh_next ctx d : fresh_from ctx d → operation_outputs d !! (cx_workflow_id ctx, (cx_function_id ctx + 1)%Z) = None.
Proof. intros Hf. apply Hf. lia. Qed.

Lemma among_bounce_call period inputs ctx (s s' : machine) local result :
  is_workflow ctx = true → fresh_from ctx (m_db s) →
  among (others (cx_workflow_id ctx)) (bounce_call o info (q_name queue) dedup period inputs (Some ctx)) s (Ok (local, Ok result)) s' →
  local = Some (ctx <| cx_function_id := (cx_function_id ctx + 1)%Z |>) ∧
  ∃ row v, adds (cx_workflow_id ctx) (cx_function_id ctx + 1) row (m_db s) (m_db s') ∧
    answers_txn serializer row "DBOS.debounce_delayed_workflow" v ∧ bounce_of_dict v = Ok result.
Proof.
  intros Hw Hfresh Ham. rewrite (bounce_call_workflow _ _ _ Hw) in Ham.
  apply among_call_bind in Ham as (l1 & v & s1 & (r0 & [= -> <-] & [Hv HR]%among_database)%among_waiting & [[= -> Hr] ->]%among_raising).
  split; [done|]. destruct (call_txn_as_step _ _ _ _ _ _ _ _ (m_db s)) as [d1 r1] eqn:Hcall. cbn [fst snd] in *. subst r1.
  apply (txn_step_records serializer reads_back) in Hcall as (row & Ho & Hans); [|intros c' u; apply bounce_outputs|by apply fresh_next].
  exists row, v. split_and!; [|done|done]. apply (same_adds _ _ _ _ (m_db s) d1); [done|by apply adds_insert|exact HR].
Qed.

Lemma finish_bounce_replay period inputs ctx (s : machine) row v result :
  is_workflow ctx = true → active (cx_workflow_id ctx) (m_db s) →
  operation_outputs (m_db s) !! (cx_workflow_id ctx, (cx_function_id ctx + 1)%Z) = Some row →
  answers_txn serializer row "DBOS.debounce_delayed_workflow" v → bounce_of_dict v = Ok result →
  finish (bounce_call o info (q_name queue) dedup period inputs (Some ctx)) s =
    (s, Some (Ok (Some (ctx <| cx_function_id := (cx_function_id ctx + 1)%Z |>), Ok result))).
Proof.
  intros Hw Ha Hr Hans Hv. rewrite (bounce_call_workflow _ _ _ Hw), finish_call_bind, finish_waiting, finish_database.
  rewrite (txn_step_answers serializer _ _ _ _ _ _ _ _ row v Ha Hr Hans). cbn [fst snd]. rewrite finish_raising, Hv, machine_same_db. done.
Qed.

(** The setting of the enqueue, and the context after the block. *)
Notation setting_at period now :=
  (MkDebounce (Some dedup) (Some (first_delay now period (debounce_deadline o now))) (debounce_deadline o now) true None).

Definition after_enqueue (ctx : DBOSContext) : DBOSContext := with_setting (setting (T:=DebounceSetting) ctx) (enqueued ctx).

Lemma after_enqueue_settings (v : DebounceSetting) ctx :
  with_setting (setting (T:=DebounceSetting) ctx) (enqueued (with_setting v ctx)) = after_enqueue ctx.
Proof. done. Qed.

(** The enqueue of the loop, among others and again. *)
Lemma among_attempt period inputs now ctx (s s' : machine) local r :
  is_workflow ctx = true → fresh_from ctx (m_db s) → writable serializer info inputs → attributes_writable ctx → goes_on r →
  among (others (cx_workflow_id ctx)) (within_settings executor_id app_id (setting_at period now) (enqueue queue info inputs) (Some ctx))
    s (Ok (local, r)) s' →
  local = Some (after_enqueue ctx) ∧
  keeps_checkpoints (cx_workflow_id ctx) (m_db s) (m_db s') ∧ fresh_from (after_enqueue ctx) (m_db s') ∧
  ∀ s2 now', keeps_checkpoints (cx_workflow_id ctx) (m_db s') (m_db s2) → active (cx_workflow_id ctx) (m_db s2) →
    ∃ r', finish (within_settings executor_id app_id (setting_at period now') (enqueue queue info inputs) (Some ctx)) s2 =
        (s2, Some (Ok (Some (after_enqueue ctx), r'))) ∧
      match r with Ok h => r' = Ok h | Err _ => ∃ e, r' = Err e ∧ is_queue_deduplicated_error e = true end.
Proof.
  intros Hw Hfresh Hwr Hattr Hgo Ham. unfold within_settings in Ham. cbn [default] in Ham.
  apply among_bind in Ham as [([inner r1] & s1 & Henq & [[= -> ->] ->]%among_done)|(e & _ & ?)]; [|done].
  set (ctxe := with_setting (setting_at period now) ctx) in *.
  destruct (enqueue_records serializer executor_id app_id app_version uuids queue info honest reads_back
    (plain_function _ _ _ _ _ _ is_registered) inputs ctxe s s1 inner r1 Hw Hwr Hattr (fresh_next ctx _ Hfresh) Henq Hgo)
    as (-> & Hval & row & Hadd & Hans).
  change (cx_workflow_id ctxe) with (cx_workflow_id ctx) in Hadd. change (cx_function_id ctxe) with (cx_function_id ctx) in Hadd.
  split; [done|]. split; [by eapply adds_keeps, Hadd; apply fresh_next|]. split; [by eapply fresh_adds|].
  intros s2 now' Hk Ha.
  destruct (enqueue_answers serializer executor_id app_id app_version uuids queue info inputs (with_setting (setting_at period now') ctx) s2 row r1)
    as (r' & Hfin & Hr'); [done|exact Hval|done|apply Hk; by eapply adds_present|done|].
  exists r'. split; [|done]. rewrite finish_within_settings. change (default _ (Some ctx)) with ctx. cbv zeta. by rewrite Hfin.
Qed.

(** The turn of the loop that enqueues. *)
Notation enqueue_turn period inputs pinned again :=
  ((now_ms ← waiting (act (gets (λ s : machine, time_ms (m_world s))));
    let deadline_ms := debounce_deadline o now_ms in
    _ ← match pinned with
        | Some p => set_context (λ c, c <| cx_id_assigned_for_next_workflow := p |>)
        | None => mret tt
        end;
    trying
      (within_settings executor_id app_id
         (MkDebounce (Some dedup) (Some (first_delay now_ms period deadline_ms)) deadline_ms true None)
         (enqueue queue info inputs))
      (λ e, if is_queue_deduplicated_error e then Some again else None)) : call W (workflow_handle (W:=W))).

Lemma among_turn period inputs pinned again ctx (s s' : machine) local h :
  is_workflow ctx = true → fresh_from ctx (m_db s) → writable serializer info inputs → attributes_writable ctx →
  among (others (cx_workflow_id ctx)) (enqueue_turn period inputs pinned again (Some ctx)) s (Ok (local, Ok h)) s' →
  ∃ ctx' s1 (lost : bool),
    is_workflow ctx' = true ∧ fresh_from ctx' (m_db s1) ∧ attributes_writable ctx' ∧ cx_workflow_id ctx' = cx_workflow_id ctx ∧
    keeps_checkpoints (cx_workflow_id ctx) (m_db s) (m_db s1) ∧
    (if lost then among (others (cx_workflow_id ctx)) (again (Some ctx')) s1 (Ok (local, Ok h)) s' else local = Some ctx' ∧ s1 = s') ∧
    ∀ s2, keeps_checkpoints (cx_workflow_id ctx) (m_db s1) (m_db s2) → active (cx_workflow_id ctx) (m_db s2) →
      finish (enqueue_turn period inputs pinned again (Some ctx)) s2 =
      if lost then finish (again (Some ctx')) s2 else (s2, Some (Ok (Some ctx', Ok h))).
Proof.
  intros Hw Hfresh Hwr Hattr Ham.
  apply among_call_bind in Ham as (l2 & now & s2 & (r0 & [= -> <-] & [_ HR2]%among_one)%among_waiting & Ham). cbn [gets fst snd] in HR2.
  set (ctx2 := match pinned with Some p => ctx <| cx_id_assigned_for_next_workflow := p |> | None => ctx end).
  apply among_call_bind in Ham as (l3 & [] & s3 & Hset & Ham).
  assert (l3 = Some ctx2 ∧ s3 = s2) as [-> ->] by (subst ctx2; destruct pinned; by apply among_done in Hset as [[= ->] ->]).
  assert (is_workflow ctx2 = true ∧ fresh_from ctx2 (m_db s2) ∧ attributes_writable ctx2 ∧ cx_workflow_id ctx2 = cx_workflow_id ctx)
    as (Hw2 & Hfresh2 & Hattr2 & Hid2).
  { assert (fresh_from ctx (m_db s2)) as Hf by (intros f Hlt; rewrite (HR2 f); by apply Hfresh). subst ctx2. by destruct pinned. }
  unfold trying in Ham. apply among_bind in Ham as [([l4 r] & s4 & Hatt & Hend)|(e & _ & ?)]; [|done].
  assert (goes_on r) as Hgo.
  { destruct r as [h'|e]; [done|]. cbn. destruct (is_queue_deduplicated_error e); [done|]. by apply among_done in Hend as [? _]. }
  rewrite <- Hid2 in Hatt. apply among_attempt in Hatt as (-> & Hk4 & Hfresh4 & Hrep); [|done..]. rewrite Hid2 in Hk4, Hrep.
  exists (after_enqueue ctx2), s4, (negb (is_ok r)). split_and!; try done.
  - by apply (transitivity (same_checkpoints_kept _ _ _ HR2)).
  - destruct r as [h'|e]; cbn in Hgo |- *; [by apply among_done in Hend as [[= -> _] ->]|by rewrite Hgo in Hend].
  - intros s5 Hk Ha. destruct (Hrep s5 (time_ms (m_world s5)) Hk Ha) as (r' & Hf & Hr').
    rewrite finish_call_bind, finish_waiting, finish_act. cbn [gets fst snd]. rewrite finish_call_bind.
    assert (finish ((match pinned with Some p => set_context (λ c, c <| cx_id_assigned_for_next_workflow := p |>) | None => mret tt end
      : call W unit) (Some ctx)) s5 = (s5, Some (Ok (Some ctx2, Ok tt)))) as -> by (subst ctx2; by destruct pinned).
    rewrite finish_trying, Hf. destruct r as [h'|e]; cbn.
    + apply among_done in Hend as [[= _ ->] _]. by subst r'.
    + destruct Hr' as (e' & -> & He'). by rewrite He'.
Qed.

(** The loop among others, and the loop again. *)
Lemma loop_replays fuel : ∀ period inputs pinned ctx (s s' : machine) local h,
  is_workflow ctx = true → fresh_from ctx (m_db s) → writable serializer info inputs → attributes_writable ctx →
  among (others (cx_workflow_id ctx)) (debounce_loop fuel o queue info dedup period inputs pinned (Some ctx)) s (Ok (local, Ok h)) s' →
  keeps_checkpoints (cx_workflow_id ctx) (m_db s) (m_db s') ∧
  ∀ s2, keeps_checkpoints (cx_workflow_id ctx) (m_db s') (m_db s2) → active (cx_workflow_id ctx) (m_db s2) →
    finish (debounce_loop fuel o queue info dedup period inputs pinned (Some ctx)) s2 = (s2, Some (Ok (local, Ok h))).
Proof.
  induction fuel as [|fuel IH]; intros period inputs pinned ctx s s' local h Hw Hfresh Hwr Hattr Ham; [by inversion Ham|].
  cbn [Debouncing.debounce_loop] in Ham |- *. set (ctx1 := ctx <| cx_function_id := (cx_function_id ctx + 1)%Z |>).
  apply among_call_bind in Ham as (l1 & result & s1 & Hb & Ham).
  apply among_bounce_call in Hb as (-> & row & v & Hadd & Hans & Hv); [|done|done].
  pose proof (adds_keeps _ _ _ _ _ (fresh_next _ _ Hfresh) Hadd) as Hk1.
  assert (fresh_from ctx1 (m_db s1)) as Hfresh1 by (by eapply fresh_adds).
  assert (∀ s2 : machine, keeps_checkpoints (cx_workflow_id ctx) (m_db s1) (m_db s2) → active (cx_workflow_id ctx) (m_db s2) →
    finish (bounce_call o info (q_name queue) dedup period inputs (Some ctx)) s2 = (s2, Some (Ok (Some ctx1, Ok result)))) as Hagain.
  { intros s2 Hk Ha. apply (finish_bounce_replay _ _ _ _ row v); [done|done| |done|done]. apply Hk. by eapply adds_present. }
  clear Hadd Hans Hv. destruct (classify_bounce result (do_workflow_name o)) eqn:Hcl.
  - apply among_done in Ham as [[= -> ->] ->]. split; [done|]. intros s2 Hk Ha. by rewrite finish_call_bind, (Hagain s2 Hk Ha), Hcl.
  - destruct (among_turn _ _ _ _ ctx1 _ _ _ _ Hw Hfresh1 Hwr Hattr Ham)
      as (ctx2 & s2 & lost & Hw2 & Hfresh2 & Hattr2 & Hid2 & Hk2 & Hend & Hturn).
    assert (keeps_checkpoints (cx_workflow_id ctx) (m_db s2) (m_db s') ∧ ∀ s3,
      keeps_checkpoints (cx_workflow_id ctx) (m_db s') (m_db s3) → active (cx_workflow_id ctx) (m_db s3) →
      (if lost then finish (debounce_loop fuel o queue info dedup period inputs pinned (Some ctx2)) s3
       else (s3, Some (Ok (Some ctx2, Ok h)))) = (s3, Some (Ok (local, Ok h)))) as [Hk' Hfin].
    { destruct lost; [|by destruct Hend as [-> ->]]. change (cx_workflow_id ctx1) with (cx_workflow_id ctx) in *.
      rewrite <- Hid2 in Hend |- *. by apply (IH _ _ _ ctx2). }
    split; [by do 2 (etrans; [done|])|]. intros s3 Hk Ha.
    rewrite finish_call_bind, (Hagain s3), Hcl; [|by do 2 (etrans; [done|])|done]. etrans; [apply Hturn; [by etrans|done]|by apply Hfin].
  - by apply among_done in Ham as [? _].
  - destruct (IH period inputs pinned ctx1 s1 s' local h) as [Hk' Hfin]; [done..|].
    split; [by etrans|]. intros s2 Hk Ha. rewrite finish_call_bind, (Hagain s2), Hcl; [by apply Hfin|by etrans|done].
Qed.

Lemma call_bind_done {A B} (m : call W A) (k : A → call W B) local local' r :
  m local = Returns (Ok (local', r)) →
  (m ≫= k) local = match r with Ok a => k a local' | Err e => Returns (Ok (local', Err e)) end.
Proof. intros Hm. unfold mbind, call_bind. rewrite Hm. by destruct r. Qed.

Lemma debounce_of_workflow fuel period inputs ctx :
  debounce fuel o key period inputs (Some ctx) =
  match reject_conflicting_options (bool_decide (is_Some (cx_deduplication_id ctx))) (bool_decide (is_Some (cx_delay_until_epoch_ms ctx)))
          (bool_decide (is_Some (cx_priority ctx))) (bool_decide (is_Some (cx_queue_partition_key ctx))) with
  | Err e => Returns (Ok (Some ctx, Err e))
  | Ok _ =>
      debounce_loop fuel o queue info dedup period inputs (nonempty (Some (cx_id_assigned_for_next_workflow ctx)))
        (Some (match nonempty (Some (cx_id_assigned_for_next_workflow ctx)) with
               | Some _ => ctx <| cx_id_assigned_for_next_workflow := "" |>
               | None => ctx
               end))
  end.
Proof.
  destruct is_registered as [Hq Hi _ _ _ _]. unfold Debouncing.debounce. rewrite (call_bind_done _ _ _ (Some ctx) (Ok (Some ctx))) by done.
  rewrite (call_bind_done _ _ _ (Some ctx) _ eq_refl). destruct (reject_conflicting_options _ _ _ _) as [[]|e]; [|done].
  set (pinned := nonempty (Some (cx_id_assigned_for_next_workflow ctx))).
  set (ctx0 := match pinned with Some _ => ctx <| cx_id_assigned_for_next_workflow := "" |> | None => ctx end).
  rewrite (call_bind_done _ _ _ (Some ctx0) (Ok tt)) by (change (nonempty (cx_id_assigned_for_next_workflow <$> Some ctx)) with pinned; subst ctx0; by destruct pinned).
  rewrite (call_bind_done _ _ _ (Some ctx0) (Ok queue)); [by rewrite Hi|].
  unfold resolve_queue. by destruct (nonempty (do_queue_name o)); rewrite Hq.
Qed.

(** C19: A workflow that is executed again debounces as it did. Let a debounce of a workflow
    have returned, after as many turns as it took, while others did what they liked between
    any two of its actions but for the workflow's checkpoints: they may have taken the key
    between the bounce and the enqueue. The same call in a later execution then returns the
    same handle and leaves the same context, without a change to the database: the inputs
    are not bounced again into a workflow that may have started, and no second workflow
    is enqueued. *)
Theorem debounce_replays fuel period inputs ctx (s s' s2 : machine) local h :
  is_workflow ctx = true → fresh_from ctx (m_db s) → writable serializer info inputs → attributes_writable ctx →
  among (others (cx_workflow_id ctx)) (debounce fuel o key period inputs (Some ctx)) s (Ok (local, Ok h)) s' →
  keeps_checkpoints (cx_workflow_id ctx) (m_db s') (m_db s2) → active (cx_workflow_id ctx) (m_db s2) →
  finish (debounce fuel o key period inputs (Some ctx)) s2 = (s2, Some (Ok (local, Ok h))).
Proof.
  intros Hw Hfresh Hwr Hattr Ham Hk Ha. rewrite debounce_of_workflow in Ham |- *.
  destruct (reject_conflicting_options _ _ _ _) as [[]|e]; [|by apply among_done in Ham as [? _]].
  set (ctx0 := match nonempty _ with Some _ => _ | None => ctx end) in *.
  assert (is_workflow ctx0 = true ∧ fresh_from ctx0 (m_db s) ∧ attributes_writable ctx0 ∧ cx_workflow_id ctx0 = cx_workflow_id ctx)
    as (Hw0 & Hfresh0 & Hattr0 & Hid0) by (subst ctx0; by destruct (nonempty _)).
  rewrite <- Hid0 in Ham, Hk, Ha. exact (proj2 (loop_replays _ _ _ _ _ _ _ _ _ Hw0 Hfresh0 Hwr Hattr0 Ham) s2 Hk Ha).
Qed.

End replay.

(** ** Samples *)

#[local] Existing Instance sample_codecs.
#[local] Existing Instance sample_laws.

(** A run with what others do after the [n]th action. *)
Fixpoint run_among {W A} (others : nat → machine (W:=W) → machine (W:=W)) (n : nat) (p : process (machine (W:=W)) A) (s : machine) :
    machine (W:=W) * option (res pyexn A) :=
  match p with
  | Returns r => (s, Some r)
  | Act f => let '(s', p') := f s in run_among others (S n) p' (others n s')
  | Waits => (s, None)
  end.

Lemma run_among_among {W A} (R : relation (machine (W:=W))) others n (p : process machine A) s s' r :
  (∀ n s, R s (others n s)) → run_among others n p s = (s', Some r) → among R p s r s'.
Proof.
  intros HR. revert n s. induction p as [r0|f IH|] using process_nested_ind; intros n s; simpl; [intros [= -> ->]; constructor| |done].
  destruct (f s) as [s1 p1] eqn:Hf. intros Hrun. specialize (IH s). rewrite Hf in IH.
  eapply among_act; rewrite Hf; [apply HR|]. by eapply IH.
Qed.

(** Writes what a bounce answers. *)
Definition opt_of_py (v : pyval) : option (option string) :=
  match v with PNone => Some None | PStr s => Some (Some s) | _ => None end.

Definition bounce_keys : list string :=
  ["bounced_workflow_id"; "holder_workflow_id"; "holder_is_debounced"; "holder_workflow_name"].

Definition bounce_serializer : Serializer := {|
  ser_name := "sample";
  ser_serialize v :=
    match v with
    | PDict [(PStr k1, b); (PStr k2, h); (PStr k3, PBool d); (PStr k4, n)] =>
        if bool_decide ([k1; k2; k3; k4] = bounce_keys) then
          match opt_of_py b, opt_of_py h, opt_of_py n with
          | Some b, Some h, Some n => Ok (digits (encode (b, h, d, n)))
          | _, _, _ => Err (TypeError "cannot pickle object")
          end
        else Err (TypeError "cannot pickle object")
    | _ => Err (TypeError "cannot pickle object")
    end;
  ser_deserialize := decode_as (λ x : option string * option string * bool * option string,
    bounce_dict {| bounced_workflow_id := x.1.1.1; holder_workflow_id := x.1.1.2; holder_is_debounced := x.1.2;
                   holder_workflow_name := x.2 |});
|}.

Lemma bounce_serializer_honest : honest_name bounce_serializer.
Proof. split; intros H; discriminate H. Qed.

Lemma opt_of_py_back v x : opt_of_py v = Some x → opt_py x = v.
Proof. destruct v; try discriminate; by intros [= <-]. Qed.

Lemma bounce_serializer_reads_back : round_trips bounce_serializer.
Proof.
  intros v t. cbn [ser_serialize ser_deserialize bounce_serializer].
  destruct v as [| | | | | | | | | | |l| |]; try discriminate.
  destruct l as [|[k1 b] [|[k2 h] [|[k3 d] [|[k4 n] [|]]]]]; try discriminate; destruct k1; try discriminate;
    destruct k2; try discriminate; destruct k3; try discriminate; destruct d; try discriminate; destruct k4; try discriminate.
  case_bool_decide as Hk; [|discriminate]. injection Hk as -> -> -> ->.
  destruct (opt_of_py b) eqn:Hb; [|discriminate]. destruct (opt_of_py h) eqn:Hh; [|discriminate].
  destruct (opt_of_py n) eqn:Hn; [|discriminate]. intros [= <-]. rewrite decode_as_encode.
  unfold bounce_dict. cbn [bounced_workflow_id holder_workflow_id holder_is_debounced holder_workflow_name fst snd].
  by rewrite (opt_of_py_back _ _ Hb), (opt_of_py_back _ _ Hh), (opt_of_py_back _ _ Hn).
Qed.

(** A workflow that debounces "key", and a rival that takes the key after the bounce has found it free. *)
Definition digest_debounce : call mailbox (workflow_handle (W:=mailbox)) :=
  @debounce mailbox mailbox_host sample_codecs bounce_serializer "exec" "app" "v1" (λ _ _, "d") digest_queues digest_queue
    digest_registry 2 digest_options "key" 4000 (digest_inputs "a").

Definition rival_row : workflow_status_row :=
  letters_row <| ws_status := DELAYED |> <| ws_name := Some "digest" |> <| ws_queue_name := Some "q" |>
    <| ws_deduplication_id := Some "digest-key" |> <| ws_is_debounced := true |> <| ws_delay_until_epoch_ms := Some 2000%Z |>.

Definition rival (n : nat) (s : machine (W:=mailbox)) : machine (W:=mailbox) :=
  if Nat.eqb n 0 then Machine ((m_db s) <| workflow_status := <["rival" := rival_row]> (workflow_status (m_db s)) |>) (m_world s) (m_active s)
  else s.

Definition raced : machine (W:=mailbox) * option (res pyexn (option DBOSContext * res pyexn workflow_handle)) :=
  run_among rival 0 (digest_debounce (Some sample_ctx)) (letter_machine []).

Definition raced_context : option DBOSContext :=
  match raced.2 with Some (Ok (local, _)) => local | _ => None end.

Lemma digest_writable : writable bounce_serializer digest (digest_inputs "a").
Proof.
  destruct (serialize_args (digest_inputs "a") (Some PORTABLE) bounce_serializer) as [[x n]|e] eqn:Hx; [|discriminate Hx].
  exists x, n. split; [exact Hx|]. vm_compute in Hx. injection Hx as <- <-. intros w q i. eexists. split; [reflexivity|].
  unfold json_dumps. cbn [sample_codecs]. destruct (encode _); discriminate.
Qed.

(** It bounces the rival, in the first execution and in the next. *)
Lemma debounce_replays_witness :
  operation_outputs (m_db raced.1) !! ("w", 3%Z) ≠ None ∧
  finish (digest_debounce (Some sample_ctx)) (crash raced.1) =
    (crash raced.1, Some (Ok (raced_context, Ok (polling_handle "rival")))).
Proof.
  split; [vm_compute; discriminate|].
  refine (@debounce_replays mailbox mailbox_host sample_codecs sample_laws bounce_serializer "exec" "app" "v1" (λ _ _, "d")
    digest_queues digest_queue digest_registry digest_options "key" digest_queue digest bounce_serializer_honest bounce_serializer_reads_back
    digest_registered 2 4000 (digest_inputs "a") sample_ctx (letter_machine []) raced.1 (crash raced.1) raced_context
    (polling_handle "rival") _ _ digest_writable _ _ _ _).
  - reflexivity.
  - intros fid _. reflexivity.
  - exact I.
  - apply (run_among_among _ rival 0).
    + intros [|n] s fid; reflexivity.
    + vm_compute. reflexivity.
  - exact (crash_keeps _ raced.1).
  - exists letters_row. split; [vm_compute; reflexivity|discriminate].
Defined.
