(* ===== verification/Client.v ===== *)
(** * [DBOSClient] of [dbos/_client.py], and [DebouncerClient] of [dbos/_debouncer.py]

    A client is another process on the system database: it enqueues workflows it has no code
    of, by their names, sends messages, manages queues and schedules, and waits for results.
    It has no context, so none of its calls is a step. The methods with [_in_transaction] work
    on a connection that the caller commits or rolls back. A handle of a client is the ID of
    its workflow. The clocks of the process and of the database, and the IDs drawn, are
    arguments; seconds are in thousandths. *)
From Stdlib Require Import QArith.
From stdpp Require Import pretty.
From S2P Require Import Prelude Errors Schema Retry Serialization Workflows Introspection Context Steps Events Forks Messages Queues Process Execution Durability Recovery Streams Schedules Workers Lives Scopes Debouncing.
Open Scope nat_scope.

(** ** Options *)

(** [class EnqueueOptions]; the last field is not read. *)
Record EnqueueOptions := {
  eq_workflow_name : string;
  eq_queue_name : string;
  eq_workflow_id : option string;
  eq_app_version : option string;
  eq_workflow_timeout : option Z;
  eq_delay_seconds : option Z;
  eq_deduplication_id : option string;
  eq_priority : option Z;
  eq_queue_partition_key : option string;
  eq_authenticated_user : option string;
  eq_authenticated_roles : option (list string);
  eq_serialization_type : option WorkflowSerializationFormat;
  eq_class_name : option string;
  eq_instance_name : option string;
  eq_attributes : option pyval;
  eq_max_recovery_attempts : option Z;
}.

#[export] Instance EnqueueOptions_eta : RecordEta EnqueueOptions := λ o,
  Build_EnqueueOptions (eq_workflow_name o) (eq_queue_name o) (eq_workflow_id o) (eq_app_version o) (eq_workflow_timeout o)
    (eq_delay_seconds o) (eq_deduplication_id o) (eq_priority o) (eq_queue_partition_key o) (eq_authenticated_user o)
    (eq_authenticated_roles o) (eq_serialization_type o) (eq_class_name o) (eq_instance_name o) (eq_attributes o)
    (eq_max_recovery_attempts o).

(** [class ClientScheduleInput]: a dictionary, from which every key may be missing. *)
Record ClientScheduleInput := {
  ci_schedule_name : option string;
  ci_workflow_name : option string;
  ci_workflow_class_name : option string;
  ci_schedule : option string;
  ci_context : option pyval;
  ci_automatic_backfill : option bool;
  ci_cron_timezone : option string;
  ci_queue_name : option string;
}.

(** [QueueConflictResolution] *)
Inductive QueueConflictResolution := UpdateIfLatestVersion | AlwaysUpdate | NeverUpdate.

Section client.
Context `{Codecs, Cron} (serializer : Serializer) (repr : string → string).
(** [datetime.fromisoformat], the containment of [jsonb], the order of rows without one, and
    [croniter.is_valid]. *)
Context (fromisoformat_ms : string → res pyexn Q) (jsonb_contains : string → pyval → bool).
Context (scan : list (string * workflow_status_row) → list (string * workflow_status_row)) (is_valid : string → bool).

(** [validate_enqueue_options] *)
Definition validate_enqueue_options (options : EnqueueOptions) : res pyexn unit :=
  let checked := match eq_workflow_id options with Some wfid => validate_workflow_id repr (Some wfid) | None => Ok tt end in
  match eq_priority options with
  | Some p =>
      if bool_decide (p < MinPriority)%Z || bool_decide (MaxPriority < p)%Z
      then Err (DBOSException ("Invalid priority " +:+ pretty p +:+ ". Priority must be between " +:+ pretty MinPriority +:+ "~" +:+
                  pretty MaxPriority +:+ "."))
      else checked
  | None => checked
  end.

(** The JSON text of the column. *)
Definition attributes_text (attributes : option pyval) : res pyexn (option string) :=
  match attributes with
  | Some a => match py_json_dumps a with Ok t => Ok (Some t) | Err e => Err e end
  | None => Ok None
  end.

(** [_build_enqueue_status]; [time_ms] is [time.time()]. *)
Definition build_enqueue_status (uuid : string) (time_ms : Z) (options : EnqueueOptions) (inputs : WorkflowInputs) :
    res pyexn (string * WorkflowStatusInternal) :=
  match validate_enqueue_options options, serialize_args inputs (eq_serialization_type options) serializer,
        attributes_text (eq_attributes options) with
  | Err e, _, _ | Ok _, Err e, _ | Ok _, Ok _, Err e => Err e
  | Ok _, Ok (serval, serialization), Ok attributes =>
      let workflow_id := default uuid (eq_workflow_id options) in
      let delay_until_epoch_ms := (λ s, (time_ms + s)%Z) <$> eq_delay_seconds options in
      Ok (workflow_id, {|
        wi_workflow_uuid := workflow_id;
        wi_status := match delay_until_epoch_ms with Some _ => DELAYED | None => ENQUEUED end;
        wi_name := Some (eq_workflow_name options);
        wi_class_name := eq_class_name options;
        wi_config_name := eq_instance_name options;
        wi_authenticated_user := eq_authenticated_user options;
        wi_assumed_role := None;
        wi_authenticated_roles := dump_roles (eq_authenticated_roles options);
        wi_output := None;
        wi_error := None;
        wi_created_at := None;
        wi_updated_at := None;
        wi_queue_name := Some (eq_queue_name options);
        wi_executor_id := None;
        wi_app_version := eq_app_version options;
        wi_app_id := None;
        wi_recovery_attempts := None;
        wi_workflow_timeout_ms := eq_workflow_timeout options;
        wi_workflow_deadline_epoch_ms := None;
        wi_deduplication_id := eq_deduplication_id options;
        wi_priority := default 0%Z (eq_priority options);
        wi_inputs := Some serval;
        wi_queue_partition_key := eq_queue_partition_key options;
        wi_forked_from := None;
        wi_parent_workflow_id := None;
        wi_started_at_epoch_ms := None;
        wi_serialization := Some serialization;
        wi_owner_xid := None;
        wi_delay_until_epoch_ms := delay_until_epoch_ms;
        wi_attributes := attributes;
        wi_schedule_name := None;
        wi_debounce_deadline_epoch_ms := None;
        wi_is_debounced := false;
      |})
  end.

(** ** Workflows *)

(** [_enqueue]; [now] is the clock of the database. *)
Definition _enqueue (now : Z) (uuid : string) (time_ms : Z) (options : EnqueueOptions) (inputs : WorkflowInputs) : dbM string :=
  '(workflow_id, status) ← lift_res (build_enqueue_status uuid time_ms options inputs);
  _ ← Workflows.init_workflow now status None None false false;
  mret workflow_id.

Definition _enqueue_with_connection (now : Z) (uuid : string) (time_ms : Z) (options : EnqueueOptions) (inputs : WorkflowInputs) : txn string :=
  '(workflow_id, status) ← lift_res (build_enqueue_status uuid time_ms options inputs);
  _ ← init_workflow_with_connection now status None None;
  mret workflow_id.

Definition _enqueue_debounced (now : Z) (uuid : string) (time_ms : Z) (options : EnqueueOptions) (debounce_deadline_epoch_ms : option Z)
    (inputs : WorkflowInputs) : dbM string :=
  '(workflow_id, status) ← lift_res (build_enqueue_status uuid time_ms options inputs);
  let status := status <| wi_debounce_deadline_epoch_ms := debounce_deadline_epoch_ms |> <| wi_is_debounced := true |> in
  _ ← Workflows.init_workflow now status None None false false;
  mret workflow_id.

(** [DBOSClient.enqueue], [enqueue_in_transaction] *)
Definition DBOSClient_enqueue := _enqueue.
Definition enqueue_in_transaction := _enqueue_with_connection.

(** [WorkflowHandleClientPolling.get_result], over the databases of its polls, and
    [get_status]. *)
Definition client_get_result (polls : nat) (world : nat → db) (workflow_id : string) : option (res pyexn pyval) :=
  await_workflow_result serializer polls world workflow_id.

Definition client_get_workflow (workflow_id : string) (d : db) : res pyexn (option WorkflowStatus) :=
  get_workflow serializer fromisoformat_ms jsonb_contains scan workflow_id true true d.

Definition client_get_status (workflow_id : string) (d : db) : res pyexn WorkflowStatus :=
  match client_get_workflow workflow_id d with
  | Ok (Some status) => Ok status
  | Ok None => Err (DBOSNonExistentWorkflowError "target" workflow_id)
  | Err e => Err e
  end.

Definition retrieve_workflow (workflow_id : string) (d : db) : res pyexn string :=
  match client_get_workflow workflow_id d with
  | Ok (Some _) => Ok workflow_id
  | Ok None => Err (DBOSNonExistentWorkflowError "target" workflow_id)
  | Err e => Err e
  end.

Definition wait_first (polls : nat) (world : nat → db) (handles : list string) : option (res pyexn string) :=
  match handles with
  | [] => Some (Err (ValueError "handles must not be empty"))
  | _ =>
      if negb (bool_decide (NoDup handles)) then Some (Err (ValueError "handles must not contain duplicate workflow IDs"))
      else await_first_workflow_id polls world handles
  end.

Definition cancel_workflow (now : Z) (workflow_id : string) (cancel_children : bool) (d : db) : option db :=
  Workflows.cancel_workflows now [workflow_id] cancel_children d.

(** The methods that only pass their arguments on. *)
Definition DBOSClient_cancel_workflows : Z → list string → bool → db → option db := Workflows.cancel_workflows.
Definition DBOSClient_update_workflow_attributes : Z → string → option pyval → dbM unit := Workflows.update_workflow_attributes.
Definition DBOSClient_set_workflow_delay : Z → Z → string → option Z → option Z → dbM unit := Workflows.set_workflow_delay.

Definition DBOSClient_list_workflows (f : WorkflowFilters str_or_list) (limit offset : option Z) (sort_desc load_input load_output queues_only : bool) :
    db → res pyexn (list WorkflowStatus) :=
  Introspection.list_workflows serializer fromisoformat_ms jsonb_contains scan f limit offset sort_desc load_input load_output queues_only.

(** It takes no filter on forks or schedules. *)
Definition list_queued_workflows (f : WorkflowFilters str_or_list) (limit offset : option Z) (sort_desc load_input load_output : bool) :
    db → res pyexn (list WorkflowStatus) :=
  Introspection.list_workflows serializer fromisoformat_ms jsonb_contains scan f limit offset sort_desc load_input load_output true.

Definition DBOSClient_list_workflow_steps (workflow_id : string) (limit offset : option Z) : db → res pyexn (list StepInfo) :=
  Introspection.list_workflow_steps serializer workflow_id true limit offset.

Definition DBOSClient_get_event (fuel : nat) (env : nat → proc → proc) (interval start_time time_ms sleep_start sleep_completed time_ms' wait_start
    completed_ms : Z) (workflow_id key : string) (timeout_ms : Z) : proc → option (proc * res pyexn pyval) :=
  Streams.get_event None serializer fuel env interval start_time time_ms sleep_start sleep_completed time_ms' wait_start completed_ms
    workflow_id key timeout_ms None.

Fixpoint with_children (workflow_ids : list string) (d : db) : option (list string) :=
  match workflow_ids with
  | [] => Some []
  | wfid :: rest =>
      children ← get_workflow_children d wfid;
      others ← with_children rest d;
      Some (children ++ others)%list
  end.

(** The children are read before the workflows are deleted, each in a transaction. *)
Definition DBOSClient_delete_workflows (workflow_ids : list string) (delete_children : bool) (d : db) : option (db * res pyexn unit) :=
  children ← (if delete_children then with_children workflow_ids d else Some []);
  Some (Workflows.delete_workflows (workflow_ids ++ children)%list d).

Definition resume_workflow (now : Z) (workflow_id : string) (queue_name : option string) : dbM string :=
  _ ← Workflows.resume_workflows now [workflow_id] queue_name; mret workflow_id.

Definition DBOSClient_resume_workflows (now : Z) (workflow_ids : list string) (queue_name : option string) : dbM (list string) :=
  _ ← Workflows.resume_workflows now workflow_ids queue_name; mret workflow_ids.

Definition DBOSClient_fork_workflow (now : Z) (uuid : string) (workflow_id : string) (start_step : Z)
    (application_version queue_name queue_partition_key : option string) (replacement_children : list (string * string)) : dbM string :=
  _ ← Forks.fork_workflow now [workflow_id] [uuid] [start_step] application_version queue_name queue_partition_key replacement_children;
  mret uuid.

(** ** Messages and streams *)

Definition send (created : Z) (uuids : nat → string) (start_time completed_ms : Z) (destination_id : string) (message : pyval)
    (topic idempotency_key : option string) (serialization_type : option WorkflowSerializationFormat) (send_to_forks : bool) : dbM unit :=
  Messages.send_bulk None serializer created uuids start_time completed_ms
    [{| sm_destination_id := destination_id; sm_message := message; sm_topic := topic; sm_idempotency_key := idempotency_key |}]
    serialization_type None "DBOS.send" send_to_forks.

Definition DBOSClient_send_bulk (created : Z) (uuids : nat → string) (start_time completed_ms : Z) (messages : list SendMessage)
    (serialization_type : option WorkflowSerializationFormat) (send_to_forks : bool) : dbM unit :=
  Messages.send_bulk None serializer created uuids start_time completed_ms messages serialization_type None "DBOS.send_bulk" send_to_forks.

Definition send_in_transaction (created : Z) (uuids : nat → string) (start_time completed_ms : Z) (destination_id : string) (message : pyval)
    (topic idempotency_key : option string) (serialization_type : option WorkflowSerializationFormat) (send_to_forks : bool) : txn unit :=
  send_bulk_with_connection None serializer created uuids start_time completed_ms
    [{| sm_destination_id := destination_id; sm_message := message; sm_topic := topic; sm_idempotency_key := idempotency_key |}]
    serialization_type "DBOS.send" send_to_forks.

Definition send_bulk_in_transaction (created : Z) (uuids : nat → string) (start_time completed_ms : Z) (messages : list SendMessage)
    (serialization_type : option WorkflowSerializationFormat) (send_to_forks : bool) : txn unit :=
  send_bulk_with_connection None serializer created uuids start_time completed_ms messages serialization_type "DBOS.send_bulk" send_to_forks.

(** The generator [read_stream], over the databases of its reads ([Streams.stream_reader]): it
    just ends when there is no such workflow. *)
Fixpoint DBOSClient_read_stream (fuel : nat) (world : nat → db) (workflow_id key : string) (offset : Z) (final_read : bool) :
    list pyval * option (res pyexn unit) :=
  match fuel with
  | O => ([], None)
  | S fuel' =>
      match Streams.read_stream serializer (world 0) workflow_id key offset with
      | Ok value =>
          if is_closed value then ([], Some (Ok tt))
          else let '(l, r) := DBOSClient_read_stream fuel' (λ n, world (S n)) workflow_id key (offset + 1) final_read in (value :: l, r)
      | Err (ValueError _) =>
          if final_read then ([], Some (Ok tt))
          else match get_workflow_status (world 1) workflow_id with
               | None => ([], Some (Ok tt))
               | Some st =>
                   DBOSClient_read_stream fuel' (λ n, world (S (S n))) workflow_id key offset (negb (workflow_is_active (wi_status st)))
               end
      | Err e => ([], Some (Err e))
      end
  end.

(** ** Queues *)

(** [DBOSClient.register_queue]; [row] are its values, whose limiter may lack a key. *)
Definition register_queue (time_ms now : Z) (name : string) (concurrency worker_concurrency : option Z)
    (limiter : option (option Z * option Z)) (priority_enabled partition_queue : bool) (polling_interval : Z)
    (on_conflict : QueueConflictResolution) : dbM Queue :=
  _ ← lift_res (validate_queue concurrency worker_concurrency polling_interval limiter);
  update_existing ← lift_res match on_conflict with
    | AlwaysUpdate => Ok true
    | NeverUpdate => Ok false
    | UpdateIfLatestVersion => Err (DBOSException ("DBOSClient.register_queue does not support " +:+
        "on_conflict='update_if_latest_version' because clients are not associated with an application version. Use " +:+
        "'always_update' or 'never_update'."))
    end;
  _ ← upsert_queue time_ms now name {|
        qu_concurrency := concurrency; qu_worker_concurrency := worker_concurrency;
        qu_rate_limit_max := limiter ≫= fst; qu_rate_limit_period_ms := limiter ≫= snd;
        qu_priority_enabled := priority_enabled; qu_partition_queue := partition_queue;
        qu_polling_interval_ms := polling_interval; qu_created_at := now; qu_updated_at := time_ms |} update_existing;
  found ← (λ d, (d, get_queue d name true)) : dbM (option Queue);
  match found with
  | Some queue => mret queue
  | None => raise (AssertionError ("Queue " +:+ name +:+ " missing from database after upsert"))
  end.

Definition retrieve_queue (name : string) (d : db) : res pyexn (option Queue) := get_queue d name true.
Definition DBOSClient_delete_queue : string → dbM unit := Queues.delete_queue.
Definition DBOSClient_list_queues (d : db) : res pyexn (list Queue) := Queues.list_queues d true.

(** ** Schedules *)

(** [croniter.is_valid] and [ZoneInfo], [except Exception]. *)
Definition check_cron (cron : string) (cron_timezone : option string) : res pyexn unit :=
  if negb (is_valid cron) then Err (DBOSException ("Invalid cron schedule: '" +:+ cron +:+ "'")) else
  match cron_timezone with
  | Some tz =>
      match ZoneInfo tz with
      | Ok _ => Ok tt
      | Err e => if is_Exception e then Err (DBOSException ("Invalid timezone: '" +:+ tz +:+ "'")) else Err e
      end
  | None => Ok tt
  end.

Definition DBOSClient_create_schedule (uuid schedule_name workflow_name schedule : string) (context : pyval) (workflow_class_name : option string)
    (automatic_backfill : bool) (cron_timezone queue_name : option string) : dbM unit :=
  _ ← lift_res (check_cron schedule cron_timezone);
  text ← lift_res (ser_serialize serializer context);
  engine_begin (Schedules.create_schedule (uuid, {|
    sc_schedule_name := schedule_name; sc_workflow_name := workflow_name; sc_workflow_class_name := workflow_class_name;
    sc_schedule := schedule; sc_status := "ACTIVE"; sc_context := text; sc_last_fired_at := None;
    sc_automatic_backfill := automatic_backfill; sc_cron_timezone := cron_timezone; sc_queue_name := queue_name |})).

Definition missing_field (i : nat) (field : string) : pyexn :=
  DBOSException ("Schedule entry " +:+ pretty i +:+ " is missing required field '" +:+ field +:+ "'").

(** An entry of [apply_schedules], the [i]th. *)
Definition schedule_of_input (uuid : string) (i : nat) (entry : ClientScheduleInput) : res pyexn (string * workflow_schedules_row) :=
  match ci_schedule_name entry, ci_workflow_name entry, ci_schedule entry with
  | None, _, _ => Err (missing_field i "schedule_name")
  | Some _, None, _ => Err (missing_field i "workflow_name")
  | Some _, Some _, None => Err (missing_field i "schedule")
  | Some schedule_name, Some workflow_name, Some cron =>
      match check_cron cron (ci_cron_timezone entry), ser_serialize serializer (default PNone (ci_context entry)) with
      | Err e, _ | Ok _, Err e => Err e
      | Ok _, Ok text => Ok (uuid, {|
          sc_schedule_name := schedule_name; sc_workflow_name := workflow_name;
          sc_workflow_class_name := ci_workflow_class_name entry; sc_schedule := cron; sc_status := "ACTIVE";
          sc_context := text; sc_last_fired_at := None;
          sc_automatic_backfill := default false (ci_automatic_backfill entry);
          sc_cron_timezone := ci_cron_timezone entry; sc_queue_name := ci_queue_name entry |})
      end
  end.

Fixpoint schedules_of_inputs (uuids : nat → string) (i : nat) (entries : list ClientScheduleInput) :
    res pyexn (list (string * workflow_schedules_row)) :=
  match entries with
  | [] => Ok []
  | entry :: rest =>
      match schedule_of_input (uuids i) i entry with
      | Err e => Err e
      | Ok s => match schedules_of_inputs uuids (S i) rest with Ok l => Ok (s :: l) | Err e => Err e end
      end
  end.

Definition apply_schedules (uuids : nat → string) (schedules : list ClientScheduleInput) : dbM unit :=
  to_apply ← lift_res (schedules_of_inputs uuids 0 schedules);
  engine_begin (for_each to_apply upsert_schedule).

(** A schedule with its context, or the text that cannot be read. *)
Definition shown_schedule (s : string * workflow_schedules_row) : (string * workflow_schedules_row) * safe pyval :=
  (s, safe_deserialize_schedule_context serializer (sc_context s.2)).

Definition DBOSClient_list_schedules (status workflow_name schedule_name_prefix : option (list string)) (d : db) :
    list ((string * workflow_schedules_row) * safe pyval) :=
  shown_schedule <$> Schedules.list_schedules status workflow_name schedule_name_prefix d.

Definition DBOSClient_get_schedule (name : string) (d : db) : option ((string * workflow_schedules_row) * safe pyval) :=
  shown_schedule <$> Schedules.get_schedule name d.

Definition DBOSClient_delete_schedule (name : string) : dbM unit := engine_begin (Schedules.delete_schedule name).
Definition DBOSClient_pause_schedule (name : string) : dbM unit := engine_begin (Schedules.pause_schedule name).
Definition DBOSClient_resume_schedule (name : string) : dbM unit := engine_begin (Schedules.resume_schedule name).

(** Their executions are enqueued by the system database. *)
Definition DBOSClient_backfill_schedule (fuel : nat) (nows : nat → Z) (schedule_name : string) (start end_time : Z) :
    db → option (db * res pyexn (list string)) :=
  Schedules.backfill_schedule serializer fuel nows schedule_name start end_time.
Definition DBOSClient_trigger_schedule (time_ms now : Z) (schedule_name : string) : dbM string :=
  Schedules.trigger_schedule serializer time_ms now schedule_name.

Definition DBOSClient_list_application_versions : db → list (string * application_versions_row) := Schedules.list_application_versions.
Definition DBOSClient_get_latest_application_version : db → res pyexn (string * application_versions_row) := Schedules.get_latest_application_version.

(** [set_latest_application_version], at the clock of the client. *)
Definition set_latest_application_version (time_ms : Z) (version_name : string) : dbM unit :=
  update_application_version_timestamp version_name time_ms.

End client.

(** ** [DebouncerClient] *)

Section debouncer.
Context `{Codecs} (serializer : Serializer) (repr : string → string).

(** A turn of the loop: what others commit before its two transactions, its readings of the
    clocks, and the ID it draws. *)
Record turn := {
  tn_before : db → db;
  tn_bounce_ms : Z;
  tn_bounce_now : Z;
  tn_between : db → db;
  tn_now_ms : Z;
  tn_enqueue_ms : Z;
  tn_enqueue_now : Z;
  tn_uuid : string;
}.

(** [DebouncerClient.__init__] keeps the workflow's options beside its own. *)
Definition client_queue (o : DebouncerOptions) (workflow_options : EnqueueOptions) : string :=
  match nonempty (do_queue_name o) with Some name => name | None => eq_queue_name workflow_options end.

(** [delay_sec] *)
Definition client_delay (now_ms period : Z) (deadline_ms : option Z) : Z :=
  match deadline_ms with Some d => Z.min period (Z.max (d - now_ms) 0) | None => period end.

Definition client_bounce (o : DebouncerOptions) (workflow_options : EnqueueOptions) (key : string) (period : Z) (x n : string) (t : turn) :
    dbM DebounceResult :=
  engine_begin (debounce_delayed_workflow (tn_bounce_now t) (do_workflow_name o) (client_queue o workflow_options) (debounce_id o key)
                  (tn_bounce_ms t + period) x (Some n)).

(** The enqueue of a key that was free. *)
Definition client_first (o : DebouncerOptions) (workflow_options : EnqueueOptions) (key : string) (period : Z) (inputs : WorkflowInputs)
    (t : turn) : dbM string :=
  let deadline_ms := debounce_deadline o (tn_now_ms t) in
  let options := workflow_options <| eq_queue_name := client_queue o workflow_options |>
                   <| eq_deduplication_id := Some (debounce_id o key) |>
                   <| eq_delay_seconds := Some (client_delay (tn_now_ms t) period deadline_ms) |> in
  _enqueue_debounced serializer repr (tn_enqueue_now t) (tn_uuid t) (tn_enqueue_ms t) options deadline_ms inputs.

(** The loop of [debounce], for as many turns as it gets: [None] when they are over. *)
Fixpoint client_debounce_loop (turns : list turn) (o : DebouncerOptions) (workflow_options : EnqueueOptions) (key : string) (period : Z)
    (inputs : WorkflowInputs) (d : db) : db * option (res pyexn string) :=
  match turns with
  | [] => (d, None)
  | t :: turns' =>
      match serialize_args inputs (eq_serialization_type workflow_options) serializer with
      | Err e => (tn_before t d, Some (Err e))
      | Ok (x, n) =>
          match client_bounce o workflow_options key period x n t (tn_before t d) with
          | (d, Err e) => (d, Some (Err e))
          | (d, Ok result) =>
              match classify_bounce result (do_workflow_name o) with
              | BounceReturn => (d, Some (Ok (default "" (bounced_workflow_id result))))
              | BounceRaise =>
                  (d, Some (Err (DBOSQueueDeduplicatedError (default "" (holder_workflow_id result)) (client_queue o workflow_options)
                                   (debounce_id o key))))
              | BounceRetry => client_debounce_loop turns' o workflow_options key period inputs d
              | BounceEnqueue =>
                  match client_first o workflow_options key period inputs t (tn_between t d) with
                  | (d, Err (DBOSQueueDeduplicatedError _ _ _)) => client_debounce_loop turns' o workflow_options key period inputs d
                  | (d, r) => (d, Some r)
                  end
              end
          end
      end
  end.

Definition client_debounce (turns : list turn) (o : DebouncerOptions) (workflow_options : EnqueueOptions) (key : string) (period : Z)
    (inputs : WorkflowInputs) (d : db) : db * option (res pyexn string) :=
  match reject_conflicting_options (bool_decide (is_Some (eq_deduplication_id workflow_options)))
          (bool_decide (is_Some (eq_delay_seconds workflow_options))) (bool_decide (is_Some (eq_priority workflow_options)))
          (bool_decide (is_Some (eq_queue_partition_key workflow_options))) with
  | Err e => (d, Some (Err e))
  | Ok _ => client_debounce_loop turns o workflow_options key period inputs d
  end.
End debouncer.

(** ** Calls in a transaction of the caller *)

(** A call of [enqueue] or of [send_bulk], with the clocks and IDs it takes. *)
Inductive client_call :=
| CallEnqueue (now : Z) (uuid : string) (time_ms : Z) (options : EnqueueOptions) (inputs : WorkflowInputs)
| CallSend (created : Z) (uuids : nat → string) (start_time completed_ms : Z) (messages : list SendMessage)
    (serialization_type : option WorkflowSerializationFormat) (send_to_forks : bool).

Section calls.
Context `{Codecs} (serializer : Serializer) (repr : string → string).

Definition on_its_own (c : client_call) : dbM string :=
  match c with
  | CallEnqueue now uuid time_ms options inputs => DBOSClient_enqueue serializer repr now uuid time_ms options inputs
  | CallSend created uuids start_time completed_ms messages t forks =>
      _ ← DBOSClient_send_bulk serializer created uuids start_time completed_ms messages t forks; mret ""
  end.

Definition in_transaction (c : client_call) : txn string :=
  match c with
  | CallEnqueue now uuid time_ms options inputs => enqueue_in_transaction serializer repr now uuid time_ms options inputs
  | CallSend created uuids start_time completed_ms messages t forks =>
      _ ← send_bulk_in_transaction serializer created uuids start_time completed_ms messages t forks; mret ""
  end.

(** One after the other, until one raises. *)
Fixpoint calls_in_turn {S} (run : client_call → SM S pyexn string) (calls : list client_call) : SM S pyexn (list string) :=
  match calls with
  | [] => mret []
  | c :: calls' => id ← run c; ids ← calls_in_turn run calls'; mret (id :: ids)
  end.
End calls.

(** ** Lemmas: transactions of the caller *)

(** It works on the connection's own snapshot, and commits nothing. *)
Definition uncommitted {A} (m : txn A) : Prop :=
  ∃ f : db → db * res pyexn A, ∀ a b, m (Conn a b) = (Conn a (f b).1, (f b).2).

Lemma uncommitted_lift_res {A} (r : res pyexn A) : uncommitted (lift_res r).
Proof. by exists (λ d, (d, r)). Qed.

Lemma uncommitted_ret {A} (a : A) : uncommitted (mret a).
Proof. by exists (λ d, (d, Ok a)). Qed.

Lemma uncommitted_raise {A} e : uncommitted (raise (A:=A) e).
Proof. by exists (λ d, (d, Err e)). Qed.

Lemma uncommitted_query {A} (f : db → A) : uncommitted (query f).
Proof. by exists (λ d, (d, Ok (f d))). Qed.

Lemma uncommitted_execute_res {A} (f : db → res pyexn (db * A)) : uncommitted (execute_res f).
Proof.
  exists (λ d, match f d with Ok (d', a) => (d', Ok a) | Err e => (d, Err e) end). intros a b. unfold execute_res. simpl.
  by destruct (f b) as [[]|].
Qed.

Lemma uncommitted_bind {A B} (m : txn A) (k : A → txn B) : uncommitted m → (∀ a, uncommitted (k a)) → uncommitted (m ≫= k).
Proof.
  intros [f Hf] Hk. exists (λ d, match (f d).2 with
    | Ok a => ((current (k a (Conn d (f d).1)).1), (k a (Conn d (f d).1)).2)
    | Err e => ((f d).1, Err e) end).
  intros a b. unfold mbind, SM_bind. rewrite Hf. destruct ((f b).2) as [x|e]; [|done]. destruct (Hk x) as [g Hg]. by rewrite !Hg.
Qed.

Lemma uncommitted_try {A} (m : txn A) h : uncommitted m → (∀ e k, h e = Some k → uncommitted k) → uncommitted (try_except m h).
Proof.
  intros [f Hf] Hk. exists (λ d, match (f d).2 with
    | Ok a => f d
    | Err e => match h e with
               | Some k => (current (k (Conn d (f d).1)).1, (k (Conn d (f d).1)).2)
               | None => f d
               end
    end).
  intros a b. unfold try_except. rewrite Hf. destruct (f b) as [d [x|e]]; [done|]. simpl.
  destruct (h e) as [k|] eqn:He; [|done]. destruct (Hk e k He) as [g Hg]. by rewrite !Hg.
Qed.

(** Without a limit on its recoveries, a submission never comes to the commit. *)
Lemma uncommitted_insert now status xid b1 b2 : uncommitted (insert_workflow_status now status None xid b1 b2).
Proof.
  unfold insert_workflow_status. apply uncommitted_bind.
  - apply uncommitted_try; [apply uncommitted_execute_res|]. intros e k [= <-]. apply uncommitted_raise.
  - intros row. destruct (conflict_message row status); [apply uncommitted_raise|].
    assert (exceeds_attempts row None xid = Ok false) as -> by (unfold exceeds_attempts; by destruct (not_complete _)).
    exists (λ d, (d, Ok {| ir_status := ws_status row; ir_deadline := ws_workflow_deadline_epoch_ms row;
      ir_should_execute := negb (bool_decide (xid ≠ ws_owner_xid row) && negb b2 && negb b1); ir_serialization := ws_serialization row |})).
    by intros a b.
Qed.

Lemma uncommitted_send `{Codecs} serializer created uuids start completed messages t name forks :
  uncommitted (send_bulk_txn None serializer created uuids start completed messages t None name forks).
Proof.
  unfold send_bulk_txn. destruct (negb _); [apply uncommitted_raise|]. apply uncommitted_bind; [apply uncommitted_lift_res|]. intros prepared.
  apply uncommitted_bind; [apply uncommitted_ret|]. intros [o|]; [apply uncommitted_ret|].
  apply uncommitted_bind; [apply uncommitted_query|]. intros f. apply uncommitted_bind; [|intros _; apply uncommitted_ret].
  apply uncommitted_try; [apply uncommitted_execute_res|]. intros [] k Hk; try discriminate. injection Hk as <-. apply uncommitted_raise.
Qed.

(** The connection, and the transaction that is the call's own. *)
Lemma uncommitted_engine_begin {A} (m : txn A) a b :
  uncommitted m →
  committed (m (Conn a b)).1 = a ∧
  match m (Conn a b) with
  | (c, Ok x) => engine_begin m b = (current c, Ok x)
  | (_, Err e) => engine_begin m b = (b, Err e)
  end.
Proof. intros [f Hf]. unfold engine_begin. rewrite !Hf. split; [done|]. by destruct ((f b).2). Qed.

Section transactions.
Context `{Codecs} (serializer : Serializer) (repr : string → string).
Notation in_transaction := (in_transaction serializer repr).
Notation on_its_own := (on_its_own serializer repr).

Lemma uncommitted_call c : uncommitted (in_transaction c).
Proof.
  destruct c; simpl.
  - unfold enqueue_in_transaction, _enqueue_with_connection. apply uncommitted_bind; [apply uncommitted_lift_res|]. intros [workflow_id status].
    apply uncommitted_bind; [apply uncommitted_insert|]. intros _. apply uncommitted_ret.
  - apply uncommitted_bind; [apply uncommitted_send|]. intros _. apply uncommitted_ret.
Qed.

Lemma call_alone c d : on_its_own c d = engine_begin (in_transaction c) d.
Proof.
  destruct c as [now uuid time_ms options inputs|created uuids start completed messages t forks]; simpl.
  - unfold DBOSClient_enqueue, _enqueue, enqueue_in_transaction, _enqueue_with_connection, engine_begin, mbind, SM_bind, lift_res.
    destruct (build_enqueue_status serializer repr uuid time_ms options inputs) as [[workflow_id status]|]; [|done].
    unfold Workflows.init_workflow, engine_begin, init_workflow_with_connection. by destruct (insert_workflow_status _ _ _ _ _ _ _) as [c []].
  - unfold engine_begin, mbind, SM_bind, DBOSClient_send_bulk, send_bulk_in_transaction, send_bulk_with_connection, Messages.send_bulk, engine_begin.
    by destruct (send_bulk_txn _ _ _ _ _ _ _ _ _ _ _ _) as [c []].
Qed.

(** C23: calls of a client in a transaction of its caller are atomic. Enqueues and sends that are made in one transaction commit
    nothing before the caller does, so that a rollback undoes all of them; when the caller commits, they have made
    of the database what the same calls make of it one after the other, each in a transaction of its own, with the same
    answers; and the first of them that raises is the one that raises there. *)
Theorem client_transaction_atomic calls d :
  let '(c, r) := calls_in_turn in_transaction calls (Conn d d) in
  committed c = d ∧
  match r with
  | Ok ids => calls_in_turn on_its_own calls d = (current c, Ok ids)
  | Err e => (calls_in_turn on_its_own calls d).2 = Err e
  end.
Proof.
  enough (∀ a b, let '(c, r) := calls_in_turn in_transaction calls (Conn a b) in
    committed c = a ∧ match r with
                      | Ok ids => calls_in_turn on_its_own calls b = (current c, Ok ids)
                      | Err e => (calls_in_turn on_its_own calls b).2 = Err e
                      end) as Hall by apply Hall.
  induction calls as [|c calls IH]; intros a b; [done|]. cbn [calls_in_turn]. unfold mbind, SM_bind. rewrite call_alone.
  destruct (uncommitted_engine_begin (in_transaction c) a b (uncommitted_call c)) as [Hc Hr].
  destruct (in_transaction c (Conn a b)) as [[a1 b1] [id|e]]; simpl in Hc; subst a1; rewrite Hr; [|done].
  specialize (IH a b1). destruct (calls_in_turn in_transaction calls (Conn a b1)) as [c2 [ids|e]]; destruct IH as [Hc2 Hr2]; simpl in *.
  - split; [done|]. by rewrite Hr2.
  - split; [done|]. destruct (calls_in_turn on_its_own calls b1) as [d2 [ids|e2]]; [done|]. simpl in *. by injection Hr2 as ->.
Qed.
End transactions.

(** ** Lemmas: debounces of clients *)

(** The submission of a workflow whose key is taken. *)
Lemma init_taken now status m xid d q i :
  workflow_status d !! wi_workflow_uuid status = None → wi_queue_name status = Some q → wi_deduplication_id status = Some i →
  dedup_taken (workflow_status d) (Some q) (Some i) = true →
  Workflows.init_workflow now status m xid false false d = (d, Err (DBOSQueueDeduplicatedError (wi_workflow_uuid status) q i)).
Proof.
  intros Hnew Hq Hi Ht. unfold Workflows.init_workflow, insert_workflow_status. run_txn. unfold upsert_workflow_row, insert_workflow_row.
  rewrite Hnew. change (ws_queue_name (inserted_row now status xid)) with (wi_queue_name status).
  change (ws_deduplication_id (inserted_row now status xid)) with (wi_deduplication_id status). rewrite Hq, Hi, Ht.
  cbn [fst snd committed current dedup_conflict]. by rewrite Hq, Hi.
Qed.

Section client_debounces.
Context `{Codecs} (serializer : Serializer) (repr : string → string).
Context (o : DebouncerOptions) (options : EnqueueOptions) (key : string) (period : Z) (inputs : WorkflowInputs).
Notation queue := (client_queue o options).
Notation dedup := (debounce_id o key).
Notation debounce := (client_debounce serializer repr).
Notation debounce_loop := (client_debounce_loop serializer repr).

(** Options that a client may debounce with. *)
Record debounceable : Prop := {
  db_name : eq_workflow_name options = do_workflow_name o;
  db_free : eq_deduplication_id options = None ∧ eq_delay_seconds options = None ∧ eq_priority options = None ∧
    eq_queue_partition_key options = None;
  db_valid : validate_enqueue_options repr options = Ok tt;
  db_attributes : is_ok (attributes_text (eq_attributes options)) = true;
}.

Definition new_id (t : turn) : string := default (tn_uuid t) (eq_workflow_id options).

(** The row holds the key. *)
Definition holds_key (r : workflow_status_row) : Prop := ws_queue_name r = Some queue ∧ ws_deduplication_id r = Some dedup.

(** It waits, debounced, with the inputs [x]. *)
Definition debounced_row (x : string * string) (r : workflow_status_row) : Prop :=
  holds_key r ∧ ws_status r = DELAYED ∧ ws_name r = Some (do_workflow_name o) ∧ ws_is_debounced r = true ∧
  ws_inputs r = Some x.1 ∧ ws_serialization r = Some x.2.

(** It is delayed by the turn [t]: the one that found it, or the one that made it. *)
Definition delayed_by (t : turn) (id : string) (r : workflow_status_row) : Prop :=
  ws_delay_until_epoch_ms r = Some (first_delay (tn_bounce_ms t) period (ws_debounce_deadline_epoch_ms r)) ∨
  (id = new_id t ∧ ws_debounce_deadline_epoch_ms r = debounce_deadline o (tn_now_ms t) ∧
   ws_delay_until_epoch_ms r = Some (tn_enqueue_ms t + client_delay (tn_now_ms t) period (ws_debounce_deadline_epoch_ms r))%Z).

(** The turn was lost to others: they took the key between its two transactions, or the
    debounced workflow of the key had it and did not wait any more. *)
Definition lost_turn (t : turn) : Prop := ∃ d,
  (dedup_taken (workflow_status d) (Some queue) (Some dedup) = false ∧
   dedup_taken (workflow_status (tn_between t d)) (Some queue) (Some dedup) = true) ∨
  ∃ id r, workflow_status d !! id = Some r ∧ holds_key r ∧ ws_is_debounced r = true ∧ ws_status r ≠ DELAYED.

(** The keys are unique, and the IDs of the turns are free. *)
Definition ready_for (turns : list turn) (d : db) : Prop :=
  dedup_unique (workflow_status d) ∧ Forall (λ t, workflow_status d !! new_id t = None) turns.

Lemma bounce_cases t x d :
  dedup_unique (workflow_status d) →
  (∃ id r, workflow_status d !! id = Some r ∧ debounce_match (do_workflow_name o) queue dedup r = true ∧
     client_bounce o options key period x.1 x.2 t d =
       (d <| workflow_status := <[id := bounced_row (tn_bounce_now t) (tn_bounce_ms t + period) x.1 (Some x.2) r]> (workflow_status d) |>,
        Ok {| bounced_workflow_id := Some id; holder_workflow_id := None; holder_is_debounced := false; holder_workflow_name := None |})) ∨
  (dedup_taken (workflow_status d) (Some queue) (Some dedup) = false ∧
   client_bounce o options key period x.1 x.2 t d =
     (d, Ok {| bounced_workflow_id := None; holder_workflow_id := None; holder_is_debounced := false; holder_workflow_name := None |})) ∨
  ∃ id r, workflow_status d !! id = Some r ∧ holds_key r ∧ debounce_match (do_workflow_name o) queue dedup r = false ∧
    client_bounce o options key period x.1 x.2 t d =
      (d, Ok {| bounced_workflow_id := None; holder_workflow_id := Some id; holder_is_debounced := ws_is_debounced r;
                holder_workflow_name := ws_name r |}).
Proof.
  intros Hu. unfold client_bounce, engine_begin.
  destruct (dedup_taken (workflow_status d) (Some queue) (Some dedup)) eqn:Ht.
  2: { right; left. split; [done|]. by rewrite (bounce_free _ _ _ _ _ _ _ (Conn d d) Ht). }
  unfold dedup_taken in Ht. rewrite bool_decide_eq_true in Ht.
  destruct (sql_select _ _) as [|[id r] l] eqn:Hsel; [done|].
  assert ((id, r) ∈ (id, r) :: l) as Hin by left. rewrite <- Hsel in Hin. apply elem_of_sql_select in Hin as [Hr Hk].
  unfold sql_eq in Hk. rewrite andb_true_iff, !bool_decide_eq_true in Hk. destruct Hk as [Hq Hi].
  destruct (debounce_match (do_workflow_name o) queue dedup r) eqn:Hm.
  - left. exists id, r. split_and!; [done..|]. by rewrite (bounce_holder _ _ _ _ _ _ _ (Conn d d) id r Hu Hr Hm).
  - right; right. exists id, r. split_and!; [done|done|done|]. by rewrite (bounce_held _ _ _ _ _ _ _ (Conn d d) id r Hu Hr Hq Hi Hm).
Qed.

Lemma bounced_debounced t x id r :
  debounce_match (do_workflow_name o) queue dedup r = true →
  let r' := bounced_row (tn_bounce_now t) (tn_bounce_ms t + period) x.1 (Some x.2) r in
  debounced_row x r' ∧ delayed_by t id r'.
Proof.
  unfold debounce_match, sql_eq. rewrite !andb_true_iff, !bool_decide_eq_true. intros [[[[Hn Hq] Hi] Hs] Hd]. split; [by split_and!|].
  left. simpl. f_equal. unfold capped_delay, first_delay. destruct (ws_debounce_deadline_epoch_ms r) as [dl|]; [|done]. case_bool_decide; lia.
Qed.

(** The enqueue after a bounce that found the key free. *)
Lemma client_first_spec t x d :
  debounceable → serialize_args inputs (eq_serialization_type options) serializer = Ok x → workflow_status d !! new_id t = None →
  if dedup_taken (workflow_status d) (Some queue) (Some dedup)
  then client_first serializer repr o options key period inputs t d = (d, Err (DBOSQueueDeduplicatedError (new_id t) queue dedup))
  else ∃ r, client_first serializer repr o options key period inputs t d =
              (d <| workflow_status := <[new_id t := r]> (workflow_status d) |>, Ok (new_id t)) ∧
         debounced_row x r ∧ delayed_by t (new_id t) r.
Proof.
  intros [Hname (Hdd & _ & Hp & _) Hvalid Hattr] Hx Hnew. unfold client_first, _enqueue_debounced. set (options' := options <| eq_queue_name := _ |> <| _ := _ |> <| _ := _ |>).
  destruct (attributes_text (eq_attributes options)) as [attributes|] eqn:Ha; [|done]. destruct x as [x n].
  assert (∃ status, build_enqueue_status serializer repr (tn_uuid t) (tn_enqueue_ms t) options' inputs = Ok (new_id t, status) ∧
    wi_workflow_uuid status = new_id t ∧ wi_status status = DELAYED ∧ wi_name status = Some (do_workflow_name o) ∧
    wi_queue_name status = Some queue ∧ wi_deduplication_id status = Some dedup ∧ wi_inputs status = Some x ∧ wi_serialization status = Some n ∧
    wi_delay_until_epoch_ms status = Some (tn_enqueue_ms t + client_delay (tn_now_ms t) period (debounce_deadline o (tn_now_ms t)))%Z)
    as (status & Hb & Hid & Hs & Hn & Hq & Hi & Hin & Hser & Hdelay).
  { unfold build_enqueue_status. change (validate_enqueue_options repr options') with (validate_enqueue_options repr options).
    change (eq_serialization_type options') with (eq_serialization_type options). change (eq_attributes options') with (eq_attributes options).
    rewrite Hvalid, Hx, Ha. eexists. split; [reflexivity|]. simpl. by rewrite Hname. }
  unfold mbind, SM_bind, lift_res. rewrite Hb.
  destruct (dedup_taken (workflow_status d) (Some queue) (Some dedup)) eqn:Ht.
  - by rewrite (init_taken _ _ _ _ _ queue dedup); simpl; rewrite ?Hid.
  - rewrite init_undelayed; simpl; rewrite ?Hid, ?Hq, ?Hi, ?Hs; try done. eexists. split; [reflexivity|]. split; [by split_and!|right]. by split_and!.
Qed.

Lemma ready_for_kept turns d d' :
  ready_for turns d → dedup_unique (workflow_status d') →
  (∀ id, workflow_status d !! id = None → workflow_status d' !! id = None) → ready_for turns d'.
Proof. intros [_ Hf] Hu Hd. split; [done|]. eapply Forall_impl; [exact Hf|]. intros t. apply Hd. Qed.

(** The bounce keeps the keys unique. *)
Lemma bounced_unique now s x d id r :
  dedup_unique (workflow_status d) → workflow_status d !! id = Some r →
  dedup_unique (<[id := bounced_row now s x.1 (Some x.2) r]> (workflow_status d)).
Proof.
  intros Hu Hr i1 i2 r1 r2 q i H1 H2 Hq1 Hq2 Hi1 Hi2.
  assert (∀ j rj, <[id := bounced_row now s x.1 (Some x.2) r]> (workflow_status d) !! j = Some rj → ws_queue_name rj = Some q →
    ws_deduplication_id rj = Some i → ∃ rj', workflow_status d !! j = Some rj' ∧ ws_queue_name rj' = Some q ∧ ws_deduplication_id rj' = Some i) as Hback.
  { intros j rj [[<- <-]|[Hne Hj]]%lookup_insert_Some Hqj Hij; [by exists r|by exists rj]. }
  destruct (Hback _ _ H1 Hq1 Hi1) as (? & ? & ? & ?), (Hback _ _ H2 Hq2 Hi2) as (? & ? & ? & ?). by eapply Hu.
Qed.

(** What the loop comes to, from a database that is ready for its turns. *)
Definition debounced (turns : list turn) (x : string * string) (d : db) (r : option (res pyexn string)) : Prop :=
  dedup_unique (workflow_status d) ∧
  match r with
  | Some (Ok id) => ∃ t row, t ∈ turns ∧ workflow_status d !! id = Some row ∧ debounced_row x row ∧ delayed_by t id row ∧
      ∀ id' row', workflow_status d !! id' = Some row' → holds_key row' → id' = id
  | Some (Err e) => ∃ holder row, e = DBOSQueueDeduplicatedError holder queue dedup ∧ workflow_status d !! holder = Some row ∧
      holds_key row ∧ (ws_is_debounced row = false ∨ ws_name row ≠ Some (do_workflow_name o))
  | None => Forall lost_turn turns
  end.

Lemma debounced_later t turns x d r : lost_turn t → debounced turns x d r → debounced (t :: turns) x d r.
Proof.
  intros Hr [Hu Hd]. split; [done|]. destruct r as [[id|e]|]; [|done|by constructor].
  destruct Hd as (t' & row & Hin & ?). exists t', row. split; [by right|done].
Qed.

Lemma only_holder x d id row :
  dedup_unique (workflow_status d) → workflow_status d !! id = Some row → debounced_row x row →
  ∀ id' row', workflow_status d !! id' = Some row' → holds_key row' → id' = id.
Proof. intros Hu Hr [[Hq Hi] _] id' row' Hr' [Hq' Hi']. by eapply Hu. Qed.

Lemma debounce_loop_spec turns x d :
  debounceable → serialize_args inputs (eq_serialization_type options) serializer = Ok x →
  ready_for turns d → Forall (λ t, ∀ d, ready_for turns d → ready_for turns (tn_before t d) ∧ ready_for turns (tn_between t d)) turns →
  let '(d', r) := debounce_loop turns o options key period inputs d in debounced turns x d' r.
Proof.
  intros Hdb Hx. enough (∀ all, Forall (λ t, t ∈ all) turns → ready_for all d →
    Forall (λ t, ∀ d, ready_for all d → ready_for all (tn_before t d) ∧ ready_for all (tn_between t d)) turns →
    let '(d', r) := debounce_loop turns o options key period inputs d in debounced turns x d' r) as Hall.
  { intros Hd Hothers. apply (Hall turns); [|done..]. by apply Forall_forall. }
  intros all. revert d. induction turns as [|t turns IH]; intros d Hin Hd Hothers; [by split; [apply Hd|]|].
  apply Forall_cons in Hin as [Ht Hin]. apply Forall_cons in Hothers as [Hothers Hrest]. cbn [client_debounce_loop]. rewrite Hx.
  destruct x as [x n]. destruct (Hothers d Hd) as [Hd1 _]. set (d1 := tn_before t d) in *. clearbody d1.
  assert (∀ d2, lost_turn t → ready_for all d2 → let '(d', r) := debounce_loop turns o options key period inputs d2 in debounced (t :: turns) (x, n) d' r) as Hlater.
  { intros d2 Hraced Hd2. specialize (IH d2 Hin Hd2 Hrest). destruct (debounce_loop turns o options key period inputs d2) as [d' r]. by apply debounced_later. }
  destruct (bounce_cases t (x, n) d1 (proj1 Hd1)) as [(id & r & Hr & Hm & Hb)|[(Hfree & Hb)|(id & r & Hr & Hk & Hm & Hb)]];
    change (x, n).1 with x in Hb; change (x, n).2 with n in Hb; rewrite Hb; cbn [classify_bounce bounced_workflow_id holder_workflow_id holder_is_debounced holder_workflow_name].
  - destruct (bounced_debounced t (x, n) id r Hm) as [Hrow Hdelay].
    pose proof (bounced_unique (tn_bounce_now t) (tn_bounce_ms t + period) (x, n) d1 id r (proj1 Hd1) Hr) as Hu. split; [exact Hu|].
    eexists t, _. split; [left|]. split; [apply lookup_insert_eq|]. split; [exact Hrow|]. split; [exact Hdelay|].
    eapply only_holder; [exact Hu|apply lookup_insert_eq|exact Hrow].
  - destruct (Hothers d1 Hd1) as [_ Hd2]. set (d2 := tn_between t d1) in *.
    assert (workflow_status d2 !! new_id t = None) as Hnew by (by apply (proj1 (Forall_forall _ _) (proj2 Hd2))).
    pose proof (client_first_spec t (x, n) d2 Hdb Hx Hnew) as Hfirst.
    destruct (dedup_taken (workflow_status d2) _ _) eqn:Htaken.
    + rewrite Hfirst. apply Hlater; [|done]. exists d1. by left.
    + destruct Hfirst as (r & Hf & Hrow & Hdelay). rewrite Hf.
      assert (dedup_unique (<[new_id t := r]> (workflow_status d2))) as Hu.
      { destruct Hrow as [[Hq Hi] _]. apply dedup_unique_insert; [apply Hd2|done|by rewrite Hq, Hi]. }
      split; [exact Hu|]. eexists t, _. split; [left|]. split; [apply lookup_insert_eq|]. split; [exact Hrow|]. split; [exact Hdelay|].
      eapply only_holder; [exact Hu|apply lookup_insert_eq|exact Hrow].
  - destruct (ws_is_debounced r) eqn:Hdeb; cbn [negb].
    2: { split; [apply Hd1|]. exists id, r. split_and!; [done|done|apply Hk..|by left]. }
    case_bool_decide as Hname; cbn [default].
    { split; [apply Hd1|]. exists id, r. split_and!; [done|done|apply Hk..|by right]. }
    apply Hlater; [|done]. exists d1. right. exists id, r. split_and!; [done|apply Hk..|done|]. intros Hs.
    destruct Hk as [Hq Hi]. unfold debounce_match, sql_eq in Hm. by rewrite Hname, Hq, Hi, Hs, Hdeb, !bool_decide_eq_true_2 in Hm.
Qed.

(** C21: a client's debounce joins the one workflow of its key. Whatever others commit before, between and after its transactions,
    as long as keys stay unique and the IDs it draws are its own: when it returns, the workflow of its handle waits on the queue
    as the only one of the key, debounced, with the inputs of this call, and is delayed until the period
    after the call, but not beyond the deadline of a workflow that it found; it raises only when the key is another function's
    or is no debounce key; and it goes round again only when the key was taken between its two transactions, or when the
    debounced workflow of the key does not wait any more. *)
Theorem client_debounce_joins turns x d :
  debounceable → serialize_args inputs (eq_serialization_type options) serializer = Ok x →
  ready_for turns d → Forall (λ t, ∀ d, ready_for turns d → ready_for turns (tn_before t d) ∧ ready_for turns (tn_between t d)) turns →
  let '(d', r) := debounce turns o options key period inputs d in debounced turns x d' r.
Proof.
  intros Hdb Hx Hd Hothers. pose proof (db_free Hdb) as (Hi & Hs & Hp & Hk). unfold client_debounce. rewrite Hi, Hs, Hp, Hk.
  by apply debounce_loop_spec.
Qed.
End client_debounces.

(** ** Streams and schedules *)

(** A client reads a stream as the application does, as long as the workflow is there. *)
Lemma read_stream_agrees `{Codecs} serializer fuel world workflow_id key offset final_read :
  (∀ i, is_Some (workflow_status (world i) !! workflow_id)) →
  DBOSClient_read_stream serializer fuel world workflow_id key offset final_read = stream_reader serializer fuel world workflow_id key offset final_read.
Proof.
  revert world offset final_read. induction fuel as [|fuel IH]; intros world offset final_read Hthere; [done|]. cbn [DBOSClient_read_stream stream_reader].
  destruct (Streams.read_stream _ _ _ _ _) as [v|e].
  - destruct (is_closed v); [done|]. by rewrite IH.
  - destruct e; try done. destruct final_read; [done|]. destruct (Hthere 1) as [r Hr]. unfold get_workflow_status. rewrite Hr. simpl. by apply IH.
Qed.

Section schedules.
Context `{Codecs, Cron} (serializer : Serializer) (is_valid : string → bool).
Notation apply_schedules := (apply_schedules serializer is_valid).

Lemma schedules_of_inputs_valid uuids i entries l :
  schedules_of_inputs serializer is_valid uuids i entries = Ok l →
  sc_schedule_name ∘ snd <$> l = omap ci_schedule_name entries ∧
  Forall (λ s, is_valid (sc_schedule s.2) = true ∧ sc_status s.2 = "ACTIVE") l.
Proof.
  revert i l. induction entries as [|entry entries IH]; intros i l; cbn [schedules_of_inputs]; [intros [= <-]; by split|].
  unfold schedule_of_input. destruct (ci_schedule_name entry) as [name|] eqn:Hname; [|done]. destruct (ci_workflow_name entry) as [w|]; [|done].
  destruct (ci_schedule entry) as [cron|]; [|done]. destruct (check_cron is_valid cron (ci_cron_timezone entry)) as [[]|] eqn:Hcron; [|done].
  destruct (ser_serialize serializer _) as [text|]; [|done]. destruct (schedules_of_inputs _ _ _ _ _) as [l'|] eqn:Hl; [|done]. intros [= <-].
  destruct (IH _ _ Hl) as [Hn Hv]. split; [cbn; rewrite Hname; by f_equal|]. constructor; [|done]. split; [|done]. simpl.
  unfold check_cron in Hcron. by destruct (is_valid cron).
Qed.

(** An invalid entry, wherever it is in the list, leaves every schedule as it was. *)
Lemma apply_schedules_atomic uuids entries d d' e : apply_schedules uuids entries d = (d', Err e) → d' = d.
Proof.
  unfold Client.apply_schedules, mbind, SM_bind, lift_res. destruct (schedules_of_inputs _ _ _ _ _) as [l|e']; [|by intros [= <- _]].
  assert (∀ l a b, committed (for_each l upsert_schedule (Conn a b)).1 = a) as Hc.
  { clear. induction l as [|s l IH]; intros a b; [done|]. cbn [for_each]. unfold mbind, SM_bind, upsert_schedule, execute_res. cbn [current committed].
    destruct (match schedule_named _ _ with Some _ => _ | None => _ end) as [[d []]|e]; [apply IH|done]. }
  unfold engine_begin. specialize (Hc l d d). destruct (for_each l upsert_schedule (Conn d d)) as [c [[]|e']]; [done|]. simpl in Hc. subst d.
  by intros [= <- _].
Qed.
End schedules.

(** ** A workflow that a client enqueues, and the processes that run it *)

Section enqueued.
Context {W : Type} `{Host W, Codecs} (serializer : Serializer) (repr : string → string).
Context (app_version : string) (reg : registry (W:=W)) (queue : Queue).
Notation workflow_info := (@workflow_info W).

(** The function that the options name, as the application of the queue has it. *)
Record names_function (options : EnqueueOptions) (info : workflow_info) (inputs : WorkflowInputs) (roles : option (list string)) : Prop := {
  nf_name : eq_workflow_name options = wf_name info ∧ workflow_info_map reg (wf_name info) = Some info;
  nf_class : eq_class_name options = None ∧ wf_class_name info = None;
  nf_config : eq_instance_name options = None ∧ wf_config_name info = None;
  nf_queue : eq_queue_name options = q_name queue;
  nf_version : eq_app_version options = Some app_version;
  nf_now : eq_delay_seconds options = None ∧ eq_workflow_timeout options = None;
  nf_valid : validate_enqueue_options repr options = Ok tt ∧ is_ok (attributes_text (eq_attributes options)) = true;
  nf_validate : wf_validate_args info = None;
  nf_roles : load_roles (dump_roles (eq_authenticated_roles options)) = Ok roles;
  nf_open : wf_class_roles info = None ∧ wf_required_roles info = None;
  nf_again : is_ok (serialize_args inputs (Some (default DEFAULT (wf_serialization_type info))) serializer) = true;
}.

(** The recoveries that a fresh workflow has. *)
Definition may_recover (info : workflow_info) (k : nat) : Prop :=
  match wf_max_recovery_attempts info with None => True | Some m => (Z.of_nat k ≤ m + 1)%Z end.
End enqueued.

Section enqueued_lemmas.
Context {W : Type} `{Host W, Codecs, !CodecLaws} (serializer : Serializer) (repr : string → string).
Context (app_version : string) (reg : registry (W:=W)) (queue : Queue).
Hypothesis honest : honest_name serializer.
Hypothesis reads_back : round_trips serializer.

(** The row of the enqueue: it can be executed. *)
Lemma enqueue_executable now uuid time_ms options info inputs roles x n d :
  let wid := default uuid (eq_workflow_id options) in
  names_function serializer repr app_version reg queue options info inputs roles →
  serialize_args inputs (eq_serialization_type options) serializer = Ok (x, n) → n ≠ ser_name DBOSPortableJSON →
  is_blank wid = false → workflow_status d !! wid = None →
  dedup_taken (workflow_status d) (Some (q_name queue)) (eq_deduplication_id options) = false →
  ∃ row, DBOSClient_enqueue serializer repr now uuid time_ms options inputs d = (d <| workflow_status := <[wid := row]> (workflow_status d) |>, Ok wid) ∧
    executable serializer reg wid row info inputs roles ∧ ws_serialization row = Some n ∧ ws_status row = ENQUEUED ∧
    in_queue app_version queue row ∧ ∀ k, may_recover info k → attempts_left row info k.
Proof.
  intros wid [[Hname Hreg] [Hc1 Hc2] [Hf1 Hf2] Hq Hv [Hdelay Htimeout] [Hvalid Hattr] Hval Hroles Hopen Hagain] Hx Hn Hblank Hnew Hfree.
  destruct (attributes_text (eq_attributes options)) as [attributes|] eqn:Ha; [|done].
  assert (∃ status, build_enqueue_status serializer repr uuid time_ms options inputs = Ok (wid, status) ∧ wi_workflow_uuid status = wid ∧
    wi_status status = ENQUEUED ∧ wi_queue_name status = Some (q_name queue) ∧ wi_deduplication_id status = eq_deduplication_id options ∧
    let row := inserted_row now status None in
    executable serializer reg wid row info inputs roles ∧ ws_serialization row = Some n ∧ ws_status row = ENQUEUED ∧
    in_queue app_version queue row ∧ ws_recovery_attempts row = Some 0%Z)
    as (status & Hb & Hid & Hs & Hqs & Hi & Hex & Hser & Hst & Hin & Hatt).
  { unfold build_enqueue_status. rewrite Hvalid, Hx, Ha, Hdelay. eexists. split; [reflexivity|].
    split; [done|]. split; [done|]. split; [by simpl; rewrite Hq|]. split; [done|]. cbv zeta. split; [|split; [done|]; split; [done|]; split; [|done]; unfold in_queue; simpl; split_and!; congruence].
    split; simpl; try done.
    - split; [congruence|done].
    - exists x. split; [done|]. destruct (inputs_round_trip serializer honest reads_back inputs _ x n Hx) as (i' & Hi & Hsame & _).
      by rewrite Hi, Hsame.
    - by exists n. }
  exists (inserted_row now status None). split; [|split_and!; try done].
  - unfold DBOSClient_enqueue, _enqueue, mbind, SM_bind, lift_res. rewrite Hb, init_undelayed; rewrite ?Hid, ?Hs, ?Hqs, ?Hi; done.
  - intros k. unfold may_recover, attempts_left. rewrite Hatt. destruct (wf_max_recovery_attempts info); [lia|done].
Qed.
End enqueued_lemmas.

(** C22: what a client enqueues is run. A client that has none of the application's code enqueues a workflow by the name of a
    durable function, that of no class and open to all roles, without delay or timeout, with the version of the application and a
    queue of it that is not partitioned and has no limits: it gets a handle, and through any number of processes that
    the recovery budget allows, each lost at any point, while the database answers and nobody else holds or changes the row, the workflow comes to its end, with the inputs the client gave; then the handle has the result, and the world is as a
    single run of the function leaves it, but for the parts of calls that were lost; unless an execution raises what is no [Exception]. *)
Theorem client_enqueue_runs {W} `{Host W, Codecs, !CodecLaws} (serializer : Serializer) (repr : string → string) (executor_id : string)
    (others : W → W → Prop) `{!PreOrder others} polls app_id app_version reg wait locked outage uuids xids jitters queue0 queue
    now uuid time_ms options info inputs roles x n s0 :
  let wid := default uuid (eq_workflow_id options) in
  honest_name serializer → round_trips serializer → steady others wait locked outage queue wid →
  names_function serializer repr app_version reg queue options info inputs roles →
  serialize_args inputs (eq_serialization_type options) serializer = Ok (x, n) → n ≠ ser_name DBOSPortableJSON →
  durable_workflow serializer executor_id (Some n) (wf_func info inputs) →
  is_blank wid = false → m_active s0 !! wid = None → configured queue0 queue (m_db s0) →
  workflow_status (m_db s0) !! wid = None → (∀ fid, operation_outputs (m_db s0) !! (wid, fid) = None) →
  dedup_taken (workflow_status (m_db s0)) (Some (q_name queue)) (eq_deduplication_id options) = false →
  let '(d, r) := DBOSClient_enqueue serializer repr now uuid time_ms options inputs (m_db s0) in
  r = Ok wid ∧
  ∀ k s, may_recover info (S k) →
    lives serializer executor_id others polls app_id app_version reg wait locked outage uuids xids jitters queue0 queue wid k
      (s0 <| m_db := d |>) s →
    ∃ s' res, finish (life serializer executor_id polls app_id app_version reg wait locked outage uuids xids jitters queue0 wid k) s = (s', Some res) ∧
      ((∃ wk r ctx0 ctx w1, res = Ok (Some wk) ∧ cx_workflow_id ctx0 = wid ∧
          client_get_result serializer 1 (λ _, m_db s') wid = Some r ∧ others (m_world s0) w1 ∧
          spec serializer executor_id others k (ctx0, wf_func info inputs, w1) (ctx, WReturn r, m_world s')) ∨
       interrupted serializer executor_id polls app_id app_version reg res).
Proof.
  intros wid Hhon Hrb Hst Hnf Hx Hn Hdur Hblank Ha Hq Hnew Hfresh Hfree.
  destruct (enqueue_executable serializer repr app_version reg queue Hhon Hrb now uuid time_ms options info inputs roles x n (m_db s0) Hnf Hx Hn Hblank Hnew Hfree)
    as (row & He & Hex & Hser & Hs & Hin & Hatt).
  rewrite He. split; [done|]. intros k s Hbudget Hl. rewrite <- Hser in Hdur. fold wid in Hl, Hex. set (s1 := s0 <| m_db := _ |>) in Hl.
  assert (workflow_status (m_db s1) !! wid = Some row) as Hrow by (simpl; apply lookup_insert_eq).
  destruct (lives_end serializer executor_id others polls app_id app_version reg wait locked outage uuids xids jitters queue0 queue wid Hhon Hrb Hst
    row info inputs roles (m_world s0) Hex Hdur k s1 s eq_refl Ha Hq Hrow Hs Hin
    (λ fid _, Hfresh fid) (Hatt _ Hbudget) Hl) as (s' & res & Hf & Hend).
  exists s', res. split; [exact Hf|]. destruct Hend as [(wk & r & ctx & w1 & Hres & Hch & Hw1 & Hsp)|?]; [left|by right].
  eexists wk, r, _, ctx, w1. split; [done|]. split; [|split; [|by split]]; [done|].
  unfold client_get_result. cbn [await_workflow_result]. rewrite Hch. by destruct r.
Qed.

(** ** A workflow that a client enqueues without a partition key on a partitioned queue *)

Lemma build_enqueue_status_Ok `{Codecs} serializer repr uuid time_ms options inputs wid status :
  build_enqueue_status serializer repr uuid time_ms options inputs = Ok (wid, status) →
  wi_workflow_uuid status = wid ∧ wi_queue_name status = Some (eq_queue_name options) ∧
  wi_deduplication_id status = eq_deduplication_id options ∧ wi_queue_partition_key status = eq_queue_partition_key options ∧
  wi_status status = match eq_delay_seconds options with Some _ => DELAYED | None => ENQUEUED end.
Proof.
  unfold build_enqueue_status. destruct (validate_enqueue_options _ _) as [_|]; [|done].
  destruct (serialize_args _ _ _) as [[serval serialization]|]; [|done]. destruct (attributes_text _); [|done].
  intros [= <- <-]. split_and!; try done. simpl. by destruct (eq_delay_seconds options).
Qed.

Section partitioned.
Context {W : Type} `{Host W, Codecs} (serializer : Serializer) (executor_id : string).
Context (polls : nat) (app_id app_version : string) (reg : registry (W:=W)).
Context (wait : Q → machine (W:=W) → machine (W:=W)) (locked : machine (W:=W) → gset string)
  (outage : machine (W:=W) → option pyexn).
Context (queue : Queue) (wid : string) (row : workflow_status_row).
Hypothesis partitioned : q_partition_queue queue = true.
Hypothesis no_key : ws_queue_partition_key row = None.
Notation machine := (@machine W).
Notation serve_partitions := (serve_partitions serializer executor_id polls app_id app_version reg locked outage).
Notation worker_round := (worker_round serializer executor_id polls app_id app_version reg wait locked outage).
Notation worker_rounds := (worker_rounds serializer executor_id polls app_id app_version reg wait locked outage).

(** It still waits, and the queue is as it was. *)
Definition still_waits (s : machine) : Prop := workflow_status (m_db s) !! wid = Some row ∧ configured queue queue (m_db s).

Hypothesis waits : ∀ t s, still_waits s → still_waits (wait t s).

Lemma still_waits_left (s s' : machine) : leaves (λ i, i = wid) s s' → still_waits s → still_waits s'.
Proof. intros (_ & _ & _ & Hq & Hr) [Hrow Hc]. split; [by rewrite Hr|by eapply configured_kept]. Qed.

Lemma partitions_frame us xs keys (s : machine) :
  still_waits s →
  ∃ s' hs r, finish (serve_partitions us xs queue keys) s = (s', Some (Ok (hs, r))) ∧ still_waits s' ∧ wid ∉ wh_workflow_id <$> hs.
Proof.
  revert s. induction keys as [|key keys IH]; intros s Hs; cbn [Workers.serve_partitions].
  { exists s, [], (Ok tt). split_and!; [done|done|by intros ?%elem_of_nil]. }
  destruct (serve_frame serializer executor_id polls app_id app_version reg locked outage us xs queue (Some key) s wid)
    as [(s1 & hs & r & Hf & Hl & Hin & _) _].
  { intros r Hr. rewrite (proj1 Hs) in Hr. injection Hr as <-. unfold dequeuable, in_partition. rewrite no_key. by rewrite andb_false_r. }
  pose proof (still_waits_left _ _ Hl Hs) as Hs1. unfold mbind at 1, process_bind at 1. rewrite finish_and_then, Hf.
  destruct r as [[]|e]; [|by exists s1, hs, (Err e)].
  destruct (IH s1 Hs1) as (s2 & hs2 & r2 & Hf2 & Hs2 & Hin2). unfold mbind, process_bind. rewrite finish_and_then, Hf2.
  eexists s2, _, r2. split; [reflexivity|]. split; [done|]. rewrite fmap_app. by intros [?|?]%elem_of_app.
Qed.

Lemma round_frame jitter us xs interval (s : machine) :
  still_waits s →
  ∃ s' r, finish (worker_round jitter us xs {| wk_queue := queue; wk_polling_interval := interval |}) s = (s', Some r) ∧ still_waits s' ∧
    match r with Ok (last, hs) => wid ∉ wh_workflow_id <$> hs ∧ ∀ wk, last = Some wk → wk_queue wk = queue | Err _ => True end.
Proof.
  intros Hs. unfold Workers.worker_round. cbn [wk_queue wk_polling_interval].
  assert (finish (reload outage queue) s = (s, Some (Ok (Some queue))) ∨ ∃ e, finish (reload outage queue) s = (s, Some (Err e))) as Hre.
  { unfold reload. destruct Hs as [_ Hc]. unfold configured in Hc. destruct (q_database_backed queue); [|by left].
    rewrite finish_and_then, finish_act. cbn [fst snd]. destruct (outage s) as [e|]; [|rewrite Hc; by left].
    destruct (is_Exception e); [by left|right; by exists e]. }
  unfold mbind at 1, process_bind at 1. rewrite finish_and_then. destruct Hre as [->|[e ->]]; [|by exists s, (Err e)].
  unfold mbind at 1, process_bind at 1. rewrite finish_and_then, finish_act. unfold modify. cbn [fst snd].
  pose proof (waits (clamp_interval queue interval * jitter)%Q s Hs) as Hs1. set (s1 := wait _ s) in *.
  assert (∃ s' hs r, finish (serve_queue serializer executor_id polls app_id app_version reg locked outage us xs queue) s1 = (s', Some (Ok (hs, r))) ∧
    still_waits s' ∧ wid ∉ wh_workflow_id <$> hs) as (s2 & hs & r & Hf & Hs2 & Hin).
  { unfold serve_queue. rewrite partitioned, finish_and_then, finish_act. cbn [fst snd].
    destruct (outage s1) as [e|]; [|by apply partitions_frame]. exists s1, [], (Err e). split_and!; [done|done|by intros ?%elem_of_nil]. }
  unfold mbind, process_bind. rewrite finish_and_then, Hf.
  destruct r as [[]|e]; [|destruct (is_Exception e)]; (eexists s2, _; split; [reflexivity|]); (split; [done|]); (split; [done|]); by intros wk [= <-].
Qed.

Lemma rounds_frame rounds jitters us xs interval (s : machine) :
  still_waits s →
  ∃ s' r, finish (worker_rounds rounds jitters us xs {| wk_queue := queue; wk_polling_interval := interval |}) s = (s', Some r) ∧ still_waits s' ∧
    match r with Ok (_, hs) => wid ∉ wh_workflow_id <$> hs | Err _ => True end.
Proof.
  revert interval s. induction rounds as [|rounds IH]; intros interval s Hs; cbn [Workers.worker_rounds].
  { eexists s, _. split; [reflexivity|]. split; [done|]. by intros ?%elem_of_nil. }
  destruct (round_frame (jitters rounds) (us rounds) (xs rounds) interval s Hs) as (s1 & r1 & Hf1 & Hs1 & Hr1).
  unfold mbind at 1, process_bind at 1. rewrite finish_and_then, Hf1. destruct r1 as [[last hs]|e]; [|by exists s1, (Err e)].
  destruct Hr1 as [Hin Hq]. destruct last as [[q i]|]; [|by eexists s1, _].
  specialize (Hq _ eq_refl). simpl in Hq. subst q. destruct (IH i s1 Hs1) as (s2 & r2 & Hf2 & Hs2 & Hr2).
  unfold mbind, process_bind. rewrite finish_and_then, Hf2. destruct r2 as [[last hs2]|e]; [|by exists s2, (Err e)].
  eexists s2, _. split; [reflexivity|]. split; [done|]. rewrite fmap_app. by intros [?|?]%elem_of_app.
Qed.
End partitioned.

(** C39: a workflow that a client enqueues without a partition key on a partitioned queue never runs. The client accepts it
    (the queue's own [enqueue] refuses it when the queue is in memory), and however many iterations the workers of the queue
    make, however long they wait, it stays enqueued, and is not among the workflows they start. *)
Theorem client_enqueue_unpartitioned_stuck {W} `{Host W, Codecs} (serializer : Serializer) (repr : string → string) (executor_id : string)
    polls app_id app_version (reg : registry (W:=W)) wait locked outage rounds jitters us xs queue now uuid time_ms options inputs wid status (s : machine (W:=W)) :
  q_partition_queue queue = true → eq_queue_name options = q_name queue → eq_queue_partition_key options = None →
  eq_delay_seconds options = None →
  build_enqueue_status serializer repr uuid time_ms options inputs = Ok (wid, status) →
  workflow_status (m_db s) !! wid = None →
  dedup_taken (workflow_status (m_db s)) (Some (q_name queue)) (eq_deduplication_id options) = false →
  configured queue queue (m_db s) →
  (∀ t s, workflow_status (m_db (wait t s)) !! wid = workflow_status (m_db s) !! wid ∧ queues (m_db (wait t s)) = queues (m_db s)) →
  let '(d, r) := DBOSClient_enqueue serializer repr now uuid time_ms options inputs (m_db s) in
  (r = Ok wid ∧ ∃ row, workflow_status d !! wid = Some row ∧ ws_status row = ENQUEUED) ∧
  ∃ s' r', finish (queue_worker_thread serializer executor_id polls app_id app_version reg wait locked outage rounds jitters us xs queue)
             (s <| m_db := d |>) = (s', Some r') ∧
    workflow_status (m_db s') !! wid = workflow_status d !! wid ∧
    match r' with Ok (_, hs) => wid ∉ wh_workflow_id <$> hs | Err _ => True end.
Proof.
  intros Hpart Hname Hkey Hdelay Hb Hnew Hfree Hc Hwait.
  destruct (build_enqueue_status_Ok _ _ _ _ _ _ _ _ Hb) as (Hid & Hq & Hi & Hk & Hs). rewrite Hdelay in Hs. rewrite Hkey in Hk.
  set (row := inserted_row now status None).
  assert (DBOSClient_enqueue serializer repr now uuid time_ms options inputs (m_db s) =
    ((m_db s) <| workflow_status := <[wid := row]> (workflow_status (m_db s)) |>, Ok wid)) as He.
  { unfold DBOSClient_enqueue, _enqueue, mbind, SM_bind, lift_res. rewrite Hb, init_undelayed; rewrite ?Hid, ?Hs, ?Hq, ?Hi, ?Hname; done. }
  rewrite He. set (s1 := s <| m_db := _ |>).
  assert (still_waits queue wid row s1) as Hs1 by (split; [apply lookup_insert_eq|done]).
  split; [split; [done|]; exists row; split; [apply lookup_insert_eq|done]|].
  destruct (rounds_frame serializer executor_id polls app_id app_version reg wait locked outage queue wid row Hpart Hk) with
    (rounds := rounds) (jitters := jitters) (us := us) (xs := xs) (interval := polling_interval_sec queue) (s := s1) as (s' & r' & Hf & [Hr _] & Hin).
  - intros t s2 [Hr Hc2]. destruct (Hwait t s2) as [Hw Hqs]. split; [by rewrite Hw|by eapply configured_kept].
  - exact Hs1.
  - exists s', r'. split; [exact Hf|]. split; [|done]. rewrite Hr. symmetry. apply lookup_insert_eq.
Qed.

(** ** The properties at concrete inputs *)

#[local] Existing Instance sample_codecs.

Definition letters_options : EnqueueOptions := {|
  eq_workflow_name := wf_name letters; eq_queue_name := "q"; eq_workflow_id := None; eq_app_version := Some "v1";
  eq_workflow_timeout := None; eq_delay_seconds := None; eq_deduplication_id := Some "today"; eq_priority := Some 2%Z;
  eq_queue_partition_key := None; eq_authenticated_user := Some "ann"; eq_authenticated_roles := None;
  eq_serialization_type := None; eq_class_name := None; eq_instance_name := None; eq_attributes := None;
  eq_max_recovery_attempts := None |}.

Definition no_arguments : WorkflowInputs := {| args := []; kwargs := [] |}.
Definition empty_machine : machine (W:=mailbox) := Machine (sample_db []) (Mailbox 0 []) ∅.
Definition letters_enqueued : db * res pyexn string :=
  @DBOSClient_enqueue sample_codecs letter_serializer (λ s, s) 5 "a" 5 letters_options no_arguments (sample_db []).

Lemma letters_named : names_function letter_serializer (λ s, s) "v1" letters_registry unlimited letters_options letters no_arguments None.
Proof. by split. Qed.

(** The first process dies after the first letter, before its checkpoint. *)
Lemma client_enqueue_runs_witness :
  letters_enqueued.2 = Ok "a" ∧
  let s1 := (run_for 14 (letters_life 0) (empty_machine <| m_db := letters_enqueued.1 |>)).1 in
  let s := crash (s1 <| m_db := m_db s1 |> <| m_world := Mailbox 100 (mb_sent (m_world s1)) |>) in
  ∃ s' wk r, finish (letters_life 1) s = (s', Some (Ok (Some wk))) ∧
    @client_get_result sample_codecs letter_serializer 1 (λ _, m_db s') "a" = Some r.
Proof.
  assert (PreOrder (λ w w' : mailbox, mb_sent w' = mb_sent w)) as Hpre by (split; [done|intros ???; congruence]).
  assert (match @serialize_args sample_codecs no_arguments None letter_serializer with Ok (_, n) => n = "sample" | Err _ => False end) as Hser
    by (vm_compute; reflexivity).
  destruct (@serialize_args sample_codecs no_arguments None letter_serializer) as [[x n]|] eqn:Hx; [|destruct Hser]. subst n.
  pose proof (@client_enqueue_runs mailbox mailbox_host sample_codecs sample_laws letter_serializer (λ s, s) "exec"
    (λ w w', mb_sent w' = mb_sent w) Hpre 3 "app" "v1" letters_registry (λ _ s, s) (λ _, ∅) (λ _, None)
    (λ _ _, "u") (λ _ _, "x") (λ _, 1%Q) unlimited unlimited 5 "a" 5 letters_options letters no_arguments None x "sample" empty_machine
    letters_honest letters_read_back (letters_steady _) letters_named Hx) as H.
  change (@DBOSClient_enqueue sample_codecs letter_serializer (λ s, s) 5 "a" 5 letters_options no_arguments (m_db empty_machine)) with letters_enqueued in H.
  destruct letters_enqueued as [d r] eqn:He.
  destruct H as [Hr Hruns]; [discriminate| |reflexivity..|].
  { intros. by repeat (econstructor; [apply send_letter_durable|intros ?]); constructor. }
  split; [exact Hr|]. intros s1 s.
  destruct (Hruns 1 s) as (s' & res & Hf & Hend).
  - vm_compute. discriminate.
  - apply (lives_S _ _ _ _ _ _ _ _ _ _ _ _ _ _ _ _ 0 14 (empty_machine <| m_db := d |>) (empty_machine <| m_db := d |>));
      [constructor|by split|reflexivity|reflexivity].
  - change (finish (letters_life 1) s = (s', Some res)) in Hf.
    assert (match (finish (letters_life 1) s).2 with Some (Ok (Some _)) => true | _ => false end = true) as Hres.
    { subst s s1. replace d with letters_enqueued.1 by (by rewrite He). vm_compute. reflexivity. }
    rewrite Hf in Hres. destruct Hend as [(wk & r0 & c0 & ctx & w1 & -> & _ & Hget & _)|Hi].
    + exists s', wk, r0. split; [exact Hf|exact Hget].
    + exfalso. clear Hf. destruct res as [[wk|]|e]; [exact Hi|discriminate Hres|discriminate Hres].
Defined.

(** Another client's debounce takes the key between the two transactions of this one: its
    second turn joins the other's workflow. *)
Definition digest_client : EnqueueOptions := {|
  eq_workflow_name := "digest"; eq_queue_name := "q"; eq_workflow_id := None; eq_app_version := None;
  eq_workflow_timeout := None; eq_delay_seconds := None; eq_deduplication_id := None; eq_priority := None;
  eq_queue_partition_key := None; eq_authenticated_user := None; eq_authenticated_roles := None;
  eq_serialization_type := Some PORTABLE; eq_class_name := None; eq_instance_name := None; eq_attributes := None;
  eq_max_recovery_attempts := None |}.

Definition others_digest : workflow_status_row :=
  (sample_row "d" DELAYED) <| ws_name := Some "digest" |> <| ws_queue_name := Some "q" |>
    <| ws_deduplication_id := Some "digest-key" |> <| ws_is_debounced := true |>
    <| ws_debounce_deadline_epoch_ms := Some 9000%Z |>.

Definition takes_key (d : db) : db :=
  if bool_decide (is_Some (workflow_status d !! "d")) || dedup_taken (workflow_status d) (Some "q") (Some "digest-key") then d
  else d <| workflow_status := <["d" := others_digest]> (workflow_status d) |>.

Definition a_turn (between : db → db) (uuid : string) (t : Z) : turn := {|
  tn_before := λ d, d; tn_bounce_ms := t; tn_bounce_now := t; tn_between := between; tn_now_ms := t; tn_enqueue_ms := t;
  tn_enqueue_now := t; tn_uuid := uuid |}.

Lemma client_debounce_joins_witness :
  let '(d, r) := @client_debounce sample_codecs letter_serializer (λ s, s) [a_turn takes_key "c1" 0; a_turn (λ d, d) "c2" 6000]
                   digest_options digest_client "key" 4000 (digest_inputs "a") (sample_db []) in
  r = Some (Ok "d") ∧ ∃ row, workflow_status d !! "d" = Some row ∧ ws_delay_until_epoch_ms row = Some 9000%Z.
Proof.
  set (turns := [a_turn takes_key "c1" 0; a_turn (λ d, d) "c2" 6000]).
  destruct (@serialize_args sample_codecs (digest_inputs "a") (Some PORTABLE) letter_serializer) as [x|] eqn:Hx; [|discriminate Hx].
  pose proof (@client_debounce_joins sample_codecs letter_serializer (λ s, s) digest_options digest_client "key" 4000 (digest_inputs "a")
    turns x (sample_db [])) as H.
  destruct (@client_debounce sample_codecs letter_serializer (λ s, s) turns _ _ _ _ _ _) as [d r] eqn:Hd.
  assert (r = Some (Ok "d")) as Hr.
  { change r with (d, r).2. rewrite <- Hd. vm_compute. reflexivity. }
  rewrite Hr in H. destruct H as (_ & t & row & Hin & Hrow & _ & Hdelay & _).
  - split; try reflexivity. by split_and!.
  - exact Hx.
  - split; [intros i1 i2 r1 r2 q i H1; discriminate H1|]. by repeat constructor.
  - assert (∀ d, ready_for digest_client turns d → ready_for digest_client turns (takes_key d)) as Hkey.
    { intros d0 [Hu Hf]. unfold takes_key. destruct (bool_decide _) eqn:Hd0; [by split|]. destruct (dedup_taken _ _ _) eqn:Ht; [by split|].
      rewrite bool_decide_eq_false, <- eq_None_not_Some in Hd0. split; [by apply dedup_unique_insert|].
      apply Forall_cons in Hf as [Hf1 Hf]. apply Forall_cons in Hf as [Hf2 _].
      constructor; [|constructor; [|constructor]]; simpl in *; by rewrite lookup_insert_ne. }
    constructor; [|constructor; [|constructor]]; intros d0 Hd0; split; [exact Hd0|by apply Hkey|exact Hd0|exact Hd0].
  - split; [exact Hr|]. exists row. split; [exact Hrow|].
    assert (ws_delay_until_epoch_ms <$> workflow_status d !! "d" = Some (Some 9000%Z)) as Hd'.
    { change d with (d, r).1. rewrite <- Hd. vm_compute. reflexivity. }
    rewrite Hrow in Hd'. by injection Hd'.
Defined.

(** The client reads the clock again between the deadline of a first debounce and its delay:
    when the period is longer than the timeout, the workflow is delayed beyond its deadline
    by the time between the two. *)
Lemma client_first_after_deadline :
  let d := (@client_debounce sample_codecs letter_serializer (λ s, s)
              [{| tn_before := λ d, d; tn_bounce_ms := 0; tn_bounce_now := 0; tn_between := λ d, d; tn_now_ms := 0;
                  tn_enqueue_ms := 500; tn_enqueue_now := 500; tn_uuid := "c" |}]
              digest_options digest_client "key" 60000 (digest_inputs "a") (sample_db [])).1 in
  match workflow_status d !! "c" with
  | Some row => ws_debounce_deadline_epoch_ms row = Some 10000%Z ∧ ws_delay_until_epoch_ms row = Some 10500%Z
  | None => False
  end.
Proof. vm_compute. split; reflexivity. Qed.

(** A queue of partitions, and options without a key. *)
Definition partitions : Queue := unlimited <| q_partition_queue := true |>.

Lemma client_enqueue_unpartitioned_stuck_witness :
  let '(d, r) := letters_enqueued in
  r = Ok "a" ∧ ∃ s' x row, finish (@queue_worker_thread mailbox mailbox_host sample_codecs letter_serializer "exec" 3 "app" "v1" letters_registry
      (λ _ s, s) (λ _, ∅) (λ _, None) 3 (λ _, 1%Q) (λ _ _, "u") (λ _ _, "x") partitions) (empty_machine <| m_db := d |>) = (s', Some x) ∧
    workflow_status (m_db s') !! "a" = Some row ∧ ws_status row = ENQUEUED.
Proof.
  destruct (@build_enqueue_status sample_codecs letter_serializer (λ s, s) "a" 5 letters_options no_arguments) as [[wid status]|] eqn:Hb;
    [|discriminate Hb].
  assert (wid = "a") as -> by (change wid with ((λ r : res pyexn (string * WorkflowStatusInternal), match r with Ok p => p.1 | Err _ => "" end) (Ok (wid, status)));
    rewrite <- Hb; vm_compute; reflexivity).
  pose proof (@client_enqueue_unpartitioned_stuck mailbox mailbox_host sample_codecs letter_serializer (λ s, s) "exec" 3 "app" "v1" letters_registry
    (λ _ s, s) (λ _, ∅) (λ _, None) 3 (λ _, 1%Q) (λ _ _, "u") (λ _ _, "x") partitions 5 "a" 5 letters_options no_arguments "a" status
    empty_machine eq_refl eq_refl eq_refl eq_refl Hb eq_refl eq_refl eq_refl (λ _ _, conj eq_refl eq_refl)) as H.
  change (@DBOSClient_enqueue sample_codecs letter_serializer (λ s, s) 5 "a" 5 letters_options no_arguments (m_db empty_machine)) with letters_enqueued in H.
  destruct letters_enqueued as [d r]. destruct H as [[Hr (row & Hrow & Hs)] (s' & x & Hf & Hsame & _)].
  split; [exact Hr|]. exists s', x, row. split; [exact Hf|]. split; [by rewrite Hsame|exact Hs].
Defined.
