(* ===== verification/Datasources.v ===== *)
(** * Datasources: [dbos/_datasource.py] with its PostgreSQL and SQLite classes

    A datasource is a database of the application's with a table of its own,
    [datasource_outputs]: in a workflow, a function that runs as a transaction of the
    datasource ([run_tx_step]) is a step ([run_step]) whose body looks for a recorded
    result, and otherwise runs the function and records its output in one transaction. The
    checkpoint of the step, in the system database, comes after. A program may have several
    datasources: each is a [datasource], where it lives in the world, what is to come of its
    transactions, its serializer and its test of serialization errors. *)
From Stdlib Require Import QArith Qminmax Ascii.
From S2P Require Import Prelude Errors Schema Retry Serialization Workflows Context Steps Queues Process Execution Durability Transactions Calls.
Open Scope nat_scope.

(** A row of [datasource_outputs]. *)
Record datasource_outputs_row := MkDsOutput {
  do_output : option string;
  do_error : option string;
  do_serialization : option string;
  do_created_at : Z;
}.

(** The database: the application's data, and the table by [(workflow_id, step_id)]. *)
Record ds_db (D : Type) := DsDB { ds_data : D; datasource_outputs : gmap (string * Z) datasource_outputs_row }.
Arguments DsDB {D}.
Arguments ds_data {D}.
Arguments datasource_outputs {D}.

#[export] Instance ds_db_eta D : RecordEta (ds_db D) := λ a, DsDB (ds_data a) (datasource_outputs a).

(** What may come of a transaction: it is rolled back with an error, or it commits and the
    connection is lost before the answer. *)
Inductive ds_fault := Rejected (e : pyexn) | Unheard.

(** [ds_schedule] is what comes of the next transactions: [None] when nothing goes wrong,
    as when the schedule has ended. *)
Record datasource (W D : Type) := {
  ds_get : W → ds_db D;
  ds_put : ds_db D → W → W;
  ds_schedule : W → list (option ds_fault);
  ds_reschedule : list (option ds_fault) → W → W;
  ds_is_serialization_error : pyexn → bool;
  ds_serializer : Serializer;
}.
Arguments ds_get {W D}.
Arguments ds_put {W D}.
Arguments ds_schedule {W D}.
Arguments ds_reschedule {W D}.
Arguments ds_is_serialization_error {W D}.
Arguments ds_serializer {W D}.

Class DatasourceLaws {W D : Type} `{Host W} (ds : datasource W D) : Prop := {
  ds_get_put a w : ds_get ds (ds_put ds a w) = a;
  ds_schedule_put a w : ds_schedule ds (ds_put ds a w) = ds_schedule ds w;
  ds_get_reschedule fs w : ds_get ds (ds_reschedule ds fs w) = ds_get ds w;
  ds_schedule_reschedule fs w : ds_schedule ds (ds_reschedule ds fs w) = fs;
  ds_get_sleep q w : ds_get ds (sleep q w) = ds_get ds w;
  ds_schedule_sleep q w : ds_schedule ds (sleep q w) = ds_schedule ds w;
}.

(** [isinstance(e, DBAPIError)] *)
Definition is_DBAPIError (e : pyexn) : bool :=
  match e with UniqueViolation | ForeignKeyViolation | DBAPIError _ _ _ => true | _ => false end.

(** [_is_postgres_serialization_error] *)
Definition is_postgres_serialization_error (error : pyexn) : bool :=
  match error with
  | DBAPIError _ (Some driver_error) _ =>
      match oe_sqlstate driver_error with Some c => bool_decide (c ∈ ["40001"; "40P01"]) | None => false end
  | _ => false
  end.

(** [str.lower], of ASCII letters. *)
Definition lower_ascii (c : ascii) : ascii :=
  let n := nat_of_ascii c in if (65 <=? n) && (n <=? 90) then ascii_of_nat (n + 32) else c.
Fixpoint lower (s : string) : string :=
  match s with EmptyString => EmptyString | String c s => String (lower_ascii c) (lower s) end.

(** [_is_sqlite_serialization_error]; the text of a constraint violation names the
    constraint, and does not say that anything is locked. *)
Definition is_sqlite_serialization_error (error : pyexn) : bool :=
  match error with
  | DBAPIError _ orig _ =>
      let msg := match orig with Some o => lower (oe_text o) | None => "none" end in
      str_contains "database is locked" msg || str_contains "database table is locked" msg
  | _ => false
  end.

Section datasource.
Context {W D : Type} `{Host W, Codecs} (ds : datasource W D).
Notation machine := (@machine W).

(** A transaction in the world: all or nothing. *)
Definition ds_txn {A} (m : Z → SM (ds_db D) pyexn A) : SM W pyexn A := λ w,
  let w1 := ds_reschedule ds (tail (ds_schedule ds w)) w in
  let '(w2, r) := match m (now_ms w1) (ds_get ds w1) with
                  | (a, Ok x) => (ds_put ds a w1, Ok x)
                  | (_, Err e) => (w1, Err e)
                  end in
  match head (ds_schedule ds w) with
  | Some (Some (Rejected e)) => (w1, Err e)
  | Some (Some Unheard) => (w2, match r with Ok _ => Err connection_lost | Err e => Err e end)
  | _ => (w2, r)
  end.

(** ** The recorded results *)

(** [_row_to_result] *)
Definition row_to_result (row : option datasource_outputs_row) : option RecordedResult :=
  match row with
  | None => None
  | Some r => Some {| rr_output := do_output r; rr_error := do_error r; rr_serialization := do_serialization r;
                      rr_child_workflow_id := None |}
  end.

(** [_replay_recorded] *)
Definition replay_recorded (recorded : RecordedResult) : res pyexn pyval :=
  match nonempty (rr_error recorded), rr_output recorded with
  | Some error, _ =>
      match deserialize_exception error (rr_serialization recorded) (ds_serializer ds) with Ok e => Err e | Err e => Err e end
  | None, Some output => deserialize_value (Some output) (rr_serialization recorded) (ds_serializer ds)
  | None, None => Err (DBOSException "Datasource recorded output and error are both None")
  end.

Definition check_execution (workflow_id : string) (step_id : Z) : SM W pyexn (option RecordedResult) :=
  ds_txn (λ _ a, (a, Ok (row_to_result (datasource_outputs a !! (workflow_id, step_id))))).

(** [_record_result]: an [INSERT]. *)
Definition insert_result (workflow_id : string) (step_id : Z) (output error serialization : option string) (now : Z) :
    SM (ds_db D) pyexn unit := λ a,
  let row := {| do_output := output; do_error := error; do_serialization := serialization; do_created_at := now |} in
  match sql_insert (workflow_id, step_id) row (datasource_outputs a) with
  | Some t => (a <| datasource_outputs := t |>, Ok tt)
  | None => (a, Err UniqueViolation)
  end.

Definition record_error (workflow_id : string) (step_id : Z) (error : string) (serialization : option string) :
    SM W pyexn unit :=
  ds_txn (insert_result workflow_id step_id None (Some error) serialization).

(** ** The body of a transaction *)

Definition ds_retriable (e : pyexn) : bool :=
  is_DBAPIError e && (retriable_postgres_exception e || ds_is_serialization_error ds e).

(** [time.sleep(retry_wait_seconds)], and the next wait. *)
Definition wait_to_retry (retry_wait_seconds : Q) : process W unit := act (modify (sleep retry_wait_seconds)).
Definition next_wait (retry_wait_seconds : Q) : Q := Qmin (retry_wait_seconds * (3 # 2)) 2.

(** [_check_execution_with_retry]; [Waits] when [tries] are used up. *)
Fixpoint check_execution_with_retry (tries : nat) (retry_wait_seconds : Q) (workflow_id : string) (step_id : Z) :
    process W (option RecordedResult) :=
  match tries with
  | O => Waits
  | S tries' =>
      and_then (act (check_execution workflow_id step_id)) (λ r, match r with
        | Ok recorded => mret recorded
        | Err e =>
            if ds_retriable e then
              _ ← wait_to_retry retry_wait_seconds;
              check_execution_with_retry tries' (next_wait retry_wait_seconds) workflow_id step_id
            else Returns (Err e)
        end)
  end.

(** What is in [with session.begin()]: the function, and in a workflow the record of its
    output under [key]. *)
Definition tx_body (key : option (string * Z)) (func : SM D pyexn pyval) (now : Z) : SM (ds_db D) pyexn pyval :=
  output ← zoom ds_data (λ d a, a <| ds_data := d |>) func;
  match key with
  | None => mret output
  | Some (workflow_id, step_id) =>
      '(serialized, serialization) ← lift_res (serialize_value output None (ds_serializer ds));
      _ ← insert_result workflow_id step_id (Some serialized) None (Some serialization) now;
      mret output
  end.

(** The handlers that give up: the error is recorded in a workflow, and raised. *)
Definition record_and_raise (key : option (string * Z)) (e : pyexn) : process W pyval :=
  match key with
  | None => Returns (Err e)
  | Some (workflow_id, step_id) =>
      '(serialized_e, serialization) ← Returns (serialize_exception e None (ds_serializer ds));
      _ ← act (record_error workflow_id step_id serialized_e (Some serialization));
      Returns (Err e)
  end.

(** The loop over the attempts of the transaction; [Waits] when [tries] are used up. *)
Fixpoint tx_loop (tries : nat) (retry_wait_seconds : Q) (key : option (string * Z)) (func : SM D pyexn pyval) :
    process W pyval :=
  match tries with
  | O => Waits
  | S tries' =>
      and_then (act (ds_txn (tx_body key func))) (λ r, match r with
        | Ok output => mret output
        | Err e =>
            if ds_retriable e then
              _ ← wait_to_retry retry_wait_seconds; tx_loop tries' (next_wait retry_wait_seconds) key func
            else if is_Exception e then record_and_raise key e
            else Returns (Err e)
        end)
  end.

(** [_INITIAL_RETRY_WAIT_SECONDS] *)
Definition initial_wait : Q := 1 # 1000.

(** [_body], in the context of the step if there is one. *)
Definition body (in_wf : bool) (tries : nat) (func : SM D pyexn pyval) (inner_ctx : DBOSContext) : process W pyval :=
  if in_wf then
    let workflow_id := cx_workflow_id inner_ctx in
    let step_id := cx_curr_step_function_id inner_ctx in
    recorded ← check_execution_with_retry tries initial_wait workflow_id step_id;
    match recorded with
    | Some r => Returns (replay_recorded r)
    | None => tx_loop tries initial_wait (Some (workflow_id, step_id)) func
    end
  else tx_loop tries initial_wait None func.

End datasource.

(** ** [run_tx_step] *)

(** [class DatasourceOptions] *)
Record DatasourceOptions := { opt_name : option string; opt_isolation_level : option string }.

(** A function with its arguments: its name, its kind, and what a call does to the data. *)
Record ds_function (D : Type) := { fn_qualname : string; fn_is_coroutine : bool; fn_call : SM D pyexn pyval }.
Arguments fn_qualname {D}.
Arguments fn_is_coroutine {D}.
Arguments fn_call {D}.

Definition parse_ds_options {D} (ds_options : option DatasourceOptions) (func : ds_function D) : string * string :=
  (default (fn_qualname func) (nonempty (ds_options ≫= opt_name)),
   default "SERIALIZABLE" (nonempty (ds_options ≫= opt_isolation_level))).

Section run_tx_step.
Context {W D : Type} `{Host W, Codecs} (ds : datasource W D) (serializer : Serializer) (executor_id : string).
Notation operation := (@operation W).

(** [SQLAlchemyDatasource.run_tx_step]; the isolation level goes to the database. *)
Definition run_tx_step (tries : nat) (ds_options : option DatasourceOptions) (func : ds_function D) : operation := λ ctx,
  let '(name, isolation_level) := parse_ds_options ds_options func in
  if fn_is_coroutine func then
    (ctx, Returns (Err (DBOSException ("Function " +:+ name +:+ " is a coroutine; use AsyncDatasource.run_tx_step_async instead"))))
  else
    let in_wf := is_workflow ctx in
    let _body := body ds in_wf tries (fn_call func) in
    if in_wf
    then run_step serializer executor_id "SQLAlchemyDatasource.run_tx_step.<locals>._body" (Some name) DEFAULT_STEP_OPTIONS _body ctx
    else (ctx, outside (_body ctx)).

(** [AsyncSQLAlchemyDatasource.run_tx_step_async], with [run_step_async]: the snapshot of
    the context is taken by the caller. *)
Definition run_tx_step_async (tries : nat) (ds_options : option DatasourceOptions) (func : ds_function D) : operation := λ ctx,
  let '(name, isolation_level) := parse_ds_options ds_options func in
  if negb (fn_is_coroutine func) then
    (ctx, Returns (Err (DBOSException ("Function " +:+ name +:+ " must be a coroutine function for AsyncDatasource"))))
  else
    let in_wf := is_workflow ctx in
    let _body := body ds in_wf tries (fn_call func) in
    if in_wf then
      let '(ctx, step_ctx) := snapshot_step_ctx false ctx in
      if is_workflow step_ctx
      then (ctx, invoke_step serializer executor_id ctx step_ctx _body
                   (default "AsyncSQLAlchemyDatasource.run_tx_step_async.<locals>._body" (nonempty (Some name))) DEFAULT_STEP_OPTIONS)
      else (ctx, outside (_body step_ctx))
    else (ctx, outside (_body ctx)).

(** [SQLAlchemyDatasource.transaction], the decorator. *)
Definition ds_transaction (tries : nat) (f : ds_function D) (name : option string) (isolation_level : string) :
    res pyexn operation :=
  if fn_is_coroutine f then
    Err (DBOSException ("SyncDatasource.transaction requires a non-coroutine function, but " +:+ fn_qualname f +:+ " is a coroutine"))
  else Ok (run_tx_step tries (Some {| opt_name := name; opt_isolation_level := Some isolation_level |}) f).

(** [AsyncSQLAlchemyDatasource.transaction] *)
Definition ds_transaction_async (tries : nat) (f : ds_function D) (name : option string) (isolation_level : string) :
    res pyexn operation :=
  if negb (fn_is_coroutine f) then
    Err (DBOSException ("AsyncDatasource.transaction requires a coroutine function, but " +:+ fn_qualname f +:+ " is not"))
  else Ok (run_tx_step_async tries (Some {| opt_name := name; opt_isolation_level := Some isolation_level |}) f).

End run_tx_step.

(** ** What is meant *)

(** [P] holds all along the process, and [Q] of its result and the world it ends in. *)
Definition ensures {W A} (p : process W A) (w : W) (P : W → Prop) (Q : res pyexn A → W → Prop) : Prop :=
  always p w P ∧ ∀ w' r, finish p w = (w', Some r) → Q r w'.

(** The name and the checkpoint of the step that [run_tx_step] runs. *)
Definition tx_step_name {D} (ds_options : option DatasourceOptions) (func : ds_function D) : string :=
  default "SQLAlchemyDatasource.run_tx_step.<locals>._body" (nonempty (Some (parse_ds_options ds_options func).1)).

Definition step_key (ctx : DBOSContext) : string * Z := (cx_workflow_id ctx, (cx_function_id ctx + 1)%Z).

(** A serializer of the application's: what it writes is read back, under its own name. *)
Definition faithful `{Codecs} (serializer : Serializer) : Prop :=
  honest_name serializer ∧ round_trips serializer ∧ ser_name serializer ≠ ser_name DBOSPortableJSON ∧
  ∀ v x, ser_serialize serializer v = Ok x → x ≠ "".

Section states.
Context {W D : Type} `{Host W, Codecs} (ds : datasource W D).
Notation machine := (@machine W).

(** The executions of a call, each lost with its machine after some actions; meanwhile
    others leave the workflow's rows and the datasource's database alone, and what is to
    come of its transactions is in [T]. *)
Inductive ds_interrupted (T : list (option ds_fault) → Prop) (wid : string) (call : process machine pyval) :
    machine → machine → Prop :=
| ds_interrupted_refl s : ds_interrupted T wid call s s
| ds_interrupted_again s n s1 d w s' : s1 = (run_for n call s).1 →
    undisturbed wid (m_db s1) d → ds_get ds w = ds_get ds (m_world s1) → T (ds_schedule ds w) →
    ds_interrupted T wid call (crash (s1 <| m_db := d |> <| m_world := w |>)) s' → ds_interrupted T wid call s s'.

(** The step of a function that starts on the data [d0]. [lenient]: anything may come of a
    transaction; otherwise it may at most be rolled back with an error that is retried. *)
Context (lenient : Prop) (key : string * Z) (func : SM D pyexn pyval) (d0 : D).

Definition ds_row (w : W) : option datasource_outputs_row := datasource_outputs (ds_get ds w) !! key.

Definition unrun (w : W) : Prop := ds_row w = None ∧ ds_data (ds_get ds w) = d0.

Definition row_result (row : datasource_outputs_row) : RecordedResult :=
  {| rr_output := do_output row; rr_error := do_error row; rr_serialization := do_serialization row; rr_child_workflow_id := None |}.

(** The outcome is recorded, with its effects; or an error, with none. *)
Definition settled (w : W) : Prop := ∃ row, ds_row w = Some row ∧
  (replay_recorded ds (row_result row) = txn_outcome func d0 ∧ ds_data (ds_get ds w) = txn_data func d0 ∨
   lenient ∧ ds_data (ds_get ds w) = d0 ∧ ∃ e, replay_recorded ds (row_result row) = Err e).

Definition tame (f : option ds_fault) : Prop :=
  lenient ∨ match f with
            | None => True
            | Some (Rejected e) => ds_retriable ds e = true ∧ is_ok (txn_outcome func d0) = true
            | Some Unheard => False
            end.

Definition ds_inv (w : W) : Prop := (unrun w ∨ settled w) ∧ Forall tame (ds_schedule ds w).

(** An answer that is true: the outcome with its effects, or an error that [lenient] allows. *)
Definition true_answer (r : res pyexn pyval) (w : W) : Prop :=
  r = txn_outcome func d0 ∧ ds_data (ds_get ds w) = txn_data func d0 ∨ lenient ∧ ∃ e, r = Err e.

(** The same of a machine: the checkpoint of the step, if there is one, answers truly. *)
Definition step_inv (serializer : Serializer) (name : string) (s : machine) : Prop :=
  active key.1 (m_db s) ∧ ds_inv (m_world s) ∧
  ∀ row, operation_outputs (m_db s) !! key = Some row →
    oo_function_name row = name ∧ true_answer (answer_of serializer row) (m_world s).

(** An outcome that can be recorded, here and in the system database, and is not tried
    again for. *)
Definition ds_final (serializer : Serializer) : Prop :=
  recordable (ds_serializer ds) (txn_outcome func d0) ∧ recordable serializer (txn_outcome func d0) ∧
  ∀ e, txn_outcome func d0 = Err e → ds_retriable ds e = false.

(** On the data [d] the function has an outcome that can be recorded and is not tried again
    for. *)
Definition repeatable (d : D) : Prop :=
  recordable (ds_serializer ds) (txn_outcome func d) ∧ ∀ e, txn_outcome func d = Err e → ds_retriable ds e = false.

End states.

(** ** A sample: an account in a datasource *)

Record vault := Vault { vt_clock : Z; vt_db : ds_db Z; vt_schedule : list (option ds_fault) }.

#[export] Instance vault_host : Host vault := {|
  time_ms := vt_clock; now_ms := vt_clock;
  sleep := λ q w, Vault (vt_clock w + 1) (vt_db w) (vt_schedule w);
|}.

Definition vault_ds `{Codecs} (serializer : Serializer) : datasource vault Z := {|
  ds_get := vt_db; ds_put := λ a w, Vault (vt_clock w) a (vt_schedule w);
  ds_schedule := vt_schedule; ds_reschedule := λ fs w, Vault (vt_clock w) (vt_db w) fs;
  ds_is_serialization_error := is_postgres_serialization_error; ds_serializer := serializer;
|}.

#[export] Instance vault_laws `{Codecs} serializer : DatasourceLaws (vault_ds serializer).
Proof. by split. Qed.

Definition deposit_fn : ds_function Z := {| fn_qualname := "deposit"; fn_is_coroutine := false; fn_call := deposit |}.

Definition vault_machine (fs : list (option ds_fault)) : machine (W:=vault) :=
  Machine (sample_db [("w", sample_row "w" PENDING)]) (Vault 5 (DsDB 100%Z ∅) fs) ∅.

(** A serializer that writes the violation of a constraint too. *)
Definition violation_serializer : Serializer := {|
  ser_name := "sample";
  ser_serialize v :=
    match v with
    | PExn UniqueViolation => Ok "violated"
    | _ => match @pickle_dumps sample_codecs v with Ok t => Ok (String "p" t) | Err e => Err e end
    end;
  ser_deserialize t :=
    match t with
    | String "p" t => @pickle_loads sample_codecs t
    | _ => Ok (PExn UniqueViolation)
    end;
|}.

Definition vault_call : process (machine (W:=vault)) pyval :=
  (@run_tx_step vault Z _ sample_codecs (@vault_ds sample_codecs violation_serializer) violation_serializer "exec" 4 None deposit_fn bank_ctx).2.

(** ** Lemmas *)

Section ensures_lemmas.
Context {W : Type}.

Lemma ensures_returns {A} (r : res pyexn A) (w : W) (P : W → Prop) (Q : res pyexn A → W → Prop) :
  P w → Q r w → ensures (Returns r) w P Q.
Proof. intros HP HQ. split; [by apply always_returns|]. by intros w' r' [= <- <-]. Qed.

Lemma ensures_waits {A} (w : W) (P : W → Prop) (Q : res pyexn A → W → Prop) : P w → ensures Waits w P Q.
Proof. intros HP. split; [|done]. by intros []. Qed.

Lemma ensures_act {A} (m : SM W pyexn A) w (P : W → Prop) (Q : res pyexn A → W → Prop) :
  P w → P (m w).1 → Q (m w).2 (m w).1 → ensures (act m) w P Q.
Proof. intros HP HP1 HQ. split; [by apply always_act|]. intros w' r. rewrite finish_act. by intros [= <- <-]. Qed.

Lemma ensures_and_then {A B} (p : process W A) (k : res pyexn A → process W B) w P Q :
  ensures p w P (λ r w1, ensures (k r) w1 P Q) → ensures (and_then p k) w P Q.
Proof.
  intros [Hp Hk]. split.
  - apply always_and_then; [done|]. intros w1 r Hf _. by apply (Hk w1 r Hf).
  - intros w' r. rewrite finish_and_then. destruct (finish p w) as [w1 [r1|]] eqn:Hf; [|done]. by apply (Hk w1 r1).
Qed.

Lemma ensures_bind {A B} (p : process W A) (k : A → process W B) w P Q :
  ensures p w P (λ r w1, match r with Ok a => ensures (k a) w1 P Q | Err e => P w1 ∧ Q (Err e) w1 end) →
  ensures (p ≫= k) w P Q.
Proof.
  intros Hp. apply ensures_and_then. destruct Hp as [Hp Hk]. split; [done|]. intros w1 [a|e] Hf; [by apply (Hk w1 (Ok a))|].
  destruct (Hk w1 _ Hf). by apply ensures_returns.
Qed.

Lemma ensures_weaken {A} (p : process W A) w (P P' : W → Prop) (Q Q' : res pyexn A → W → Prop) :
  (∀ w', P w' → P' w') → (∀ r w', P w' → Q r w' → Q' r w') → ensures p w P Q → ensures p w P' Q'.
Proof.
  intros HP HQ [Hp Hq]. split; [by eapply always_weaken|]. intros w' r Hf. apply HQ; [by eapply always_finish|by apply Hq].
Qed.

End ensures_lemmas.

Lemma ensures_outside {W A} `{Host W} (p : process W A) (s : machine (W:=W)) P Q :
  ensures p (m_world s) (λ w, P (s <| m_world := w |>)) (λ r w, Q r (s <| m_world := w |>)) → ensures (outside p) s P Q.
Proof.
  intros [Hp Hq]. split.
  - intros n. unfold outside. rewrite run_for_within by (done || by intros []).
    pose proof (Hp n) as Hn. by destruct (run_for n p (m_world s)) as [w1 [[m r]|]].
  - intros s' r. unfold outside. rewrite finish_within by (done || by intros []).
    destruct (finish p (m_world s)) as [w1 [r1|]] eqn:Hf; [|done]. intros [= <- <-]. by apply Hq.
Qed.

Section transactions.
Context {W D : Type} `{Host W, Codecs, !CodecLaws} (ds : datasource W D) `{!DatasourceLaws ds}.

(** What comes of a transaction in [w]: a world and a result. *)
Inductive txn_result {A} (m : Z → SM (ds_db D) pyexn A) (w w' : W) : res pyexn A → Prop :=
| TxnRejected e : head (ds_schedule ds w) = Some (Some (Rejected e)) → ds_get ds w' = ds_get ds w → txn_result m w w' (Err e)
| TxnRaised now a e : m now (ds_get ds w) = (a, Err e) → ds_get ds w' = ds_get ds w → txn_result m w w' (Err e)
| TxnCommitted now x : m now (ds_get ds w) = (ds_get ds w', Ok x) → txn_result m w w' (Ok x)
| TxnUnheard now x : m now (ds_get ds w) = (ds_get ds w', Ok x) → head (ds_schedule ds w) = Some (Some Unheard) →
    txn_result m w w' (Err connection_lost).

Lemma ds_txn_cases {A} (m : Z → SM (ds_db D) pyexn A) w :
  ds_schedule ds (ds_txn ds m w).1 = tail (ds_schedule ds w) ∧ txn_result m w (ds_txn ds m w).1 (ds_txn ds m w).2.
Proof.
  unfold ds_txn. cbv zeta. set (w1 := ds_reschedule ds (tail (ds_schedule ds w)) w).
  assert (ds_get ds w1 = ds_get ds w) as Hg by apply ds_get_reschedule.
  assert (ds_schedule ds w1 = tail (ds_schedule ds w)) as Hs by apply ds_schedule_reschedule. rewrite Hg.
  destruct (m (now_ms w1) (ds_get ds w)) as [a [x|e]] eqn:Hm;
    destruct (head (ds_schedule ds w)) as [[[e'|]|]|] eqn:Hh; cbn [fst snd]; rewrite ?ds_schedule_put;
    (split; [done|]); try (by econstructor); econstructor; rewrite ?ds_get_put; done.
Qed.

End transactions.

Section never_twice.
Context {W D : Type} `{Host W, Codecs, !CodecLaws} (ds : datasource W D) `{!DatasourceLaws ds}.
Context (lenient : Prop) (key : string * Z) (func : SM D pyexn pyval) (d0 : D).
Hypothesis honest : honest_name (ds_serializer ds).
Hypothesis reads_back : round_trips (ds_serializer ds).
Hypothesis not_portable : ser_name (ds_serializer ds) ≠ ser_name DBOSPortableJSON.
Hypothesis nonblank : ∀ v x, ser_serialize (ds_serializer ds) v = Ok x → x ≠ "".
Hypothesis final : lenient ∨ recordable (ds_serializer ds) (txn_outcome func d0).
Notation r0 := (txn_outcome func d0).
Notation row_at := (ds_row (D:=D) ds key).
Notation unrun := (unrun (D:=D) ds key d0).
Notation settled := (settled (D:=D) ds lenient key func d0).
Notation Inv := (ds_inv (D:=D) ds lenient key func d0).
Notation good := (true_answer (D:=D) ds lenient func d0).
Notation tame := (tame (D:=D) ds lenient func d0).

Lemma inv_same w w' : ds_get ds w' = ds_get ds w → Forall tame (ds_schedule ds w') → Inv w → Inv w'.
Proof. intros Hg Hs [Hw _]. split; [|done]. unfold Datasources.unrun, Datasources.settled, ds_row in *. by rewrite Hg. Qed.

Lemma good_same r w w' : ds_get ds w' = ds_get ds w → good r w → good r w'.
Proof. unfold true_answer. by intros ->. Qed.

Lemma unrun_same w w' : ds_get ds w' = ds_get ds w → unrun w → unrun w'.
Proof. unfold Datasources.unrun, ds_row. by intros ->. Qed.

Lemma tame_tail w : Forall tame (ds_schedule ds w) → Forall tame (tail (ds_schedule ds w)).
Proof. destruct (ds_schedule ds w); [done|]. by intros [_ Hs]%Forall_cons. Qed.

Lemma tame_head w f : Forall tame (ds_schedule ds w) → head (ds_schedule ds w) = Some f → tame f.
Proof. destruct (ds_schedule ds w); [done|]. by intros [Hf _]%Forall_cons [= <-]. Qed.

(** A failed transaction, and a wait, leave everything as it was. *)
Lemma inv_failed {A} (m : Z → SM (ds_db D) pyexn A) w w' :
  ds_schedule ds w' = tail (ds_schedule ds w) → ds_get ds w' = ds_get ds w → Inv w → Inv w'.
Proof. intros Hs Hg HI. apply (inv_same w); [done| |done]. rewrite Hs. apply tame_tail, HI. Qed.

Lemma inv_sleep q w : Inv w → Inv (sleep q w).
Proof. intros HI. apply (inv_same w); [apply ds_get_sleep|rewrite ds_schedule_sleep; apply HI|done]. Qed.

(** *** What is recorded is read back *)

Lemma replay_output_back v x n created :
  serialize_value v None (ds_serializer ds) = Ok (x, n) →
  replay_recorded ds (row_result (MkDsOutput (Some x) None (Some n) created)) = Ok v.
Proof.
  intros Hs. assert (n = ser_name (ds_serializer ds)) as -> by (by eapply serialize_value_as_name).
  unfold replay_recorded, row_result. cbn [rr_error rr_output rr_serialization do_error do_output do_serialization nonempty].
  rewrite (serialize_then_deserialize _ v _ x _ honest reads_back Hs). by apply canonical_native.
Qed.

Lemma replay_error_back e x n created :
  serialize_exception e None (ds_serializer ds) = Ok (x, n) →
  replay_recorded ds (row_result (MkDsOutput None (Some x) (Some n) created)) = Err e.
Proof.
  intros Hs. pose proof (serialize_exception_name _ e None x n Hs) as Hn. change (n = ser_name (ds_serializer ds)) in Hn.
  pose proof (native_exception_back _ e None x n honest reads_back Hs ltac:(congruence)) as Hback.
  assert (x ≠ "") as Hx.
  { unfold serialize_exception in Hs. simpl (Some (default _ None)) in Hs.
    rewrite (bool_decide_eq_false_2 (Some _ = _)) in Hs by congruence.
    unfold serialize_value_as, named in Hs. destruct (select_serializer _ _) as [s|] eqn:Hsel; [|done].
    rewrite own_serializer in Hsel by (done || by right). injection Hsel as <-.
    destruct (ser_serialize _ (PExn e)) as [t|] eqn:Ht; [|done]. injection Hs as -> _. by eapply nonblank. }
  unfold replay_recorded, row_result. cbn [rr_error rr_output rr_serialization do_error do_output do_serialization].
  by rewrite (nonempty_some x Hx), Hback.
Qed.

Lemma replay_error_row x n created : ∃ e, replay_recorded ds (row_result (MkDsOutput None (Some x) n created)) = Err e.
Proof.
  unfold replay_recorded. simpl. case_bool_decide; [by eexists|]. destruct (deserialize_exception _ _ _); by eexists.
Qed.

(** *** An attempt *)

Lemma tx_body_taken now a row : datasource_outputs a !! key = Some row → ∃ a' e, tx_body ds (Some key) func now a = (a', Err e).
Proof.
  intros Hr. unfold tx_body, mbind, SM_bind, zoom. destruct (func (ds_data a)) as [d [v|e]]; [|by eexists _, _].
  destruct key as [wid sid]. unfold lift_res. destruct (serialize_value v None (ds_serializer ds)) as [[x n]|e]; [|by eexists _, _].
  unfold insert_result, sql_insert. simpl. rewrite Hr. by eexists _, _.
Qed.

Lemma tx_body_unrun now a : datasource_outputs a !! key = None → ds_data a = d0 →
  match tx_body ds (Some key) func now a with
  | (a', Ok v) => r0 = Ok v ∧ ds_data a' = txn_data func d0 ∧
      ∃ row, datasource_outputs a' !! key = Some row ∧ replay_recorded ds (row_result row) = r0
  | (_, Err e) => r0 = Err e ∨ lenient
  end.
Proof.
  intros Hr Hd. unfold tx_body, mbind, SM_bind, zoom. rewrite Hd. unfold txn_outcome, txn_data in *.
  destruct (func d0) as [d [v|e]]; cbn [fst snd is_ok] in *; [|by left].
  destruct key as [wid sid]. unfold lift_res. destruct (serialize_value v None (ds_serializer ds)) as [[x n]|e] eqn:Hs.
  - unfold insert_result, sql_insert. simpl. rewrite Hr. split_and!; [done|done|]. eexists. split; [apply lookup_insert_eq|].
    by apply replay_output_back.
  - right. destruct final as [Hl|Hf]; [done|]. simpl in Hf. by rewrite Hs in Hf.
Qed.

(** The attempt commits the outcome; or it fails, and the function has not taken effect
    yet, or [lenient] allows for what happened. *)
Lemma attempt_spec w : Inv w → lenient ∨ unrun w →
  let '(w', r) := ds_txn ds (tx_body ds (Some key) func) w in
  Inv w' ∧ ds_schedule ds w' = tail (ds_schedule ds w) ∧
  match r with
  | Ok v => good (Ok v) w'
  | Err e => lenient ∨ unrun w' ∧ (r0 = Err e ∨ head (ds_schedule ds w) = Some (Some (Rejected e)) ∧ ds_retriable ds e = true)
  end.
Proof.
  intros HI Hu. pose proof HI as [Hcase Htame].
  destruct (ds_txn_cases ds (tx_body ds (Some key) func) w) as [Hs Hres].
  destruct (ds_txn ds (tx_body ds (Some key) func) w) as [w' r]. cbn [fst snd] in *.
  assert (∀ now x, tx_body ds (Some key) func now (ds_get ds w) = (ds_get ds w', Ok x) → Inv w' ∧ good (Ok x) w') as Hcommit.
  { intros now x Hm. destruct Hcase as [[Hn Hd]|(row & Hrow & _)].
    - pose proof (tx_body_unrun now (ds_get ds w) Hn Hd) as Hb. rewrite Hm in Hb. destruct Hb as (Hx & Hdata & row & Hrow & Hback).
      split; [|by left; rewrite Hx]. split; [|rewrite Hs; by apply tame_tail]. right. exists row. split; [done|]. by left.
    - destruct (tx_body_taken now _ row Hrow) as (a & e & Hb). congruence. }
  destruct Hres as [e Hh Hg|now a e Hm Hg|now x Hm|now x Hm Hh].
  - split; [by apply (inv_failed (tx_body ds (Some key) func) w)|]. split; [done|]. destruct Hu as [|Hu]; [by left|].
    destruct (tame_head w _ Htame Hh) as [|[Hr _]]; [by left|]. right. split; [by apply (unrun_same w)|by right].
  - split; [by apply (inv_failed (tx_body ds (Some key) func) w)|]. split; [done|]. destruct Hu as [|Hu]; [by left|].
    pose proof (tx_body_unrun now (ds_get ds w) (proj1 Hu) (proj2 Hu)) as Hb. rewrite Hm in Hb.
    destruct Hb as [Hb|]; [|by left]. right. split; [by apply (unrun_same w)|by left].
  - destruct (Hcommit now x Hm). by split_and!.
  - split; [by apply (Hcommit now x Hm)|]. split; [done|]. left. by destruct (tame_head w _ Htame Hh).
Qed.

(** *** The loops *)

(** The record of an error: refused, or it settles the step. *)
Lemma record_error_spec x n w : Inv w →
  (lenient ∨ unrun w ∧ ∃ e, r0 = Err e ∧ ∀ created, replay_recorded ds (row_result (MkDsOutput None (Some x) (Some n) created)) = Err e) →
  let '(w', r) := record_error ds key.1 key.2 x (Some n) w in
  Inv w' ∧ (lenient ∨ settled w' ∧ r = Ok tt ∧ ds_data (ds_get ds w') = d0).
Proof.
  intros HI Hknown. pose proof HI as [Hcase Htame]. unfold record_error.
  set (m := insert_result (D:=D) key.1 key.2 None (Some x) (Some n)).
  destruct (ds_txn_cases ds m w) as [Hs Hres]. destruct (ds_txn ds m w) as [w' r]. cbn [fst snd] in *.
  assert (∀ now x, m now (ds_get ds w) = (ds_get ds w', Ok x) → Inv w' ∧ (lenient ∨ settled w') ∧ ds_data (ds_get ds w') = ds_data (ds_get ds w)) as Hcommit.
  { intros now []. unfold m, insert_result, sql_insert. rewrite <- surjective_pairing.
    destruct (datasource_outputs (ds_get ds w) !! key) as [row|] eqn:Hrow; [done|]. intros [= Hg].
    assert (ds_data (ds_get ds w') = ds_data (ds_get ds w)) as Hd by (by rewrite <- Hg).
    assert (ds_data (ds_get ds w) = d0) as Hd0 by (destruct Hcase as [[_ ?]|(row & Hrow' & _)]; [done|unfold ds_row in Hrow'; congruence]).
    assert (settled w') as Hset.
    { eexists. split; [unfold ds_row; rewrite <- Hg; apply lookup_insert_eq|]. rewrite Hd, Hd0.
      destruct Hknown as [Hl|(_ & e & Hr0 & Hback)].
      - right. split; [done|]. split; [done|]. apply replay_error_row.
      - left. split; [by rewrite Hr0, Hback|]. unfold txn_data, txn_outcome in *. by rewrite Hr0. }
    split; [|by split; [right|]]. split; [by right|]. rewrite Hs. by apply tame_tail. }
  assert (lenient ∨ is_ok r0 = false) as Hraised.
  { destruct Hknown as [|(_ & e & -> & _)]; [by left|by right]. }
  destruct Hres as [e Hh Hg|now a e Hm Hg|now x' Hm|now x' Hm Hh].
  - split; [by apply (inv_failed m w)|]. left. destruct (tame_head w _ Htame Hh) as [|[_ Hok]]; [done|].
    destruct Hraised; [done|congruence].
  - split; [by apply (inv_failed m w)|]. left. destruct Hknown as [|([Hn _] & _)]; [done|]. exfalso. revert Hm.
    unfold m, insert_result, sql_insert. rewrite <- surjective_pairing. unfold ds_row in Hn. by rewrite Hn.
  - destruct (Hcommit now x' Hm) as (HI' & [Hl|Hset] & Hd); (split; [done|]); [by left|].
    destruct Hknown as [|([_ Hd0] & _)]; [by left|]. right. destruct x'. split_and!; [done|done|by rewrite Hd].
  - split; [by apply (Hcommit now x' Hm)|]. left. by destruct (tame_head w _ Htame Hh).
Qed.

Lemma record_and_raise_spec e w : Inv w → lenient ∨ unrun w ∧ r0 = Err e →
  ensures (record_and_raise ds (Some key) e) w Inv (λ r w', Inv w' ∧ good r w').
Proof.
  intros HI Hknown. unfold record_and_raise. rewrite (surjective_pairing key).
  assert (∀ (e' : pyexn) w', Inv w' → lenient → ensures (Returns (Err e')) w' Inv (λ r w', Inv w' ∧ good r w')) as Hlenient.
  { intros e' w' HI' Hl. apply ensures_returns; [done|]. split; [done|]. right. split; [done|by eexists]. }
  destruct (serialize_exception e None (ds_serializer ds)) as [[x n]|e'] eqn:Hs.
  - rewrite bind_returns. apply ensures_bind. pose proof (record_error_spec x n w HI) as Hrec.
    destruct (record_error ds key.1 key.2 x (Some n) w) as [w1 r1] eqn:Hr.
    destruct Hrec as [HI1 Hset]; [destruct Hknown as [|[Hu Hr0]]; [by left|right]; split; [done|]; exists e; split; [done|];
      intros; by apply replay_error_back|].
    apply ensures_act; rewrite ?Hr; cbn [fst snd]; [done..|].
    destruct Hset as [Hl|(Hset & -> & Hd)].
    + destruct r1; [by apply Hlenient|]. split_and!; [done..|]. right. split; [done|by eexists].
    + apply ensures_returns; [done|]. split; [done|]. destruct Hknown as [Hl|[_ Hr0]]; [right; split; [done|by eexists]|].
      left. split; [done|]. unfold txn_data, txn_outcome in *. by rewrite Hr0.
  - apply (Hlenient e' w HI). destruct Hknown as [|[_ Hr0]]; [done|]. destruct final as [|Hf]; [done|].
    rewrite Hr0 in Hf. simpl in Hf. rewrite Hs in Hf. by destruct Hf.
Qed.

Lemma tx_loop_spec tries wait w : Inv w → lenient ∨ unrun w →
  ensures (tx_loop ds tries wait (Some key) func) w Inv (λ r w', Inv w' ∧ good r w').
Proof.
  revert wait w. induction tries as [|tries IH]; intros wait w HI Hu; [by apply ensures_waits|].
  cbn [tx_loop]. apply ensures_and_then. pose proof (attempt_spec w HI Hu) as Ha.
  destruct (ds_txn ds (tx_body ds (Some key) func) w) as [w1 r1] eqn:Htx. destruct Ha as (HI1 & _ & Hr).
  apply ensures_act; rewrite ?Htx; cbn [fst snd]; [done..|]. destruct r1 as [v|e]; [by apply ensures_returns|].
  assert (lenient ∨ unrun w1 ∧ (r0 = Err e ∨ ds_retriable ds e = true)) as Hr' by (destruct Hr as [|[? [?|[_ ?]]]]; auto).
  destruct (ds_retriable ds e) eqn:Hretry.
  - apply ensures_bind, ensures_act; [done|by apply inv_sleep|]. apply IH; [by apply inv_sleep|].
    destruct Hr' as [|[Hu1 _]]; [by left|right]. apply (unrun_same w1); [apply ds_get_sleep|done].
  - destruct (is_Exception e) eqn:He.
    + apply record_and_raise_spec; [done|]. destruct Hr' as [|[? [?|?]]]; [by left|by right|done].
    + apply ensures_returns; [done|]. split; [done|]. destruct Hr' as [Hl|[[_ Hd] [Hr0|?]]]; [right; split; [done|by eexists]| |done].
      left. split; [done|]. unfold txn_data, txn_outcome in *. by rewrite Hr0.
Qed.

(** What the search for a recorded result comes to. *)
Lemma check_spec tries wait w : Inv w →
  ensures (check_execution_with_retry ds tries wait key.1 key.2) w Inv (λ r w', Inv w' ∧
    match r with
    | Ok None => unrun w'
    | Ok (Some recorded) => good (replay_recorded ds recorded) w'
    | Err _ => lenient
    end).
Proof.
  revert wait w. induction tries as [|tries IH]; intros wait w HI; [by apply ensures_waits|].
  cbn [check_execution_with_retry]. apply ensures_and_then. unfold check_execution.
  set (m := λ (_ : Z) (a : ds_db D), _). pose proof HI as [Hcase Htame].
  destruct (ds_txn_cases ds m w) as [Hs Hres]. destruct (ds_txn ds m w) as [w1 r1] eqn:Htx. cbn [fst snd] in *.
  assert (ds_get ds w1 = ds_get ds w) as Hg by (destruct Hres as [| | |]; [done|done|unfold m in *; congruence..]).
  assert (Inv w1) as HI1 by (by apply (inv_failed m w)).
  apply ensures_act; rewrite ?Htx; cbn [fst snd]; [done..|].
  assert (∀ e, r1 = Err e → lenient ∨ ds_retriable ds e = true) as Hretry.
  { intros e ->. inversion Hres as [e' Hh|now a e' Hm| |now x Hm Hh]; subst; [|by unfold m in Hm|];
      destruct (tame_head w _ Htame Hh) as [|Hf]; by (left + (destruct Hf; right)). }
  destruct r1 as [recorded|e].
  - apply ensures_returns; [done|]. split; [done|].
    assert (recorded = row_to_result (ds_row ds key w)) as ->.
    { inversion Hres as [| |now x Hm|]; subst. unfold m in Hm. injection Hm as _ <-. unfold ds_row. by rewrite <- surjective_pairing. }
    destruct Hcase as [[Hn Hd]|(row & Hrow & Hset)].
    + rewrite Hn. by apply (unrun_same w).
    + rewrite Hrow. change (good (replay_recorded ds (row_result row)) w1). apply (good_same _ w); [done|]. unfold true_answer.
      destruct Hset as [[-> ->]|(Hl & _ & e & Hback)]; [by left|]. right. split; [done|]. by exists e.
  - destruct (ds_retriable ds e) eqn:He.
    + apply ensures_bind, ensures_act; [done|by apply inv_sleep|]. by apply IH, inv_sleep.
    + apply ensures_returns; [done|]. split; [done|]. destruct (Hretry e eq_refl); [done|congruence].
Qed.

Lemma body_spec tries inner w : Inv w → key = (cx_workflow_id inner, cx_curr_step_function_id inner) →
  ensures (body ds true tries func inner) w Inv (λ r w', Inv w' ∧ good r w').
Proof.
  intros HI Hkey. unfold body. rewrite <- Hkey. pose proof (check_spec tries initial_wait w HI) as Hc.
  rewrite Hkey in Hc at 1 2. apply ensures_bind. eapply ensures_weaken; [done| |exact Hc].
  intros [[recorded|]|e] w' _ [HI' Hr].
  - by apply ensures_returns.
  - apply tx_loop_spec; [done|by right].
  - split_and!; [done..|]. right. split; [done|by eexists].
Qed.

(** *** Enough attempts *)

Lemma check_ends tries wait w : length (ds_schedule ds w) < tries →
  ∃ w' r, finish (check_execution_with_retry ds tries wait key.1 key.2) w = (w', Some r) ∧
    length (ds_schedule ds w') ≤ length (ds_schedule ds w).
Proof.
  revert wait w. induction tries as [|tries IH]; intros wait w Hlen; [lia|].
  cbn [check_execution_with_retry]. rewrite finish_and_then, finish_act. unfold check_execution.
  set (m := λ (_ : Z) (a : ds_db D), _). destruct (ds_txn_cases ds m w) as [Hs Hres].
  destruct (ds_txn ds m w) as [w1 r1]. cbn [fst snd] in *.
  assert (length (ds_schedule ds w1) ≤ length (ds_schedule ds w)) as Hle by (rewrite Hs; destruct (ds_schedule ds w); simpl; lia).
  destruct r1 as [recorded|e]; [by eexists _, _|]. destruct (ds_retriable ds e); [|by eexists _, _].
  assert (ds_schedule ds w ≠ []) as Hne.
  { intros Hnil. inversion Hres as [? Hh|? ? ? Hm| |? ? ? Hh]; [by rewrite Hnil in Hh|by unfold m in Hm|by rewrite Hnil in Hh]. }
  unfold mbind, process_bind. rewrite finish_and_then. unfold wait_to_retry. rewrite finish_act. cbn [fst snd modify].
  destruct (IH (next_wait wait) (sleep wait w1)) as (w' & r & Hf & Hl).
  - rewrite ds_schedule_sleep, Hs. destruct (ds_schedule ds w); [done|]. simpl in *. lia.
  - rewrite ds_schedule_sleep in Hl. exists w', r. split; [exact Hf|lia].
Qed.

Lemma record_and_raise_ends e w : ∃ w' r, finish (record_and_raise ds (Some key) e) w = (w', Some r).
Proof.
  unfold record_and_raise. rewrite (surjective_pairing key). destruct (serialize_exception _ _ _) as [[x n]|]; [|by eexists _, _].
  rewrite bind_returns. unfold mbind, process_bind. rewrite finish_and_then, finish_act.
  destruct (record_error ds key.1 key.2 x (Some n) w) as [w1 [[]|]]; by eexists _, _.
Qed.

Lemma tx_loop_ends tries wait w : ¬ lenient → (∀ e, r0 = Err e → ds_retriable ds e = false) →
  Inv w → unrun w → length (ds_schedule ds w) < tries →
  ∃ w' r, finish (tx_loop ds tries wait (Some key) func) w = (w', Some r).
Proof.
  intros Hstrict Hfin. revert wait w. induction tries as [|tries IH]; intros wait w HI Hu Hlen; [lia|].
  cbn [tx_loop]. rewrite finish_and_then, finish_act. pose proof (attempt_spec w HI (or_intror Hu)) as Ha.
  destruct (ds_txn ds (tx_body ds (Some key) func) w) as [w1 [v|e]]; cbn [fst snd] in *; [by eexists _, _|].
  destruct Ha as (HI1 & Hs & [|[Hu1 Hwhy]]); [done|]. destruct (ds_retriable ds e) eqn:Hretry.
  - destruct Hwhy as [Hr0|[Hh _]]; [by rewrite (Hfin e Hr0) in Hretry|].
    unfold mbind, process_bind. rewrite finish_and_then. unfold wait_to_retry. rewrite finish_act. cbn [fst snd modify].
    apply IH; [by apply inv_sleep|apply (unrun_same w1); [apply ds_get_sleep|done]|].
    rewrite ds_schedule_sleep, Hs. destruct (ds_schedule ds w); [done|]. simpl in *. lia.
  - destruct (is_Exception e); [apply record_and_raise_ends|by eexists _, _].
Qed.

Lemma body_ends tries inner w : ¬ lenient → (∀ e, r0 = Err e → ds_retriable ds e = false) →
  Inv w → key = (cx_workflow_id inner, cx_curr_step_function_id inner) → length (ds_schedule ds w) < tries →
  ∃ w' r, finish (body ds true tries func inner) w = (w', Some r).
Proof.
  intros Hstrict Hfin HI Hkey Hlen. unfold body. rewrite <- Hkey. destruct (check_ends tries initial_wait w Hlen) as (w1 & r1 & Hf & Hl).
  destruct (check_spec tries initial_wait w HI) as [Hal Hc]. destruct (Hc _ _ Hf) as [HI1 Hr].
  rewrite Hkey in Hf at 1 2. cbn [fst snd] in Hf. unfold mbind, process_bind. rewrite finish_and_then, Hf.
  destruct r1 as [[recorded|]|e]; [by eexists _, _| |by eexists _, _]. apply tx_loop_ends; [done..|lia].
Qed.

End never_twice.

(** *** The step *)

Lemma key_eq ctx : step_key ctx = (cx_workflow_id (step_context ctx), cx_curr_step_function_id (step_context ctx)).
Proof. by destruct ctx. Qed.

Lemma key_fid ctx : step_key ctx = (cx_workflow_id (step_context ctx), cx_function_id (step_context ctx)).
Proof. by destruct ctx. Qed.

Section tx_step.
Context {W D : Type} `{Host W, Codecs, !CodecLaws} (ds : datasource W D) `{!DatasourceLaws ds}.
Context (serializer : Serializer) (executor_id : string).
Context (lenient : Prop) (tries : nat) (ds_options : option DatasourceOptions) (fn : ds_function D) (d0 : D) (ctx : DBOSContext).
Hypothesis ds_honest : honest_name (ds_serializer ds).
Hypothesis ds_reads_back : round_trips (ds_serializer ds).
Hypothesis ds_not_portable : ser_name (ds_serializer ds) ≠ ser_name DBOSPortableJSON.
Hypothesis ds_nonblank : ∀ v x, ser_serialize (ds_serializer ds) v = Ok x → x ≠ "".
Hypothesis honest : honest_name serializer.
Hypothesis reads_back : round_trips serializer.
Hypothesis not_portable : ser_name serializer ≠ ser_name DBOSPortableJSON.
Hypothesis final : lenient ∨ ds_final ds (fn_call fn) d0 serializer.
Notation machine := (@machine W).
Hypothesis in_workflow : is_workflow ctx = true.
Hypothesis synchronous : fn_is_coroutine fn = false.

Notation name := (tx_step_name ds_options fn).
Notation key := (step_key ctx).
Notation call := (run_tx_step ds serializer executor_id tries ds_options fn ctx).2.
Notation r0 := (txn_outcome (fn_call fn) d0).
Notation Inv := (ds_inv (D:=D) ds lenient key (fn_call fn) d0).
Notation good := (true_answer (D:=D) ds lenient (fn_call fn) d0).
Notation SInv := (step_inv (D:=D) ds lenient key (fn_call fn) d0 serializer name).

Lemma tx_call_eq : call = Act (λ s, (s, intercept
  (and_then (outside (body ds true tries (fn_call fn) (step_context ctx)))
     (record_step_result serializer executor_id (step_context ctx) name (time_ms (m_world s))))
  (database (λ _, check_existing_result serializer (step_context ctx) name)))).
Proof.
  unfold run_tx_step, tx_step_name. destruct (parse_ds_options ds_options fn) as [nm iso] eqn:Hp. rewrite synchronous, in_workflow.
  unfold run_step. rewrite in_workflow. unfold step_context.
  destruct (snapshot_step_ctx false ctx) as [c1 c2] eqn:Hc. cbn [fst snd].
  rewrite invoke_step_eq; [done| |done]. injection Hc as <- _. by destruct ctx.
Qed.

Lemma record_unrecordable t r : ¬ recordable serializer r →
  ∃ e, record_step_result (W:=W) serializer executor_id (step_context ctx) name t r = Returns (Err e).
Proof.
  intros Hr. unfold record_step_result. destruct r as [v|e]; simpl in Hr.
  - destruct (serialize_value v None serializer); [by destruct Hr|by eexists].
  - assert (∀ P : process machine pyval, (is_Exception e = true → ∃ e', P = Returns (Err e')) →
      ∃ e', (if is_Exception e then P else Returns (Err e)) = Returns (Err e')) as Hif
      by (intros P HP; destruct (is_Exception e); [by apply HP|by eexists]).
    destruct e; try (by eexists); apply Hif; intros He;
      (destruct (serialize_exception _ None serializer); [by destruct Hr|by eexists]).
Qed.

Lemma call_answered s row : active (cx_workflow_id ctx) (m_db s) →
  operation_outputs (m_db s) !! key = Some row → oo_function_name row = name →
  finish call s = (s, Some (answer_of serializer row)) ∧ always call s (eq s).
Proof.
  intros Hact Ho Hn. rewrite tx_call_eq. rewrite key_fid in Ho.
  assert (active (cx_workflow_id (step_context ctx)) (m_db s)) as Hact' by (by destruct ctx).
  pose proof (check_existing_result_recorded serializer (step_context ctx) name s row Hact' Ho Hn) as Hc.
  assert (ensures (intercept
    (and_then (outside (body ds true tries (fn_call fn) (step_context ctx)))
       (record_step_result serializer executor_id (step_context ctx) name (time_ms (m_world s))))
    (database (λ _, check_existing_result serializer (step_context ctx) name))) s (eq s)
    (λ r s', r = answer_of serializer row ∧ s' = s)) as [Hal Hq].
  { unfold intercept, database. apply ensures_bind, ensures_act; [done|..]; rewrite Hc, machine_same_db; cbn [fst snd]; [done|].
    destruct (answer_of serializer row); [|done]. by apply ensures_returns. }
  split.
  - cbn [finish]. unfold intercept, mbind, process_bind in *. rewrite finish_and_then. unfold database.
    rewrite finish_act, Hc, machine_same_db. cbn [fst snd]. by destruct (answer_of serializer row).
  - intros [|n]; [done|]. cbn [run_for]. apply Hal.
Qed.

(** The body has ended with [r]: it is recorded, or cannot be. *)
Lemma record_spec t r s : SInv s → operation_outputs (m_db s) !! key = None → good r (m_world s) →
  ensures (record_step_result serializer executor_id (step_context ctx) name t r) s SInv (λ r s', good r (m_world s')) ∧
  (¬ lenient → ∃ s', finish (record_step_result serializer executor_id (step_context ctx) name t r) s = (s', Some r) ∧
     is_Some (operation_outputs (m_db s') !! key)).
Proof.
  intros HS Ho Hgood. pose proof HS as (Hact & HI & _).
  assert (recordable serializer r ∨ ¬ recordable serializer r) as [Hrec|Hrec].
  { destruct r as [v|e]; simpl; [destruct (is_ok _); [by left|by right]|].
    destruct (is_Exception e), (is_ok _); (by left) || (right; by intros []). }
  - assert (active (cx_workflow_id (step_context ctx)) (m_db s)) as Hact' by (by destruct ctx).
    pose proof Ho as Ho'. rewrite key_fid in Ho'.
    destruct (record_step_result_recordable serializer executor_id honest reads_back not_portable (step_context ctx) name t r s Hrec Hact' Ho')
      as (f & s' & row & Hf & Hs' & Hw & _ & Hck & Hn & Hans). rewrite <- key_fid in Hck. rewrite Hf.
    assert (operation_outputs (m_db s') !! key = Some row) as Hrow by (rewrite (proj1 Hck); apply lookup_insert_eq).
    assert (SInv s') as HS'.
    { split_and!.
      - eapply active_goes_on; [|exact Hact]. by eapply checkpointed_goes_on.
      - by rewrite Hw.
      - intros row' Hrow'. assert (row' = row) as -> by congruence. split; [done|]. by rewrite Hans, Hw. }
    split.
    + split; [intros [|n]; simpl; [done|by rewrite Hs']|]. intros w' r'. simpl. rewrite Hs'. intros [= <- <-]. by rewrite Hw.
    + intros _. simpl. rewrite Hs'. exists s'. split; [done|by exists row].
  - destruct (record_unrecordable t r Hrec) as [e ->].
    assert (lenient) as Hl.
    { destruct Hgood as [[-> _]|[Hl _]]; [|done]. destruct final as [|(_ & Hr & _)]; done. }
    split; [|done]. apply ensures_returns; [done|]. right. split; [done|by eexists].
Qed.

Lemma call_spec s : SInv s → ensures call s SInv (λ r s', good r (m_world s')).
Proof.
  intros HS. pose proof HS as (Hact & HI & Hck). destruct (operation_outputs (m_db s) !! key) as [row|] eqn:Ho.
  - destruct (Hck row eq_refl) as [Hn Hgood]. destruct (call_answered s row Hact Ho Hn) as [Hf Hal]. split.
    + eapply always_weaken; [|exact Hal]. by intros s' <-.
    + intros s' r. rewrite Hf. by intros [= <- <-].
  - rewrite tx_call_eq. pose proof Ho as Ho'. rewrite key_fid in Ho'.
    assert (active (cx_workflow_id (step_context ctx)) (m_db s)) as Hact' by (by destruct ctx).
    assert (ensures (intercept
      (and_then (outside (body ds true tries (fn_call fn) (step_context ctx)))
         (record_step_result serializer executor_id (step_context ctx) name (time_ms (m_world s))))
      (database (λ _, check_existing_result serializer (step_context ctx) name))) s SInv (λ r s', good r (m_world s'))) as Hrun.
    { unfold intercept, database. apply ensures_bind, ensures_act; [done|..];
        rewrite (check_existing_result_free serializer (step_context ctx) name (m_db s) Hact' Ho'), machine_same_db; cbn [fst snd]; [done|].
      apply ensures_and_then, ensures_outside.
      assert (lenient ∨ recordable (ds_serializer ds) r0) as Hfin by (destruct final as [|[? _]]; auto).
      eapply ensures_weaken; [| |exact (body_spec ds lenient key (fn_call fn) d0 ds_honest ds_reads_back ds_not_portable ds_nonblank Hfin tries
        (step_context ctx) (m_world s) HI (key_eq ctx))].
      - intros w HIw. split; [done|]. split; [done|]. simpl. by rewrite Ho.
      - intros r w _ [HIw Hgood]. apply record_spec; [|done|done]. split; [done|]. split; [done|]. simpl. by rewrite Ho. }
    destruct Hrun as [Hal Hq]. split; [intros [|n]; [done|]; apply Hal|]. intros s' r. cbn [finish]. apply Hq.
Qed.

Lemma call_quiet s : ¬ lenient → SInv s → length (ds_schedule ds (m_world s)) < tries →
  ∃ s', finish call s = (s', Some r0) ∧ is_Some (operation_outputs (m_db s') !! key).
Proof.
  intros Hstrict HS Hlen. pose proof HS as (Hact & HI & Hck). destruct (call_spec s HS) as [_ Hq].
  destruct final as [|Hfinal]; [done|]. destruct Hfinal as (Hr1 & Hr2 & Hnot).
  assert (∃ s' r, finish call s = (s', Some r) ∧ is_Some (operation_outputs (m_db s') !! key)) as (s' & r & Hf & Hsome).
  { destruct (operation_outputs (m_db s) !! key) as [row|] eqn:Ho.
    - destruct (Hck row eq_refl) as [Hn _]. destruct (call_answered s row Hact Ho Hn) as [Hf _]. eexists _, _. split; [done|by exists row].
    - pose proof Ho as Ho'. rewrite key_fid in Ho'.
      assert (active (cx_workflow_id (step_context ctx)) (m_db s)) as Hact' by (by destruct ctx).
      destruct (body_ends ds lenient key (fn_call fn) d0 ds_honest ds_reads_back ds_not_portable (or_intror Hr1) tries
        (step_context ctx) (m_world s) Hstrict Hnot HI (key_eq ctx) Hlen) as (w & r & Hf).
      destruct (body_spec ds lenient key (fn_call fn) d0 ds_honest ds_reads_back ds_not_portable ds_nonblank (or_intror Hr1) tries
        (step_context ctx) (m_world s) HI (key_eq ctx)) as [_ Hb]. destruct (Hb _ _ Hf) as [HIw Hgood].
      destruct (record_spec (time_ms (m_world s)) r (s <| m_world := w |>)) as [_ Hrec]; [split; [done|]; split; [done|]; simpl; by rewrite Ho|done|done|].
      destruct (Hrec Hstrict) as (s' & Hf' & Hsome). exists s', r. split; [|done]. rewrite tx_call_eq. cbn [finish].
      unfold intercept, mbind, process_bind. rewrite finish_and_then. unfold database. rewrite finish_act.
      rewrite (check_existing_result_free serializer (step_context ctx) name (m_db s) Hact' Ho'), machine_same_db. cbn [fst snd].
      rewrite finish_and_then. unfold outside. rewrite finish_within by (done || by intros []). by rewrite Hf. }
  exists s'. split; [|done]. rewrite Hf. destruct (Hq _ _ Hf) as [[-> _]|[]]; done.
Qed.

Lemma step_inv_crash s d w :
  SInv s → undisturbed (cx_workflow_id ctx) (m_db s) d → ds_get ds w = ds_get ds (m_world s) →
  Forall (tame ds lenient (fn_call fn) d0) (ds_schedule ds w) → SInv (crash (s <| m_db := d |> <| m_world := w |>)).
Proof.
  intros (Hact & HI & Hck) [Hr Ho] Hw Hs. split_and!.
  - unfold active in *. simpl. by rewrite Hr.
  - simpl. by apply (inv_same ds lenient key (fn_call fn) d0 (m_world s)).
  - simpl. intros row Hrow. unfold step_key in Hrow. rewrite Ho in Hrow. destruct (Hck row Hrow). split; [done|]. by apply (good_same ds lenient (fn_call fn) d0 _ (m_world s)).
Qed.

Lemma step_inv_interrupted (T : list (option ds_fault) → Prop) s s' :
  (∀ fs, T fs → Forall (tame ds lenient (fn_call fn) d0) fs) →
  ds_interrupted ds T (cx_workflow_id ctx) call s s' → SInv s → SInv s'.
Proof.
  intros HT. induction 1 as [s|s n s1 d w s' -> Hd Hw Hfs _ IH]; [done|]. intros HS. apply IH, step_inv_crash; [|done..|by apply HT].
  by apply call_spec.
Qed.

End tx_step.

(** A transaction that nothing happens to, and one whose commit is not heard of. *)
Section commit_unheard.
Context {W D : Type} `{Host W, Codecs, !CodecLaws} (ds : datasource W D) `{!DatasourceLaws ds}.

Lemma ds_txn_served {A} (m : Z → SM (ds_db D) pyexn A) w :
  head (ds_schedule ds w) = None ∨ head (ds_schedule ds w) = Some None →
  let w1 := ds_reschedule ds (tail (ds_schedule ds w)) w in
  ds_txn ds m w = match m (now_ms w1) (ds_get ds w) with (a, Ok x) => (ds_put ds a w1, Ok x) | (_, Err e) => (w1, Err e) end.
Proof.
  intros Hh. unfold ds_txn. cbv zeta. rewrite ds_get_reschedule. destruct (m _ _) as [a [x|e]]; by destruct Hh as [-> | ->].
Qed.

Lemma ds_txn_unheard {A} (m : Z → SM (ds_db D) pyexn A) w : head (ds_schedule ds w) = Some (Some Unheard) →
  let w1 := ds_reschedule ds (tail (ds_schedule ds w)) w in
  ds_txn ds m w = match m (now_ms w1) (ds_get ds w) with (a, Ok _) => (ds_put ds a w1, Err connection_lost) | (_, Err e) => (w1, Err e) end.
Proof. intros Hh. unfold ds_txn. cbv zeta. rewrite ds_get_reschedule, Hh. by destruct (m _ _) as [a [x|e]]. Qed.

Context (key : string * Z) (func : SM D pyexn pyval).

(** An attempt where the step is recorded already, on data the function can be run on: the
    insert is refused, and so is the one that records the refusal. *)
Lemma tx_body_refused now a row : repeatable ds func (ds_data a) → datasource_outputs a !! key = Some row →
  recordable (ds_serializer ds) (Err UniqueViolation) → ds_is_serialization_error ds UniqueViolation = false →
  ∃ a' e, tx_body ds (Some key) func now a = (a', Err e) ∧ recordable (ds_serializer ds) (Err e) ∧ ds_retriable ds e = false.
Proof.
  unfold repeatable, txn_outcome. intros [Hrec Hnot] Hr Huv Hser. unfold tx_body, mbind, SM_bind, zoom. destruct (func (ds_data a)) as [d [v|e]]; cbn [fst snd] in *.
  - destruct key as [wid sid]. unfold lift_res. simpl in Hrec. destruct (serialize_value v None (ds_serializer ds)) as [[x n]|e]; [|done].
    unfold insert_result, sql_insert. simpl. rewrite Hr. eexists _, UniqueViolation. split_and!; [done|by apply Huv..|].
    unfold ds_retriable. simpl. by rewrite Hser.
  - eexists _, e. split_and!; [done|by apply Hrec..|by apply Hnot].
Qed.

Lemma tx_loop_refused tries wait w row : repeatable ds func (ds_data (ds_get ds w)) →
  ds_row ds key w = Some row → ds_schedule ds w = [] →
  recordable (ds_serializer ds) (Err UniqueViolation) → ds_is_serialization_error ds UniqueViolation = false →
  ∃ w', finish (tx_loop ds (S tries) wait (Some key) func) w = (w', Some (Err UniqueViolation)) ∧ ds_get ds w' = ds_get ds w.
Proof.
  intros Hrep Hrow Hs Huv Hser. cbn [tx_loop]. rewrite finish_and_then, finish_act, ds_txn_served by (rewrite Hs; by left). cbv zeta.
  set (w1 := ds_reschedule ds (tail (ds_schedule ds w)) w).
  destruct (tx_body_refused (now_ms w1) (ds_get ds w) row Hrep Hrow Huv Hser) as (a & e & -> & Hrec & Hnot). cbn [fst snd].
  simpl in Hrec. destruct Hrec as [He Hrec]. rewrite Hnot, He. unfold record_and_raise. rewrite (surjective_pairing key).
  destruct (serialize_exception e None (ds_serializer ds)) as [[x n]|]; [|done]. rewrite bind_returns.
  unfold mbind, process_bind. rewrite finish_and_then, finish_act. unfold record_error.
  assert (ds_schedule ds w1 = []) as Hs1 by (unfold w1; by rewrite ds_schedule_reschedule, Hs).
  rewrite ds_txn_served by (rewrite Hs1; by left). cbv zeta. unfold insert_result, sql_insert.
  assert (ds_get ds w1 = ds_get ds w) as Hg by apply ds_get_reschedule. rewrite Hg.
  unfold ds_row in Hrow. rewrite <- surjective_pairing, Hrow. cbn [fst snd finish]. eexists. split; [done|].
  by rewrite ds_get_reschedule.
Qed.

(** The search that finds nothing, and the attempt whose commit is not heard of. *)
Lemma check_finds_nothing tries wait w : ds_row ds key w = None → head (ds_schedule ds w) = Some None →
  ∃ w', finish (check_execution_with_retry ds (S tries) wait key.1 key.2) w = (w', Some (Ok None)) ∧
    ds_get ds w' = ds_get ds w ∧ ds_schedule ds w' = tail (ds_schedule ds w).
Proof.
  intros Hr Hs. cbn [check_execution_with_retry]. rewrite finish_and_then, finish_act. unfold check_execution.
  rewrite ds_txn_served by (by right). cbv zeta. cbn [fst snd]. unfold ds_row in Hr. rewrite <- surjective_pairing, Hr. cbn [row_to_result].
  eexists. split; [done|]. by rewrite ds_get_put, ds_schedule_put, ds_schedule_reschedule.
Qed.

Lemma tx_body_commits now a d1 v x n : func (ds_data a) = (d1, Ok v) →
  serialize_value v None (ds_serializer ds) = Ok (x, n) → datasource_outputs a !! key = None →
  ∃ a', tx_body ds (Some key) func now a = (a', Ok v) ∧ ds_data a' = d1 ∧
    datasource_outputs a' !! key = Some (MkDsOutput (Some x) None (Some n) now).
Proof.
  intros Hf Hser Hr. unfold tx_body, mbind, SM_bind, zoom. rewrite Hf. destruct key as [wid sid]. unfold lift_res. rewrite Hser.
  unfold insert_result, sql_insert. simpl. rewrite Hr. eexists. split_and!; [done|done|apply lookup_insert_eq].
Qed.

Lemma tx_loop_unheard tries wait w d1 v x n : func (ds_data (ds_get ds w)) = (d1, Ok v) →
  serialize_value v None (ds_serializer ds) = Ok (x, n) → ds_row ds key w = None → ds_schedule ds w = [Some Unheard] →
  ∃ w1 created, finish (tx_loop ds (S tries) wait (Some key) func) w = finish (tx_loop ds tries (next_wait wait) (Some key) func) w1 ∧
    ds_data (ds_get ds w1) = d1 ∧ ds_row ds key w1 = Some (MkDsOutput (Some x) None (Some n) created) ∧ ds_schedule ds w1 = [].
Proof.
  intros Hf Hser Hr Hs. cbn [tx_loop]. rewrite finish_and_then, finish_act, ds_txn_unheard by (by rewrite Hs). cbv zeta.
  set (w0 := ds_reschedule ds (tail (ds_schedule ds w)) w).
  destruct (tx_body_commits (now_ms w0) (ds_get ds w) d1 v x n Hf Hser Hr) as (a' & -> & Hd & Hrow). cbn [fst snd].
  change (ds_retriable ds connection_lost) with true. cbv iota. unfold mbind, process_bind. rewrite finish_and_then.
  unfold wait_to_retry. rewrite finish_act. cbn [fst snd modify].
  eexists _, (now_ms w0). split; [done|]. unfold ds_row. rewrite ds_get_sleep, ds_get_put, ds_schedule_sleep, ds_schedule_put.
  split; [done|]. split; [done|]. unfold w0. by rewrite ds_schedule_reschedule, Hs.
Qed.

End commit_unheard.

(** The asynchronous datasource makes the same calls, and outside a workflow nothing is
    recorded. *)
Lemma run_tx_step_async_eq {W D : Type} `{Host W, Codecs} (ds : datasource W D) serializer executor_id tries ds_options (fn : ds_function D) ctx :
  fn_is_coroutine fn = true → fn_qualname fn ≠ "" →
  run_tx_step_async (W:=W) ds serializer executor_id tries ds_options fn ctx =
  run_tx_step ds serializer executor_id tries ds_options
    {| fn_qualname := fn_qualname fn; fn_is_coroutine := false; fn_call := fn_call fn |} ctx.
Proof.
  intros Hc Hq. unfold run_tx_step_async, run_tx_step, parse_ds_options. cbn [fn_qualname fn_is_coroutine fn_call]. rewrite Hc. simpl negb. cbv iota.
  destruct (is_workflow ctx) eqn:Hw; [|done]. unfold run_step. rewrite Hw.
  assert (is_workflow (snapshot_step_ctx false ctx).2 = true) as Hs.
  { unfold is_workflow in *. apply andb_true_iff in Hw as [Hw _]. apply andb_true_iff in Hw as [Hw _].
    destruct ctx. simpl in *. by rewrite Hw. }
  destruct (snapshot_step_ctx false ctx) as [c1 c2]. simpl in Hs. rewrite Hs.
  assert (default (fn_qualname fn) (nonempty (ds_options ≫= opt_name)) ≠ "") as Hn.
  { destruct (ds_options ≫= opt_name) as [x|]; simpl; [|done]. by case_bool_decide. }
  by rewrite (nonempty_some _ Hn).
Qed.

Lemma outside_unrecorded {W D : Type} `{Host W, Codecs, !CodecLaws} (ds : datasource W D) `{!DatasourceLaws ds} tries wait
    (func : SM D pyexn pyval) (w : W) :
  always (tx_loop ds tries wait None func) w (λ w', datasource_outputs (ds_get ds w') = datasource_outputs (ds_get ds w)).
Proof.
  set (P := λ w', datasource_outputs (ds_get ds w') = datasource_outputs (ds_get ds w)).
  assert (∀ w0, P w0 → ensures (tx_loop ds tries wait None func) w0 P (λ _ _, True)) as Hloop; [|by apply Hloop].
  revert wait. induction tries as [|tries IH]; intros wait w0 HP; [by apply ensures_waits|]. cbn [tx_loop].
  destruct (ds_txn_cases ds (tx_body ds None func) w0) as [_ Hres]. destruct (ds_txn ds _ w0) as [w1 r1] eqn:Htx. cbn [fst snd] in *.
  assert (P w1) as HP1.
  { unfold P in *. rewrite <- HP.
    assert (∀ now x a, tx_body ds None func now (ds_get ds w0) = (a, Ok x) → datasource_outputs a = datasource_outputs (ds_get ds w0)) as Hbody.
    { intros now x a. unfold tx_body, mbind, SM_bind, zoom. destruct (func _) as [d [v|e]]; [|done]. by intros [= <- _]. }
    destruct Hres as [e _ Hg|now a e _ Hg|now x Hm|now x Hm _]; [by rewrite Hg|by rewrite Hg|by eapply Hbody|by eapply Hbody]. }
  apply ensures_and_then, ensures_act; rewrite ?Htx; cbn [fst snd]; [done..|].
  destruct r1 as [v|e]; [by apply ensures_returns|]. destruct (ds_retriable ds e); [|by destruct (is_Exception e); apply ensures_returns].
  assert (P (sleep wait w1)) by (unfold P in *; by rewrite ds_get_sleep). by apply ensures_bind, ensures_act; [..|apply IH].
Qed.

(** ** Properties *)

(** C6: a transaction of a datasource takes effect at most once, and a value it answers is
    true. Whatever comes of its transactions (rolled back with any error, committed without
    an answer) and however often its execution is lost with its machine, at every moment of
    every execution the data is as it was or as one run of the function leaves it, and an
    execution that returns a value returns the function's, with its effects in the data. *)
Theorem tx_step_never_twice {W D : Type} `{Host W, Codecs, !CodecLaws} (ds : datasource W D) `{!DatasourceLaws ds}
    (serializer : Serializer) (executor_id : string) (tries : nat) (ds_options : option DatasourceOptions)
    (fn : ds_function D) (ctx : DBOSContext) (s0 s : machine (W:=W)) :
  faithful (ds_serializer ds) → faithful serializer →
  let call := (run_tx_step ds serializer executor_id tries ds_options fn ctx).2 in
  let data (s : machine (W:=W)) := ds_data (ds_get ds (m_world s)) in
  is_workflow ctx = true → fn_is_coroutine fn = false → active (cx_workflow_id ctx) (m_db s0) →
  operation_outputs (m_db s0) !! step_key ctx = None → ds_row ds (step_key ctx) (m_world s0) = None →
  ds_interrupted ds (λ _, True) (cx_workflow_id ctx) call s0 s →
  (∀ n, let s1 := (run_for n call s).1 in data s1 = data s0 ∨ data s1 = txn_data (fn_call fn) (data s0)) ∧
  (∀ s' v, finish call s = (s', Some (Ok v)) →
     txn_outcome (fn_call fn) (data s0) = Ok v ∧ data s' = txn_data (fn_call fn) (data s0)).
Proof.
  intros (Hh & Hb & Hp & Hne) (Hh' & Hb' & Hp' & _) call data Hw Hfn Ha Ho Hr Hint.
  assert (∀ f, tame ds True (fn_call fn) (data s0) f) as Htame by (by left).
  assert (step_inv ds True (step_key ctx) (fn_call fn) (data s0) serializer (tx_step_name ds_options fn) s) as HS.
  { eapply (step_inv_interrupted ds serializer executor_id True tries ds_options fn (data s0) ctx Hh Hb Hp Hne Hh' Hb' Hp'
      (or_introl I) Hw Hfn (λ _, True)); [intros fs _; by apply Forall_forall|exact Hint|].
    split; [done|]. split; [|intros row Hrow; congruence]. split; [by left|by apply Forall_forall]. }
  destruct (call_spec ds serializer executor_id True tries ds_options fn (data s0) ctx Hh Hb Hp Hne Hh' Hb' Hp' (or_introl I) Hw Hfn s HS) as [Hal Hq].
  split.
  - intros n s1. destruct (Hal n) as (_ & [[[_ Hd]|(row & _ & [[_ Hd]|(_ & Hd & _)])] _] & _); [by left|by right|by left].
  - intros s' v Hf. destruct (Hq _ _ Hf) as [[Hv Hd]|[_ [e He]]]; [by rewrite <- Hv|done].
Qed.

(** C5: a transaction of a datasource takes effect exactly once. However often its
    execution is lost with its machine, after any number of actions and in particular
    between the commit and the checkpoint of the step, and however often its transactions
    are rolled back with an error that is tried again for, an execution with enough
    attempts returns the outcome of the function on the data as it was, the data has the
    effects of one run of it (none, if it raised), and a further execution answers the same
    and changes nothing. *)
Theorem tx_step_exactly_once {W D : Type} `{Host W, Codecs, !CodecLaws} (ds : datasource W D) `{!DatasourceLaws ds}
    (serializer : Serializer) (executor_id : string) (tries : nat) (ds_options : option DatasourceOptions)
    (fn : ds_function D) (ctx : DBOSContext) (s0 s : machine (W:=W)) :
  faithful (ds_serializer ds) → faithful serializer →
  let call := (run_tx_step ds serializer executor_id tries ds_options fn ctx).2 in
  let data (s : machine (W:=W)) := ds_data (ds_get ds (m_world s)) in
  let rejections := Forall (tame ds False (fn_call fn) (data s0)) in
  is_workflow ctx = true → fn_is_coroutine fn = false → active (cx_workflow_id ctx) (m_db s0) →
  operation_outputs (m_db s0) !! step_key ctx = None → ds_row ds (step_key ctx) (m_world s0) = None →
  ds_final ds (fn_call fn) (data s0) serializer → rejections (ds_schedule ds (m_world s0)) →
  ds_interrupted ds rejections (cx_workflow_id ctx) call s0 s → length (ds_schedule ds (m_world s)) < tries →
  ∃ s', finish call s = (s', Some (txn_outcome (fn_call fn) (data s0))) ∧
    data s' = txn_data (fn_call fn) (data s0) ∧ finish call s' = (s', Some (txn_outcome (fn_call fn) (data s0))).
Proof.
  intros (Hh & Hb & Hp & Hne) (Hh' & Hb' & Hp' & _) call data rejections Hw Hfn Ha Ho Hr Hfin Hs Hint Hlen.
  assert (step_inv ds False (step_key ctx) (fn_call fn) (data s0) serializer (tx_step_name ds_options fn) s) as HS.
  { eapply (step_inv_interrupted ds serializer executor_id False tries ds_options fn (data s0) ctx Hh Hb Hp Hne Hh' Hb' Hp'
      (or_intror Hfin) Hw Hfn rejections); [done|exact Hint|].
    split; [done|]. split; [|intros row Hrow; congruence]. split; [by left|done]. }
  destruct (call_quiet ds serializer executor_id False tries ds_options fn (data s0) ctx Hh Hb Hp Hne Hh' Hb' Hp' (or_intror Hfin) Hw Hfn s
    ltac:(tauto) HS Hlen) as (s' & Hf & [row Hrow]).
  destruct (call_spec ds serializer executor_id False tries ds_options fn (data s0) ctx Hh Hb Hp Hne Hh' Hb' Hp' (or_intror Hfin) Hw Hfn s HS) as [Hal Hq].
  pose proof (always_finish _ _ _ _ _ Hal Hf) as (Hact & _ & Hck). destruct (Hck row Hrow) as [Hn Hgood].
  exists s'. split; [done|]. split; [by destruct (Hq _ _ Hf) as [[_ Hd]|[[] _]]|].
  destruct (call_answered ds serializer executor_id tries ds_options fn ctx Hw Hfn s' row Hact Hrow Hn) as [Hf' _].
  unfold call. rewrite Hf'. by destruct Hgood as [[-> _]|[[] _]].
Qed.

(** C40: a commit that is not heard of. The search for a recorded result finds nothing, the
    transaction of the function commits and its connection is lost before the answer. The
    loop runs the function again, now on the data with its effects, and the record of its
    output is refused by the primary key of [datasource_outputs]; so is the record of that
    error. The step raises, and checkpoints, the violation: the workflow is answered an
    error for ever, while the data has the effects of the function and the datasource has
    its output recorded. ([decorate_transaction] looks for the record in every attempt.) *)
Theorem tx_step_commit_unheard {W D : Type} `{Host W, Codecs, !CodecLaws} (ds : datasource W D) `{!DatasourceLaws ds}
    (serializer : Serializer) (executor_id : string) (tries : nat) (ds_options : option DatasourceOptions)
    (fn : ds_function D) (ctx : DBOSContext) (s : machine (W:=W)) (d1 : D) (v : pyval) :
  faithful (ds_serializer ds) → faithful serializer →
  let call := (run_tx_step ds serializer executor_id (S (S tries)) ds_options fn ctx).2 in
  is_workflow ctx = true → fn_is_coroutine fn = false → active (cx_workflow_id ctx) (m_db s) →
  operation_outputs (m_db s) !! step_key ctx = None → ds_row ds (step_key ctx) (m_world s) = None →
  ds_schedule ds (m_world s) = [None; Some Unheard] →
  fn_call fn (ds_data (ds_get ds (m_world s))) = (d1, Ok v) → is_ok (serialize_value v None (ds_serializer ds)) = true →
  repeatable ds (fn_call fn) d1 → ds_is_serialization_error ds UniqueViolation = false →
  recordable (ds_serializer ds) (Err UniqueViolation) → recordable serializer (Err UniqueViolation) →
  ∃ s' row, finish call s = (s', Some (Err UniqueViolation)) ∧ finish call s' = (s', Some (Err UniqueViolation)) ∧
    ds_data (ds_get ds (m_world s')) = d1 ∧ ds_row ds (step_key ctx) (m_world s') = Some row ∧
    replay_recorded ds (row_result row) = Ok v.
Proof.
  intros (Hh & Hb & Hp & _) (Hh' & Hb' & Hp' & _) call Hw Hfn Ha Ho Hr Hs Hf Hok Hrep Hser Huv Huv'.
  destruct (serialize_value v None (ds_serializer ds)) as [[x n]|] eqn:Hx; [clear Hok|done].
  destruct (check_finds_nothing ds (step_key ctx) (S tries) initial_wait (m_world s) Hr) as (w1 & Hc & Hg1 & Hs1); [by rewrite Hs|].
  destruct (tx_loop_unheard ds (step_key ctx) (fn_call fn) (S tries) initial_wait w1 d1 v x n) as (w2 & created & Hl & Hd2 & Hr2 & Hs2);
    [by rewrite Hg1|done|unfold ds_row in *; by rewrite Hg1|by rewrite Hs1, Hs|].
  destruct (tx_loop_refused ds (step_key ctx) (fn_call fn) tries (next_wait initial_wait) w2 _ ltac:(by rewrite Hd2) Hr2 Hs2 Huv Hser)
    as (w3 & Hl' & Hg3). set (s3 := s <| m_world := w3 |>).
  set (sctx := step_context ctx). set (name := tx_step_name ds_options fn).
  assert (active (cx_workflow_id sctx) (m_db s)) as Ha' by (by destruct ctx).
  assert (operation_outputs (m_db s) !! (cx_workflow_id sctx, cx_function_id sctx) = None) as Ho' by (by destruct ctx).
  destruct (record_step_result_recordable serializer executor_id Hh' Hb' Hp' sctx name (time_ms (m_world s)) (Err UniqueViolation) s3 Huv' Ha' Ho')
    as (f & s' & row & Hrf & Hs' & Hws' & _ & Hck & Hn & Hans).
  assert (finish (body ds true (S (S tries)) (fn_call fn) sctx) (m_world s) = (w3, Some (Err UniqueViolation))) as Hbody.
  { rewrite (key_eq ctx) in Hc, Hl, Hl'. unfold body, mbind, process_bind. rewrite finish_and_then. cbn [fst snd] in Hc.
    fold sctx in Hc, Hl, Hl'. rewrite Hc. cbn [fst snd]. rewrite Hl.
    exact Hl'. }
  assert (finish call s = (s', Some (Err UniqueViolation))) as Hfin.
  { unfold call. rewrite tx_call_eq by done. cbn [finish]. unfold intercept, mbind, process_bind. rewrite finish_and_then. unfold database.
    rewrite finish_act, (check_existing_result_free serializer sctx name (m_db s) Ha' Ho'), machine_same_db. cbn [fst snd].
    rewrite finish_and_then. unfold outside. rewrite finish_within by (done || by intros []).
    change (step_context ctx) with sctx. rewrite Hbody. cbn [fst snd]. fold s3 name.
    rewrite Hrf. simpl. by rewrite Hs'. }
  assert (step_key ctx = (cx_workflow_id sctx, cx_function_id sctx)) as Hkey by (by destruct ctx).
  destruct (call_answered ds serializer executor_id (S (S tries)) ds_options fn ctx Hw Hfn s' row) as [Hagain _].
  - unfold active in *. destruct Hck as [_ Hrows]. destruct Ha as (r & Hwr & Hst). rewrite <- Hkey in Hrows.
    destruct (Hrows r Hwr) as (r' & Hr' & Hsame). exists r'. split; [done|]. by rewrite (same_but_executor_status executor_id r r').
  - rewrite (proj1 Hck), <- Hkey. apply lookup_insert_eq.
  - done.
  - rewrite Hans in Hagain. exists s', (MkDsOutput (Some x) None (Some n) created).
    unfold ds_row in *. rewrite Hws'. change (m_world s3) with w3. rewrite Hg3.
    split_and!; [done|done|done|exact Hr2|by apply replay_output_back].
Qed.

(** *** The account *)

Lemma violation_pickles v t : v ≠ PExn UniqueViolation → ser_serialize violation_serializer v = Ok t →
  ∃ t', t = String "p" t' ∧ @pickle_dumps sample_codecs v = Ok t'.
Proof.
  intros Hv Ht. assert (ser_serialize violation_serializer v =
    match @pickle_dumps sample_codecs v with Ok t => Ok (String "p" t) | Err e => Err e end) as Heq 
    by (destruct v as [| | | | | | | | | | | |[]|]; first [reflexivity|by destruct Hv]).
  rewrite Heq in Ht. destruct (@pickle_dumps sample_codecs v) as [t'|]; [|done]. injection Ht as <-. by exists t'.
Qed.

Lemma violation_faithful : @faithful sample_codecs violation_serializer.
Proof.
  assert (∀ v, v = PExn UniqueViolation ∨ v ≠ PExn UniqueViolation) as Hcase 
    by (intros [| | | | | | | | | | | |[]|]; first [left; reflexivity|right; discriminate]).
  split; [split; intros Hn; discriminate Hn|]. split; [|split; [discriminate|]]; intros v t Ht.
  - destruct (Hcase v) as [->|Hv]; [injection Ht as <-; reflexivity|].
    destruct (violation_pickles v t Hv Ht) as (t' & -> & Hp). exact (sample_reads_back _ _ Hp).
  - destruct (Hcase v) as [->|Hv]; [injection Ht as <-; discriminate|].
    destruct (violation_pickles v t Hv Ht) as (t' & -> & Hp). discriminate.
Qed.

Notation sample_vault := (@vault_ds sample_codecs violation_serializer).

(** The machine dies after a commit that it has not heard of. *)
Lemma tx_step_never_twice_witness :
  let s1 := (run_for 4 vault_call (vault_machine [None; Some Unheard])).1 in
  let s := crash (s1 <| m_db := m_db s1 |> <| m_world := m_world s1 |>) in
  let d := ds_data (vt_db (m_world (run_for 3 vault_call s).1)) in d = 100%Z ∨ d = 110%Z.
Proof.
  intros s1 s d.
  destruct (@tx_step_never_twice vault Z vault_host sample_codecs sample_laws sample_vault _ violation_serializer "exec" 4 None deposit_fn
    bank_ctx (vault_machine [None; Some Unheard]) s violation_faithful violation_faithful eq_refl eq_refl
    ltac:(eexists; split; [reflexivity|discriminate]) eq_refl eq_refl) as [Hd _].
  - eapply (ds_interrupted_again _ _ _ _ _ 4 s1 (m_db s1) (m_world s1)); [reflexivity|by split|reflexivity|exact I|]. constructor.
  - destruct (Hd 3) as [H|H]; [left; exact (eq_trans H eq_refl)|right; exact (eq_trans H eq_refl)].
Defined.

(** The machine dies between the commit and the checkpoint; the next execution meets a
    serialization failure. *)
Lemma tx_step_exactly_once_witness :
  let fs := [Some (Rejected serialization_failure)] in
  let s1 := (run_for 6 vault_call (vault_machine fs)).1 in
  let s := crash (s1 <| m_db := m_db s1 |> <| m_world := ds_reschedule sample_vault fs (m_world s1) |>) in
  operation_outputs (m_db s) !! step_key bank_ctx = None ∧ ds_data (vt_db (m_world s)) = 110%Z ∧
  ∃ s', finish vault_call s = (s', Some (Ok (PStr "deposited"))) ∧ ds_data (vt_db (m_world s')) = 110%Z.
Proof.
  intros fs s1 s. split; [vm_compute; reflexivity|]. split; [vm_compute; reflexivity|].
  assert (Forall (tame sample_vault False deposit 100%Z) fs) as Hfs by (constructor; [right; split; reflexivity|constructor]).
  destruct (@tx_step_exactly_once vault Z vault_host sample_codecs sample_laws sample_vault _ violation_serializer "exec" 4 None deposit_fn
    bank_ctx (vault_machine fs) s violation_faithful violation_faithful eq_refl eq_refl
    ltac:(eexists; split; [reflexivity|discriminate]) eq_refl eq_refl) as (s' & Hf & Hd & _).
  - split; [reflexivity|]. split; [reflexivity|]. intros e He. discriminate He.
  - exact Hfs.
  - eapply (ds_interrupted_again _ _ _ _ _ 6 s1 (m_db s1) (ds_reschedule sample_vault fs (m_world s1)));
      [reflexivity|split; reflexivity|apply ds_get_reschedule; exact _|rewrite ds_schedule_reschedule; exact Hfs|]. constructor.
  - vm_compute. lia.
  - exists s'. split; [exact Hf|exact Hd].
Defined.

Lemma tx_step_commit_unheard_witness :
  ∃ s', finish vault_call (vault_machine [None; Some Unheard]) = (s', Some (Err UniqueViolation)) ∧
    ds_data (vt_db (m_world s')) = 110%Z ∧ ∃ row, ds_row sample_vault ("w", 1%Z) (m_world s') = Some row.
Proof.
  destruct (@tx_step_commit_unheard vault Z vault_host sample_codecs sample_laws sample_vault _ violation_serializer "exec" 2 None deposit_fn
    bank_ctx (vault_machine [None; Some Unheard]) 110%Z (PStr "deposited") violation_faithful violation_faithful eq_refl eq_refl
    ltac:(eexists; split; [reflexivity|discriminate]) eq_refl eq_refl eq_refl eq_refl) as (s' & row & Hf & _ & Hd & Hr & _).
  - reflexivity.
  - split; [reflexivity|]. intros e He. discriminate He.
  - reflexivity.
  - split; reflexivity.
  - split; reflexivity.
  - exists s'. split; [exact Hf|]. split; [exact Hd|]. exists row. exact Hr.
Defined.
