(* ===== verification/DecoratedSchedules.v ===== *)
(** * Decorated schedules: [dbos/_scheduler_decorator.py]

    A function decorated with [scheduled] has a thread in every process, whose loop waits for
    the next time of its cron expression and enqueues the function on the internal queue,
    under a workflow ID made of the time, unless a workflow of that ID is there: of all
    processes one enqueues it. An exception of an execution is logged, and the loop goes on.
    The loop is a [call] of its thread; what others do while it waits, and whether it is
    stopped meanwhile, are the argument [wait]. *)
From Stdlib Require Import QArith Qminmax Ascii.
From S2P Require Import Prelude Errors Schema Retry Serialization Workflows Context Steps Queues Process Execution Durability Recovery Schedules Scopes Calls Operations Debouncing.
Open Scope nat_scope.

(** [DBOSRegistry.get_internal_queue] *)
Definition get_internal_queue : Queue := {|
  q_name := INTERNAL_QUEUE_NAME; q_concurrency := None; q_worker_concurrency := None; q_limiter := None;
  q_priority_enabled := false; q_partition_queue := false; q_polling_interval_ms := 1000;
  q_database_backed := false; q_client_bound := false;
|}.

(** A text between quotation marks. *)
Definition quoted (s : string) : string := String (ascii_of_nat 34) (s +:+ String (ascii_of_nat 34) EmptyString).

Section decorated.
Context {W : Type} `{Host W, Codecs, Cron} (serializer : Serializer) (executor_id app_id app_version : string).
Context (uuids : W → nat → string) (repr : string → string).
Notation machine := (@machine W).
Notation workflow_info := (@workflow_info W).

(** [random.uniform(0, m)]; the wait of some seconds, and whether the stop event was set;
    whether it is set. *)
Context (uniform : W → Q → Q) (wait : Q → machine → machine * bool) (stop_set : machine → bool).

(** [with SetWorkflowID(wfid):] *)
Definition within_workflow_id (wfid : string) {A} (body : call W A) : call W A := λ local,
  match validate_workflow_id repr (Some wfid) with
  | Err e => mret (local, Err e)
  | Ok _ =>
      let ctx := default (new_context executor_id app_id) local in
      '(inner, r) ← body (Some (ctx <| cx_id_assigned_for_next_workflow := wfid |> <| cx_is_within_set_workflow_id_block := true |>));
      mret (match local with Some _ => (λ c, c <| cx_is_within_set_workflow_id_block := false |>) <$> inner | None => None end, r)
  end.

(** The times are those of UTC. *)
Definition decorated_id (func_name : string) (t : Z) : string := "sched-" +:+ func_name +:+ "-" +:+ isoformat None t.

(** What the loop tries at the time of an execution. *)
Definition enqueue_decorated (info : workflow_info) (next_exec_time : Z) : call W unit :=
  let workflowID := decorated_id (wf_name info) next_exec_time in
  there ← waiting (database (λ _ d, (d, Ok (get_workflow_status d workflowID))));
  match there with
  | Some _ => mret tt
  | None =>
      latest ← waiting (database (λ _, engine_begin (v ← query get_latest_application_version; lift_res v)));
      within_workflow_id workflowID
        (within_settings executor_id app_id (MkEnqueue None None (Some (av_version_name latest.2)) None None)
          (now ← waiting (act (gets (λ s, time_ms (m_world s))));
           _ ← enqueue serializer executor_id app_id app_version uuids get_internal_queue info
                 {| args := [PDatetime next_exec_time; PDatetime now]; kwargs := [] |};
           mret tt))
  end.

(** [sleep_time + jitter], in seconds. *)
Definition time_to_wait (w : W) (next_exec_time : Z) : Q :=
  let sleep_time := Qmax 0 ((next_exec_time - time_ms w) # 1000) in
  (sleep_time + uniform w (Qmin (sleep_time / 10) 10))%Q.

(** The loop from the time [t] of its iterator on; [Waits] after [executions] of them. *)
Fixpoint decorator_loop (executions : nat) (info : workflow_info) (cron : string) (t : Z) : call W unit :=
  match executions with
  | O => λ _, Waits
  | S n =>
      stopped ← waiting (act (gets stop_set));
      if stopped : bool then mret tt
      else
        next_exec_time ← raising (get_next cron None t);
        stopped ← waiting (act (λ s, let '(s', stopped) := wait (time_to_wait (m_world s) next_exec_time) s in (s', Ok stopped)));
        if stopped : bool then mret tt
        else
          _ ← trying (enqueue_decorated info next_exec_time) (λ e, if is_Exception e then Some (mret tt) else None);
          decorator_loop n info cron next_exec_time
  end.

Definition decorator_scheduler_loop (executions : nat) (info : workflow_info) (cron : string) : call W unit :=
  now ← waiting (act (gets (λ s, time_ms (m_world s))));
  _ ← raising (croniter cron None);
  decorator_loop executions info cron now.

(** The decorator: the function is refused, or its loop is registered as a poller. *)
Definition scheduled (cron : string) (info : workflow_info) : res pyexn (nat → call W unit) :=
  match croniter cron None with
  | Err e =>
      if is_Exception e
      then Err (ValueError ("Invalid crontab " +:+ quoted cron +:+ " for scheduled function function " +:+ wf_name info +:+ "."))
      else Err e
  | Ok _ => Ok (λ executions, decorator_scheduler_loop executions info cron)
  end.

End decorated.

(** ** What is meant *)

(** Between two databases no workflow goes away, and there is still an application version. *)
Definition nothing_lost (d d' : db) : Prop :=
  (∀ id, is_Some (workflow_status d !! id) → is_Some (workflow_status d' !! id)) ∧
  (application_versions d ≠ ∅ → application_versions d' ≠ ∅).

(** The execution of [info] at the time [t], as it is enqueued: the arguments are the time
    and the one the function was enqueued at. *)
Record decorated_row `{Codecs} {W} (serializer : Serializer) (info : workflow_info (W:=W)) (latest : string) (t now : Z)
    (r : workflow_status_row) : Prop := {
  dr_enqueued : ws_status r = ENQUEUED;
  dr_name : ws_name r = Some (wf_name info);
  dr_queue : ws_queue_name r = Some INTERNAL_QUEUE_NAME;
  dr_version : ws_application_version r = Some latest;
  dr_inputs : ∃ x n, serialize_args {| args := [PDatetime t; PDatetime now]; kwargs := [] |} (wf_serialization_type info) serializer = Ok (x, n) ∧
    ws_inputs r = Some x ∧ ws_serialization r = Some n;
}.

(** The first [n] times of the expression after [t]. *)
Fixpoint execution_times `{Cron} (cron : string) (n : nat) (t : Z) : res pyexn (list Z) :=
  match n with
  | O => Ok []
  | S n => match get_next cron None t with
           | Err e => Err e
           | Ok t' => match execution_times cron n t' with Ok ts => Ok (t' :: ts) | Err e => Err e end
           end
  end.

(** What the thread does to the database at the times [ts], others acting before each: a
    workflow that is there is left alone, one that is not is enqueued. *)
Inductive fires `{Codecs, Cron} {W} (serializer : Serializer) (info : workflow_info (W:=W)) : list Z → db → db → Prop :=
| fires_nil d : fires serializer info [] d d
| fires_there t ts d d1 d' : nothing_lost d d1 → is_Some (workflow_status d1 !! decorated_id (wf_name info) t) →
    fires serializer info ts d1 d' → fires serializer info (t :: ts) d d'
| fires_new t ts d d1 d' v now row : nothing_lost d d1 → workflow_status d1 !! decorated_id (wf_name info) t = None →
    get_latest_application_version d1 = Ok v → decorated_row serializer info (av_version_name v.2) t now row →
    fires serializer info ts (d1 <| workflow_status := <[decorated_id (wf_name info) t := row]> (workflow_status d1) |>) d' →
    fires serializer info (t :: ts) d d'.

(** ** Lemmas *)

#[export] Instance nothing_lost_preorder : PreOrder nothing_lost.
Proof. split; [by intros d; split|]. intros d1 d2 d3 [Hr1 Hv1] [Hr2 Hv2]. split; auto. Qed.

Lemma nothing_lost_insert d id row : nothing_lost d (d <| workflow_status := <[id := row]> (workflow_status d) |>).
Proof.
  split; [|done]. intros i Hi. simpl. destruct (decide (i = id)) as [->|]; [rewrite lookup_insert_eq; by eexists|by rewrite lookup_insert_ne].
Qed.

(** In the end every execution is there. *)
Lemma fires_all `{Codecs, Cron} {W} serializer (info : workflow_info (W:=W)) ts d d' : fires serializer info ts d d' →
  nothing_lost d d' ∧ ∀ t, t ∈ ts → is_Some (workflow_status d' !! decorated_id (wf_name info) t).
Proof.
  induction 1 as [d|t ts d d1 d' Hd Ht _ [IHd IH]|t ts d d1 d' v now row Hd Ht Hv Hrow _ [IHd IH]].
  - split; [done|]. by intros t ?%elem_of_nil.
  - split; [by etrans|]. intros t' [->|Hin]%elem_of_cons; [by apply IHd|by apply IH].
  - split; [etrans; [done|]; etrans; [apply nothing_lost_insert|done]|]. intros t' [->|Hin]%elem_of_cons; [|by apply IH].
    apply IHd. simpl. rewrite lookup_insert_eq. by eexists.
Qed.

Section decorated_lemmas.
Context {W : Type} `{Host W, Codecs, Cron} (serializer : Serializer) (executor_id app_id app_version : string).
Context (uuids : W → nat → string) (repr : string → string) (uniform : W → Q → Q).
Notation machine := (@machine W).
Context (wait : Q → machine → machine * bool) (stop_set : machine → bool) (info : workflow_info (W:=W)).
Notation enqueue_decorated := (enqueue_decorated serializer executor_id app_id app_version uuids repr info).
Notation decorator_loop n := (decorator_loop serializer executor_id app_id app_version uuids repr uniform wait stop_set n info).
Notation id_at := (decorated_id (wf_name info)).
Notation inputs_at t now := {| args := [PDatetime t; PDatetime now]; kwargs := [] |}.

Hypothesis plain : wf_class_name info = None.
Hypothesis writes : ∀ t now, is_ok (serialize_args (inputs_at t now) (wf_serialization_type info) serializer) = true.

Lemma decorated_id_valid t : validate_workflow_id repr (Some (id_at t)) = Ok tt.
Proof. done. Qed.

Lemma finish_latest (s : machine) v : get_latest_application_version (m_db s) = Ok v →
  finish (database (λ _, engine_begin (v ← query get_latest_application_version; lift_res v))) s = (s, Some (Ok v)).
Proof.
  intros Hv. rewrite finish_database. unfold engine_begin, query, mbind, SM_bind, lift_res. simpl. rewrite Hv. simpl. by destruct s as [[] ? ?].
Qed.

(** An execution whose workflow is there is left alone. *)
Lemma decorated_there t local (s : machine) : is_Some (workflow_status (m_db s) !! id_at t) →
  finish (enqueue_decorated t local) s = (s, Some (Ok (local, Ok tt))).
Proof.
  intros [r Hr]. unfold DecoratedSchedules.enqueue_decorated. cbv zeta. rewrite finish_call_bind, finish_waiting, finish_database.
  unfold get_workflow_status. rewrite Hr. cbn. by destruct s.
Qed.

(** The enqueue in the two blocks. *)
Lemma finish_decorated_enqueue t now latest (s : machine) :
  workflow_status (m_db s) !! id_at t = None →
  let ctx := (new_context executor_id app_id) <| cx_id_assigned_for_next_workflow := id_at t |> <| cx_is_within_set_workflow_id_block := true |> in
  ∃ row inner, finish (enqueue serializer executor_id app_id app_version uuids get_internal_queue info (inputs_at t now)
      (Some (with_setting (MkEnqueue None None (Some latest) None None) ctx))) s =
    (s <| m_db := (m_db s) <| workflow_status := <[id_at t := row]> (workflow_status (m_db s)) |> |>,
     Some (Ok (inner, Ok (polling_handle (id_at t))))) ∧ decorated_row serializer info latest t now row.
Proof.
  intros Hnew ctx0. pose proof (writes t now) as Hw. destruct (serialize_args (inputs_at t now) _ _) as [[x n]|] eqn:Hx; [clear Hw|done].
  unfold Debouncing.enqueue. rewrite finish_call_bind. cbn [local_dbos_context finish mret process_ret].
  rewrite finish_call_bind, finish_raising. set (ctx := with_setting _ ctx0). change (validate_enqueue get_internal_queue (Some ctx)) with (Ok (E:=pyexn) tt).
  rewrite finish_call_bind, finish_waiting, finish_act. cbn [gets fst snd]. set (w := m_world s).
  set (child := (new_context executor_id app_id) <| cx_id_assigned_for_next_workflow := id_at t |> <| cx_is_within_set_workflow_id_block := true |>).
  assert (create_start_workflow_child executor_id app_id (uuids w 0) (Some ctx) =
    Ok (Some (ctx <| cx_id_assigned_for_next_workflow := "" |>), child)) as Hchild by reflexivity.
  unfold Execution.start_workflow. rewrite Hchild, finish_waiting, finish_bind, finish_act. cbn [gets fst snd]. rewrite finish_bind.
  change (has_parent child) with false. cbv iota. cbn [finish mret process_ret mbind option_bind nonempty].
  change (cx_id_assigned_for_next_workflow child) with (id_at t). rewrite finish_bind.
  change (cx_workflow_timeout_ms ctx) with (@None Z).
  change (get_timeout_deadline (time_ms (m_world s)) (Some ctx) (Some (q_name get_internal_queue))).2 with (@None Z).
  erewrite finish_init_workflow; [|done|reflexivity| |done|done].
  2: { rewrite plain. cbn [drop_receiver truthy].
       transitivity (serialize_args (inputs_at t now) (wf_serialization_type info) serializer); [by destruct (wf_serialization_type info) as [[]|]|exact Hx]. }
  cbv beta iota. eexists _, _. split; [reflexivity|]. split; try reflexivity. exists x, n. by split_and!.
Qed.

Lemma decorated_new t (s : machine) v :
  get_latest_application_version (m_db s) = Ok v → workflow_status (m_db s) !! id_at t = None →
  ∃ row, finish (enqueue_decorated t None) s =
    (s <| m_db := (m_db s) <| workflow_status := <[id_at t := row]> (workflow_status (m_db s)) |> |>, Some (Ok (None, Ok tt))) ∧
    decorated_row serializer info (av_version_name v.2) t (time_ms (m_world s)) row.
Proof.
  intros Hv Hnew. destruct (finish_decorated_enqueue t (time_ms (m_world s)) (av_version_name v.2) s Hnew) as (row & inner & Hf & Hrow).
  exists row. split; [|done]. unfold DecoratedSchedules.enqueue_decorated. cbv zeta.
  rewrite finish_call_bind, finish_waiting, finish_database. unfold get_workflow_status at 1 2. rewrite Hnew. cbn [fst snd fmap option_fmap option_map].
  rewrite machine_same_db, finish_call_bind, finish_waiting, (finish_latest s v Hv). unfold within_workflow_id.
  rewrite decorated_id_valid. rewrite finish_bind, finish_within_settings. cbv zeta. cbn [default].
  rewrite finish_call_bind, finish_waiting, finish_act. cbn [gets fst snd].
  rewrite finish_call_bind. cbn [from_option id]. rewrite Hf. reflexivity.
Qed.

Hypothesis goes_on : ∀ s, stop_set s = false ∧ ∀ q, (wait q s).2 = false ∧ nothing_lost (m_db s) (m_db (wait q s).1).

Lemma decorator_loop_fires n cron t ts (s : machine) :
  execution_times cron n t = Ok ts → application_versions (m_db s) ≠ ∅ →
  ∃ s', finish (decorator_loop n cron t None) s = (s', None) ∧ fires serializer info ts (m_db s) (m_db s').
Proof.
  revert t ts s. induction n as [|n IH]; intros t ts s Hts Hv; [injection Hts as <-; exists s; split; [done|constructor]|].
  cbn [execution_times] in Hts. destruct (get_next cron None t) as [t'|] eqn:Ht; [|done].
  destruct (execution_times cron n t') as [ts'|] eqn:Hts'; [|done]. injection Hts as <-.
  cbn [DecoratedSchedules.decorator_loop]. destruct (goes_on s) as [Hstop Hwait].
  rewrite finish_call_bind, finish_waiting, finish_act. cbn [gets fst snd]. rewrite Hstop.
  rewrite finish_call_bind, finish_raising, Ht. rewrite finish_call_bind, finish_waiting, finish_act.
  destruct (Hwait (time_to_wait uniform (m_world s) t')) as [Hgo Hlost]. destruct (wait _ s) as [s1 b]. cbn [fst snd] in *. subst b.
  rewrite finish_call_bind, finish_trying. pose proof (proj2 Hlost Hv) as Hv1. destruct (latest_version _ Hv1) as [v Hlatest].
  destruct (workflow_status (m_db s1) !! id_at t') as [r|] eqn:Hr.
  - rewrite decorated_there by (rewrite Hr; by eexists). cbn [fst snd].
    destruct (IH t' ts' s1 Hts' Hv1) as (s' & Hf & Hfires). exists s'. split; [exact Hf|]. eapply fires_there; [done|by exists r|done].
  - destruct (decorated_new t' s1 v Hlatest Hr) as (row & -> & Hrow).
    set (s2 := s1 <| m_db := _ |>). destruct (IH t' ts' s2 Hts' Hv1) as (s' & Hf & Hfires).
    exists s'. split; [exact Hf|]. by eapply fires_new.
Qed.

End decorated_lemmas.

(** ** Properties *)

(** C37: the thread of a decorated schedule enqueues each of its executions once. As long as
    it is not stopped and others lose no workflow, its loop goes on, and at each time of the
    cron expression leaves the workflow of that time alone if there is one (another
    process's, enqueued, running or ended) and otherwise enqueues it on the internal queue
    for the latest version of the application, with the time as its argument; in the end
    every execution is there. *)
Theorem decorated_schedule_fires {W : Type} `{Host W, Codecs, Cron} (serializer : Serializer)
    (executor_id app_id app_version : string) (uuids : W → nat → string) (repr : string → string) (uniform : W → Q → Q)
    (wait : Q → machine (W:=W) → machine * bool) (stop_set : machine → bool) (info : workflow_info (W:=W))
    (cron : string) (n : nat) (ts : list Z) (s : machine) :
  wf_class_name info = None →
  (∀ t now, is_ok (serialize_args {| args := [PDatetime t; PDatetime now]; kwargs := [] |} (wf_serialization_type info) serializer) = true) →
  (∀ s, stop_set s = false ∧ ∀ q, (wait q s).2 = false ∧ nothing_lost (m_db s) (m_db (wait q s).1)) →
  application_versions (m_db s) ≠ ∅ → croniter cron None = Ok tt → execution_times cron n (time_ms (m_world s)) = Ok ts →
  ∃ loop s', scheduled serializer executor_id app_id app_version uuids repr uniform wait stop_set cron info = Ok loop ∧
    finish (loop n None) s = (s', None) ∧ fires serializer info ts (m_db s) (m_db s') ∧
    ∀ t, t ∈ ts → is_Some (workflow_status (m_db s') !! decorated_id (wf_name info) t).
Proof.
  intros Hplain Hw Hgo Hv Hcron Hts. unfold scheduled. rewrite Hcron. eexists. 
  destruct (decorator_loop_fires serializer executor_id app_id app_version uuids repr uniform wait stop_set info Hplain Hw Hgo n cron _ ts s Hts Hv)
    as (s' & Hf & Hfires). exists s'. split; [done|]. split; [|split; [done|by eapply fires_all]].
  unfold decorator_scheduler_loop. rewrite finish_call_bind, finish_waiting, finish_act. cbn [gets fst snd].
  by rewrite finish_call_bind, finish_raising, Hcron.
Qed.

#[local] Existing Instances sample_codecs sample_cron.

(** Another process enqueues the execution at 20 while the thread waits. *)
Lemma decorated_schedule_fires_witness :
  let others (q : Q) (s : machine (W:=mailbox)) :=
    (s <| m_db := (m_db s) <| workflow_status := <["sched-wf-20" := sample_row "sched-wf-20" SUCCESS]> (workflow_status (m_db s)) |> |>, false) in
  let s := Machine (sample_schedules []) (Mailbox 5 []) ∅ in
  ∃ loop s', scheduled schedule_serializer "exec" "app" "v1" (λ _ _, "u") (λ x, x) (λ _ q, q) others (λ _, false) "*" letters = Ok loop ∧
    finish (loop 3 None) s = (s', None) ∧ fires schedule_serializer letters [10; 20; 30]%Z (m_db s) (m_db s') ∧
    ∀ t, t ∈ [10; 20; 30]%Z → is_Some (workflow_status (m_db s') !! decorated_id "wf" t).
Proof.
  intros others s.
  refine (@decorated_schedule_fires mailbox mailbox_host sample_codecs sample_cron schedule_serializer "exec" "app" "v1" (λ _ _, "u")
    (λ x, x) (λ _ q, q) others (λ _, false) letters "*" 3 [10; 20; 30]%Z s eq_refl _ _ _ eq_refl eq_refl).
  - intros t now. reflexivity.
  - intros s1. split; [reflexivity|]. intros q. split; [reflexivity|]. apply nothing_lost_insert.
  - discriminate.
Defined.
